(* ===== verification/_CoqProject ===== *)
-Q . S2P
Prelude.v
Types.v
Wire.v
Options.v
Platform.v
Lease.v
Output.v
Lifecycle.v
World.v
Invariant.v
LeaseTable.v
TableFacts.v
Queries.v
Timers.v
Input.v
Api.v
Handlers.v
Machine.v
Dhcpc.v
System.v
Events.v
Contracts.v
Specification.v
Refinement.v
Simulation.v
Scenarios.v
Threads.v
ThreadOps.v
ThreadLogic.v
ThreadSafety.v
ThreadStart.v
ThreadEnd.v
Pool.v
Interleaving.v
Races.v
Samples.v
SampleRuns.v
ThreadRuns.v
