(* ===== verification/Prelude.v ===== *)
(** * dmdhcp: a verified model of the DHCPv4 client library

    dmdhcp is a DHCP client written as a dmod module in C.  An application
    starts a lease on a network interface ([dmdhcp_start]) and hears about it
    through three callbacks; the module broadcasts DISCOVER, learns an OFFER,
    probes the address for a conflict with ARP, sends REQUEST, learns the ACK,
    probes again, configures the interface, renews the lease at T1, rebinds it
    at T2, and undoes it when it is lost.  This library models all of its C
    code, function by function, and proves what makes it correct.

    ** The program and its model

    Source files are under [src/]; a definition has the name of the function
    it translates.

    - [src/dmdhcp_wire.c] - Wire.v: the 236-octet BOOTP header and its cookie
      ([dmdhcp_build_message], [dmdhcp_parse_message]).
    - [src/dmdhcp_options.c] - Options.v: the TLV options and their decoders.
    - [include/dmdhcp.h] - Types.v: enumerations, records, constants, [errno].
    - [src/dmdhcp_internal.h] - Lease.v: [struct dmdhcp_lease], field for
      field, as the record [lease].
    - [src/dmdhcp_output.c] - Output.v: the seven messages, the entry of each
      phase, the retransmission backoff; Timers.v: the conflict probe and
      [retransmit_timer_callback].
    - [src/dmdhcp_lifecycle.c] - Lifecycle.v: applying a lease to the
      interface, undoing that, arming T1, T2 and expiry; Timers.v:
      [lease_timer_callback] and the loss of a lease.
    - [src/dmdhcp_input.c] - Input.v: what a lease learns from an OFFER or
      ACK, and [dmdhcp_handle_datagram].
    - [src/dmdhcp_lease_table.c] - LeaseTable.v: the table and its mutex,
      creation and destruction of a lease, the accessors and the visitors;
      with the two provider functions of [src/dmdhcp_registrations.c].
    - [src/dmdhcp.c] - Api.v: the public operations, [dmod_init] and
      [dmod_deinit].
    - [tools/dhcpc/src/dhcpc.c] - Dhcpc.v: the command that starts a lease.

    Three kinds of computation, over the state monad with failure [st] below;
    failure, [None], is always undefined behaviour, never an error return:

    - a codec is a function to [option] on checked octet lists: an access
      outside the buffer is [None];
    - a function that works on one lease under its lock is a [lop], over that
      lease and the platform ([LCtx], Lease.v);
    - anything else is an [M], over the [world] (World.v): the heap of live
      leases by address, the two statics [g_leases] and [g_leases_mutex], and
      the platform.  Dereferencing a freed lease is [None].  [with_lease] runs
      a [lop] on a lease of the heap.

    The platform (Platform.v) is every function of another module.  A call is
    an event that joins the trace; what it answers is a function of the calls
    made before it and of the call, the class [Env], so a theorem over [Env]
    holds for any clock, any ARP table, any failure of [malloc] or of the
    network.  [EnvOk] has the documented facts relied upon (a random number
    is 32 bits wide, an allocated block has its size, a hardware address has
    its length), and [quiet_env], [conflict_env] and [sample_env] are
    instances.  [DmList] is the list module with its laws [DmListLaws],
    [list_dmlist] an instance.  What the code owes the platform is monitored:
    locking a held mutex, releasing a free one, destroying a timer whose
    callback runs, using or freeing a lease that was freed are all undefined
    behaviour.  Other blocks are counted: [Dmod_Free] takes one off the account
    ([blocks]), and the invariant says that the account of blocks and lists is
    exactly what the live leases own, so a block freed twice or never shows.

    The application is the class [Client]: what each callback does, as an [M].
    [ClientOk] (Invariant.v) is what it owes: called with no lock held, it
    leaves the invariant and the lease it was told about.  Every theorem on
    events holds for any such application, but two: that the module implements
    its specification, and the bounds on its leases that follow, are stated for
    [ClientActs] (Refinement.v), an application whose callbacks change leases
    only by calling the public API - on this lease or another, and starting
    new ones - because the specification says what those calls do.
    [silent_client] does nothing; [reentrant_client] (Events.v) reads and
    renews its lease and replaces its callbacks from inside them; both are
    [ClientActs].  Among threads the application
    is a program too, the class [App], which owes [AppOk] (ThreadSafety.v) and
    is a [Client] when no other thread runs ([app_client]).

    ** Reading the library

    Prelude.v (machine integers, checked memory, the monad and its [wp]), then
    the files above, then what is proved of the whole:

    - Invariant.v: the module invariant [Inv] and the rules that carry it
      through a handler; TableFacts.v: what the table operations do;
      Queries.v: the read-only operations.
    - Handlers.v: each branch of each handler, exactly, as the lease and the
      calls it leaves.
    - Contracts.v: what each public operation promises its caller.
    - System.v, Events.v: loading and unloading; the events that drive the
      module and the worlds they reach ([loaded]).
    - Machine.v: the abstract client of RFC 2131: an [agent] has an interface,
      a transaction id, an address, a phase, two counters and its callbacks, no
      octets, buffers, handles or timers.  Specification.v: the system of all
      agents, [spec_step]: what each event does to them and which notifications
      it makes, the calls the application answers with included.  A datagram
      is dropped only when no agent has its interface and transaction id, the
      probe fails exactly when ARP answered, a start is refused for one of
      three reasons.  Left open: the transaction ids drawn and the address of
      a new agent.  Refinement.v, Simulation.v: every event implements it.
    - Scenarios.v: handlers composed.
    - Threads.v, ThreadOps.v: programs as trees of atomic actions and mutex
      operations, pools of threads, and every operation cut into steps: [f_t]
      is the thread of the operation [f].
    - ThreadLogic.v: a rely-guarantee logic for one thread among others;
      ThreadSafety.v, ThreadStart.v, ThreadEnd.v: the outline of every thread
      in it, of those that start a lease and of those that end one.
    - Pool.v, Interleaving.v: pools of such threads, in any order; Races.v:
      what the mutexes do not order, as schedules.
    - Samples.v, SampleRuns.v, ThreadRuns.v: a concrete conversation with real
      datagrams, and every theorem with hypotheses applied in it.

    ** What is proved

    - Codecs: the exact result of building and parsing a message, of writing
      and finding options, on every buffer and every branch, errors included;
      no function touches an octet outside its buffer; parsing what was built
      and finding what was written give it back.
    - Messages: each of the seven messages, as a server would parse it, has
      the fields and options of RFC 2131, table 5.
    - One lease: what it learns from a reply, the exact calls that configure
      the interface and undo that, the retransmission intervals, the three
      deadlines and where their 32-bit arithmetic wraps.
    - Handlers: exact runs of the replies, the probes, conflicts, deadlines,
      loss and retransmission; three ways to restart discovery are one.
    - Contracts: refused handles, accessors, [dmdhcp_start] on every outcome,
      the end of a lease, which lease a datagram reaches, the snapshot of NTP
      servers and the two discovery interfaces.
    - The module: from every world it can reach, every event runs to its end
      without undefined behaviour and keeps the invariant; every lease is
      typed, live and sane; unloading frees everything; the module implements
      the abstract system; and a lease whose server answers becomes bound.
    - Threads: a thread that runs alone is the sequential operation; any number
      of operations, one per thread, interleaved in any order, are never
      undefined and keep the invariant, do not deadlock, all finish, and leave
      the module at rest with at most one lease per interface.  A thread may
      end a lease as long as no other concerns that lease ([undisturbed]); it
      ends that one and no other, at whatever point the others are.  Three
      schedules show why that is needed: a lease ended while another thread has
      it in hand is locked after it was freed ([stop_races_datagram]), has its
      destroyed timer armed ([stop_races_lease_timer]), or is applied after it
      was unapplied ([stop_races_probe]).
    - Where the code departs from its documentation or from what it means to
      do, a theorem states what it does (for instance
      [stop_from_callback_undefined], [default_t2_wraps],
      [reapply_forgets_route]).

    ** Fuel and bounds

    Every definition is executable.  [options_find_loop] is fuelled by the
    length of the options area, of which every step consumes at least one
    octet: [options_find_exact] shows that it never runs out.  [pop_all] and
    [ntp_servers_loop] get one step more than the size of the list they walk;
    [deinit_loop] the size of the table; [broadcast_loop] the four octets of
    an address.  No property has a hypothesis on fuel.  A [uintN_t] is a [Z]
    reduced where C reduces it.

    ** Not modelled

    - Interleavings inside an action.  A thread is interrupted between any two
      statements of a handler or of an API function; a function it calls on
      the lease whose lock it holds, the creation of a lease no other thread
      knows and the destruction of one taken out of the table are single
      actions; [dmdhcp_stop_cut] has the destruction cut into its statements,
      for the race that needs it.  [compare_by_xid] reads the [xid] of a lease under the table's
      mutex only, a data race in C: it reads the value of some step here.
    - Pools do not track which timer a callback runs on: the wait of
      [dmosi_timer_destroy] for a running callback is monitored in the
      sequential model only, and no race here depends on it.
    - An application that destroys a lease from a callback about it is outside
      [ClientOk]: [stop_from_callback_undefined] shows why.
    - A datagram handler called with a NULL payload (the payload is a list of
      octets).  A [size_t] is a [nat], without wrap-around; where the code
      returns one as an [int] the result is reduced by [i32].
    - The other dmod modules, which are parameters; the registration macros
      and generated API tables; logging; the layout and padding of C
      structures (their sizes are parameters); the tests and build files. *)
From Stdlib Require Export ZArith Lia.
From stdpp Require Export list gmap option.

Declare Scope dhcp_scope.
Delimit Scope dhcp_scope with dhcp.
#[global] Open Scope Z_scope.

(** ** Machine integers

    A [uintN_t] is a [Z]; a cast or an arithmetic result is reduced
    explicitly where the C code reduces it. *)
Definition u8 (z : Z) : Z := z `mod` 256.
Definition u16 (z : Z) : Z := z `mod` 65536.
Definition u32 (z : Z) : Z := z `mod` 4294967296.

(** An [int]: the value modulo 2^32, two's complement *)
Definition i32 (z : Z) : Z := if u32 z <? 2147483648 then u32 z else u32 z - 4294967296.

Definition is_u8 (z : Z) : Prop := 0 <= z < 256.
Definition is_u16 (z : Z) : Prop := 0 <= z < 65536.
Definition is_u32 (z : Z) : Prop := 0 <= z < 4294967296.

(** ** Checked memory

    A buffer is the list of the bytes reachable from its pointer.  An access
    outside it is undefined behaviour: [None]. *)
Definition rd (buf : list Z) (i : nat) : option Z := buf !! i.

Definition wr (buf : list Z) (i : nat) (v : Z) : option (list Z) :=
  if (i <? length buf)%nat then Some (<[i := v]> buf) else None.

(** [memcpy(&buf[pos], src, length src)] *)
Definition mem_write (buf : list Z) (pos : nat) (src : list Z) : option (list Z) :=
  if (pos + length src <=? length buf)%nat
  then Some (take pos buf ++ src ++ drop (pos + length src) buf)
  else None.

(** The [n] bytes a [memcpy] reads from [&buf[pos]] *)
Definition mem_read (buf : list Z) (pos n : nat) : option (list Z) :=
  if (pos + n <=? length buf)%nat then Some (take n (drop pos buf)) else None.

(** [memset(buf, v, n)] *)
Definition mem_set (buf : list Z) (v : Z) (n : nat) : option (list Z) :=
  mem_write buf 0 (replicate n v).

(** ** A state monad with undefined behaviour

    [st S A] is a computation over the state [S]; [None] is undefined
    behaviour (a dangling pointer, a buffer overrun, a self-deadlock ...). *)
Definition st (S A : Type) : Type := S → option (A * S).

#[global] Instance st_ret {S} : MRet (st S) := λ A a s, Some (a, s).
#[global] Instance st_bind {S} : MBind (st S) := λ A B f m s,
  match m s with
  | Some (a, s') => f a s'
  | None => None
  end.

Definition st_get {S} : st S S := λ s, Some (s, s).
Definition st_put {S} (s' : S) : st S unit := λ _, Some (tt, s').
Definition st_modify {S} (f : S → S) : st S unit := λ s, Some (tt, f s).
Definition ub {S A} : st S A := λ _, None.
Definition st_opt {S A} (o : option A) : st S A := λ s,
  match o with
  | Some a => Some (a, s)
  | None => None
  end.
Definition st_when {S} (b : bool) (m : st S unit) : st S unit :=
  if b then m else mret tt.

(** [wp m Q s]: from [s], [m] runs without undefined behaviour, returns, and
    its result and final state satisfy [Q]. *)
Definition wp {S A} (m : st S A) (Q : A → S → Prop) (s : S) : Prop :=
  match m s with
  | Some (a, s') => Q a s'
  | None => False
  end.

(** ** Hint databases and tactics *)
Create HintDb dhcp.
Create HintDb dhcp_rw.
Create HintDb threads.

(** Case analysis on the next [if] or [match] of the goal, remembering the
    equation and discarding the impossible cases. *)
Ltac case_next :=
  case_match; simplify_eq/=; try done; try lia.

(** Split a list whose length is a numeral into its elements. *)
Ltac explode l :=
  lazymatch goal with
  | H : length l = _ |- _ =>
      repeat (let x := fresh "b" in destruct l as [|x l]; [discriminate H|]);
      destruct l; [clear H|discriminate H]
  end.

(** A list of a given small length is the list of its elements, and a long
    enough list splits at any position. *)
Lemma length4 {A} (l : list A) : length l = 4%nat → ∃ a b c d, l = [a; b; c; d].
Proof. intros. explode l. eauto. Qed.

Lemma length16 {A} (l : list A) :
  length l = 16%nat →
  ∃ a0 a1 a2 a3 a4 a5 a6 a7 a8 a9 a10 a11 a12 a13 a14 a15,
    l = [a0; a1; a2; a3; a4; a5; a6; a7; a8; a9; a10; a11; a12; a13; a14; a15].
Proof. intros. explode l. eauto 20. Qed.

Lemma split_at {A} (n : nat) (l : list A) :
  (n ≤ length l)%nat → ∃ a b, l = a ++ b ∧ length a = n.
Proof.
  intros. exists (take n l), (drop n l). rewrite take_drop, length_take. split; [done|lia].
Qed.

(** ** Integer lemmas *)
Lemma u8_id z : is_u8 z → u8 z = z.
Proof. intros H. apply Z.mod_small, H. Qed.

Lemma u16_id z : is_u16 z → u16 z = z.
Proof. intros H. apply Z.mod_small, H. Qed.

Lemma u32_id z : is_u32 z → u32 z = z.
Proof. intros H. apply Z.mod_small, H. Qed.

Lemma i32_id z : 0 <= z <= 2147483647 → i32 z = z.
Proof.
  intros Hz. unfold i32. rewrite u32_id by (unfold is_u32; lia).
  by rewrite (proj2 (Z.ltb_lt z 2147483648)) by lia.
Qed.

Lemma u8_range z : is_u8 (u8 z).
Proof. apply Z.mod_pos_bound. lia. Qed.

Lemma u16_range z : is_u16 (u16 z).
Proof. apply Z.mod_pos_bound. lia. Qed.

Lemma u32_range z : is_u32 (u32 z).
Proof. apply Z.mod_pos_bound. lia. Qed.

#[export] Hint Resolve u8_range u16_range u32_range : dhcp.

Lemma lor_shiftl_add a n b :
  0 ≤ n → 0 ≤ b < 2 ^ n → Z.lor (Z.shiftl a n) b = a * 2 ^ n + b.
Proof.
  intros Hn Hb.
  assert (Hl : Z.land (Z.shiftl a n) b = 0).
  { apply Z.bits_inj'. intros i Hi. rewrite Z.land_spec, Z.bits_0.
    destruct (Z.ltb_spec i n).
    - rewrite Z.shiftl_spec_low by lia. done.
    - rewrite <- (Z.mod_small b (2 ^ n)) by lia.
      rewrite Z.mod_pow2_bits_high by lia. apply andb_false_r. }
  pose proof (Z.add_lor_land (Z.shiftl a n) b) as H.
  rewrite Z.shiftl_mul_pow2 in * by lia. lia.
Qed.

(** Reading a big-endian word back from its octets *)
Lemma be16_value a b :
  is_u8 a → is_u8 b → u16 (Z.lor (Z.shiftl a 8) b) = a * 256 + b.
Proof.
  unfold is_u8. intros Ha Hb. rewrite lor_shiftl_add by lia.
  change (2 ^ 8) with 256. apply u16_id. unfold is_u16. lia.
Qed.

Lemma be32_value a b c d :
  is_u8 a → is_u8 b → is_u8 c → is_u8 d →
  u32 (Z.lor (Z.lor (Z.lor (Z.shiftl a 24) (Z.shiftl b 16)) (Z.shiftl c 8)) d)
  = a * 16777216 + b * 65536 + c * 256 + d.
Proof.
  unfold is_u8. intros Ha Hb Hc Hd. rewrite <- !Z.lor_assoc.
  rewrite (lor_shiftl_add c 8) by lia.
  rewrite (lor_shiftl_add b 16) by lia.
  rewrite (lor_shiftl_add a 24) by lia.
  change (2 ^ 8) with 256. change (2 ^ 16) with 65536. change (2 ^ 24) with 16777216.
  rewrite u32_id; [lia|]. unfold is_u32. lia.
Qed.

Lemma u16_split v : is_u16 v → u8 (v `div` 256) * 256 + u8 v = v.
Proof. unfold is_u16, u8. intros. Z.div_mod_to_equations. lia. Qed.

Lemma u32_split v :
  is_u32 v →
  u8 (v `div` 16777216) * 16777216 + u8 (v `div` 65536) * 65536 + u8 (v `div` 256) * 256 + u8 v = v.
Proof.
  unfold is_u32, u8. intros.
  change 16777216 with (256 * 65536). change 65536 with (256 * 256).
  rewrite <- !Z.div_div by lia. Z.div_mod_to_equations. lia.
Qed.

Lemma u8_land v : u8 (Z.land v 0xFF) = u8 v.
Proof.
  unfold u8. change 0xFF with (Z.ones 8). rewrite Z.land_ones by lia.
  apply Z.mod_mod. lia.
Qed.

Lemma u8_shiftr v n : 0 ≤ n → u8 (Z.shiftr v n) = u8 (v `div` 2 ^ n).
Proof. intros. by rewrite Z.shiftr_div_pow2. Qed.

(** ** Checked-memory lemmas *)
Lemma mem_write_app pre old src rest :
  length old = length src →
  mem_write (pre ++ old ++ rest) (length pre) src = Some (pre ++ src ++ rest).
Proof.
  intros Hl. unfold mem_write. rewrite !length_app, Hl.
  destruct (Nat.leb_spec (length pre + length src) (length pre + (length src + length rest))); [|lia].
  rewrite take_app_length, <- Hl, (app_assoc pre old rest).
  by rewrite (drop_app_length' (pre ++ old)) by (by rewrite length_app).
Qed.

Lemma mem_read_app pre bs rest :
  mem_read (pre ++ bs ++ rest) (length pre) (length bs) = Some bs.
Proof.
  unfold mem_read. rewrite !length_app.
  destruct (Nat.leb_spec (length pre + length bs) (length pre + (length bs + length rest))); [|lia].
  by rewrite drop_app_length, take_app_length.
Qed.

Lemma mem_read_Some buf pos n bs :
  mem_read buf pos n = Some bs → length bs = n ∧ (pos + n ≤ length buf)%nat.
Proof.
  unfold mem_read. destruct (Nat.leb_spec (pos + n) (length buf)); intros; simplify_eq.
  rewrite length_take, length_drop. lia.
Qed.

Lemma mem_set_ok buf v n :
  (n ≤ length buf)%nat → mem_set buf v n = Some (replicate n v ++ drop n buf).
Proof.
  intros Hn. unfold mem_set, mem_write. rewrite length_replicate. simpl.
  destruct (Nat.leb_spec n (length buf)); [done|lia].
Qed.

(** ** The monad laws as rewriting and [wp] rules *)
Lemma bind_Some {S A B} (m : st S A) (f : A → st S B) s a s' :
  m s = Some (a, s') → (m ≫= f) s = f a s'.
Proof. unfold mbind, st_bind. by intros ->. Qed.

Lemma st_opt_bind {S A B} (a : A) (f : A → st S B) s : (st_opt (Some a) ≫= f) s = f a s.
Proof. done. Qed.

Lemma wp_ret {S A} (a : A) (Q : A → S → Prop) s : Q a s → wp (mret a) Q s.
Proof. done. Qed.

Lemma wp_bind {S A B} (m : st S A) (f : A → st S B) Q s :
  wp m (λ a s', wp (f a) Q s') s → wp (m ≫= f) Q s.
Proof. unfold wp, mbind, st_bind. by destruct (m s) as [[a s']|]. Qed.

Lemma wp_mono {S A} (m : st S A) (P Q : A → S → Prop) s :
  (∀ a s', P a s' → Q a s') → wp m P s → wp m Q s.
Proof. unfold wp. destruct (m s) as [[a s']|]; eauto. Qed.

Lemma wp_run {S A} (m : st S A) Q s :
  wp m Q s ↔ ∃ a s', m s = Some (a, s') ∧ Q a s'.
Proof.
  unfold wp. destruct (m s) as [[a s']|].
  - split; [eauto|]. intros (a' & t & ? & ?). by simplify_eq.
  - split; [done|]. by intros (? & ? & ? & _).
Qed.

Lemma wp_and {S A} (m : st S A) (P Q : A → S → Prop) s :
  wp m P s → wp m Q s → wp m (λ a s', P a s' ∧ Q a s') s.
Proof. unfold wp. destruct (m s) as [[a s']|]; auto. Qed.

(** Writes below position [n] leave the length and the tail alone. *)
Definition tail_same (n : nat) (b b' : list Z) : Prop :=
  length b' = length b ∧ drop n b' = drop n b.

#[export] Instance tail_same_preorder n : PreOrder (tail_same n).
Proof.
  split; [done|]. intros b1 b2 b3 [H1 H2] [H3 H4]. split; congruence.
Qed.

Lemma wr_tail n b0 b i v :
  (n ≤ length b0)%nat → tail_same n b0 b → (i < n)%nat →
  ∃ b', wr b i v = Some b' ∧ tail_same n b0 b'.
Proof.
  intros Hn [Hl Hd] Hi. exists (<[i:=v]> b). unfold wr.
  destruct (Nat.ltb_spec i (length b)); [|lia].
  split; [done|]. split; [by rewrite length_insert|]. by rewrite drop_insert_lt.
Qed.

Lemma mem_write_tail n b0 b i src :
  (n ≤ length b0)%nat → tail_same n b0 b → (i + length src ≤ n)%nat →
  ∃ b', mem_write b i src = Some b' ∧ tail_same n b0 b'.
Proof.
  intros Hn [Hl Hd] Hi. unfold mem_write.
  destruct (Nat.leb_spec (i + length src) (length b)); [|lia].
  eexists; split; [done|]. split.
  - rewrite !length_app, length_take, length_drop. lia.
  - rewrite <- Hd, (app_assoc (take i b)), drop_app_ge by (rewrite length_app, length_take; lia).
    rewrite drop_drop. f_equal. rewrite length_app, length_take. lia.
Qed.

(** Any octets are the big-endian form of a word. *)
Lemma be16_exists a b :
  is_u8 a → is_u8 b → ∃ v, is_u16 v ∧ u8 (v `div` 256) = a ∧ u8 v = b.
Proof.
  unfold is_u8, is_u16, u8. intros. exists (a * 256 + b).
  split; [lia|]. split; Z.div_mod_to_equations; lia.
Qed.

Lemma be32_exists a b c d :
  is_u8 a → is_u8 b → is_u8 c → is_u8 d →
  ∃ v, is_u32 v ∧ u8 (v `div` 16777216) = a ∧ u8 (v `div` 65536) = b ∧
       u8 (v `div` 256) = c ∧ u8 v = d.
Proof.
  unfold is_u8, is_u32, u8. intros.
  exists (((a * 256 + b) * 256 + c) * 256 + d).
  change 16777216 with (256 * (256 * 256)). change 65536 with (256 * 256).
  rewrite <- !Z.div_div by lia.
  split; [lia|]. repeat split; Z.div_mod_to_equations; lia.
Qed.

(** Accesses right after a prefix *)
Lemma rd_app pre x rest : rd (pre ++ x :: rest) (length pre) = Some x.
Proof. unfold rd. by rewrite lookup_app_r, Nat.sub_diag by lia. Qed.

Lemma rd_app_at pre x rest n : n = length pre → rd (pre ++ x :: rest) n = Some x.
Proof. intros ->. apply rd_app. Qed.

Lemma wr_app pre x rest v : wr (pre ++ x :: rest) (length pre) v = Some (pre ++ v :: rest).
Proof.
  unfold wr. rewrite length_app. simpl.
  destruct (Nat.ltb_spec (length pre) (length pre + S (length rest))); [|lia].
  by rewrite insert_app_r_alt, Nat.sub_diag by lia.
Qed.

Lemma wr_app_at pre x rest v n :
  n = length pre → wr (pre ++ x :: rest) n v = Some (pre ++ v :: rest).
Proof. intros ->. apply wr_app. Qed.

Lemma mem_write_app_at pre old src n :
  n = length pre → (length src ≤ length old)%nat →
  mem_write (pre ++ old) n src = Some (pre ++ src ++ drop (length src) old).
Proof.
  intros -> Hl. rewrite <- (take_drop (length src) old) at 1.
  apply mem_write_app. rewrite length_take. lia.
Qed.

Lemma mem_read_take buf n : (n ≤ length buf)%nat → mem_read buf 0 n = Some (take n buf).
Proof.
  intros Hn. unfold mem_read. simpl. destruct (Nat.leb_spec n (length buf)); [done|lia].
Qed.

(** ** Field updates

    [mk_set eta proj] builds the function replacing one field of a record,
    from [eta], the record rebuilt from its projections. *)
Ltac mk_set eta proj :=
  let e := eval cbv delta [eta] in eta in
  lazymatch eval pattern proj in e with
  | ?g _ =>
      let f := eval cbv beta in (λ v, g (λ _, v)) in
      exact f
  end.
