(* ===== verification/Types.v ===== *)
(** The data types and constants of the public header [include/dmdhcp.h],
    the address type it takes from dmroute, and the [errno] values the code
    returns (negated). *)
From S2P Require Import Prelude.

(** ** [errno] *)
Definition ENOENT : Z := 2.
Definition ENOMEM : Z := 12.
Definition EEXIST : Z := 17.
Definition ENODEV : Z := 19.
Definition EINVAL : Z := 22.
Definition ENOSPC : Z := 28.
Definition EPROTO : Z := 71.
Definition EADDRINUSE : Z := 98.
Definition EALREADY : Z := 114.

(** ** Addresses (dmroute)

    [addr.v4] is the byte array of the union the code reads and writes; the
    IPv6 member is never touched. *)
Inductive dmroute_family_t : Set :=
  | dmroute_family_none
  | dmroute_family_v4
  | dmroute_family_v6.

#[export] Instance dmroute_family_eq_dec : EqDecision dmroute_family_t.
Proof. solve_decision. Defined.

Record dmroute_addr_t : Set := Addr {
  family : dmroute_family_t;
  v4 : list Z;
}.

#[export] Instance dmroute_addr_eq_dec : EqDecision dmroute_addr_t.
Proof. solve_decision. Defined.

Definition DMROUTE_IPV4_ADDR_LEN : nat := 4.

Definition v4_zero : list Z := replicate DMROUTE_IPV4_ADDR_LEN 0.

(** [(dmroute_addr_t){ .family = dmroute_family_none }] *)
Definition addr_none : dmroute_addr_t := Addr dmroute_family_none v4_zero.

Definition is_v4 (a : dmroute_addr_t) : bool :=
  bool_decide (family a = dmroute_family_v4).

(** A [dmroute_addr_t] holds four octets, whatever its family. *)
Definition bytes_ok (bs : list Z) : Prop := Forall is_u8 bs.

Definition addr_ok (a : dmroute_addr_t) : Prop :=
  length (v4 a) = DMROUTE_IPV4_ADDR_LEN ∧ bytes_ok (v4 a).

(** ** Wire ports and message header *)
Definition DMDHCP_SERVER_PORT : Z := 67.
Definition DMDHCP_CLIENT_PORT : Z := 68.
Definition DMDHCP_MAGIC_COOKIE : Z := 0x63825363.
Definition DMDHCP_FIXED_HEADER_LEN : nat := 236.
Definition DMDHCP_CHADDR_LEN : nat := 16.
Definition DMDHCP_FLAG_BROADCAST : Z := 0x8000.

(** [dmdhcp_op_t] values; the [op] field of a message may hold any integer. *)
Definition dmdhcp_op_bootrequest : Z := 1.
Definition dmdhcp_op_bootreply : Z := 2.

Record dmdhcp_message_t : Set := Message {
  op : Z;
  htype : Z;
  hlen : Z;
  hops : Z;
  msg_xid : Z;
  secs : Z;
  flags : Z;
  ciaddr : dmroute_addr_t;
  yiaddr : dmroute_addr_t;
  siaddr : dmroute_addr_t;
  giaddr : dmroute_addr_t;
  chaddr : list Z;
}.

(** The C types of the fields: every value a [dmdhcp_message_t] can hold,
    except that [op] is an [int]-sized enum. *)
Record message_typed (m : dmdhcp_message_t) : Prop := {
  mt_htype : is_u8 (htype m);
  mt_hlen : is_u8 (hlen m);
  mt_hops : is_u8 (hops m);
  mt_xid : is_u32 (msg_xid m);
  mt_secs : is_u16 (secs m);
  mt_flags : is_u16 (flags m);
  mt_ciaddr : addr_ok (ciaddr m);
  mt_yiaddr : addr_ok (yiaddr m);
  mt_siaddr : addr_ok (siaddr m);
  mt_giaddr : addr_ok (giaddr m);
  mt_chaddr_len : length (chaddr m) = DMDHCP_CHADDR_LEN;
  mt_chaddr : bytes_ok (chaddr m);
}.

(** ** Options *)

(** [data] is the bytes reachable from the pointer ([None] for NULL): at
    least [length] of them in a well-formed option, possibly more, since a
    found option borrows from the buffer it was found in. *)
Record dmdhcp_option_t : Set := DhcpOption {
  code : Z;
  len : Z;
  data : option (list Z);
}.

Definition DMDHCP_OPT_PAD : Z := 0.
Definition DMDHCP_OPT_SUBNET_MASK : Z := 1.
Definition DMDHCP_OPT_ROUTER : Z := 3.
Definition DMDHCP_OPT_DNS_SERVER : Z := 6.
Definition DMDHCP_OPT_HOSTNAME : Z := 12.
Definition DMDHCP_OPT_NTP_SERVER : Z := 42.
Definition DMDHCP_OPT_REQUESTED_IP : Z := 50.
Definition DMDHCP_OPT_LEASE_TIME : Z := 51.
Definition DMDHCP_OPT_MSG_TYPE : Z := 53.
Definition DMDHCP_OPT_SERVER_ID : Z := 54.
Definition DMDHCP_OPT_RENEWAL_T1 : Z := 58.
Definition DMDHCP_OPT_REBINDING_T2 : Z := 59.
Definition DMDHCP_OPT_END : Z := 255.

Inductive dmdhcp_msg_type_t : Set :=
  | dmdhcp_msg_discover
  | dmdhcp_msg_offer
  | dmdhcp_msg_request
  | dmdhcp_msg_decline
  | dmdhcp_msg_ack
  | dmdhcp_msg_nak
  | dmdhcp_msg_release
  | dmdhcp_msg_inform.

#[export] Instance dmdhcp_msg_type_eq_dec : EqDecision dmdhcp_msg_type_t.
Proof. solve_decision. Defined.

(** The enumerators' values, as the code casts them to [uint8_t] *)
Definition msg_type_val (t : dmdhcp_msg_type_t) : Z :=
  match t with
  | dmdhcp_msg_discover => 1
  | dmdhcp_msg_offer => 2
  | dmdhcp_msg_request => 3
  | dmdhcp_msg_decline => 4
  | dmdhcp_msg_ack => 5
  | dmdhcp_msg_nak => 6
  | dmdhcp_msg_release => 7
  | dmdhcp_msg_inform => 8
  end.

(** ** The client state machine *)
Inductive dmdhcp_state_t : Set :=
  | dmdhcp_state_init
  | dmdhcp_state_selecting
  | dmdhcp_state_checking_offer
  | dmdhcp_state_requesting
  | dmdhcp_state_checking_ack
  | dmdhcp_state_bound
  | dmdhcp_state_renewing
  | dmdhcp_state_rebinding
  | dmdhcp_state_init_reboot
  | dmdhcp_state_rebooting
  | dmdhcp_state_declining
  | dmdhcp_state_failed.

#[export] Instance dmdhcp_state_eq_dec : EqDecision dmdhcp_state_t.
Proof. solve_decision. Defined.

(** ** Callbacks, start options, lease snapshot

    A function pointer and a [void*] are opaque integers; a NULL function
    pointer is [None]. *)
Record dmdhcp_callbacks_t : Set := Callbacks {
  on_bound : option Z;
  on_expired_or_lost : option Z;
  on_error : option Z;
}.

Definition callbacks_zero : dmdhcp_callbacks_t := Callbacks None None None.

Record dmdhcp_options_t : Set := StartOptions {
  opt_hostname : option (list Z);
  requested_ip : dmroute_addr_t;
}.

Record dmdhcp_lease_info_t : Set := LeaseInfo {
  info_ip_address : dmroute_addr_t;
  info_netmask : dmroute_addr_t;
  info_gateway : dmroute_addr_t;
  info_server_id : dmroute_addr_t;
  info_lease_time_sec : Z;
  info_renewal_time_sec : Z;
  info_rebinding_time_sec : Z;
}.

(** ** Deciding that octets are octets *)
Definition bytes_okb (bs : list Z) : bool :=
  forallb (λ b, (0 <=? b) && (b <? 256)) bs.

Lemma bytes_okb_ok bs : bytes_okb bs = true → bytes_ok bs.
Proof.
  unfold bytes_ok. induction bs as [|b bs IH]; simpl; [by constructor|].
  rewrite !andb_true_iff, Z.leb_le, Z.ltb_lt. intros [Hb H].
  constructor; [done|by apply IH].
Qed.

Lemma v4_zero_ok : bytes_ok v4_zero.
Proof. by apply bytes_okb_ok. Qed.

Lemma addr_none_ok : addr_ok addr_none.
Proof. split; [done|apply v4_zero_ok]. Qed.

#[export] Hint Resolve v4_zero_ok addr_none_ok : dhcp.

(** Comparisons of two given states *)
Ltac decide_states :=
  repeat first [rewrite bool_decide_true by done|rewrite bool_decide_false by done].
