(* ===== verification/Wire.v ===== *)
(** [src/dmdhcp_wire.c]: the DHCP/BOOTP fixed header codec.

    Buffers are checked byte lists (Prelude): every function returns [None]
    when the C code would read or write outside its buffer.  A pointer
    argument that may be NULL is an [option]; an output parameter is returned
    with its new value. *)
From S2P Require Import Prelude Types.

Definition DMDHCP_SNAME_LEN : nat := 64.
Definition DMDHCP_FILE_LEN : nat := 128.

(** ** Integers on the wire *)
Definition write_u16_be (buf : list Z) (p : nat) (value : Z) : option (list Z) :=
  buf ← wr buf p (u8 (Z.shiftr value 8));
  wr buf (p + 1) (u8 (Z.land value 0xFF)).

Definition read_u16_be (buf : list Z) (p : nat) : option Z :=
  b0 ← rd buf p;
  b1 ← rd buf (p + 1);
  Some (u16 (Z.lor (Z.shiftl b0 8) b1)).

Definition write_u32_be (buf : list Z) (p : nat) (value : Z) : option (list Z) :=
  buf ← wr buf p (u8 (Z.shiftr value 24));
  buf ← wr buf (p + 1) (u8 (Z.shiftr value 16));
  buf ← wr buf (p + 2) (u8 (Z.shiftr value 8));
  wr buf (p + 3) (u8 (Z.land value 0xFF)).

Definition read_u32_be (buf : list Z) (p : nat) : option Z :=
  b0 ← rd buf p;
  b1 ← rd buf (p + 1);
  b2 ← rd buf (p + 2);
  b3 ← rd buf (p + 3);
  Some (u32 (Z.lor (Z.lor (Z.lor (Z.shiftl b0 24) (Z.shiftl b1 16)) (Z.shiftl b2 8)) b3)).

(** ** Address fields *)
Definition write_addr (buf : list Z) (p : nat) (addr : dmroute_addr_t) : option (Z * list Z) :=
  match family addr with
  | dmroute_family_v4 =>
      src ← mem_read (v4 addr) 0 DMROUTE_IPV4_ADDR_LEN;
      buf ← mem_write buf p src;
      Some (0, buf)
  | dmroute_family_none =>
      buf ← mem_write buf p (replicate DMROUTE_IPV4_ADDR_LEN 0);
      Some (0, buf)
  | dmroute_family_v6 => Some (- EINVAL, buf)
  end.

Definition read_addr (buf : list Z) (p : nat) : option dmroute_addr_t :=
  bs ← mem_read buf p DMROUTE_IPV4_ADDR_LEN;
  Some (Addr dmroute_family_v4 bs).

(** ** The fixed header *)

(** [if (result == 0) result = write_addr(&buffer[p], addr)] *)
Definition write_addr_if_ok (p : nat) (addr : dmroute_addr_t) (r : Z * list Z) : option (Z * list Z) :=
  let '(result, buf) := r in
  if result =? 0 then write_addr buf p addr else Some (result, buf).

Definition dmdhcp_build_message (buffer : option (list Z)) (buffer_len : nat)
    (message : option dmdhcp_message_t) : option (Z * option (list Z)) :=
  match buffer, message with
  | Some buf, Some m =>
      if (buffer_len <? DMDHCP_FIXED_HEADER_LEN + 4)%nat then Some (- EINVAL, buffer) else
      buf ← mem_set buf 0 (DMDHCP_FIXED_HEADER_LEN + 4);
      buf ← wr buf 0 (u8 (op m));
      buf ← wr buf 1 (htype m);
      buf ← wr buf 2 (hlen m);
      buf ← wr buf 3 (hops m);
      buf ← write_u32_be buf 4 (msg_xid m);
      buf ← write_u16_be buf 8 (secs m);
      buf ← write_u16_be buf 10 (flags m);
      r ← write_addr buf 12 (ciaddr m);
      r ← write_addr_if_ok 16 (yiaddr m) r;
      r ← write_addr_if_ok 20 (siaddr m) r;
      r ← write_addr_if_ok 24 (giaddr m) r;
      let '(result, buf) := r in
      if negb (result =? 0) then Some (result, Some buf) else
      ch ← mem_read (chaddr m) 0 DMDHCP_CHADDR_LEN;
      buf ← mem_write buf 28 ch;
      buf ← write_u32_be buf DMDHCP_FIXED_HEADER_LEN DMDHCP_MAGIC_COOKIE;
      Some (0, Some buf)
  | _, _ => Some (- EINVAL, buffer)
  end.

Definition dmdhcp_parse_message (buffer : option (list Z)) (length : nat)
    (message : option dmdhcp_message_t) (options_offset : option nat)
    : option (Z * option dmdhcp_message_t * option nat) :=
  match buffer, message, options_offset with
  | Some buf, Some m, Some off =>
      if (length <? DMDHCP_FIXED_HEADER_LEN + 4)%nat then Some (- EINVAL, message, options_offset) else
      cookie ← read_u32_be buf DMDHCP_FIXED_HEADER_LEN;
      if negb (cookie =? DMDHCP_MAGIC_COOKIE) then Some (- EPROTO, message, options_offset) else
      o ← rd buf 0;
      if negb (o =? dmdhcp_op_bootrequest) && negb (o =? dmdhcp_op_bootreply)
      then Some (- EPROTO, message, options_offset) else
      ht ← rd buf 1;
      hl ← rd buf 2;
      hp ← rd buf 3;
      x ← read_u32_be buf 4;
      sc ← read_u16_be buf 8;
      fl ← read_u16_be buf 10;
      ci ← read_addr buf 12;
      yi ← read_addr buf 16;
      si ← read_addr buf 20;
      gi ← read_addr buf 24;
      ch ← mem_read buf 28 DMDHCP_CHADDR_LEN;
      Some (0, Some (Message o ht hl hp x sc fl ci yi si gi ch),
            Some (DMDHCP_FIXED_HEADER_LEN + 4)%nat)
  | _, _, _ => Some (- EINVAL, message, options_offset)
  end.

(** ** The wire format as a function

    The specification of [dmdhcp_build_message]: the RFC 2131 layout, field
    after field. *)
Definition u16_bytes (v : Z) : list Z := [u8 (v `div` 256); u8 v].
Definition u32_bytes (v : Z) : list Z :=
  [u8 (v `div` 16777216); u8 (v `div` 65536); u8 (v `div` 256); u8 v].

Definition addr_bytes (a : dmroute_addr_t) : list Z :=
  match family a with
  | dmroute_family_v4 => v4 a
  | _ => v4_zero
  end.

Definition message_head (m : dmdhcp_message_t) : list Z :=
  [u8 (op m); htype m; hlen m; hops m]
  ++ u32_bytes (msg_xid m) ++ u16_bytes (secs m) ++ u16_bytes (flags m)
  ++ addr_bytes (ciaddr m) ++ addr_bytes (yiaddr m)
  ++ addr_bytes (siaddr m) ++ addr_bytes (giaddr m).

Definition message_bytes (m : dmdhcp_message_t) : list Z :=
  message_head m ++ chaddr m
  ++ replicate (DMDHCP_SNAME_LEN + DMDHCP_FILE_LEN) 0 ++ u32_bytes DMDHCP_MAGIC_COOKIE.

(** The header a receiver sees: the wire cannot tell an unset address from
    0.0.0.0, so every address comes back as an IPv4 one. *)
Definition as_v4 (a : dmroute_addr_t) : dmroute_addr_t := Addr dmroute_family_v4 (addr_bytes a).

Definition on_the_wire (m : dmdhcp_message_t) : dmdhcp_message_t :=
  Message (u8 (op m)) (htype m) (hlen m) (hops m) (msg_xid m) (secs m) (flags m)
    (as_v4 (ciaddr m)) (as_v4 (yiaddr m)) (as_v4 (siaddr m)) (as_v4 (giaddr m)) (chaddr m).

Definition not_v6 (a : dmroute_addr_t) : bool :=
  bool_decide (family a ≠ dmroute_family_v6).

Definition addrs_supported (m : dmdhcp_message_t) : bool :=
  not_v6 (ciaddr m) && not_v6 (yiaddr m) && not_v6 (siaddr m) && not_v6 (giaddr m).

Definition bootp_op (o : Z) : bool :=
  (o =? dmdhcp_op_bootrequest) || (o =? dmdhcp_op_bootreply).

(** ** Lemmas *)
Lemma addr_bytes_length a : addr_ok a → length (addr_bytes a) = 4%nat.
Proof. intros [Hl _]. unfold addr_bytes. by destruct (family a). Qed.

Lemma addr_bytes_ok a : addr_ok a → bytes_ok (addr_bytes a).
Proof.
  intros [_ Hb]. unfold addr_bytes. destruct (family a); auto with dhcp.
Qed.

Lemma write_addr_ok buf p a :
  addr_ok a → not_v6 a = true →
  write_addr buf p a = (b ← mem_write buf p (addr_bytes a); Some (0, b)).
Proof.
  intros [Hl _] Hv. unfold write_addr, addr_bytes, not_v6 in *.
  destruct a as [[] bs]; simpl in *; try done.
  by explode bs.
Qed.

Lemma write_addr_v6 buf p a :
  not_v6 a = false → write_addr buf p a = Some (- EINVAL, buf).
Proof. unfold write_addr, not_v6. by destruct a as [[] bs]. Qed.

(** One checked write into the buffer [b], which still has the tail of [b0] *)
Ltac tail_step :=
  let b' := fresh "buf" in let T' := fresh "T" in
  lazymatch goal with
  | Hn : (?n ≤ length ?b0)%nat, T : tail_same ?n ?b0 ?b |- context [wr ?b ?i ?v] =>
      destruct (wr_tail n b0 b i v Hn T) as (b' & -> & T'); [lia|]
  | Hn : (?n ≤ length ?b0)%nat, T : tail_same ?n ?b0 ?b |- context [mem_write ?b ?i ?v] =>
      destruct (mem_write_tail n b0 b i v Hn T) as (b' & -> & T'); [|]
  end;
  cbn [mbind option_bind].

Lemma write_u16_be_tail n b0 b p v :
  (n ≤ length b0)%nat → tail_same n b0 b → (p + 2 ≤ n)%nat →
  ∃ b', write_u16_be b p v = Some b' ∧ tail_same n b0 b'.
Proof. intros Hn T Hp. unfold write_u16_be. do 2 tail_step. eauto. Qed.

Lemma write_u32_be_tail n b0 b p v :
  (n ≤ length b0)%nat → tail_same n b0 b → (p + 4 ≤ n)%nat →
  ∃ b', write_u32_be b p v = Some b' ∧ tail_same n b0 b'.
Proof. intros Hn T Hp. unfold write_u32_be. do 4 tail_step. eauto. Qed.

Lemma write_addr_tail n b0 b p a :
  addr_ok a → (n ≤ length b0)%nat → tail_same n b0 b → (p + 4 ≤ n)%nat →
  ∃ b', write_addr b p a = Some (if not_v6 a then 0 else - EINVAL, b') ∧ tail_same n b0 b'.
Proof.
  intros Ha Hn T Hp. destruct (not_v6 a) eqn:Hv.
  - rewrite write_addr_ok by done. tail_step; [rewrite addr_bytes_length by done; lia|]. eauto.
  - rewrite write_addr_v6 by done. eauto.
Qed.

Lemma write_addr_if_ok_tail n b0 b p a (ok : bool) :
  addr_ok a → (n ≤ length b0)%nat → tail_same n b0 b → (p + 4 ≤ n)%nat →
  ∃ b', write_addr_if_ok p a (if ok then 0 else - EINVAL, b)
        = Some (if ok && not_v6 a then 0 else - EINVAL, b') ∧ tail_same n b0 b'.
Proof.
  intros Ha Hn T Hp. unfold write_addr_if_ok. destruct ok; simpl; [|eauto].
  by apply write_addr_tail.
Qed.

(** What [dmdhcp_build_message] writes once its buffer is cleared *)
Lemma build_message_body m rest n :
  message_typed m → addrs_supported m = true → (240 ≤ n)%nat →
  dmdhcp_build_message (Some (replicate 240 0 ++ rest)) n (Some m)
  = Some (0, Some (message_bytes m ++ rest)).
Proof.
  intros Ht H Hn. unfold addrs_supported in H.
  rewrite !andb_true_iff in H. destruct H as [[[Hc Hy] Hs] Hg]. destruct Ht.
  unfold dmdhcp_build_message, message_bytes, message_head, write_addr_if_ok.
  pose proof (addr_bytes_length _ mt_ciaddr) as (?&?&?&?&E1)%length4.
  pose proof (addr_bytes_length _ mt_yiaddr) as (?&?&?&?&E2)%length4.
  pose proof (addr_bytes_length _ mt_siaddr) as (?&?&?&?&E3)%length4.
  pose proof (addr_bytes_length _ mt_giaddr) as (?&?&?&?&E4)%length4.
  apply length16 in mt_chaddr_len as (?&?&?&?&?&?&?&?&?&?&?&?&?&?&?&?&E5).
  rewrite E1, E2, E3, E4, E5.
  rewrite mem_set_ok by (rewrite length_app, length_replicate; unfold DMDHCP_FIXED_HEADER_LEN; lia).
  destruct (Nat.ltb_spec n (DMDHCP_FIXED_HEADER_LEN + 4)); [unfold DMDHCP_FIXED_HEADER_LEN in *; lia|].
  cbn -[u8 Z.shiftr Z.land Z.div DMDHCP_MAGIC_COOKIE write_addr].
  rewrite write_addr_ok, E1 by assumption.
  cbn -[u8 Z.shiftr Z.land Z.div DMDHCP_MAGIC_COOKIE write_addr].
  rewrite write_addr_ok, E2 by assumption.
  cbn -[u8 Z.shiftr Z.land Z.div DMDHCP_MAGIC_COOKIE write_addr].
  rewrite write_addr_ok, E3 by assumption.
  cbn -[u8 Z.shiftr Z.land Z.div DMDHCP_MAGIC_COOKIE write_addr].
  rewrite write_addr_ok, E4 by assumption.
  cbn -[u8 Z.shiftr Z.land Z.div DMDHCP_MAGIC_COOKIE write_addr].
  rewrite !u8_land, !u8_shiftr by lia. reflexivity.
Qed.


(** With a buffer of at least 240 octets and a supported header, the first 240
    octets are the wire format and the others are untouched. *)
Lemma build_message_ok buf m n :
  message_typed m → addrs_supported m = true → (240 ≤ n ≤ length buf)%nat →
  dmdhcp_build_message (Some buf) n (Some m)
  = Some (0, Some (message_bytes m ++ drop 240 buf)).
Proof.
  intros Ht Hs Hn. rewrite <- (build_message_body m (drop 240 buf) n) by (done || lia).
  unfold dmdhcp_build_message. change (DMDHCP_FIXED_HEADER_LEN + 4)%nat with 240%nat.
  destruct (Nat.ltb_spec n 240); [lia|].
  rewrite (mem_set_ok buf), (mem_set_ok (replicate 240 0 ++ drop 240 buf))
    by (rewrite ?length_app, ?length_replicate; lia).
  by rewrite (drop_app_length' (replicate 240 0)) by (by rewrite length_replicate).
Qed.

(** An IPv6 address field is refused, and nothing past the header is written. *)
Lemma build_message_v6 buf m n :
  message_typed m → addrs_supported m = false → (240 ≤ n ≤ length buf)%nat →
  ∃ buf', dmdhcp_build_message (Some buf) n (Some m) = Some (- EINVAL, Some buf') ∧
          tail_same 240 buf buf'.
Proof.
  intros [] Hs Hn. unfold dmdhcp_build_message.
  change (DMDHCP_FIXED_HEADER_LEN + 4)%nat with 240%nat.
  destruct (Nat.ltb_spec n 240); [lia|].
  assert (Hl : (240 ≤ length buf)%nat) by lia. assert (T : tail_same 240 buf buf) by done.
  unfold mem_set. tail_step; [by rewrite length_replicate|]. do 4 tail_step.
  destruct (write_u32_be_tail 240 buf buf4 4 (msg_xid m)) as (b5 & -> & T5); [done..|lia|].
  cbn [mbind option_bind].
  destruct (write_u16_be_tail 240 buf b5 8 (secs m)) as (b6 & -> & T6); [done..|lia|].
  cbn [mbind option_bind].
  destruct (write_u16_be_tail 240 buf b6 10 (flags m)) as (b7 & -> & T7); [done..|lia|].
  cbn [mbind option_bind].
  destruct (write_addr_tail 240 buf b7 12 (ciaddr m)) as (b8 & -> & T8); [done..|lia|].
  cbn [mbind option_bind].
  destruct (write_addr_if_ok_tail 240 buf b8 16 (yiaddr m) (not_v6 (ciaddr m)))
    as (b9 & -> & T9); [done..|lia|]. cbn [mbind option_bind].
  destruct (write_addr_if_ok_tail 240 buf b9 20 (siaddr m) (not_v6 (ciaddr m) && not_v6 (yiaddr m)))
    as (b10 & -> & T10); [done..|lia|]. cbn [mbind option_bind].
  destruct (write_addr_if_ok_tail 240 buf b10 24 (giaddr m)
    (not_v6 (ciaddr m) && not_v6 (yiaddr m) && not_v6 (siaddr m)))
    as (b11 & -> & T11); [done..|lia|]. cbn [mbind option_bind].
  change (not_v6 (ciaddr m) && not_v6 (yiaddr m) && not_v6 (siaddr m) && not_v6 (giaddr m))
    with (addrs_supported m).
  rewrite Hs. simpl. eauto.
Qed.

Lemma read_u16_be_app pre v rest :
  is_u16 v → read_u16_be (pre ++ u16_bytes v ++ rest) (length pre) = Some v.
Proof.
  intros Hv. unfold read_u16_be, rd.
  rewrite (lookup_app_r _ _ (length pre)), Nat.sub_diag by lia. simpl.
  rewrite lookup_app_r by lia. replace (length pre + 1 - length pre)%nat with 1%nat by lia. simpl.
  by rewrite be16_value, u16_split by auto with dhcp.
Qed.

Lemma read_u32_be_app pre v rest :
  is_u32 v → read_u32_be (pre ++ u32_bytes v ++ rest) (length pre) = Some v.
Proof.
  intros Hv. unfold read_u32_be, rd.
  rewrite (lookup_app_r _ _ (length pre)), Nat.sub_diag by lia. simpl.
  rewrite !lookup_app_r by lia.
  replace (length pre + 1 - length pre)%nat with 1%nat by lia.
  replace (length pre + 2 - length pre)%nat with 2%nat by lia.
  replace (length pre + 3 - length pre)%nat with 3%nat by lia. simpl.
  by rewrite be32_value, u32_split by auto with dhcp.
Qed.

(** A header split into its fields; [ck] is the cookie word. *)
Definition header_of (m : dmdhcp_message_t) (sname_file : list Z) (ck : Z) : list Z :=
  message_head m ++ chaddr m ++ sname_file ++ u32_bytes ck.

(** A parsed header: every address is an IPv4 one. *)
Definition all_v4 (m : dmdhcp_message_t) : Prop :=
  family (ciaddr m) = dmroute_family_v4 ∧ family (yiaddr m) = dmroute_family_v4 ∧
  family (siaddr m) = dmroute_family_v4 ∧ family (giaddr m) = dmroute_family_v4.

Lemma header_of_length m sf ck :
  message_typed m → length sf = 192%nat → length (header_of m sf ck) = 240%nat.
Proof.
  intros [] Hs. unfold header_of, message_head.
  by rewrite !length_app, !addr_bytes_length, mt_chaddr_len, Hs by done.
Qed.

(** [dmdhcp_parse_message] on a header split into its fields *)
Lemma parse_header_of m sf ck rest n m0 off0 :
  message_typed m → is_u8 (op m) → length sf = 192%nat → is_u32 ck → (240 ≤ n)%nat →
  dmdhcp_parse_message (Some (header_of m sf ck ++ rest)) n (Some m0) (Some off0) =
  if negb (ck =? DMDHCP_MAGIC_COOKIE) || negb (bootp_op (op m))
  then Some (- EPROTO, Some m0, Some off0)
  else Some (0, Some (on_the_wire m), Some 240%nat).
Proof.
  intros Ht Ho Hs Hck Hn.
  pose proof Ht as [].
  unfold dmdhcp_parse_message. change (DMDHCP_FIXED_HEADER_LEN + 4)%nat with 240%nat.
  destruct (Nat.ltb_spec n 240); [lia|].
  assert (Hck' : read_u32_be (header_of m sf ck ++ rest) DMDHCP_FIXED_HEADER_LEN = Some ck).
  { replace (header_of m sf ck ++ rest)
      with (((message_head m ++ chaddr m) ++ sf) ++ u32_bytes ck ++ rest)
      by (unfold header_of; by rewrite <- !app_assoc).
    replace DMDHCP_FIXED_HEADER_LEN with (length ((message_head m ++ chaddr m) ++ sf));
      [by apply read_u32_be_app|].
    unfold message_head. rewrite !length_app, !addr_bytes_length, mt_chaddr_len, Hs by done. done. }
  rewrite Hck'. cbn [mbind option_bind].
  destruct (ck =? DMDHCP_MAGIC_COOKIE); [|done]. cbn [negb orb].
  unfold header_of, message_head, on_the_wire, as_v4, bootp_op.
  pose proof (addr_bytes_length _ mt_ciaddr) as (?&?&?&?&->)%length4.
  pose proof (addr_bytes_length _ mt_yiaddr) as (?&?&?&?&->)%length4.
  pose proof (addr_bytes_length _ mt_siaddr) as (?&?&?&?&->)%length4.
  pose proof (addr_bytes_length _ mt_giaddr) as (?&?&?&?&->)%length4.
  apply length16 in mt_chaddr_len as (?&?&?&?&?&?&?&?&?&?&?&?&?&?&?&?&->).
  cbn -[u8 u16 u32 Z.lor Z.shiftl Z.div Z.eqb].
  rewrite (u8_id (op m)), negb_orb by done.
  destruct (negb (op m =? dmdhcp_op_bootrequest) && negb (op m =? dmdhcp_op_bootreply)); [done|].
  rewrite be32_value, u32_split, !be16_value, !u16_split by auto with dhcp. done.
Qed.

Lemma as_v4_id a : family a = dmroute_family_v4 → as_v4 a = a.
Proof. unfold as_v4, addr_bytes. destruct a; simpl. by intros ->. Qed.

Lemma on_the_wire_id m : all_v4 m → is_u8 (op m) → on_the_wire m = m.
Proof.
  intros (? & ? & ? & ?) Ho. unfold on_the_wire. rewrite !as_v4_id, u8_id by done. by destruct m.
Qed.

(** Every 240 octets are a header. *)
Lemma header_exists buf :
  bytes_ok buf → (240 ≤ length buf)%nat →
  ∃ m sf ck rest, buf = header_of m sf ck ++ rest ∧ message_typed m ∧ is_u8 (op m) ∧
    all_v4 m ∧ length sf = 192%nat ∧ is_u32 ck.
Proof.
  intros Hok Hl.
  destruct (split_at 4 buf) as (a & r1 & -> & La); [lia|].
  rewrite length_app, La in Hl. destruct (split_at 4 r1) as (bx & r2 & -> & Lx); [lia|].
  rewrite length_app, Lx in Hl. destruct (split_at 4 r2) as (bf & r3 & -> & Lf); [lia|].
  rewrite length_app, Lf in Hl. destruct (split_at 4 r3) as (ci & r4 & -> & Lc); [lia|].
  rewrite length_app, Lc in Hl. destruct (split_at 4 r4) as (yi & r5 & -> & Ly); [lia|].
  rewrite length_app, Ly in Hl. destruct (split_at 4 r5) as (si & r6 & -> & Ls); [lia|].
  rewrite length_app, Ls in Hl. destruct (split_at 4 r6) as (gi & r7 & -> & Lg); [lia|].
  rewrite length_app, Lg in Hl. destruct (split_at 16 r7) as (ch & r8 & -> & Lch); [lia|].
  rewrite length_app, Lch in Hl. destruct (split_at 192 r8) as (sf & r9 & -> & Lsf); [lia|].
  rewrite length_app, Lsf in Hl. destruct (split_at 4 r9) as (bk & rest & -> & Lk); [lia|].
  unfold bytes_ok in Hok. rewrite !Forall_app in Hok.
  destruct Hok as (Oa & Ox & Of & Oc & Oy & Os & Og & Och & _ & Ok & _).
  apply length4 in La as (o & ht & hl & hp & ->), Lx as (x0 & x1 & x2 & x3 & ->),
    Lf as (s0 & s1 & f0 & f1 & ->), Lk as (k0 & k1 & k2 & k3 & ->).
  decompose_Forall_hyps.
  destruct (be32_exists x0 x1 x2 x3) as (x & ? & Ex0 & Ex1 & Ex2 & Ex3); [done..|].
  destruct (be32_exists k0 k1 k2 k3) as (ck & ? & Ek0 & Ek1 & Ek2 & Ek3); [done..|].
  destruct (be16_exists s0 s1) as (sc & ? & Es0 & Es1); [done..|].
  destruct (be16_exists f0 f1) as (fl & ? & Ef0 & Ef1); [done..|].
  set (mk := Addr dmroute_family_v4).
  exists (Message o ht hl hp x sc fl (mk ci) (mk yi) (mk si) (mk gi) ch), sf, ck, rest.
  assert (message_typed (Message o ht hl hp x sc fl (mk ci) (mk yi) (mk si) (mk gi) ch))
    by (split; simpl; try done; by split).
  split; [|by split_and!].
  unfold header_of, message_head, addr_bytes, u32_bytes, u16_bytes; simpl.
  rewrite Ex0, Ex1, Ex2, Ex3, Ek0, Ek1, Ek2, Ek3, Es0, Es1, Ef0, Ef1, u8_id by done.
  by rewrite <- !app_assoc.
Qed.

(** A parse accepts a datagram or leaves its outputs alone. *)
Lemma parse_cases buf m0 off0 :
  bytes_ok buf →
  (∃ rc, rc ≠ 0 ∧ dmdhcp_parse_message (Some buf) (length buf) (Some m0) (Some off0)
    = Some (rc, Some m0, Some off0)) ∨
  (∃ m, (240 ≤ length buf)%nat ∧ message_typed m ∧ all_v4 m ∧
    dmdhcp_parse_message (Some buf) (length buf) (Some m0) (Some off0) = Some (0, Some m, Some 240%nat)).
Proof.
  intros Hok. destruct (Nat.ltb_spec (length buf) 240) as [Hlt|Hge].
  { left. exists (- EINVAL). split; [done|]. unfold dmdhcp_parse_message.
    change (DMDHCP_FIXED_HEADER_LEN + 4)%nat with 240%nat.
    by destruct (Nat.ltb_spec (length buf) 240); [|lia]. }
  destruct (header_exists buf) as (m & sf & ck & rest & Hbuf & ? & ? & ? & ? & ?); [done|lia|].
  pose proof (parse_header_of m sf ck rest (length buf) m0 off0) as Hp.
  rewrite <- Hbuf in Hp. rewrite Hp by done. rewrite on_the_wire_id by done.
  destruct (_ || _); [left|right; by exists m]. exists (- EPROTO). by split.
Qed.

(** ** Properties *)

(** C8: what [dmdhcp_build_message] writes, [dmdhcp_parse_message] reads back.
    Whatever was in the buffer before and whatever options follow the header,
    the parse succeeds with the options area at offset 240 and every field of
    the message as it was built (an unset address comes back as 0.0.0.0). *)
Theorem build_then_parse m buf rest n m0 off0 :
  message_typed m → addrs_supported m = true → bootp_op (op m) = true →
  length buf = 240%nat → (240 ≤ n)%nat →
  ∃ hdr, dmdhcp_build_message (Some buf) 240 (Some m) = Some (0, Some hdr) ∧
         length hdr = 240%nat ∧
         dmdhcp_parse_message (Some (hdr ++ rest)) n (Some m0) (Some off0)
         = Some (0, Some (on_the_wire m), Some 240%nat).
Proof.
  intros Ht Hs Ho Hb Hn.
  assert (Hop : is_u8 (op m)).
  { unfold bootp_op, dmdhcp_op_bootrequest, dmdhcp_op_bootreply, is_u8 in *.
    destruct (Z.eqb_spec (op m) 1), (Z.eqb_spec (op m) 2); try done; lia. }
  exists (message_bytes m). split; [|split].
  - rewrite build_message_ok by (done || lia).
    by rewrite drop_ge, app_nil_r by lia.
  - by apply header_of_length.
  - change (message_bytes m) with (header_of m (replicate 192 0) DMDHCP_MAGIC_COOKIE).
    assert (is_u32 DMDHCP_MAGIC_COOKIE) by done.
    rewrite parse_header_of by done.
    by rewrite Z.eqb_refl, Ho.
Qed.

(** C25: [dmdhcp_parse_message] is total and exact.  It never reads outside the
    datagram; a datagram shorter than 240 octets is [-EINVAL]; otherwise the
    datagram is the header of exactly one typed message, a wrong magic cookie
    or [op] is [-EPROTO] with both outputs untouched, and an accepted datagram
    yields that message: encoding it again gives the received octets. *)
Theorem parse_message_total buf n m0 off0 :
  bytes_ok buf → (n ≤ length buf)%nat →
  if (n <? 240)%nat then
    dmdhcp_parse_message (Some buf) n (Some m0) (Some off0) = Some (- EINVAL, Some m0, Some off0)
  else ∃ m sf ck rest,
    buf = header_of m sf ck ++ rest ∧ length sf = 192%nat ∧ message_typed m ∧ all_v4 m ∧
    dmdhcp_parse_message (Some buf) n (Some m0) (Some off0) =
      if (ck =? DMDHCP_MAGIC_COOKIE) && bootp_op (op m)
      then Some (0, Some m, Some 240%nat)
      else Some (- EPROTO, Some m0, Some off0).
Proof.
  intros Hok Hn. destruct (Nat.ltb_spec n 240) as [Hlt|Hge].
  { unfold dmdhcp_parse_message. change (DMDHCP_FIXED_HEADER_LEN + 4)%nat with 240%nat.
    by destruct (Nat.ltb_spec n 240); [|lia]. }
  destruct (header_exists buf) as (m & sf & ck & rest & -> & ? & ? & ? & ? & ?); [done|lia|].
  exists m, sf, ck, rest. split_and!; try done.
  rewrite parse_header_of by done. rewrite on_the_wire_id by done.
  by destruct (ck =? _), (bootp_op _).
Qed.

(** C26: [dmdhcp_build_message] on every argument.  NULL arguments, a capacity
    below 240 and an IPv6 address field are [-EINVAL]; everything else
    succeeds and writes the RFC 2131 layout over the first 240 octets, with
    [sname] and [file] zero.  It never writes outside the buffer, and never
    past the header. *)
Theorem build_message_total buf m n :
  message_typed m → (n ≤ length buf)%nat →
  dmdhcp_build_message None n (Some m) = Some (- EINVAL, None) ∧
  dmdhcp_build_message (Some buf) n None = Some (- EINVAL, Some buf) ∧
  ∃ rc buf', dmdhcp_build_message (Some buf) n (Some m) = Some (rc, Some buf') ∧
    rc = (if (240 <=? n)%nat && addrs_supported m then 0 else - EINVAL) ∧
    tail_same 240 buf buf' ∧
    (rc = 0 → take 240 buf' = message_bytes m).
Proof.
  intros Ht Hn. split; [done|]. split; [done|].
  destruct (Nat.leb_spec 240 n) as [Hge|Hlt]; simpl.
  2:{ exists (- EINVAL), buf. unfold dmdhcp_build_message.
      change (DMDHCP_FIXED_HEADER_LEN + 4)%nat with 240%nat.
      destruct (Nat.ltb_spec n 240); [|lia]. by split_and!. }
  destruct (addrs_supported m) eqn:Hs.
  - assert (Hl : length (message_bytes m) = 240%nat) by (by apply header_of_length).
    exists 0, (message_bytes m ++ drop 240 buf). split; [apply build_message_ok; done || lia|].
    split; [done|]. split; [split|].
    + rewrite length_app, length_drop, Hl. lia.
    + by rewrite drop_app_length' by done.
    + intros _. by rewrite take_app_length' by done.
  - destruct (build_message_v6 buf m n) as (buf' & ? & ?); [done..|lia|].
    exists (- EINVAL), buf'. by split_and!.
Qed.

(** A message every field of which is set, for the witnesses. *)
Definition sample_message : dmdhcp_message_t :=
  Message dmdhcp_op_bootrequest 1 6 0 0xAABBCCDD 12 DMDHCP_FLAG_BROADCAST
    addr_none (Addr dmroute_family_v4 [192; 168; 1; 42]) addr_none addr_none
    ([2; 0; 0; 0; 0; 1] ++ replicate 10 0).

Lemma sample_message_typed : message_typed sample_message.
Proof.
  split; try done; try (split; [done|by apply bytes_okb_ok]). by apply bytes_okb_ok.
Qed.

Lemma build_then_parse_witness :
  ∃ hdr, dmdhcp_build_message (Some (replicate 240 7)) 240 (Some sample_message) = Some (0, Some hdr) ∧
         length hdr = 240%nat ∧
         dmdhcp_parse_message (Some (hdr ++ [255])) 241 (Some sample_message) (Some 0%nat)
         = Some (0, Some (on_the_wire sample_message), Some 240%nat).
Proof.
  apply (build_then_parse sample_message (replicate 240 7) [255] 241 sample_message 0);
    [apply sample_message_typed|reflexivity|reflexivity|reflexivity|lia].
Defined.

Lemma parse_message_total_witness :
  ∃ m sf ck rest,
    message_bytes sample_message = header_of m sf ck ++ rest ∧ length sf = 192%nat ∧
    message_typed m ∧ all_v4 m ∧
    dmdhcp_parse_message (Some (message_bytes sample_message)) 240 (Some sample_message) (Some 0%nat) =
      if (ck =? DMDHCP_MAGIC_COOKIE) && bootp_op (op m)
      then Some (0, Some m, Some 240%nat)
      else Some (- EPROTO, Some sample_message, Some 0%nat).
Proof.
  apply (parse_message_total (message_bytes sample_message) 240 sample_message 0).
  - apply bytes_okb_ok. reflexivity.
  - vm_compute. lia.
Defined.

Lemma build_message_total_witness :
  ∃ rc buf', dmdhcp_build_message (Some (replicate 300 9)) 300 (Some sample_message) = Some (rc, Some buf') ∧
    rc = 0 ∧ tail_same 240 (replicate 300 9) buf' ∧
    (rc = 0 → take 240 buf' = message_bytes sample_message).
Proof.
  apply (build_message_total (replicate 300 9) sample_message 300); [apply sample_message_typed|].
  by rewrite length_replicate.
Defined.
