(* ===== verification/Options.v ===== *)
(** [src/dmdhcp_options.c]: the RFC 2132 TLV options codec.

    As in Wire.v, buffers are checked: [None] is an access outside a buffer.
    The scan of [dmdhcp_options_find] is fuelled by the length of the area;
    [options_find_exact] shows that this is always enough. *)
From S2P Require Import Prelude Types.

(** ** Writing *)

(** The loop of [dmdhcp_options_write]: [n] options left, the next one is
    [options[i]].  The result carries the position the loop stopped at. *)
Fixpoint options_write_loop (n i : nat) (options : list dmdhcp_option_t)
    (buf : list Z) (buffer_len pos : nat) : option (Z * list Z * nat) :=
  match n with
  | O => Some (0, buf, pos)
  | S n =>
      opt ← options !! i;
      let length := Z.to_nat (len opt) in
      if negb (bool_decide (is_Some (data opt))) && (0 <? length)%nat
      then Some (- EINVAL, buf, pos) else
      if (buffer_len <? pos + 2 + length)%nat
      then Some (- ENOSPC, buf, pos) else
      buf ← wr buf pos (code opt);
      buf ← wr buf (pos + 1) (len opt);
      if (0 <? length)%nat then
        d ← data opt;
        src ← mem_read d 0 length;
        buf ← mem_write buf (pos + 2) src;
        options_write_loop n (S i) options buf buffer_len (pos + 2 + length)
      else options_write_loop n (S i) options buf buffer_len (pos + 2)
  end.

Definition dmdhcp_options_write (buffer : option (list Z)) (buffer_len : nat)
    (options : option (list dmdhcp_option_t)) (option_count : nat) (out_len : option nat)
    : option (Z * option (list Z) * option nat) :=
  match buffer, out_len with
  | Some buf, Some _ =>
      if negb (bool_decide (is_Some options)) && (0 <? option_count)%nat
      then Some (- EINVAL, buffer, out_len) else
      r ← options_write_loop option_count 0 (default [] options) buf buffer_len 0;
      let '(rc, buf, pos) := r in
      if negb (rc =? 0) then Some (rc, Some buf, out_len) else
      if (buffer_len <? pos + 1)%nat then Some (- ENOSPC, Some buf, out_len) else
      buf ← wr buf pos DMDHCP_OPT_END;
      Some (0, Some buf, Some (pos + 1)%nat)
  | _, _ => Some (- EINVAL, buffer, out_len)
  end.

(** ** Scanning *)
Fixpoint options_find_loop (fuel : nat) (options : list Z) (options_len pos : nat)
    (c : Z) (out : dmdhcp_option_t) : option (Z * dmdhcp_option_t) :=
  match fuel with
  | O => None
  | S fuel =>
      if (pos <? options_len)%nat then
        entry_code ← rd options pos;
        if entry_code =? DMDHCP_OPT_PAD
        then options_find_loop fuel options options_len (pos + 1) c out else
        if entry_code =? DMDHCP_OPT_END then Some (- ENOENT, out) else
        if (options_len <=? pos + 1)%nat then Some (- EPROTO, out) else
        entry_len ← rd options (pos + 1);
        if (options_len <? pos + 2 + Z.to_nat entry_len)%nat then Some (- EPROTO, out) else
        if entry_code =? c
        then Some (0, DhcpOption entry_code entry_len (Some (drop (pos + 2) options)))
        else options_find_loop fuel options options_len (pos + 2 + Z.to_nat entry_len) c out
      else Some (- ENOENT, out)
  end.

Definition dmdhcp_options_find (options : option (list Z)) (options_len : nat) (c : Z)
    (out : option dmdhcp_option_t) : option (Z * option dmdhcp_option_t) :=
  match options, out with
  | Some opts, Some o =>
      r ← options_find_loop (S options_len) opts options_len 0 c o;
      Some (r.1, Some r.2)
  | _, _ => Some (- EINVAL, out)
  end.

(** ** Decoding one option *)
Definition read_u32_be (p : list Z) : option Z :=
  b0 ← rd p 0;
  b1 ← rd p 1;
  b2 ← rd p 2;
  b3 ← rd p 3;
  Some (u32 (Z.lor (Z.lor (Z.lor (Z.shiftl b0 24) (Z.shiftl b1 16)) (Z.shiftl b2 8)) b3)).

Definition dmdhcp_option_get_u32 (opt : option dmdhcp_option_t) (out : option Z)
    : option (Z * option Z) :=
  match opt, out with
  | Some o, Some _ =>
      if negb (len o =? 4) then Some (- EINVAL, out) else
      d ← data o;
      v ← read_u32_be d;
      Some (0, Some v)
  | _, _ => Some (- EINVAL, out)
  end.

Definition dmdhcp_option_get_addr (opt : option dmdhcp_option_t) (out : option dmroute_addr_t)
    : option (Z * option dmroute_addr_t) :=
  match opt, out with
  | Some o, Some _ =>
      if negb (len o =? 4) then Some (- EINVAL, out) else
      d ← data o;
      bs ← mem_read d 0 DMROUTE_IPV4_ADDR_LEN;
      Some (0, Some (Addr dmroute_family_v4 bs))
  | _, _ => Some (- EINVAL, out)
  end.

Definition dmdhcp_option_addr_count (opt : option dmdhcp_option_t) : nat :=
  match opt with
  | Some o => Z.to_nat (len o) `div` DMROUTE_IPV4_ADDR_LEN
  | None => 0
  end.

Definition dmdhcp_option_get_addr_at (opt : option dmdhcp_option_t) (index : nat)
    (out : option dmroute_addr_t) : option (Z * option dmroute_addr_t) :=
  match opt, out with
  | Some o, Some _ =>
      let count := (Z.to_nat (len o) `div` DMROUTE_IPV4_ADDR_LEN)%nat in
      if (count <=? index)%nat then Some (- EINVAL, out) else
      d ← data o;
      bs ← mem_read d (index * DMROUTE_IPV4_ADDR_LEN) DMROUTE_IPV4_ADDR_LEN;
      Some (0, Some (Addr dmroute_family_v4 bs))
  | _, _ => Some (- EINVAL, out)
  end.

(** ** Specification

    [encode_options] is the octets an option list stands for. *)
Definition opt_data (o : dmdhcp_option_t) : list Z :=
  take (Z.to_nat (len o)) (default [] (data o)).

Definition encode_option (o : dmdhcp_option_t) : list Z := code o :: len o :: opt_data o.
Definition encode_options (os : list dmdhcp_option_t) : list Z := os ≫= encode_option.

(** An option a caller may pass: [data] reaches [length] octets, or is NULL
    for an empty option. *)
Definition option_ok (o : dmdhcp_option_t) : Prop :=
  is_u8 (code o) ∧ is_u8 (len o) ∧
  match data o with
  | Some d => (Z.to_nat (len o) ≤ length d)%nat
  | None => len o = 0
  end.

(** An options area as RFC 2132 reads it: PADs and entries, then one of four
    endings. *)
Inductive item : Set :=
  | IPad
  | IOpt (c : Z) (d : list Z).

Inductive ending : Set :=
  | EEmpty                                 (** the area is exhausted *)
  | EEnd (rest : list Z)                   (** an END marker; the rest is ignored *)
  | ENoLength (c : Z)                      (** a code without its length octet *)
  | EShort (c l : Z) (d : list Z).         (** fewer than [l] octets of data *)

Definition entry_code_ok (c : Z) : Prop :=
  is_u8 c ∧ c ≠ DMDHCP_OPT_PAD ∧ c ≠ DMDHCP_OPT_END.

Definition item_ok (it : item) : Prop :=
  match it with
  | IPad => True
  | IOpt c d => entry_code_ok c ∧ (length d < 256)%nat
  end.

Definition ending_ok (e : ending) : Prop :=
  match e with
  | EEmpty | EEnd _ => True
  | ENoLength c => entry_code_ok c
  | EShort c l d => entry_code_ok c ∧ is_u8 l ∧ (length d < Z.to_nat l)%nat
  end.

Definition enc_item (it : item) : list Z :=
  match it with
  | IPad => [DMDHCP_OPT_PAD]
  | IOpt c d => c :: Z.of_nat (length d) :: d
  end.

Definition enc_ending (e : ending) : list Z :=
  match e with
  | EEmpty => []
  | EEnd rest => DMDHCP_OPT_END :: rest
  | ENoLength c => [c]
  | EShort c l d => c :: l :: d
  end.

Definition enc_area (items : list item) (e : ending) : list Z :=
  (items ≫= enc_item) ++ enc_ending e.

(** The data of the first entry with code [c], and the area after it *)
Fixpoint first_item (c : Z) (items : list item) (e : ending) : option (list Z * list Z) :=
  match items with
  | [] => None
  | IPad :: items => first_item c items e
  | IOpt c' d :: items => if c' =? c then Some (d, enc_area items e) else first_item c items e
  end.

Definition truncated (e : ending) : bool :=
  match e with
  | EEmpty | EEnd _ => false
  | ENoLength _ | EShort _ _ _ => true
  end.

(** The reference result of a search *)
Definition find_result (c : Z) (items : list item) (e : ending) (out : dmdhcp_option_t)
    : Z * dmdhcp_option_t :=
  match first_item c items e with
  | Some (d, after) => (0, DhcpOption c (Z.of_nat (length d)) (Some (d ++ after)))
  | None => (if truncated e then - EPROTO else - ENOENT, out)
  end.

(** ** Lemmas: writing *)
Lemma opt_data_length o : option_ok o → length (opt_data o) = Z.to_nat (len o).
Proof.
  intros (_ & Hl & Hd). unfold opt_data.
  destruct (data o) as [d|]; simpl; rewrite length_take.
  - lia.
  - unfold is_u8 in *. simpl. lia.
Qed.

Lemma encode_option_length o :
  option_ok o → length (encode_option o) = (2 + Z.to_nat (len o))%nat.
Proof. intros H. simpl. by rewrite opt_data_length. Qed.

Lemma encode_options_cons o os :
  encode_options (o :: os) = encode_option o ++ encode_options os.
Proof. done. Qed.

Lemma encode_options_length os :
  Forall option_ok os →
  length (encode_options os) = sum_list_with (λ o, 2 + Z.to_nat (len o))%nat os.
Proof.
  induction 1 as [|o os Ho _ IH]; [done|].
  rewrite encode_options_cons, length_app, encode_option_length, IH by done. done.
Qed.

(** One turn of the loop *)
Lemma options_write_loop_step n i options pre old buffer_len o :
  options !! i = Some o → option_ok o →
  (buffer_len ≤ length pre + length old)%nat →
  options_write_loop (S n) i options (pre ++ old) buffer_len (length pre) =
  if (buffer_len <? length pre + length (encode_option o))%nat
  then Some (- ENOSPC, pre ++ old, length pre)
  else options_write_loop n (S i) options
         ((pre ++ encode_option o) ++ drop (length (encode_option o)) old)
         buffer_len (length (pre ++ encode_option o)).
Proof.
  intros Hi Ho Hb. rewrite length_app, encode_option_length by done.
  pose proof (opt_data_length o Ho) as Hd. destruct Ho as (Hc & Hl & Hdata).
  cbn [options_write_loop]. rewrite Hi. cbn [mbind option_bind].
  assert (Hnull : negb (bool_decide (is_Some (data o))) && (0 <? Z.to_nat (len o))%nat = false).
  { destruct (data o); simpl; [done|]. by rewrite Hdata. }
  rewrite Hnull. rewrite (Nat.add_assoc (length pre)).
  destruct (Nat.ltb_spec buffer_len (length pre + 2 + Z.to_nat (len o))); [done|].
  destruct old as [|x0 [|x1 old]]; simpl in Hb; try lia.
  rewrite wr_app. cbn [mbind option_bind].
  change (code o :: x1 :: old) with ([code o] ++ x1 :: old). rewrite app_assoc.
  rewrite wr_app_at by (rewrite length_app; simpl; lia). cbn [mbind option_bind].
  destruct (Nat.ltb_spec 0 (Z.to_nat (len o))).
  - unfold opt_data in Hd. unfold encode_option, opt_data.
    destruct (data o) as [d|]; [|lia]. cbn [mbind option_bind from_option id] in *.
    rewrite mem_read_take by done. cbn [mbind option_bind].
    change (len o :: old) with ([len o] ++ old). rewrite app_assoc.
    rewrite mem_write_app_at by (rewrite ?length_app; simpl; rewrite ?Hd; lia).
    simpl. rewrite <- !app_assoc. simpl. rewrite Hd. done.
  - assert (Z.to_nat (len o) = 0%nat) as E by lia. rewrite E in *.
    unfold encode_option. apply length_zero_iff_nil in Hd as ->. simpl.
    rewrite <- !app_assoc. simpl. by rewrite Nat.add_0_r, drop_0.
Qed.

Lemma options_write_loop_ok todo : ∀ i options pre old buffer_len,
  (∀ k, k < length todo → options !! (i + k) = todo !! k)%nat →
  Forall option_ok todo →
  (length pre ≤ buffer_len ≤ length pre + length old)%nat →
  ∃ buf pos,
    options_write_loop (length todo) i options (pre ++ old) buffer_len (length pre) =
      (if (buffer_len <? length pre + length (encode_options todo))%nat
       then Some (- ENOSPC, buf, pos)
       else Some (0, pre ++ encode_options todo ++ drop (length (encode_options todo)) old,
                  (length pre + length (encode_options todo))%nat)) ∧
    tail_same buffer_len (pre ++ old) buf.
Proof.
  induction todo as [|o todo IH]; intros i options pre old buffer_len Hk Hok Hlen.
  { exists (pre ++ old), 0%nat. simpl. rewrite Nat.add_0_r, drop_0.
    destruct (Nat.ltb_spec buffer_len (length pre)); [lia|done]. }
  apply list.Forall_cons in Hok as [Ho Hok].
  change (length (o :: todo)) with (S (length todo)).
  rewrite (options_write_loop_step _ _ _ _ _ _ o);
    [|by rewrite <- (Nat.add_0_r i), Hk by (simpl; lia)|done|lia].
  rewrite encode_options_cons, (length_app (encode_option o)).
  destruct (Nat.ltb_spec buffer_len (length pre + length (encode_option o))) as [Hlt|Hge].
  { exists (pre ++ old), (length pre).
    destruct (Nat.ltb_spec buffer_len
      (length pre + (length (encode_option o) + length (encode_options todo)))); [by split|lia]. }
  destruct (IH (S i) options (pre ++ encode_option o) (drop (length (encode_option o)) old) buffer_len)
    as (buf & pos & Heq & Ht).
  - intros k Hlt. rewrite Nat.add_succ_comm. rewrite Hk by (simpl; lia). done.
  - done.
  - rewrite length_app, length_drop. lia.
  - exists buf, pos. rewrite Heq. rewrite length_app, Nat.add_assoc. split.
    + destruct (Nat.ltb_spec buffer_len
        (length pre + length (encode_option o) + length (encode_options todo))); [done|].
      by rewrite drop_drop, <- !app_assoc.
    + etransitivity; [|exact Ht]. split.
      * rewrite !length_app, length_drop. lia.
      * rewrite drop_app_ge by (rewrite length_app; lia). rewrite drop_drop.
        rewrite (drop_app_ge pre) by lia. f_equal. rewrite length_app. lia.
Qed.

(** ** Lemmas: scanning *)
Lemma enc_area_cons it items e : enc_area (it :: items) e = enc_item it ++ enc_area items e.
Proof. unfold enc_area. simpl. by rewrite app_assoc. Qed.

Lemma eqb_ne x y : x ≠ y → (x =? y) = false.
Proof. apply Z.eqb_neq. Qed.

(** The four endings *)
Lemma find_loop_ending e pre c out fuel :
  ending_ok e →
  options_find_loop (S fuel) (pre ++ enc_ending e) (length (pre ++ enc_ending e)) (length pre) c out
  = Some (find_result c [] e out).
Proof.
  intros He. cbn [options_find_loop]. rewrite length_app.
  destruct e as [|rest|c'|c' l d]; simpl in He; cbn [enc_ending length].
  - destruct (Nat.ltb_spec (length pre) (length pre + 0)); [lia|done].
  - destruct (Nat.ltb_spec (length pre) (length pre + S (length rest))); [|lia].
    by rewrite rd_app.
  - destruct (Nat.ltb_spec (length pre) (length pre + 1)); [|lia].
    rewrite rd_app. cbn [mbind option_bind]. destruct He as (_ & Hp & Hend).
    rewrite !eqb_ne by done.
    destruct (Nat.leb_spec (length pre + 1) (length pre + 1)); [done|lia].
  - destruct (Nat.ltb_spec (length pre) (length pre + S (S (length d)))); [|lia].
    rewrite rd_app. cbn [mbind option_bind]. destruct He as ((_ & Hp & Hend) & Hl & Hd).
    rewrite !eqb_ne by done.
    destruct (Nat.leb_spec (length pre + S (S (length d))) (length pre + 1)); [lia|].
    change (c' :: l :: d) with ([c'] ++ l :: d). rewrite app_assoc.
    rewrite rd_app_at by (rewrite length_app; done). cbn [mbind option_bind].
    destruct (Nat.ltb_spec (length pre + S (S (length d))) (length pre + 2 + Z.to_nat l)); [done|lia].
Qed.

Lemma find_loop_spec items e : ∀ pre c out fuel,
  Forall item_ok items → ending_ok e → (length (enc_area items e) < fuel)%nat →
  options_find_loop fuel (pre ++ enc_area items e) (length (pre ++ enc_area items e)) (length pre) c out
  = Some (find_result c items e out).
Proof.
  induction items as [|it items IH]; intros pre c out fuel Hok He Hf;
    (destruct fuel as [|fuel]; [lia|]).
  { by apply find_loop_ending. }
  apply list.Forall_cons in Hok as [Hit Hok]. rewrite enc_area_cons in *.
  rewrite app_assoc. cbn [options_find_loop].
  destruct it as [|c' d]; cbn [enc_item].
  - rewrite !length_app in *. cbn [length] in *.
    destruct (Nat.ltb_spec (length pre) (length pre + 1 + length (enc_area items e))); [|lia].
    rewrite <- app_assoc. cbn [app]. rewrite rd_app. cbn [mbind option_bind].
    change (DMDHCP_OPT_PAD =? DMDHCP_OPT_PAD) with true. cbv iota.
    specialize (IH (pre ++ [DMDHCP_OPT_PAD]) c out fuel Hok He).
    rewrite <- app_assoc in IH. cbn [app] in IH. rewrite !length_app in IH. cbn [length] in IH.
    etransitivity; [|apply IH; simpl in Hf; lia]. f_equal; lia.
  - destruct Hit as [(_ & Hp & Hend) Hd].
    set (after := enc_area items e) in *.
    assert (Hlen : length ((pre ++ c' :: Z.of_nat (length d) :: d) ++ after)
                   = (length pre + 2 + length d + length after)%nat).
    { rewrite !length_app. simpl. lia. }
    rewrite Hlen. cbn [enc_item app length] in Hf. rewrite length_app in Hf.
    destruct (Nat.ltb_spec (length pre) (length pre + 2 + length d + length after)); [|lia].
    rewrite <- app_assoc. cbn [app]. rewrite rd_app. cbn [mbind option_bind].
    rewrite (eqb_ne c' DMDHCP_OPT_PAD), (eqb_ne c' DMDHCP_OPT_END) by done.
    destruct (Nat.leb_spec (length pre + 2 + length d + length after) (length pre + 1)); [lia|].
    change (c' :: Z.of_nat (length d) :: d ++ after)
      with ([c'] ++ Z.of_nat (length d) :: d ++ after).
    rewrite (app_assoc pre).
    rewrite rd_app_at by (rewrite length_app; done). cbn [mbind option_bind].
    rewrite Nat2Z.id.
    destruct (Nat.ltb_spec (length pre + 2 + length d + length after)
      (length pre + 2 + length d)); [lia|].
    unfold find_result. cbn [first_item]. destruct (c' =? c) eqn:Ec.
    + apply Z.eqb_eq in Ec as ->. do 4 f_equal.
      change ((pre ++ [c]) ++ Z.of_nat (length d) :: d ++ after)
        with ((pre ++ [c]) ++ [Z.of_nat (length d)] ++ d ++ after).
      rewrite (app_assoc (pre ++ [c])).
      by rewrite drop_app_length' by (rewrite !length_app; simpl; lia).
    + specialize (IH (pre ++ c' :: Z.of_nat (length d) :: d) c out fuel Hok He).
      rewrite <- app_assoc in IH. cbn [app] in IH. unfold find_result in IH.
      rewrite <- app_assoc. cbn [app]. rewrite <- IH by lia. f_equal; rewrite ?length_app; simpl; rewrite ?length_app; simpl; lia.
Qed.

(** Every octet string is an options area. *)
Lemma area_exists n : ∀ bs,
  (length bs ≤ n)%nat → bytes_ok bs →
  ∃ items e, Forall item_ok items ∧ ending_ok e ∧ bs = enc_area items e.
Proof.
  induction n as [|n IH]; intros bs Hn Hok.
  { exists [], EEmpty. destruct bs; [by split_and!|simpl in Hn; lia]. }
  destruct bs as [|c bs]; [by exists [], EEmpty|].
  apply list.Forall_cons in Hok as [Hc Hok]. simpl in Hn.
  destruct (decide (c = DMDHCP_OPT_PAD)) as [->|Hpad].
  { destruct (IH bs) as (items & e & ? & ? & ->); [lia|done|].
    exists (IPad :: items), e. split_and!; [by constructor|done|]. by rewrite enc_area_cons. }
  destruct (decide (c = DMDHCP_OPT_END)) as [->|Hend].
  { by exists [], (EEnd bs). }
  destruct bs as [|l bs]; [by exists [], (ENoLength c)|].
  apply list.Forall_cons in Hok as [Hl Hok]. simpl in Hn.
  destruct (decide (length bs < Z.to_nat l)%nat).
  { by exists [], (EShort c l bs). }
  destruct (split_at (Z.to_nat l) bs) as (d & rest & -> & Hd); [lia|].
  apply Forall_app in Hok as [_ Hok]. rewrite length_app in Hn.
  destruct (IH rest) as (items & e & ? & ? & ->); [lia|done|].
  exists (IOpt c d :: items), e. unfold is_u8 in Hl. split_and!.
  - constructor; [|done]. split; [done|lia].
  - done.
  - rewrite enc_area_cons. simpl. rewrite Hd, Z2Nat.id by lia. done.
Qed.

(** ** Lemmas: the exported functions *)

(** The area [dmdhcp_options_find] is given, decomposed *)
Lemma options_find_area items e c out :
  Forall item_ok items → ending_ok e →
  dmdhcp_options_find (Some (enc_area items e)) (length (enc_area items e)) c (Some out)
  = Some ((find_result c items e out).1, Some (find_result c items e out).2).
Proof.
  intros Hok He. unfold dmdhcp_options_find.
  pose proof (find_loop_spec items e [] c out (S (length (enc_area items e))) Hok He) as H.
  cbn [app length] in H. rewrite H by lia. done.
Qed.

(** A search succeeds, or leaves its output alone; a hit carries data that
    reaches its length. *)
Lemma options_find_cases opts c out :
  bytes_ok opts →
  (∃ d after, dmdhcp_options_find (Some opts) (length opts) c (Some out)
     = Some (0, Some (DhcpOption c (Z.of_nat (length d)) (Some (d ++ after)))) ∧
     (length d < 256)%nat ∧ bytes_ok d) ∨
  (∃ rc, dmdhcp_options_find (Some opts) (length opts) c (Some out) = Some (rc, Some out) ∧
     (rc = - ENOENT ∨ rc = - EPROTO)).
Proof.
  intros Hok. destruct (area_exists (length opts) opts) as (items & e & Hi & He & ->); [lia|done|].
  rewrite options_find_area by done. unfold find_result.
  destruct (first_item c items e) as [[d after]|] eqn:E.
  - left. exists d, after. split; [done|].
    clear He. revert Hok. induction items as [|it items IH]; [done|].
    apply list.Forall_cons in Hi as [Hit Hi]. rewrite enc_area_cons.
    unfold bytes_ok. rewrite Forall_app. intros [Hb Hok].
    destruct it as [|c' d']; simpl in E; [by apply IH|].
    destruct (c' =? c); [|by apply IH]. simplify_eq. simpl in Hb. decompose_Forall_hyps.
    split; [apply Hit|done].
  - right. destruct (truncated e); eauto.
Qed.

Definition item_of (o : dmdhcp_option_t) : item := IOpt (code o) (opt_data o).

Lemma encode_options_area os :
  Forall option_ok os →
  encode_options os ++ [DMDHCP_OPT_END] = enc_area (item_of <$> os) (EEnd []).
Proof.
  induction 1 as [|o os Ho Hos IH]; [done|].
  rewrite fmap_cons, enc_area_cons, <- IH, encode_options_cons, <- app_assoc.
  f_equal. unfold item_of, encode_option. simpl. rewrite opt_data_length by done.
  destruct Ho as (_ & Hl & _). unfold is_u8 in Hl. by rewrite Z2Nat.id by lia.
Qed.

Lemma options_write_spec os buf n old_len :
  Forall option_ok os → (n ≤ length buf)%nat →
  let total := length (encode_options os) in
  ∃ buf', dmdhcp_options_write (Some buf) n (Some os) (length os) (Some old_len) =
    (if (n <=? total)%nat then Some (- ENOSPC, Some buf', Some old_len)
     else Some (0, Some ((encode_options os ++ [DMDHCP_OPT_END]) ++ drop (total + 1) buf),
                Some (total + 1)%nat)) ∧
    tail_same n buf buf'.
Proof.
  intros Hok Hn total. unfold dmdhcp_options_write. cbn [from_option].
  change (negb (bool_decide (is_Some (Some os)))) with false. cbn [andb].
  destruct (options_write_loop_ok os 0 os [] buf n) as (buf' & pos & Heq & Ht); [done|done|simpl; lia|].
  simpl in Heq. fold total in Heq. unfold id. rewrite Heq. clear Heq.
  destruct (Nat.ltb_spec n total); cbn [mbind option_bind].
  { exists buf'. destruct (Nat.leb_spec n total); [done|lia]. }
  change (negb (0 =? 0)) with false. cbv iota.
  destruct (Nat.leb_spec n total).
  { exists (encode_options os ++ drop total buf).
    destruct (Nat.ltb_spec n (total + 1)); [|lia]. split; [done|]. split.
    - rewrite length_app, length_drop. unfold total. lia.
    - rewrite drop_app_ge by (unfold total in *; lia). rewrite drop_drop. f_equal.
      unfold total in *. lia. }
  destruct (Nat.ltb_spec n (total + 1)); [lia|]. exists buf. split; [|done].
  destruct (drop total buf) as [|x rest] eqn:Ed.
  { apply (f_equal length) in Ed. rewrite length_drop in Ed. simpl in Ed. lia. }
  rewrite wr_app_at by done. cbn [mbind option_bind]. do 3 f_equal.
  rewrite <- app_assoc. do 2 f_equal. simpl. f_equal.
  rewrite <- drop_drop, Ed. done.
Qed.

Lemma read_u32_be_take d :
  length d = 4%nat → bytes_ok d → ∀ after,
  ∃ v, read_u32_be (d ++ after) = Some v ∧ is_u32 v.
Proof.
  intros (a & b & c & e & ->)%length4 Hok after. unfold bytes_ok in Hok. decompose_Forall_hyps.
  eexists. split; [done|]. auto with dhcp.
Qed.

Lemma option_get_u32_spec c d after out :
  bytes_ok d →
  dmdhcp_option_get_u32 (Some (DhcpOption c (Z.of_nat (length d)) (Some (d ++ after)))) (Some out)
  = match d with
    | [a; b; c'; e] => Some (0, Some (a * 16777216 + b * 65536 + c' * 256 + e))
    | _ => Some (- EINVAL, Some out)
    end.
Proof.
  intros Hok. unfold dmdhcp_option_get_u32. cbn [len data].
  destruct d as [|a [|b [|c' [|e [|x d]]]]]; try done.
  - simpl. unfold bytes_ok in Hok. decompose_Forall_hyps. unfold read_u32_be. simpl.
    by rewrite be32_value.
  - destruct (Z.eqb_spec (Z.of_nat (length (a :: b :: c' :: e :: x :: d))) 4) as [E|]; [|done].
    simpl in E. lia.
Qed.

Lemma option_get_addr_spec c d after out :
  dmdhcp_option_get_addr (Some (DhcpOption c (Z.of_nat (length d)) (Some (d ++ after)))) (Some out)
  = if (length d =? 4)%nat then Some (0, Some (Addr dmroute_family_v4 d))
    else Some (- EINVAL, Some out).
Proof.
  unfold dmdhcp_option_get_addr. cbn [len data].
  destruct (Nat.eqb_spec (length d) 4) as [E|E].
  - rewrite E. simpl. rewrite mem_read_take by (rewrite length_app, E; unfold DMROUTE_IPV4_ADDR_LEN; lia).
    simpl. by rewrite take_app_length' by done.
  - by rewrite eqb_ne by lia.
Qed.

(** The [i]-th address of a multi-address option *)
Definition addr_at (d : list Z) (i : nat) : dmroute_addr_t :=
  Addr dmroute_family_v4 (take 4 (drop (i * 4) d)).

Lemma option_addr_count_spec c d after :
  dmdhcp_option_addr_count (Some (DhcpOption c (Z.of_nat (length d)) (Some (d ++ after))))
  = (length d `div` 4)%nat.
Proof. unfold dmdhcp_option_addr_count. simpl. by rewrite Nat2Z.id. Qed.

Lemma option_get_addr_at_spec c d after i out :
  dmdhcp_option_get_addr_at (Some (DhcpOption c (Z.of_nat (length d)) (Some (d ++ after)))) i (Some out)
  = if (i <? length d `div` 4)%nat then Some (0, Some (addr_at d i)) else Some (- EINVAL, Some out).
Proof.
  unfold dmdhcp_option_get_addr_at, addr_at. cbn [len data]. rewrite Nat2Z.id.
  change DMROUTE_IPV4_ADDR_LEN with 4%nat.
  destruct (Nat.leb_spec (length d `div` 4) i), (Nat.ltb_spec i (length d `div` 4)); try lia; [done|].
  pose proof (Nat.Div0.mul_div_le (length d) 4). cbn [mbind option_bind].
  unfold mem_read. rewrite length_app.
  destruct (Nat.leb_spec (i * 4 + 4) (length d + length after)); [|lia].
  simpl. do 3 f_equal. rewrite drop_app_le by lia.
  rewrite take_app_le; [done|]. rewrite length_drop. lia.
Qed.

Lemma addr_at_ok d i :
  bytes_ok d → (i < length d `div` 4)%nat → addr_ok (addr_at d i).
Proof.
  intros Hok Hi. pose proof (Nat.Div0.mul_div_le (length d) 4).
  split; simpl.
  - rewrite length_take, length_drop. unfold DMROUTE_IPV4_ADDR_LEN. lia.
  - unfold bytes_ok. by apply Forall_take, Forall_drop.
Qed.

(** The data of option [c] in an options area, as a search reports it *)
Definition option_found (area : list Z) (c : Z) : option (list Z) :=
  match dmdhcp_options_find (Some area) (length area) c (Some (DhcpOption 0 0 None)) with
  | Some (rc, Some o) => if rc =? 0 then Some (opt_data o) else None
  | _ => None
  end.

Lemma option_found_spec area c :
  bytes_ok area →
  match option_found area c with
  | Some d => ∃ after,
      dmdhcp_options_find (Some area) (length area) c (Some (DhcpOption 0 0 None))
      = Some (0, Some (DhcpOption c (Z.of_nat (length d)) (Some (d ++ after)))) ∧
      (length d < 256)%nat ∧ bytes_ok d
  | None => ∃ rc, rc ≠ 0 ∧
      dmdhcp_options_find (Some area) (length area) c (Some (DhcpOption 0 0 None))
      = Some (rc, Some (DhcpOption 0 0 None))
  end.
Proof.
  intros Hok. unfold option_found.
  destruct (options_find_cases area c (DhcpOption 0 0 None) Hok) as [(d & after & -> & Hd)|(rc & -> & Hrc)].
  - simpl. unfold opt_data. simpl. rewrite Nat2Z.id, take_app_length. by exists after.
  - assert (rc ≠ 0) by (unfold ENOENT, EPROTO in Hrc; lia).
    destruct (Z.eqb_spec rc 0); [done|]. by exists rc.
Qed.

(** Searching an encoded list *)
Lemma encoded_find os c out :
  Forall (λ o, option_ok o ∧ entry_code_ok (code o)) os →
  let area := encode_options os ++ [DMDHCP_OPT_END] in
  match List.find (λ o, code o =? c) os with
  | Some o => ∃ found,
      dmdhcp_options_find (Some area) (length area) c (Some out) = Some (0, Some found) ∧
      code found = c ∧ len found = len o ∧ opt_data found = opt_data o
  | None => dmdhcp_options_find (Some area) (length area) c (Some out) = Some (- ENOENT, Some out)
  end.
Proof.
  intros Hos area. assert (Hok : Forall option_ok os) by (eapply Forall_impl; [|exact Hos]; by intros ? [? _]).
  subst area. rewrite encode_options_area by done.
  assert (Hi : Forall item_ok (item_of <$> os)).
  { clear -Hos. induction Hos as [|o os [Ho Hc] _ IH]; constructor; [|done].
    split; [done|]. rewrite opt_data_length by done. destruct Ho as (_ & Hlen & _).
    unfold is_u8 in Hlen. lia. }
  rewrite options_find_area by done. unfold find_result.
  assert (He : truncated (EEnd []) = false) by done.
  revert He. clear -Hok. generalize (EEnd []) as e. intros e He.
  induction Hok as [|o os Ho Hok IH]; [simpl; by rewrite He|].
  rewrite fmap_cons. simpl. destruct (Z.eqb_spec (code o) c) as [<-|_]; [|exact IH].
  eexists. split; [done|]. simpl. split; [done|].
  pose proof (opt_data_length o Ho) as Hl. destruct Ho as (_ & Hlen & _). unfold is_u8 in Hlen.
  split; [lia|]. unfold opt_data at 1. simpl.
  by rewrite Nat2Z.id, take_app_length.
Qed.

(** ** Properties *)

(** C27: [dmdhcp_options_find] is exactly the RFC 2132 search.  Every octet
    string reads as PADs and complete entries followed by one of four endings
    (exhausted, END, a code without its length, an entry whose data is cut
    short), and on any such reading the search terminates within the fuel,
    never reads outside the area, returns the data of the first entry with the
    code, and otherwise [-EPROTO] on a cut-short ending and [-ENOENT] on the
    others with the output untouched. *)
Theorem options_find_exact opts c out :
  bytes_ok opts →
  (∃ items e, Forall item_ok items ∧ ending_ok e ∧ opts = enc_area items e) ∧
  ∀ items e, Forall item_ok items → ending_ok e → opts = enc_area items e →
    dmdhcp_options_find (Some opts) (length opts) c (Some out) =
      match first_item c items e with
      | Some (d, after) =>
          Some (0, Some (DhcpOption c (Z.of_nat (length d)) (Some (d ++ after))))
      | None => Some (if truncated e then - EPROTO else - ENOENT, Some out)
      end.
Proof.
  intros Hok. split; [by apply (area_exists (length opts))|].
  intros items e Hi He ->. rewrite options_find_area by done. unfold find_result.
  by destruct (first_item c items e) as [[d after]|].
Qed.

(** C28: [dmdhcp_options_write] on any well-formed option list.  It succeeds
    exactly when the encoding and its END marker fit the capacity, and then
    the buffer holds exactly that encoding, [*out_len] its length, and the
    rest of the buffer is unchanged; otherwise it is [-ENOSPC], [*out_len] is
    untouched and nothing past the capacity is written. *)
Theorem options_write_exact os buf n old_len :
  Forall option_ok os → (n ≤ length buf)%nat →
  let encoded := encode_options os ++ [DMDHCP_OPT_END] in
  ∃ buf', dmdhcp_options_write (Some buf) n (Some os) (length os) (Some old_len) =
    (if (length encoded <=? n)%nat
     then Some (0, Some (encoded ++ drop (length encoded) buf), Some (length encoded))
     else Some (- ENOSPC, Some buf', Some old_len)) ∧
    tail_same n buf buf'.
Proof.
  intros Hok Hn encoded.
  destruct (options_write_spec os buf n old_len Hok Hn) as (buf' & Heq & Ht).
  exists buf'. split; [|done]. rewrite Heq. subst encoded.
  assert (Hl : length (encode_options os ++ [DMDHCP_OPT_END]) = (length (encode_options os) + 1)%nat)
    by (by rewrite length_app). rewrite Hl.
  destruct (Nat.leb_spec n (length (encode_options os))),
    (Nat.leb_spec (length (encode_options os) + 1) n); try lia; done.
Qed.

(** C29: write/find round trip.  Searching the octets [dmdhcp_options_write]
    produced finds, for every code, the first option written with that code -
    its length and its data - and reports [-ENOENT] for a code that was not
    written.  (PAD and END are not option codes.) *)
Theorem options_write_find os buf n c out :
  Forall (λ o, option_ok o ∧ entry_code_ok (code o)) os → (n ≤ length buf)%nat →
  (length (encode_options os) < n)%nat →
  ∃ buf' written,
    dmdhcp_options_write (Some buf) n (Some os) (length os) (Some 0%nat)
      = Some (0, Some buf', Some written) ∧
    match List.find (λ o, code o =? c) os with
    | Some o => ∃ found,
        dmdhcp_options_find (Some (take written buf')) written c (Some out) = Some (0, Some found) ∧
        code found = c ∧ len found = len o ∧ opt_data found = opt_data o
    | None =>
        dmdhcp_options_find (Some (take written buf')) written c (Some out) = Some (- ENOENT, Some out)
    end.
Proof.
  intros Hos Hn Hfit. assert (Hok : Forall option_ok os) by (eapply Forall_impl; [|exact Hos]; by intros ? [? _]).
  destruct (options_write_spec os buf n 0 Hok Hn) as (b' & Heq & _).
  destruct (Nat.leb_spec n (length (encode_options os))); [lia|]. clear b'.
  set (encoded := encode_options os ++ [DMDHCP_OPT_END]) in *.
  assert (Hl : length encoded = (length (encode_options os) + 1)%nat).
  { unfold encoded. by rewrite length_app. }
  do 2 eexists. split; [exact Heq|].
  rewrite <- Hl, take_app_length. by apply encoded_find.
Qed.

(** Decoding stays inside the option.  For an option found in an area
    (its [data] may continue with the rest of the area), the 4-octet decoders
    succeed exactly on length 4 and give the big-endian word or the address,
    the address count is the number of complete 4-octet groups, and the [i]-th
    address is the [i]-th group for every index below the count, [-EINVAL]
    with the output untouched at or above it. *)
Theorem option_decoders_exact c d after v0 a0 :
  bytes_ok d →
  let opt := Some (DhcpOption c (Z.of_nat (length d)) (Some (d ++ after))) in
  dmdhcp_option_get_u32 opt (Some v0) =
    match d with
    | [b0; b1; b2; b3] => Some (0, Some (b0 * 2 ^ 24 + b1 * 2 ^ 16 + b2 * 2 ^ 8 + b3))
    | _ => Some (- EINVAL, Some v0)
    end ∧
  dmdhcp_option_get_addr opt (Some a0) =
    (if (length d =? 4)%nat then Some (0, Some (Addr dmroute_family_v4 d)) else Some (- EINVAL, Some a0)) ∧
  dmdhcp_option_addr_count opt = (length d `div` 4)%nat ∧
  ∀ i, dmdhcp_option_get_addr_at opt i (Some a0) =
    if (i <? length d `div` 4)%nat
    then Some (0, Some (Addr dmroute_family_v4 (take 4 (drop (4 * i) d))))
    else Some (- EINVAL, Some a0).
Proof.
  intros Hok opt. subst opt. split_and!.
  - by apply option_get_u32_spec.
  - apply option_get_addr_spec.
  - apply option_addr_count_spec.
  - intros i. rewrite option_get_addr_at_spec. unfold addr_at. by rewrite Nat.mul_comm.
Qed.

(** ** Witnesses *)
Definition sample_options : list dmdhcp_option_t :=
  [ DhcpOption DMDHCP_OPT_MSG_TYPE 1 (Some [2]);
    DhcpOption DMDHCP_OPT_REQUESTED_IP 4 (Some [10; 0; 0; 5]) ].

Lemma sample_options_ok :
  Forall (λ o, option_ok o ∧ entry_code_ok (code o)) sample_options.
Proof. repeat constructor; unfold is_u8; simpl; first [lia | done]. Qed.

Definition out0 : dmdhcp_option_t := DhcpOption 0 0 None.

Lemma options_find_exact_witness :
  dmdhcp_options_find (Some [0; 0; 53; 1; 5; 255; 99; 1; 1]) 9 53 (Some out0)
  = Some (0, Some (DhcpOption 53 1 (Some ([5] ++ [255; 99; 1; 1])))) ∧
  dmdhcp_options_find (Some [0; 0; 53; 1; 5; 255; 99; 1; 1]) 9 99 (Some out0)
  = Some (- ENOENT, Some out0).
Proof.
  assert (Forall item_ok [IPad; IPad; IOpt 53 [5]]).
  { repeat constructor; unfold is_u8; simpl; first [lia | done]. }
  assert (Hb : bytes_ok [0; 0; 53; 1; 5; 255; 99; 1; 1]) by (by apply bytes_okb_ok).
  split.
  - by apply (proj2 (options_find_exact [0; 0; 53; 1; 5; 255; 99; 1; 1] 53 out0 Hb)
      [IPad; IPad; IOpt 53 [5]] (EEnd [99; 1; 1])).
  - by apply (proj2 (options_find_exact [0; 0; 53; 1; 5; 255; 99; 1; 1] 99 out0 Hb)
      [IPad; IPad; IOpt 53 [5]] (EEnd [99; 1; 1])).
Defined.

Lemma options_write_exact_witness :
  ∃ buf', dmdhcp_options_write (Some (replicate 32 7)) 32 (Some sample_options) 2 (Some 0%nat) =
    Some (0, Some ([53; 1; 2; 50; 4; 10; 0; 0; 5; 255] ++ replicate 22 7), Some 10%nat) ∧
    tail_same 32 (replicate 32 7) buf'.
Proof.
  apply (options_write_exact sample_options (replicate 32 7) 32 0).
  - eapply Forall_impl; [|apply sample_options_ok]. intros o Ho. apply Ho.
  - by rewrite length_replicate.
Defined.

Lemma options_write_find_witness :
  ∃ buf' written,
    dmdhcp_options_write (Some (replicate 32 7)) 32 (Some sample_options) 2 (Some 0%nat)
      = Some (0, Some buf', Some written) ∧
    ∃ found,
      dmdhcp_options_find (Some (take written buf')) written 50 (Some out0) = Some (0, Some found) ∧
      code found = 50 ∧ len found = 4 ∧ opt_data found = [10; 0; 0; 5].
Proof.
  apply (options_write_find sample_options (replicate 32 7) 32 50 out0 sample_options_ok).
  - by rewrite length_replicate.
  - simpl. lia.
Defined.

Lemma option_decoders_exact_witness :
  dmdhcp_option_get_addr_at (Some (DhcpOption 6 8 (Some ([8; 8; 8; 8; 1; 1; 1; 1] ++ [255])))) 1 (Some addr_none)
  = Some (0, Some (Addr dmroute_family_v4 [1; 1; 1; 1])).
Proof.
  apply (option_decoders_exact 6 [8; 8; 8; 8; 1; 1; 1; 1] [255] 0 addr_none).
  apply bytes_okb_ok. reflexivity.
Defined.
