(* ===== verification/Platform.v ===== *)
(** The platform: every function of another module the code calls.

    Nothing here is code of the repository.  A call is an event [call] that is
    recorded in a trace; what it answers is decided by the environment, a
    function of the calls made so far and of the call itself, so a theorem
    over every [Env] holds whatever the other modules do.  [EnvOk] states the
    documented facts the code relies on.

    What the code owes the platform is monitored, and breaking it is undefined
    behaviour: a mutex is locked only when it is live and not held
    ([dmosi_mutex_create(false)] is not recursive), unlocked only when held,
    destroyed only when live and free; a timer is used only while it is live,
    and is never destroyed from its own callback, where
    [dmosi_timer_destroy()] would join its own thread. *)
From S2P Require Import Prelude Types.

(** ** dmlist

    The list module, as an interface: an abstract container, its operations,
    and the list of its elements that states what they do. *)
Class DmList := {
  dmlist : Type → Type;
  dmlist_empty : ∀ A, dmlist A;
  dmlist_size : ∀ {A}, dmlist A → nat;
  dmlist_get : ∀ {A}, dmlist A → nat → option A;
  dmlist_push_back : ∀ {A}, dmlist A → A → dmlist A;
  dmlist_pop_front : ∀ {A}, dmlist A → option A * dmlist A;
  dmlist_find : ∀ {A}, dmlist A → (A → bool) → option A;
  dmlist_remove : ∀ {A}, dmlist A → (A → bool) → dmlist A;
  dmlist_elems : ∀ {A}, dmlist A → list A;
}.

Class DmListLaws (D : DmList) := {
  elems_empty A : dmlist_elems (dmlist_empty A) = [];
  elems_size A (l : dmlist A) : dmlist_size l = length (dmlist_elems l);
  elems_get A (l : dmlist A) i : dmlist_get l i = dmlist_elems l !! i;
  elems_push A (l : dmlist A) x : dmlist_elems (dmlist_push_back l x) = dmlist_elems l ++ [x];
  elems_pop A (l : dmlist A) :
    (dmlist_pop_front l).1 = head (dmlist_elems l) ∧
    dmlist_elems (dmlist_pop_front l).2 = tail (dmlist_elems l);
  elems_find A (l : dmlist A) f : dmlist_find l f = List.find f (dmlist_elems l);
  elems_remove A (l : dmlist A) f :
    (length (List.filter f (dmlist_elems l)) ≤ 1)%nat →
    dmlist_elems (dmlist_remove l f) = List.filter (λ x, negb (f x)) (dmlist_elems l);
}.

(** ** Calls *)
Abbreviation handle := positive (only parsing).   (** a mutex, a timer *)
Abbreviation ptr := positive (only parsing).      (** a [struct dmdhcp_lease*] that is not NULL *)
Definition iface_t : Set := Z.         (** a [dmnetif_iface_t]; 0 is NULL *)

Inductive timer_kind : Set := retransmit_timer_kind | lease_timer_kind.

Inductive call : Set :=
  (* dmod *)
  | c_malloc (size : nat)
  | c_strdup (s : list Z)
  (* dmosi *)
  | c_rand32
  | c_mutex_create (recursive : bool)
  | c_mutex_lock (m : handle)
  | c_mutex_unlock (m : handle)
  | c_mutex_destroy (m : handle)
  | c_timer_create (k : timer_kind) (lease : ptr) (period_ms : Z) (auto_reload : bool)
  | c_timer_set_period (t : handle) (period_ms : Z)
  | c_timer_start (t : handle)
  | c_timer_stop (t : handle)
  | c_timer_destroy (t : handle)
  (* dmlist *)
  | c_list_create
  | c_list_push
  | c_list_destroy
  (* dmnetif, dmroute, dmarp *)
  | c_get_mac_address (i : iface_t)
  | c_get_name (i : iface_t)
  | c_set_netmask (i : iface_t) (a : dmroute_addr_t)
  | c_set_ip_address (i : iface_t) (a : dmroute_addr_t)
  | c_set_broadcast (i : iface_t) (a : dmroute_addr_t)
  | c_route_add (dst mask gateway : dmroute_addr_t) (name : Z) (metric : Z)
  | c_route_remove (r : Z)
  | c_arp_resolve (i : iface_t) (ip : dmroute_addr_t) (timeout_ms : Z)
  | c_find_by_name (name : list Z)
  (* dmudp *)
  | c_udp_send (dst : dmroute_addr_t) (src_port dst_port : Z) (payload : list Z) (arp_timeout_ms : Z)
  | c_udp_send_on_iface (i : iface_t) (dst : dmroute_addr_t) (src_port dst_port : Z)
      (payload : list Z) (arp_timeout_ms : Z)
  | c_udp_bind (port : Z)
  | c_udp_unbind (port : Z)
  (* functions the application or a discovery consumer passed in *)
  | c_on_bound (fn : Z) (lease : ptr) (is_renewal : bool) (user_data : Z)
  | c_on_expired (fn : Z) (lease : ptr) (user_data : Z)
  | c_on_error (fn : Z) (lease : ptr) (error : Z) (user_data : Z)
  | c_visit_dns (fn : Z) (ctx : Z) (server : dmroute_addr_t)
  | c_visit_ntp (fn : Z) (ctx : Z) (ipv4 : list Z).

(** What a call answers: a result code, a value, whether an allocation
    succeeded. *)
Definition answer_of (c : call) : Set :=
  match c with
  | c_malloc _ => option (list Z)          (* the block, with what it contains *)
  | c_strdup _ | c_mutex_create _ | c_timer_create _ _ _ _ | c_list_create | c_list_push => bool
  | c_get_mac_address _ => option (list Z) (* the address, when one is reported *)
  | c_route_add _ _ _ _ _ => option Z
  | c_rand32 | c_get_name _ | c_set_netmask _ _ | c_set_ip_address _ _ | c_set_broadcast _ _
  | c_arp_resolve _ _ _ | c_udp_send _ _ _ _ _ | c_udp_send_on_iface _ _ _ _ _ _
  | c_udp_bind _ | c_visit_dns _ _ _ | c_visit_ntp _ _ _ | c_find_by_name _ => Z
  | _ => unit
  end.

(** The environment, and the constants of other modules' headers *)
Class Env := {
  answer : list call → ∀ c : call, answer_of c;
  DMNETIF_MAC_ADDR_LEN : nat;
  DMROUTE_DEFAULT_METRIC : Z;
  family_zero : dmroute_family_t;   (** the family of a zero-initialised address *)
  SIZEOF_LEASE : nat;               (** [sizeof(struct dmdhcp_lease)] *)
  SIZEOF_ADDR : nat;                (** [sizeof(dmroute_addr_t)] *)
}.

Class EnvOk (E : Env) := {
  rand32_range h : is_u32 (answer h c_rand32);
  malloc_size h n block : answer h (c_malloc n) = Some block → length block = n;
  mac_len : (DMNETIF_MAC_ADDR_LEN ≤ DMDHCP_CHADDR_LEN)%nat;
  mac_bytes h i mac : answer h (c_get_mac_address i) = Some mac →
    length mac = DMNETIF_MAC_ADDR_LEN ∧ bytes_ok mac;
  family_zero_none : family_zero = dmroute_family_none;
}.

(** [dmroute_addr_t x = { 0 };] *)
Definition addr_zero `{Env} : dmroute_addr_t := Addr family_zero v4_zero.

(** ** The platform state

    [trace], oldest first; the live mutexes and whether they are held; the
    live timers; the timer whose callback is running; the heap blocks (other
    than leases) and lists that are allocated; the next handle. *)
Record io : Type := Io {
  trace : list call;
  mutexes : gmap handle bool;
  timers : gset handle;
  running : option handle;
  blocks : Z;
  lists : Z;
  next_id : positive;
}.

Definition io_eta : io → io := λ s,
  Io (trace s) (mutexes s) (timers s) (running s) (blocks s) (lists s) (next_id s).

Definition set_trace : list call → io → io := ltac:(mk_set io_eta trace).
Definition set_mutexes : gmap handle bool → io → io := ltac:(mk_set io_eta mutexes).
Definition set_timers : gset handle → io → io := ltac:(mk_set io_eta timers).
Definition set_running : option handle → io → io := ltac:(mk_set io_eta running).
Definition set_blocks : Z → io → io := ltac:(mk_set io_eta blocks).
Definition set_lists : Z → io → io := ltac:(mk_set io_eta lists).
Definition set_next_id : positive → io → io := ltac:(mk_set io_eta next_id).

Definition log (c : call) (s : io) : io := set_trace (trace s ++ [c]) s.

(** A fresh handle *)
Definition new_id : st io positive := λ s, Some (next_id s, set_next_id (Pos.succ (next_id s)) s).

Section Calls.
Context `{Env}.

Definition ext (c : call) : st io (answer_of c) := λ s,
  Some (answer (trace s) c, log c s).

(** ** dmosi *)
Definition dmosi_rand32 : st io Z := ext c_rand32.

Definition dmosi_mutex_create (recursive : bool) : st io (option handle) :=
  ok ← (ext (c_mutex_create recursive) : st io bool);
  if ok : bool then
    m ← new_id;
    st_modify (λ s, set_mutexes (<[m := false]> (mutexes s)) s);;
    mret (Some m)
  else mret None.

Definition dmosi_mutex_lock (m : option handle) : st io unit := λ s,
  match m with
  | Some m =>
      match mutexes s !! m with
      | Some false => Some (tt, log (c_mutex_lock m) (set_mutexes (<[m := true]> (mutexes s)) s))
      | _ => None
      end
  | None => None
  end.

Definition dmosi_mutex_unlock (m : option handle) : st io unit := λ s,
  match m with
  | Some m =>
      match mutexes s !! m with
      | Some true => Some (tt, log (c_mutex_unlock m) (set_mutexes (<[m := false]> (mutexes s)) s))
      | _ => None
      end
  | None => None
  end.

Definition dmosi_mutex_destroy (m : option handle) : st io unit := λ s,
  match m with
  | Some m =>
      match mutexes s !! m with
      | Some false => Some (tt, log (c_mutex_destroy m) (set_mutexes (delete m (mutexes s)) s))
      | _ => None
      end
  | None => None
  end.

Definition dmosi_timer_create (k : timer_kind) (lease : ptr) (period_ms : Z) (auto_reload : bool)
    : st io (option handle) :=
  ok ← (ext (c_timer_create k lease period_ms auto_reload) : st io bool);
  if ok : bool then
    t ← new_id;
    st_modify (λ s, set_timers ({[t]} ∪ timers s) s);;
    mret (Some t)
  else mret None.

(** A call on a live timer *)
Definition timer_call (t : option handle) (c : handle → call) : st io unit := λ s,
  match t with
  | Some t => if decide (t ∈ timers s) then Some (tt, log (c t) s) else None
  | None => None
  end.

Definition dmosi_timer_set_period (t : option handle) (period_ms : Z) : st io unit :=
  timer_call t (λ t, c_timer_set_period t period_ms).
Definition dmosi_timer_start (t : option handle) : st io unit := timer_call t c_timer_start.
Definition dmosi_timer_stop (t : option handle) : st io unit := timer_call t c_timer_stop.

Definition dmosi_timer_destroy (t : option handle) : st io unit := λ s,
  match t with
  | Some t =>
      if decide (t ∈ timers s ∧ running s ≠ Some t)
      then Some (tt, log (c_timer_destroy t) (set_timers (timers s ∖ {[t]}) s))
      else None
  | None => None
  end.

(** ** dmod: heap blocks (leases are kept apart, see World.v) *)
Definition Dmod_Malloc (size : nat) : st io (option (list Z)) :=
  block ← (ext (c_malloc size) : st io (option (list Z)));
  match block with
  | Some b => st_modify (λ s, set_blocks (blocks s + 1) s);; mret (Some b)
  | None => mret None
  end.

Definition Dmod_Free : st io unit := st_modify (λ s, set_blocks (blocks s - 1) s).

Definition Dmod_StrDup (s : list Z) : st io (option (list Z)) :=
  ok ← (ext (c_strdup s) : st io bool);
  if ok : bool then st_modify (λ s, set_blocks (blocks s + 1) s);; mret (Some s)
  else mret None.

(** ** dmlist: allocation *)
Definition dmlist_create `{DmList} (A : Type) : st io (option (dmlist A)) :=
  ok ← (ext c_list_create : st io bool);
  if ok : bool then st_modify (λ s, set_lists (lists s + 1) s);; mret (Some (dmlist_empty A))
  else mret None.

Definition dmlist_destroy : st io unit :=
  ext c_list_destroy;; st_modify (λ s, set_lists (lists s - 1) s).

(** [dmlist_push_back] allocates a node, so it may fail. *)
Definition dmlist_try_push `{DmList} {A} (l : dmlist A) (x : A) : st io (option (dmlist A)) :=
  ok ← (ext c_list_push : st io bool);
  mret (if ok : bool then Some (dmlist_push_back l x) else None).

(** ** dmnetif, dmroute, dmarp, dmudp *)
Definition dmnetif_get_mac_address (i : iface_t) : st io (option (list Z)) := ext (c_get_mac_address i).
Definition dmnetif_get_name (i : iface_t) : st io Z := ext (c_get_name i).
Definition dmnetif_find_by_name (name : list Z) : st io Z := ext (c_find_by_name name).
Definition dmnetif_set_netmask (i : iface_t) (a : dmroute_addr_t) : st io Z := ext (c_set_netmask i a).
Definition dmnetif_set_ip_address (i : iface_t) (a : dmroute_addr_t) : st io Z := ext (c_set_ip_address i a).
Definition dmnetif_set_broadcast (i : iface_t) (a : dmroute_addr_t) : st io Z := ext (c_set_broadcast i a).
Definition dmroute_add (dst mask gateway : dmroute_addr_t) (name metric : Z) : st io (option Z) :=
  ext (c_route_add dst mask gateway name metric).
Definition dmroute_remove (r : Z) : st io unit := ext (c_route_remove r).
Definition dmarp_resolve (i : iface_t) (ip : dmroute_addr_t) (timeout_ms : Z) : st io Z :=
  ext (c_arp_resolve i ip timeout_ms).
Definition dmudp_send dst src_port dst_port payload arp_timeout_ms : st io Z :=
  ext (c_udp_send dst src_port dst_port payload arp_timeout_ms).
Definition dmudp_send_on_iface i dst src_port dst_port payload arp_timeout_ms : st io Z :=
  ext (c_udp_send_on_iface i dst src_port dst_port payload arp_timeout_ms).
Definition dmudp_bind (port : Z) : st io Z := ext (c_udp_bind port).
Definition dmudp_unbind (port : Z) : st io unit := ext (c_udp_unbind port).
End Calls.

(** ** A concrete platform, for the witnesses

    Lists are lists, every allocation succeeds, random numbers count the calls
    made so far, an ARP probe answers [arp] (0: the address is in use), and
    every other call returns 0. *)
Definition list_dmlist : DmList := {|
  dmlist A := list A;
  dmlist_empty A := [];
  dmlist_size A l := length l;
  dmlist_get A l i := l !! i;
  dmlist_push_back A l x := l ++ [x];
  dmlist_pop_front A l := (head l, tail l);
  dmlist_find A l f := List.find f l;
  dmlist_remove A l f := List.filter (λ x, negb (f x)) l;
  dmlist_elems A l := l;
|}.

#[export] Instance list_dmlist_laws : DmListLaws list_dmlist.
Proof. by split. Qed.

Definition sample_answer (arp : Z) (h : list call) (c : call) : answer_of c :=
  match c return answer_of c with
  | c_malloc n => Some (replicate n 0xA5)
  | c_strdup _ | c_mutex_create _ | c_timer_create _ _ _ _ | c_list_create | c_list_push => true
  | c_get_mac_address _ => Some [2; 0; 0; 0; 0; 1]
  | c_route_add _ _ _ _ _ => Some 77
  | c_rand32 => u32 (1000 + Z.of_nat (length h))
  | c_arp_resolve _ _ _ => arp
  | c_get_name _ | c_set_netmask _ _ | c_set_ip_address _ _ | c_set_broadcast _ _
  | c_udp_send _ _ _ _ _ | c_udp_send_on_iface _ _ _ _ _ _
  | c_udp_bind _ | c_visit_dns _ _ _ | c_visit_ntp _ _ _ => 0
  | c_find_by_name _ => 5
  | _ => tt
  end.

Definition sample_env (arp : Z) : Env := {|
  answer := sample_answer arp;
  DMNETIF_MAC_ADDR_LEN := 6;
  DMROUTE_DEFAULT_METRIC := 100;
  family_zero := dmroute_family_none;
  SIZEOF_LEASE := 256;
  SIZEOF_ADDR := 20;
|}.

#[export] Instance sample_env_ok arp : EnvOk (sample_env arp).
Proof.
  split.
  - intros h. apply u32_range.
  - intros h n block [= <-]. apply length_replicate.
  - unfold DMDHCP_CHADDR_LEN. simpl. lia.
  - intros h i mac [= <-]. split; [done|]. by apply bytes_okb_ok.
  - done.
Qed.

Definition quiet_env : Env := sample_env (-1).
Definition conflict_env : Env := sample_env 0.

#[export] Instance quiet_env_ok : EnvOk quiet_env := sample_env_ok (-1).
#[export] Instance conflict_env_ok : EnvOk conflict_env := sample_env_ok 0.

(** ** Lemmas on the platform state *)

(** The platform after some calls *)
Definition log_all (cs : list call) (s : io) : io := set_trace (trace s ++ cs) s.

Lemma log_log_all c s : log c s = log_all [c] s.
Proof. done. Qed.

Lemma log_all_nil s : log_all [] s = s.
Proof. destruct s. unfold log_all, set_trace. simpl. by rewrite app_nil_r. Qed.

Lemma log_all_app cs cs' s : log_all cs' (log_all cs s) = log_all (cs ++ cs') s.
Proof. unfold log_all, set_trace. simpl. by rewrite <- app_assoc. Qed.

Lemma trace_log_all cs s : trace (log_all cs s) = trace s ++ cs.
Proof. done. Qed.

Lemma ext_run `{Env} c s : ext c s = Some (answer (trace s) c, log_all [c] s).
Proof. done. Qed.

Lemma blocks_log_all cs s : blocks (log_all cs s) = blocks s.
Proof. done. Qed.

Lemma set_blocks_log_all n cs s : set_blocks n (log_all cs s) = log_all cs (set_blocks n s).
Proof. done. Qed.

Lemma set_blocks_id s : set_blocks (blocks s) s = s.
Proof. by destruct s. Qed.

Lemma set_blocks_twice n m s : set_blocks n (set_blocks m s) = set_blocks n s.
Proof. done. Qed.

Lemma timer_call_run t c s :
  t ∈ timers s → timer_call (Some t) c s = Some (tt, log_all [c t] s).
Proof. intros Ht. unfold timer_call. by rewrite decide_True. Qed.
