(* ===== verification/Lease.v ===== *)
(** [src/dmdhcp_internal.h]: [struct dmdhcp_lease] and its constants, the
    computations that work on one lease, and the two list-clearing functions
    of [src/dmdhcp_lease_table.c] every other component uses. *)
From S2P Require Import Prelude Types Platform.

Definition DMDHCP_LEASE_MAGIC : Z := 0x44484350.
Definition DMDHCP_RETRANSMIT_INITIAL_MS : Z := 4000.
Definition DMDHCP_RETRANSMIT_MAX_MS : Z := 64000.
Definition DMDHCP_MAX_REQUEST_RETRANSMITS : Z := 4.
Definition DMDHCP_ARP_PROBE_TIMEOUT_MS : Z := 1000.
Definition DMDHCP_PROBE_HANDOFF_MS : Z := 1.
Definition DMDHCP_MAX_DECLINE_RETRIES : Z := 3.
Definition DMDHCP_DECLINE_PAUSE_MS : Z := 10000.
Definition DMDHCP_DEFAULT_ARP_TIMEOUT_MS : Z := 1000.
Definition DMDHCP_MAX_MESSAGE_LEN : nat := 576.

Inductive dmdhcp_teardown_context_t : Set :=
  | dmdhcp_teardown_context_normal
  | dmdhcp_teardown_context_retransmit_timer
  | dmdhcp_teardown_context_lease_timer.

#[export] Instance dmdhcp_teardown_context_eq_dec : EqDecision dmdhcp_teardown_context_t.
Proof. solve_decision. Defined.

(** A handle or pointer field that may be NULL is an [option].  The server
    lists own the addresses the code allocates one by one. *)
Record lease `{DmList} : Type := Lease {
  magic : Z;
  lock : option handle;
  iface : iface_t;
  state : dmdhcp_state_t;
  xid : Z;
  offered_ip : dmroute_addr_t;
  netmask : dmroute_addr_t;
  gateway : dmroute_addr_t;
  server_id : dmroute_addr_t;
  lease_time_sec : Z;
  t1_sec : Z;
  t2_sec : Z;
  dns_servers : option (dmlist dmroute_addr_t);
  ntp_servers : option (dmlist dmroute_addr_t);
  retransmit_interval_ms : Z;
  retransmit_count : Z;
  decline_retry_count : Z;
  retransmit_timer : option handle;
  lease_timer : option handle;
  default_route : option Z;
  iface_configured : bool;
  hostname : option (list Z);
  callbacks : dmdhcp_callbacks_t;
  user_data : Z;
}.

Section Lease.
Context `{DmList}.

Definition lease_eta : lease → lease := λ l,
  Lease _ (magic l) (lock l) (iface l) (state l) (xid l) (offered_ip l) (netmask l) (gateway l)
    (server_id l) (lease_time_sec l) (t1_sec l) (t2_sec l) (dns_servers l) (ntp_servers l)
    (retransmit_interval_ms l) (retransmit_count l) (decline_retry_count l)
    (retransmit_timer l) (lease_timer l) (default_route l) (iface_configured l)
    (hostname l) (callbacks l) (user_data l).

Definition set_magic : Z → lease → lease := ltac:(mk_set lease_eta magic).
Definition set_lock : option handle → lease → lease := ltac:(mk_set lease_eta lock).
Definition set_iface : iface_t → lease → lease := ltac:(mk_set lease_eta iface).
Definition set_state : dmdhcp_state_t → lease → lease := ltac:(mk_set lease_eta state).
Definition set_xid : Z → lease → lease := ltac:(mk_set lease_eta xid).
Definition set_offered_ip : dmroute_addr_t → lease → lease := ltac:(mk_set lease_eta offered_ip).
Definition set_netmask : dmroute_addr_t → lease → lease := ltac:(mk_set lease_eta netmask).
Definition set_gateway : dmroute_addr_t → lease → lease := ltac:(mk_set lease_eta gateway).
Definition set_server_id : dmroute_addr_t → lease → lease := ltac:(mk_set lease_eta server_id).
Definition set_lease_time_sec : Z → lease → lease := ltac:(mk_set lease_eta lease_time_sec).
Definition set_t1_sec : Z → lease → lease := ltac:(mk_set lease_eta t1_sec).
Definition set_t2_sec : Z → lease → lease := ltac:(mk_set lease_eta t2_sec).
Definition set_dns_servers : option (dmlist dmroute_addr_t) → lease → lease :=
  ltac:(mk_set lease_eta dns_servers).
Definition set_ntp_servers : option (dmlist dmroute_addr_t) → lease → lease :=
  ltac:(mk_set lease_eta ntp_servers).
Definition set_retransmit_interval_ms : Z → lease → lease :=
  ltac:(mk_set lease_eta retransmit_interval_ms).
Definition set_retransmit_count : Z → lease → lease := ltac:(mk_set lease_eta retransmit_count).
Definition set_decline_retry_count : Z → lease → lease :=
  ltac:(mk_set lease_eta decline_retry_count).
Definition set_retransmit_timer : option handle → lease → lease :=
  ltac:(mk_set lease_eta retransmit_timer).
Definition set_lease_timer : option handle → lease → lease := ltac:(mk_set lease_eta lease_timer).
Definition set_default_route : option Z → lease → lease := ltac:(mk_set lease_eta default_route).
Definition set_iface_configured : bool → lease → lease := ltac:(mk_set lease_eta iface_configured).
Definition set_hostname : option (list Z) → lease → lease := ltac:(mk_set lease_eta hostname).
Definition set_callbacks : dmdhcp_callbacks_t → lease → lease := ltac:(mk_set lease_eta callbacks).
Definition set_user_data : Z → lease → lease := ltac:(mk_set lease_eta user_data).

(** [memset(lease, 0, sizeof( *lease))] *)
Definition lease_zero `{Env} : lease :=
  Lease _ 0 None 0 dmdhcp_state_init 0 addr_zero addr_zero addr_zero addr_zero 0 0 0
    None None 0 0 0 None None None false None callbacks_zero 0.

(** ** Computations on one lease

    A C function that takes a [struct dmdhcp_lease*] and touches nothing else
    of the program's memory is a computation on that lease and the platform. *)
Record lctx : Type := LCtx { self : lease; plat : io }.

Definition lop (A : Type) : Type := st lctx A.

(** [lease->f] and [lease->f = v] *)
Definition getl {A} (f : lease → A) : lop A := λ c, Some (f (self c), c).
Definition setl (f : lease → lease) : lop unit := λ c, Some (tt, LCtx (f (self c)) (plat c)).

(** A call on the platform *)
Definition io_op {A} (m : st io A) : lop A := λ c,
  match m (plat c) with
  | Some (a, s) => Some (a, LCtx (self c) s)
  | None => None
  end.

(** ** Clearing the server lists (dmdhcp_lease_table.c) *)

(** The [for (;;)] loop: pop and free until the list reports NULL.  The fuel
    given is one more than the number of elements. *)
Fixpoint pop_all (fuel : nat) (l : dmlist dmroute_addr_t) : st io (dmlist dmroute_addr_t) :=
  match fuel with
  | O => ub
  | S fuel =>
      let '(entry, l) := dmlist_pop_front l in
      match entry with
      | None => mret l
      | Some _ => Dmod_Free;; pop_all fuel l
      end
  end.

Definition dmdhcp_lease_table_clear_dns_servers : lop unit :=
  servers ← getl dns_servers;
  match servers with
  | None => mret tt
  | Some l =>
      l ← io_op (pop_all (S (dmlist_size l)) l);
      setl (set_dns_servers (Some l))
  end.

Definition dmdhcp_lease_table_clear_ntp_servers : lop unit :=
  servers ← getl ntp_servers;
  match servers with
  | None => mret tt
  | Some l =>
      l ← io_op (pop_all (S (dmlist_size l)) l);
      setl (set_ntp_servers (Some l))
  end.

(** [holds_valid_lease] (dmdhcp_lease_table.c): BOUND, RENEWING or REBINDING *)
Definition holds_valid_lease (l : lease) : bool :=
  bool_decide (state l = dmdhcp_state_bound)
  || bool_decide (state l = dmdhcp_state_renewing)
  || bool_decide (state l = dmdhcp_state_rebinding).
End Lease.

#[global] Arguments pop_all : simpl never.

(** ** Well-formed leases

    [lease_typed]: the values the fields can hold.  [offered_ip] and the
    others are never IPv6: they come from a datagram, from [addr_none], or from
    a [requested_ip] that was checked to be IPv4. *)
Section LeaseFacts.
Context `{E : Env} {EO : EnvOk E} `{D : DmList} {DL : DmListLaws D}.

Definition addr_v4_or_none (a : dmroute_addr_t) : Prop :=
  addr_ok a ∧ family a ≠ dmroute_family_v6.

Definition servers_typed (o : option (dmlist dmroute_addr_t)) : Prop :=
  ∃ l, o = Some l ∧ Forall addr_ok (dmlist_elems l).

Record lease_typed (l : lease) : Prop := {
  lt_xid : is_u32 (xid l);
  lt_offered_ip : addr_v4_or_none (offered_ip l);
  lt_netmask : addr_v4_or_none (netmask l);
  lt_gateway : addr_v4_or_none (gateway l);
  lt_server_id : addr_v4_or_none (server_id l);
  lt_lease_time : is_u32 (lease_time_sec l);
  lt_t1 : is_u32 (t1_sec l);
  lt_t2 : is_u32 (t2_sec l);
  lt_dns : servers_typed (dns_servers l);
  lt_ntp : servers_typed (ntp_servers l);
  lt_interval : 0 ≤ retransmit_interval_ms l ≤ DMDHCP_RETRANSMIT_MAX_MS;
  lt_count : is_u32 (retransmit_count l);
  lt_declines : is_u32 (decline_retry_count l);
  lt_hostname : from_option bytes_ok True (hostname l);
}.

(** The number of addresses in a server list *)
Definition server_count (o : option (dmlist dmroute_addr_t)) : Z :=
  from_option (λ l, Z.of_nat (length (dmlist_elems l))) 0 o.

Lemma addr_none_v4_or_none : addr_v4_or_none addr_none.
Proof. split; [apply addr_none_ok|done]. Qed.

Lemma addr_zero_ok : addr_ok addr_zero.
Proof. split; [done|apply v4_zero_ok]. Qed.

Lemma addr_zero_v4_or_none : addr_v4_or_none addr_zero.
Proof. split; [apply addr_zero_ok|]. simpl. by rewrite family_zero_none. Qed.

(** ** Running computations on a lease *)
Lemma getl_bind {A B} (f : lease → A) (k : A → lop B) l s :
  (getl f ≫= k) (LCtx l s) = k (f l) (LCtx l s).
Proof. done. Qed.

Lemma setl_bind {B} f (k : unit → lop B) l s :
  (setl f ≫= k) (LCtx l s) = k tt (LCtx (f l) s).
Proof. done. Qed.

Lemma lop_bind {A B} (m : lop A) (k : A → lop B) c a c' :
  m c = Some (a, c') → (m ≫= k) c = k a c'.
Proof. unfold mbind, st_bind. by intros ->. Qed.

Lemma io_bind {A B} (m : st io A) (k : A → lop B) l s a s' :
  m s = Some (a, s') → (io_op m ≫= k) (LCtx l s) = k a (LCtx l s').
Proof. intros Hm. unfold mbind, st_bind, io_op. simpl. by rewrite Hm. Qed.

Lemma ext_bind {B} (c : call) (k : answer_of c → lop B) l s :
  (io_op (ext c) ≫= k) (LCtx l s) = k (answer (trace s) c) (LCtx l (log_all [c] s)).
Proof. done. Qed.

Lemma ret_bind {A B} (a : A) (k : A → lop B) c : (mret a ≫= k) c = k a c.
Proof. done. Qed.

Lemma opt_bind {A B} (a : A) (k : A → lop B) c : ((st_opt (Some a) : lop A) ≫= k) c = k a c.
Proof. done. Qed.

Lemma bind_bind {A B C} (m : lop A) (k : A → lop B) (k' : B → lop C) c :
  ((m ≫= k) ≫= k') c = (m ≫= λ a, k a ≫= k') c.
Proof. unfold mbind, st_bind. by destruct (m c) as [[a c']|]. Qed.

(** The timers of a lease are live (and distinct). *)
Record timers_live (l : lease) (s : io) : Prop := {
  tl_retransmit : ∃ t, retransmit_timer l = Some t ∧ t ∈ timers s;
  tl_lease : ∃ t, lease_timer l = Some t ∧ t ∈ timers s;
}.

(** What computations on a lease never change: its identity and its mutex and
    timers. *)
Record lease_frame (l l' : lease) : Prop := {
  lf_magic : magic l' = magic l;
  lf_lock : lock l' = lock l;
  lf_iface : iface l' = iface l;
  lf_rt : retransmit_timer l' = retransmit_timer l;
  lf_lt : lease_timer l' = lease_timer l;
}.

#[global] Instance lease_frame_preorder : PreOrder lease_frame.
Proof. split; [by intros l|]. intros l1 l2 l3 [] []. split; congruence. Qed.

(** What they never change of the platform; they only add calls. *)
Record io_frame (s s' : io) : Prop := {
  if_mutexes : mutexes s' = mutexes s;
  if_timers : timers s' = timers s;
  if_running : running s' = running s;
  if_lists : lists s' = lists s;
  if_next_id : next_id s' = next_id s;
  if_trace : trace s `prefix_of` trace s';
}.

#[global] Instance io_frame_preorder : PreOrder io_frame.
Proof.
  split; [by intros s|]. intros s1 s2 s3 [] []. split; try congruence. by etransitivity.
Qed.

Lemma io_frame_log_all cs s : io_frame s (log_all cs s).
Proof. split; try done. simpl. by apply prefix_app_r. Qed.

Lemma io_frame_set_blocks n s : io_frame s (set_blocks n s).
Proof. by split. Qed.

Lemma timers_live_frame l s l' s' :
  lease_frame l l' → io_frame s s' → timers_live l s → timers_live l' s'.
Proof.
  intros [] [] [(t1 & ? & ?) (t2 & ? & ?)].
  split; [exists t1|exists t2]; split; congruence.
Qed.

(** ** Clearing a server list *)

(** The list the loop ends with *)
Fixpoint drained {A} (n : nat) (l : dmlist A) : dmlist A :=
  match n with
  | O => (dmlist_pop_front l).2
  | S n => drained n (dmlist_pop_front l).2
  end.

Lemma drained_elems {A} n (l : dmlist A) :
  (length (dmlist_elems l) ≤ n)%nat → dmlist_elems (drained n l) = [].
Proof.
  revert l. induction n as [|n IH]; intros l Hn; simpl;
    destruct (elems_pop A l) as [_ Ht].
  - rewrite Ht. by destruct (dmlist_elems l); simpl in *; [|lia].
  - apply IH. rewrite Ht. destruct (dmlist_elems l); simpl in *; lia.
Qed.

Lemma pop_all_run n (l : dmlist dmroute_addr_t) s :
  length (dmlist_elems l) = n →
  pop_all (S n) l s = Some (drained n l, set_blocks (blocks s - Z.of_nat n) s).
Proof.
  revert l s. induction n as [|n IH]; intros l s Hn;
    destruct (elems_pop dmroute_addr_t l) as [Hh Ht]; unfold pop_all; fold pop_all;
    cbn [drained]; destruct (dmlist_pop_front l) as [entry l'] eqn:Ep; simpl in Hh, Ht; subst entry.
  - destruct (dmlist_elems l); [|done]. simpl. rewrite Z.sub_0_r. by destruct s.
  - destruct (dmlist_elems l) as [|x xs]; [done|]. simpl in Hn, Ht |- *.
    unfold mbind, st_bind, Dmod_Free, st_modify.
    change (pop_all (S n) l' (set_blocks (blocks s - 1) s) = Some (drained n l', set_blocks (blocks s - Z.of_nat (S n)) s)).
    rewrite IH by (rewrite Ht; congruence). do 2 f_equal.
    rewrite set_blocks_twice. f_equal. simpl. lia.
Qed.

(** The cleared list of a lease *)
Definition cleared (o : option (dmlist dmroute_addr_t)) : option (dmlist dmroute_addr_t) :=
  match o with
  | Some l => Some (drained (length (dmlist_elems l)) l)
  | None => None
  end.

Lemma cleared_typed o : servers_typed o → servers_typed (cleared o).
Proof.
  intros (l & -> & _). eexists. split; [done|]. by rewrite drained_elems by done.
Qed.

Lemma cleared_count o : server_count (cleared o) = 0.
Proof. destruct o; simpl; [|done]. by rewrite drained_elems by done. Qed.

Lemma clear_dns_run l s :
  dmdhcp_lease_table_clear_dns_servers (LCtx l s) =
  Some (tt, LCtx (set_dns_servers (cleared (dns_servers l)) l)
              (set_blocks (blocks s - server_count (dns_servers l)) s)).
Proof.
  unfold dmdhcp_lease_table_clear_dns_servers, mbind, st_bind, getl, io_op. simpl.
  destruct (dns_servers l) as [d|] eqn:Hd; simpl.
  - rewrite elems_size. by erewrite pop_all_run by done.
  - rewrite Z.sub_0_r, set_blocks_id. destruct l. simpl in *. by subst.
Qed.

Lemma clear_ntp_run l s :
  dmdhcp_lease_table_clear_ntp_servers (LCtx l s) =
  Some (tt, LCtx (set_ntp_servers (cleared (ntp_servers l)) l)
              (set_blocks (blocks s - server_count (ntp_servers l)) s)).
Proof.
  unfold dmdhcp_lease_table_clear_ntp_servers, mbind, st_bind, getl, io_op. simpl.
  destruct (ntp_servers l) as [d|] eqn:Hd; simpl.
  - rewrite elems_size. by erewrite pop_all_run by done.
  - rewrite Z.sub_0_r, set_blocks_id. destruct l. simpl in *. by subst.
Qed.

(** ** Safe computations on a lease

    One step of a computation keeps the lease well formed, changes neither its
    identity nor the platform's resources, and accounts for every heap block:
    the blocks allocated beyond those the lease owns are the same. *)
Definition lease_blocks (l : lease) : Z :=
  server_count (dns_servers l) + server_count (ntp_servers l)
  + (if hostname l is Some _ then 1 else 0).

Record lease_step (l : lease) (s : io) (l' : lease) (s' : io) : Prop := {
  ls_typed : lease_typed l';
  ls_frame : lease_frame l l';
  ls_io : io_frame s s';
  ls_blocks : blocks s' - lease_blocks l' = blocks s - lease_blocks l;
}.

Lemma lease_step_refl l s : lease_typed l → lease_step l s l s.
Proof. by split. Qed.

Lemma lease_step_calls l s cs : lease_typed l → lease_step l s l (log_all cs s).
Proof. intros Hl. split; [done|done|apply io_frame_log_all|done]. Qed.

Lemma lease_step_trans l1 s1 l2 s2 l3 s3 :
  lease_step l1 s1 l2 s2 → lease_step l2 s2 l3 s3 → lease_step l1 s1 l3 s3.
Proof. intros [] []. split; [done|by etransitivity|by etransitivity|lia]. Qed.

Definition lop_safe {A} (m : lop A) : Prop := ∀ l s,
  lease_typed l → timers_live l s →
  ∃ a l' s', m (LCtx l s) = Some (a, LCtx l' s') ∧ lease_step l s l' s'.

Lemma lop_safe_bind {A B} (m : lop A) (k : A → lop B) :
  lop_safe m → (∀ a, lop_safe (k a)) → lop_safe (m ≫= k).
Proof.
  intros Hm Hk l s Hl Ht. destruct (Hm l s Hl Ht) as (a & l1 & s1 & Hr & Hs1).
  pose proof Hs1 as [Hl1 Hf1 Hi1 _].
  destruct (Hk a l1 s1 Hl1 (timers_live_frame _ _ _ _ Hf1 Hi1 Ht)) as (b & l2 & s2 & Hr2 & Hs2).
  exists b, l2, s2. rewrite (lop_bind _ _ _ _ _ Hr). split; [done|]. by eapply lease_step_trans.
Qed.

Lemma lop_safe_ret {A} (a : A) : lop_safe (mret a).
Proof. intros l s Hl Ht. exists a, l, s. split; [done|]. by apply lease_step_refl. Qed.

Lemma lop_safe_getl {A} (f : lease → A) : lop_safe (getl f).
Proof. intros l s Hl Ht. exists (f l), l, s. split; [done|]. by apply lease_step_refl. Qed.

Lemma lop_safe_ext (c : call) : lop_safe (io_op (ext c)).
Proof.
  intros l s Hl Ht. exists (answer (trace s) c), l, (log_all [c] s). split; [done|].
  split; [done..|apply io_frame_log_all|done].
Qed.

(** A field update keeps a lease well formed when it leaves its identity, its
    server lists and its hostname alone, and the new value is in range. *)
Definition same_owned (l l' : lease) : Prop :=
  lease_frame l l' ∧ dns_servers l' = dns_servers l ∧ ntp_servers l' = ntp_servers l ∧
  hostname l' = hostname l.

Lemma lease_blocks_same l l' : same_owned l l' → lease_blocks l' = lease_blocks l.
Proof. intros (_ & Hd & Hn & Hh). unfold lease_blocks. by rewrite Hd, Hn, Hh. Qed.

Lemma lop_safe_setl f :
  (∀ l, lease_typed l → lease_typed (f l) ∧ same_owned l (f l)) → lop_safe (setl f).
Proof.
  intros Hf l s Hl Ht. exists tt, (f l), s. split; [done|].
  destruct (Hf l Hl) as [Htt Hs]. split; [done|apply Hs|done|].
  by rewrite (lease_blocks_same _ _ Hs).
Qed.

Lemma set_state_safe st : lop_safe (setl (set_state st)).
Proof. apply lop_safe_setl. intros l []. by split; split. Qed.

Lemma set_callbacks_safe cbs : lop_safe (setl (set_callbacks cbs)).
Proof. apply lop_safe_setl. intros l []. by split; split. Qed.

Lemma set_user_data_safe ud : lop_safe (setl (set_user_data ud)).
Proof. apply lop_safe_setl. intros l []. by split; split. Qed.

Lemma set_decline_retry_count_0_safe : lop_safe (setl (set_decline_retry_count 0)).
Proof.
  apply lop_safe_setl. intros l []. by split; [split|split].
Qed.

Lemma set_retransmit_count_0_safe : lop_safe (setl (set_retransmit_count 0)).
Proof.
  apply lop_safe_setl. intros l []. by split; [split|split].
Qed.

(** Incrementing one of the two retry counters, read before *)
Lemma set_decline_retry_count_safe n : lop_safe (setl (set_decline_retry_count (u32 n))).
Proof.
  apply lop_safe_setl. intros l []. split; [split; try done; apply u32_range|done].
Qed.

Lemma set_retransmit_count_safe n : lop_safe (setl (set_retransmit_count (u32 n))).
Proof.
  apply lop_safe_setl. intros l []. split; [split; try done; apply u32_range|done].
Qed.

Lemma set_interval_initial_safe :
  lop_safe (setl (set_retransmit_interval_ms DMDHCP_RETRANSMIT_INITIAL_MS)).
Proof.
  apply lop_safe_setl. intros l []. by split; [split|split].
Qed.

(** What the calls of a computation do to the platform, when that is all they
    do *)
Lemma lop_safe_calls {A} (m : lop A) :
  (∀ l s, lease_typed l → timers_live l s → ∃ a cs, m (LCtx l s) = Some (a, LCtx l (log_all cs s))) →
  lop_safe m.
Proof.
  intros Hm l s Hl Ht. destruct (Hm l s Hl Ht) as (a & cs & Hr).
  exists a, l, (log_all cs s). split; [done|]. split; [done..|apply io_frame_log_all|done].
Qed.
Lemma clear_dns_safe : lop_safe dmdhcp_lease_table_clear_dns_servers.
Proof.
  intros l s Hl Ht. do 3 eexists. split; [apply clear_dns_run|].
  split; [|done|apply io_frame_set_blocks|].
  - destruct Hl. split; try done. by apply cleared_typed.
  - unfold lease_blocks. simpl. rewrite cleared_count. lia.
Qed.

Lemma clear_ntp_safe : lop_safe dmdhcp_lease_table_clear_ntp_servers.
Proof.
  intros l s Hl Ht. do 3 eexists. split; [apply clear_ntp_run|].
  split; [|done|apply io_frame_set_blocks|].
  - destruct Hl. split; try done. by apply cleared_typed.
  - unfold lease_blocks. simpl. rewrite cleared_count. lia.
Qed.

End LeaseFacts.

(** Run the next platform call of a computation on a lease. *)
Ltac run_ext :=
  match goal with
  | |- context [(io_op ?m ≫= ?k) (LCtx ?l ?s)] =>
      let m' := lazymatch m with ext _ => m | _ => eval red in m end in
      lazymatch m' with
      | ext ?c => rewrite (io_bind m k l s _ _ (ext_run c s))
      end
  end.

#[export] Hint Resolve lop_safe_bind lop_safe_ret lop_safe_getl lop_safe_ext set_state_safe
  set_callbacks_safe set_user_data_safe
  set_decline_retry_count_safe set_retransmit_count_safe clear_dns_safe clear_ntp_safe
  set_decline_retry_count_0_safe set_retransmit_count_0_safe set_interval_initial_safe : dhcp.

(** Two leases built by field updates are equal when their fields are. *)
Ltac lease_fields := cbv beta iota delta [
    magic lock iface state xid offered_ip netmask gateway server_id lease_time_sec t1_sec t2_sec
    dns_servers ntp_servers retransmit_interval_ms retransmit_count decline_retry_count
    retransmit_timer lease_timer default_route iface_configured hostname callbacks user_data
    set_magic set_lock set_iface set_state set_xid set_offered_ip set_netmask set_gateway
    set_server_id set_lease_time_sec set_t1_sec set_t2_sec set_dns_servers set_ntp_servers
    set_retransmit_interval_ms set_retransmit_count set_decline_retry_count set_retransmit_timer
    set_lease_timer set_default_route set_iface_configured set_hostname set_callbacks
    set_user_data ].

Lemma lctx_eq `{DmList} l l' s s' : l = l' → s = s' → Some (tt, LCtx l s) = Some (tt, LCtx l' s').
Proof. by intros -> ->. Qed.
