(* ===== verification/Output.v ===== *)
(** [src/dmdhcp_output.c], the message senders and the entry points of the
    phases (discovery, INIT-REBOOT, renewing, rebinding).  The timer callback
    and the conflict probe of the same file are in Timers.v, after the
    lifecycle functions they call. *)
From S2P Require Import Prelude Types Wire Options Platform Lease.

Section Output.
Context `{E : Env} `{D : DmList}.

Definition limited_broadcast : dmroute_addr_t :=
  Addr dmroute_family_v4 [255; 255; 255; 255].

(** [options[option_count++] = o] on [dmdhcp_option_t options[5]] *)
Definition SEND_OPTIONS_MAX : nat := 5.
Definition add_option (o : dmdhcp_option_t) (options : list dmdhcp_option_t)
    : option (list dmdhcp_option_t) :=
  if (length options <? SEND_OPTIONS_MAX)%nat then Some (options ++ [o]) else None.

Definition addr_option (c : Z) (a : dmroute_addr_t) : dmdhcp_option_t :=
  DhcpOption c (u8 (Z.of_nat DMROUTE_IPV4_ADDR_LEN)) (Some (v4 a)).

Definition param_request_list : list Z := [1; 3; 6; 42; 51; 58; 59].

(** The option list [send_message] assembles *)
Definition message_options (l : lease) (msg_type : dmdhcp_msg_type_t)
    (requested_ip server_id_option : option dmroute_addr_t) : option (list dmdhcp_option_t) :=
  options ← add_option (DhcpOption DMDHCP_OPT_MSG_TYPE 1 (Some [u8 (msg_type_val msg_type)])) [];
  options ← match requested_ip with
            | Some a => add_option (addr_option DMDHCP_OPT_REQUESTED_IP a) options
            | None => Some options
            end;
  options ← match server_id_option with
            | Some a => add_option (addr_option DMDHCP_OPT_SERVER_ID a) options
            | None => Some options
            end;
  options ← match hostname l with
            | Some h =>
                let len := length h in
                let hostname_len := u8 (if (255 <? len)%nat then 255 else Z.of_nat len) in
                add_option (DhcpOption DMDHCP_OPT_HOSTNAME hostname_len (Some h)) options
            | None => Some options
            end;
  if bool_decide (msg_type = dmdhcp_msg_discover) || bool_decide (msg_type = dmdhcp_msg_request)
  then add_option (DhcpOption 55 (Z.of_nat (length param_request_list)) (Some param_request_list)) options
  else Some options.

(** The fixed header [send_message] fills in: [mac] is what
    [dmnetif_get_mac_address] left in its zeroed buffer. *)
Definition message_header (l : lease) (ci : option dmroute_addr_t) (mac : list Z)
    : option dmdhcp_message_t :=
  ch ← mem_write (replicate DMDHCP_CHADDR_LEN 0) 0 mac;
  Some (Message dmdhcp_op_bootrequest 1 (u8 (Z.of_nat DMNETIF_MAC_ADDR_LEN)) 0 (xid l) 0
    DMDHCP_FLAG_BROADCAST (default addr_none ci) addr_zero addr_zero addr_zero ch).

Definition send_message (msg_type : dmdhcp_msg_type_t) (ci requested_ip server_id_option : option dmroute_addr_t)
    (dst : dmroute_addr_t) (via_iface : bool) : lop Z :=
  l ← getl id;
  mac ← io_op (dmnetif_get_mac_address (iface l));
  header ← st_opt (message_header l ci (default (replicate DMNETIF_MAC_ADDR_LEN 0) mac));
  buffer ← io_op (Dmod_Malloc DMDHCP_MAX_MESSAGE_LEN);
  match buffer with
  | None => mret (- ENOMEM)
  | Some buffer =>
      r ← st_opt (dmdhcp_build_message (Some buffer) DMDHCP_MAX_MESSAGE_LEN (Some header));
      let '(result, buffer) := r in
      if negb (result =? 0) then io_op Dmod_Free;; mret result else
      options ← st_opt (message_options l msg_type requested_ip server_id_option);
      let options_offset := (DMDHCP_FIXED_HEADER_LEN + 4)%nat in
      let buffer := default [] buffer in
      r ← st_opt (dmdhcp_options_write (Some (drop options_offset buffer))
            (DMDHCP_MAX_MESSAGE_LEN - options_offset) (Some options) (length options) (Some 0%nat));
      let '(result, area, options_len) := r in
      if negb (result =? 0) then io_op Dmod_Free;; mret result else
      let buffer := take options_offset buffer ++ default [] area in
      let total_len := (options_offset + default 0%nat options_len)%nat in
      payload ← st_opt (mem_read buffer 0 total_len);
      result ← io_op (if via_iface : bool
        then dmudp_send_on_iface (iface l) dst DMDHCP_CLIENT_PORT DMDHCP_SERVER_PORT payload
               DMDHCP_DEFAULT_ARP_TIMEOUT_MS
        else dmudp_send dst DMDHCP_CLIENT_PORT DMDHCP_SERVER_PORT payload
               DMDHCP_DEFAULT_ARP_TIMEOUT_MS);
      io_op Dmod_Free;;
      mret result
  end.

Definition send_discover : lop Z :=
  send_message dmdhcp_msg_discover None None None limited_broadcast true.

Definition send_request_selecting : lop Z :=
  l ← getl id;
  send_message dmdhcp_msg_request None (Some (offered_ip l)) (Some (server_id l)) limited_broadcast true.

Definition send_request_reboot : lop Z :=
  l ← getl id;
  send_message dmdhcp_msg_request None (Some (offered_ip l)) None limited_broadcast true.

Definition send_request_renew : lop Z :=
  l ← getl id;
  send_message dmdhcp_msg_request (Some (offered_ip l)) None None (server_id l) false.

Definition send_request_rebind : lop Z :=
  l ← getl id;
  send_message dmdhcp_msg_request (Some (offered_ip l)) None None limited_broadcast true.

Definition send_decline : lop Z :=
  l ← getl id;
  send_message dmdhcp_msg_decline None (Some (offered_ip l)) (Some (server_id l)) limited_broadcast true.

Definition dmdhcp_output_send_release : lop Z :=
  l ← getl id;
  send_message dmdhcp_msg_release (Some (offered_ip l)) None (Some (server_id l)) (server_id l) false.

Definition next_backoff (current_ms : Z) : Z :=
  let next := u32 (current_ms * 2) in
  if DMDHCP_RETRANSMIT_MAX_MS <? next then DMDHCP_RETRANSMIT_MAX_MS else next.

(** [dmosi_timer_set_period(lease->retransmit_timer, ms);
    dmosi_timer_start(lease->retransmit_timer);] *)
Definition arm_retransmit (ms : Z) : lop unit :=
  t ← getl retransmit_timer;
  io_op (dmosi_timer_set_period t ms);;
  io_op (dmosi_timer_start t).

Definition rearm_backoff : lop unit :=
  ms ← getl retransmit_interval_ms;
  setl (set_retransmit_interval_ms (next_backoff ms));;
  ms ← getl retransmit_interval_ms;
  arm_retransmit ms.

Definition dmdhcp_output_start_discovery : lop unit :=
  x ← io_op dmosi_rand32;
  setl (set_xid x);;
  setl (set_offered_ip addr_none);;
  setl (set_server_id addr_none);;
  setl (set_gateway addr_none);;
  setl (set_netmask addr_none);;
  dmdhcp_lease_table_clear_dns_servers;;
  dmdhcp_lease_table_clear_ntp_servers;;
  setl (set_retransmit_count 0);;
  setl (set_retransmit_interval_ms DMDHCP_RETRANSMIT_INITIAL_MS);;
  send_discover;;
  setl (set_state dmdhcp_state_selecting);;
  ms ← getl retransmit_interval_ms;
  arm_retransmit ms.

(** The common shape of the three phase entries that send a REQUEST *)
Definition start_phase (send : lop Z) (s : dmdhcp_state_t) : lop unit :=
  x ← io_op dmosi_rand32;
  setl (set_xid x);;
  setl (set_retransmit_count 0);;
  setl (set_retransmit_interval_ms DMDHCP_RETRANSMIT_INITIAL_MS);;
  send;;
  setl (set_state s);;
  ms ← getl retransmit_interval_ms;
  arm_retransmit ms.

Definition dmdhcp_output_start_reboot : lop unit :=
  start_phase send_request_reboot dmdhcp_state_rebooting.

Definition dmdhcp_output_start_renew : lop unit :=
  start_phase send_request_renew dmdhcp_state_renewing.

Definition dmdhcp_output_start_rebind : lop unit :=
  start_phase send_request_rebind dmdhcp_state_rebinding.

Definition dmdhcp_output_create_retransmit_timer (p : ptr) : st io (option handle) :=
  dmosi_timer_create retransmit_timer_kind p DMDHCP_RETRANSMIT_INITIAL_MS false.
End Output.

(** ** What is sent

    The option list, header, datagram and platform calls of one
    [send_message], as functions of the lease and of the calls made before. *)
Section Sent.
Context `{E : Env} {EO : EnvOk E} `{D : DmList} {DL : DmListLaws D}.

Definition opt_list {A B} (f : A → B) (o : option A) : list B :=
  match o with Some a => [f a] | None => [] end.

Definition hostname_option (h : list Z) : dmdhcp_option_t :=
  DhcpOption DMDHCP_OPT_HOSTNAME (Z.of_nat (length h `min` 255)) (Some h).

Definition asks_parameters (t : dmdhcp_msg_type_t) : bool :=
  bool_decide (t = dmdhcp_msg_discover) || bool_decide (t = dmdhcp_msg_request).

Definition sent_options (l : lease) (t : dmdhcp_msg_type_t) (req sid : option dmroute_addr_t)
    : list dmdhcp_option_t :=
  [DhcpOption DMDHCP_OPT_MSG_TYPE 1 (Some [msg_type_val t])]
  ++ opt_list (addr_option DMDHCP_OPT_REQUESTED_IP) req
  ++ opt_list (addr_option DMDHCP_OPT_SERVER_ID) sid
  ++ opt_list hostname_option (hostname l)
  ++ (if asks_parameters t then [DhcpOption 55 7 (Some param_request_list)] else []).

Definition sent_header (l : lease) (ci : option dmroute_addr_t) (mac : list Z) : dmdhcp_message_t :=
  Message dmdhcp_op_bootrequest 1 (Z.of_nat DMNETIF_MAC_ADDR_LEN) 0 (xid l) 0
    DMDHCP_FLAG_BROADCAST (default addr_none ci) addr_zero addr_zero addr_zero
    (mac ++ replicate (DMDHCP_CHADDR_LEN - length mac) 0).

Definition sent_payload (l : lease) (t : dmdhcp_msg_type_t) (ci req sid : option dmroute_addr_t)
    (mac : list Z) : list Z :=
  message_bytes (sent_header l ci mac)
  ++ encode_options (sent_options l t req sid) ++ [DMDHCP_OPT_END].

(** The MAC address [send_message] uses after the calls [h] *)
Definition mac_after (h : list call) (i : iface_t) : list Z :=
  default (replicate DMNETIF_MAC_ADDR_LEN 0)
    (answer h (c_get_mac_address i) : option (list Z)).

Definition udp_call (l : lease) (dst : dmroute_addr_t) (via_iface : bool) (payload : list Z) : call :=
  if via_iface
  then c_udp_send_on_iface (iface l) dst DMDHCP_CLIENT_PORT DMDHCP_SERVER_PORT payload
         DMDHCP_DEFAULT_ARP_TIMEOUT_MS
  else c_udp_send dst DMDHCP_CLIENT_PORT DMDHCP_SERVER_PORT payload DMDHCP_DEFAULT_ARP_TIMEOUT_MS.

Definition buffer_allocated (h : list call) (i : iface_t) : bool :=
  match (answer (h ++ [c_get_mac_address i]) (c_malloc DMDHCP_MAX_MESSAGE_LEN) : option (list Z)) with
  | Some _ => true
  | None => false
  end.

(** The calls of a [send_message] made after the calls [h] *)
Definition send_calls (h : list call) (l : lease) (t : dmdhcp_msg_type_t)
    (ci req sid : option dmroute_addr_t) (dst : dmroute_addr_t) (via_iface : bool) : list call :=
  [c_get_mac_address (iface l); c_malloc DMDHCP_MAX_MESSAGE_LEN]
  ++ (if buffer_allocated h (iface l)
      then [udp_call l dst via_iface (sent_payload l t ci req sid (mac_after h (iface l)))]
      else []).

(** ** Lemmas *)
Lemma message_options_sent l t req sid :
  message_options l t req sid = Some (sent_options l t req sid).
Proof.
  unfold message_options, sent_options, add_option, hostname_option, asks_parameters.
  assert (Hlen : ∀ h : list Z, u8 (if (255 <? length h)%nat then 255 else Z.of_nat (length h))
                 = Z.of_nat (length h `min` 255)).
  { intros h. destruct (Nat.ltb_spec 255 (length h)).
    - by rewrite Nat.min_r by lia.
    - rewrite Nat.min_l by lia. apply u8_id. unfold is_u8. lia. }
  destruct req, sid, (hostname l) as [h|], t; simpl; rewrite ?Hlen; done.
Qed.

Lemma sent_options_count l t req sid : (length (sent_options l t req sid) ≤ SEND_OPTIONS_MAX)%nat.
Proof.
  unfold sent_options, opt_list, SEND_OPTIONS_MAX. rewrite !length_app.
  destruct req, sid, (hostname l), (asks_parameters t); simpl; lia.
Qed.

Definition addr_arg_ok (a : option dmroute_addr_t) : Prop := from_option addr_v4_or_none True a.

Lemma sent_options_ok l t req sid :
  lease_typed l → addr_arg_ok req → addr_arg_ok sid →
  Forall (λ o, option_ok o ∧ entry_code_ok (code o)) (sent_options l t req sid).
Proof.
  intros Hl Hr Hs. pose proof (lt_hostname l Hl) as Hh.
  assert (Hc : ∀ c, 0 < c < 255 → entry_code_ok c).
  { intros c Hc. unfold entry_code_ok, is_u8, DMDHCP_OPT_PAD, DMDHCP_OPT_END. lia. }
  assert (Ha : ∀ c a, 0 < c < 255 → addr_v4_or_none a →
    option_ok (addr_option c a) ∧ entry_code_ok (code (addr_option c a))).
  { intros c a Hcr [[Hal _] _]. split; [|by apply Hc]. unfold option_ok, is_u8. simpl.
    rewrite Hal. unfold DMROUTE_IPV4_ADDR_LEN. change (Z.to_nat (u8 (Z.of_nat 4))) with 4%nat.
    change (u8 (Z.of_nat 4)) with 4. lia. }
  unfold sent_options. rewrite !Forall_app. split_and!.
  - constructor; [|constructor]. split; [|by apply Hc]. unfold option_ok, is_u8. simpl. split_and!; try done; lia.
  - destruct req; simpl in *; constructor; [|constructor]. by apply Ha.
  - destruct sid; simpl in *; constructor; [|constructor]. by apply Ha.
  - destruct (hostname l) as [h|]; simpl in *; constructor; [|constructor].
    split; [|by apply Hc]. unfold option_ok, is_u8. simpl. rewrite Nat2Z.id. split_and!; try done; lia.
  - destruct (asks_parameters t); constructor; [|constructor].
    split; [|by apply Hc]. unfold option_ok, is_u8. simpl. split_and!; try done; lia.
Qed.

(** Everything fits: 281 octets of options at most, in the 336 there are. *)
Lemma sent_options_fit l t req sid :
  lease_typed l → addr_arg_ok req → addr_arg_ok sid →
  (length (encode_options (sent_options l t req sid)) ≤ 281)%nat.
Proof.
  intros Hl Hr Hs. rewrite encode_options_length.
  2:{ eapply Forall_impl; [|by apply (sent_options_ok l t req sid)]. by intros ? [? _]. }
  assert (H4 : Z.to_nat (u8 (Z.of_nat DMROUTE_IPV4_ADDR_LEN)) = 4%nat) by done.
  unfold sent_options. rewrite !sum_list_with_app.
  destruct req as [a|], sid as [b|], (hostname l) as [h|], (asks_parameters t);
    cbn [opt_list sum_list_with len addr_option hostname_option];
    rewrite ?H4, ?Nat2Z.id; lia.
Qed.

Lemma mac_after_ok h i :
  length (mac_after h i) = DMNETIF_MAC_ADDR_LEN ∧ bytes_ok (mac_after h i).
Proof.
  unfold mac_after.
  destruct (answer h (c_get_mac_address i) : option (list Z)) as [mac|] eqn:Hm; simpl.
  - by apply (mac_bytes h i).
  - split; [apply length_replicate|]. apply Forall_replicate. unfold is_u8. lia.
Qed.

Lemma sent_header_typed l ci h i :
  lease_typed l → addr_arg_ok ci → message_typed (sent_header l ci (mac_after h i)).
Proof.
  intros Hl Hci. destruct (mac_after_ok h i) as [Hlen Hok]. pose proof mac_len.
  unfold DMDHCP_CHADDR_LEN in *.
  split; simpl; try done; try apply addr_zero_ok; try apply Hl; unfold is_u8, DMDHCP_CHADDR_LEN.
  - lia.
  - destruct ci; [apply Hci|apply addr_none_ok].
  - rewrite length_app, length_replicate, Hlen. lia.
  - apply Forall_app. split; [done|]. apply Forall_replicate. unfold is_u8. lia.
Qed.

Lemma sent_header_supported l ci mac :
  addr_arg_ok ci → addrs_supported (sent_header l ci mac) = true.
Proof.
  intros Hci. unfold addrs_supported, not_v6, sent_header. simpl. rewrite family_zero_none.
  destruct ci as [[[] bs]|]; try done. by destruct Hci.
Qed.

Lemma message_header_sent l ci h i :
  message_header l ci (mac_after h i) = Some (sent_header l ci (mac_after h i)).
Proof.
  destruct (mac_after_ok h i) as [Hlen _]. pose proof mac_len as Hm.
  unfold message_header, mem_write. rewrite length_replicate. cbn [Nat.add take app].
  rewrite drop_replicate. unfold DMDHCP_CHADDR_LEN in *.
  destruct (Nat.leb_spec (length (mac_after h i)) 16); [|lia].
  cbn [mbind option_bind]. unfold sent_header. by rewrite u8_id by (unfold is_u8; lia).
Qed.

Lemma sent_payload_length l t ci req sid h i :
  lease_typed l → addr_arg_ok ci → addr_arg_ok req → addr_arg_ok sid →
  (length (sent_payload l t ci req sid (mac_after h i)) ≤ DMDHCP_MAX_MESSAGE_LEN)%nat.
Proof.
  intros Hl Hci Hr Hs. unfold sent_payload. rewrite !length_app.
  pose proof (sent_options_fit l t req sid Hl Hr Hs).
  pose proof (header_of_length (sent_header l ci (mac_after h i)) (replicate 192 0)
    DMDHCP_MAGIC_COOKIE (sent_header_typed l ci h i Hl Hci) (length_replicate _ _)) as Hh.
  change (header_of (sent_header l ci (mac_after h i)) (replicate 192 0) DMDHCP_MAGIC_COOKIE)
    with (message_bytes (sent_header l ci (mac_after h i))) in Hh.
  rewrite Hh. cbn [length]. unfold DMDHCP_MAX_MESSAGE_LEN. lia.
Qed.

(** The two codec calls of [send_message], on a buffer of any content *)
Lemma send_encodes l t ci req sid h i buffer :
  lease_typed l → addr_arg_ok ci → addr_arg_ok req → addr_arg_ok sid →
  length buffer = DMDHCP_MAX_MESSAGE_LEN →
  let header := sent_header l ci (mac_after h i) in
  let options := sent_options l t req sid in
  ∃ b area n,
    dmdhcp_build_message (Some buffer) DMDHCP_MAX_MESSAGE_LEN (Some header) = Some (0, Some b) ∧
    dmdhcp_options_write (Some (drop 240 b)) (DMDHCP_MAX_MESSAGE_LEN - 240) (Some options)
      (length options) (Some 0%nat) = Some (0, Some area, Some n) ∧
    mem_read (take 240 b ++ area) 0 (240 + n) = Some (sent_payload l t ci req sid (mac_after h i)).
Proof.
  intros Hl Hci Hr Hs Hb header options.
  pose proof (sent_header_typed l ci h i Hl Hci) as Ht.
  pose proof (sent_options_fit l t req sid Hl Hr Hs) as Hfit.
  assert (Hok : Forall option_ok options).
  { eapply Forall_impl; [|by apply (sent_options_ok l t req sid)]. by intros ? [? _]. }
  pose proof (header_of_length header (replicate 192 0) DMDHCP_MAGIC_COOKIE Ht
    (length_replicate _ _)) as Hh.
  change (header_of header (replicate 192 0) DMDHCP_MAGIC_COOKIE) with (message_bytes header) in Hh.
  unfold DMDHCP_MAX_MESSAGE_LEN in *.
  destruct (options_write_spec options (drop 240 buffer) (576 - 240) 0 Hok) as (area & Hw & _).
  { rewrite length_drop. lia. }
  destruct (Nat.leb_spec (576 - 240) (length (encode_options options))); [unfold options in *; lia|].
  do 3 eexists. split; [|split].
  - apply build_message_ok; [done|by apply sent_header_supported|lia].
  - rewrite drop_app_length' by done. exact Hw.
  - rewrite take_app_length' by done. rewrite app_assoc.
    set (p := message_bytes header ++ encode_options options ++ [DMDHCP_OPT_END]).
    assert (Hp : (240 + (length (encode_options options) + 1))%nat = length p).
    { unfold p. rewrite !length_app, Hh. done. }
    rewrite Hp. rewrite mem_read_take by (rewrite length_app; lia). by rewrite take_app_length.
Qed.

(** [send_message] from any state: one datagram when the buffer can be
    allocated, the lease unchanged, no block leaked. *)
Lemma send_message_run l s t ci req sid dst via :
  lease_typed l → addr_arg_ok ci → addr_arg_ok req → addr_arg_ok sid →
  ∃ rc, send_message t ci req sid dst via (LCtx l s)
        = Some (rc, LCtx l (log_all (send_calls (trace s) l t ci req sid dst via) s)) ∧
        (buffer_allocated (trace s) (iface l) = false → rc = - ENOMEM).
Proof.
  intros Hl Hci Hr Hs.
  unfold send_message, mbind, st_bind, getl, io_op, st_opt, dmnetif_get_mac_address, Dmod_Malloc.
  cbn [self plat id]. rewrite !ext_run. cbn [self plat].
  fold (mac_after (trace s) (iface l)). rewrite message_header_sent.
  unfold mbind, st_bind. rewrite ext_run. cbn [self plat].
  rewrite trace_log_all. unfold send_calls, buffer_allocated.
  destruct (answer (trace s ++ [c_get_mac_address (iface l)]) (c_malloc DMDHCP_MAX_MESSAGE_LEN)
    : option (list Z)) as [buffer|] eqn:Hm.
  2:{ eexists. split; [unfold mret, st_ret; by rewrite log_all_app|done]. }
  pose proof (malloc_size _ _ _ Hm) as Hb.
  destruct (send_encodes l t ci req sid (trace s) (iface l) buffer Hl Hci Hr Hs Hb)
    as (b & area & n & Hbuild & Hwrite & Hread).
  unfold st_modify, mret, st_ret. cbn [self plat]. rewrite Hbuild. cbn [negb Z.eqb].
  rewrite message_options_sent. cbn [from_option].
  change (DMDHCP_FIXED_HEADER_LEN + 4)%nat with 240%nat. unfold id. rewrite Hwrite.
  cbn [negb Z.eqb from_option]. unfold id. rewrite Hread.
  unfold dmudp_send_on_iface, dmudp_send, Dmod_Free, st_modify.
  destruct via; rewrite ext_run; cbn [plat self]; eexists; (split; [|discriminate]); do 3 f_equal;
    rewrite !log_all_app; destruct s; unfold set_blocks, log_all, set_trace, udp_call; simpl;
    f_equal; try lia; by rewrite <- ?app_assoc.
Qed.

(** ** The phase entries *)

(** [dmosi_timer_set_period] and [dmosi_timer_start] on timer [t] *)
Definition arm_calls (t : handle) (ms : Z) : list call := [c_timer_set_period t ms; c_timer_start t].

Lemma arm_retransmit_run l s t ms :
  retransmit_timer l = Some t → t ∈ timers s →
  arm_retransmit ms (LCtx l s) = Some (tt, LCtx l (log_all (arm_calls t ms) s)).
Proof.
  intros Ht Hin. unfold arm_retransmit. rewrite getl_bind, Ht.
  erewrite io_bind by (by apply timer_call_run).
  unfold io_op. cbn [plat]. unfold dmosi_timer_start.
  rewrite timer_call_run by done. by rewrite log_all_app.
Qed.

Definition rearmed (l : lease) : lease :=
  set_retransmit_interval_ms (next_backoff (retransmit_interval_ms l)) l.

Lemma rearm_backoff_run l s t :
  retransmit_timer l = Some t → t ∈ timers s →
  rearm_backoff (LCtx l s) =
    Some (tt, LCtx (rearmed l) (log_all (arm_calls t (retransmit_interval_ms (rearmed l))) s)).
Proof.
  intros Ht Hin. unfold rearm_backoff. rewrite getl_bind, setl_bind, getl_bind.
  by apply arm_retransmit_run.
Qed.

(** The lease as the entry of a phase leaves it, [x] being the new xid *)
Definition in_phase (s : dmdhcp_state_t) (x : Z) (l : lease) : lease :=
  set_state s (set_retransmit_interval_ms DMDHCP_RETRANSMIT_INITIAL_MS
    (set_retransmit_count 0 (set_xid x l))).

(** Everything learned from a server forgotten *)
Definition forgotten (l : lease) : lease :=
  set_ntp_servers (cleared (ntp_servers l)) (set_dns_servers (cleared (dns_servers l))
    (set_netmask addr_none (set_gateway addr_none
      (set_server_id addr_none (set_offered_ip addr_none l))))).

Definition discovering (x : Z) (l : lease) : lease :=
  in_phase dmdhcp_state_selecting x (forgotten l).

Lemma forgotten_typed l : lease_typed l → lease_typed (forgotten l).
Proof.
  intros []. split; simpl; try done; try apply addr_none_v4_or_none; by apply cleared_typed.
Qed.

Lemma in_phase_typed st x l : lease_typed l → is_u32 x → lease_typed (in_phase st x l).
Proof.
  intros [] Hx. split; simpl; try done;
    unfold DMDHCP_RETRANSMIT_INITIAL_MS, DMDHCP_RETRANSMIT_MAX_MS, DMDHCP_MAX_REQUEST_RETRANSMITS; lia.
Qed.

(** Only the interface, the xid and the hostname of the lease are sent. *)
Lemma send_calls_ext h l l' t ci req sid dst via :
  iface l = iface l' → xid l = xid l' → hostname l = hostname l' →
  send_calls h l t ci req sid dst via = send_calls h l' t ci req sid dst via.
Proof.
  intros Hi Hx Hh. unfold send_calls, udp_call, sent_payload, sent_header, sent_options.
  by rewrite Hi, Hx, Hh.
Qed.

(** The answer of [dmosi_rand32] after the calls [h] *)
Definition rand_after (h : list call) : Z := answer h c_rand32.

Lemma rand32_bind {B} (k : Z → lop B) l s :
  (io_op dmosi_rand32 ≫= k) (LCtx l s) = k (rand_after (trace s)) (LCtx l (log_all [c_rand32] s)).
Proof. done. Qed.

(** The calls of [dmdhcp_output_start_discovery] *)
Definition discovery_calls (h : list call) (l : lease) (t : handle) : list call :=
  [c_rand32]
  ++ send_calls (h ++ [c_rand32]) (discovering (rand_after h) l) dmdhcp_msg_discover
       None None None limited_broadcast true
  ++ arm_calls t DMDHCP_RETRANSMIT_INITIAL_MS.

Lemma start_discovery_run l s t :
  lease_typed l → retransmit_timer l = Some t → t ∈ timers s →
  dmdhcp_output_start_discovery (LCtx l s) =
    Some (tt, LCtx (discovering (rand_after (trace s)) l)
      (set_blocks (blocks s - server_count (dns_servers l) - server_count (ntp_servers l))
        (log_all (discovery_calls (trace s) l t) s))).
Proof.
  intros Hl Ht Hin. unfold dmdhcp_output_start_discovery.
  rewrite rand32_bind, !setl_bind.
  rewrite (lop_bind _ _ _ _ _ (clear_dns_run _ _)), (lop_bind _ _ _ _ _ (clear_ntp_run _ _)).
  rewrite !setl_bind. unfold send_discover.
  set (l1 := set_retransmit_interval_ms _ _). set (s1 := set_blocks _ _).
  assert (Hl1 : lease_typed l1).
  { pose proof (in_phase_typed (state l) (rand_after (trace s)) (forgotten l)
      (forgotten_typed l Hl) (rand32_range _)) as []. by split. }
  destruct (send_message_run l1 s1 dmdhcp_msg_discover None None None limited_broadcast true)
    as (rc & Hrc & _); [done..|].
  rewrite (lop_bind _ _ _ _ _ Hrc). rewrite setl_bind, getl_bind.
  rewrite (arm_retransmit_run _ _ t) by done.
  do 3 f_equal. subst s1. unfold discovery_calls.
  rewrite (send_calls_ext _ l1 (discovering (rand_after (trace s)) l)) by done.
  rewrite <- !log_all_app. done.
Qed.

(** The calls of the three entries that send a REQUEST *)
Definition phase_calls (h : list call) (l : lease) (st : dmdhcp_state_t) (t : handle)
    (ci req : option dmroute_addr_t) (dst : dmroute_addr_t) (via_iface : bool) : list call :=
  [c_rand32]
  ++ send_calls (h ++ [c_rand32]) (in_phase st (rand_after h) l) dmdhcp_msg_request
       ci req None dst via_iface
  ++ arm_calls t DMDHCP_RETRANSMIT_INITIAL_MS.

(** Up to the timer, which is armed last *)
Lemma start_phase_enters (send : lop Z) st l s ci req dst via :
  lease_typed l → addr_arg_ok ci → addr_arg_ok req →
  (∀ x s', send (LCtx (set_retransmit_interval_ms DMDHCP_RETRANSMIT_INITIAL_MS
      (set_retransmit_count 0 (set_xid x l))) s') =
    send_message dmdhcp_msg_request ci req None dst via
      (LCtx (set_retransmit_interval_ms DMDHCP_RETRANSMIT_INITIAL_MS
        (set_retransmit_count 0 (set_xid x l))) s')) →
  start_phase send st (LCtx l s) =
    arm_retransmit DMDHCP_RETRANSMIT_INITIAL_MS (LCtx (in_phase st (rand_after (trace s)) l)
      (log_all ([c_rand32] ++ send_calls (trace s ++ [c_rand32]) (in_phase st (rand_after (trace s)) l)
         dmdhcp_msg_request ci req None dst via) s)).
Proof.
  intros Hl Hci Hreq Hsend. unfold start_phase.
  rewrite rand32_bind, !setl_bind. set (l1 := set_retransmit_interval_ms _ _).
  assert (Hl1 : lease_typed l1).
  { pose proof (in_phase_typed (state l) (rand_after (trace s)) l Hl (rand32_range _)) as []. by split. }
  destruct (send_message_run l1 (log_all [c_rand32] s) dmdhcp_msg_request ci req None dst via)
    as (rc & Hrc & _); [done..|].
  specialize (Hsend (rand_after (trace s)) (log_all [c_rand32] s)). fold l1 in Hsend.
  rewrite Hrc in Hsend. rewrite (lop_bind _ _ _ _ _ Hsend). rewrite setl_bind, getl_bind.
  rewrite (send_calls_ext _ l1 (in_phase st (rand_after (trace s)) l)) by done.
  by rewrite log_all_app.
Qed.

Lemma start_phase_run (send : lop Z) st l s t ci req dst via :
  lease_typed l → addr_arg_ok ci → addr_arg_ok req →
  retransmit_timer l = Some t → t ∈ timers s →
  (∀ x s', send (LCtx (set_retransmit_interval_ms DMDHCP_RETRANSMIT_INITIAL_MS
      (set_retransmit_count 0 (set_xid x l))) s') =
    send_message dmdhcp_msg_request ci req None dst via
      (LCtx (set_retransmit_interval_ms DMDHCP_RETRANSMIT_INITIAL_MS
        (set_retransmit_count 0 (set_xid x l))) s')) →
  start_phase send st (LCtx l s) =
    Some (tt, LCtx (in_phase st (rand_after (trace s)) l)
      (log_all (phase_calls (trace s) l st t ci req dst via) s)).
Proof.
  intros Hl Hci Hreq Ht Hin Hsend. rewrite (start_phase_enters send st l s ci req dst via) by done.
  rewrite (arm_retransmit_run _ _ t) by done.
  do 3 f_equal. unfold phase_calls. by rewrite log_all_app.
Qed.

(** Arming a timer that was destroyed is undefined. *)
Lemma arm_retransmit_dead l s t ms :
  retransmit_timer l = Some t → t ∉ timers s → arm_retransmit ms (LCtx l s) = None.
Proof.
  intros Ht Hin. unfold arm_retransmit. rewrite getl_bind, Ht.
  unfold dmosi_timer_set_period, timer_call, io_op, mbind, st_bind. cbn [plat]. by rewrite decide_False.
Qed.

Lemma start_renew_dead l s t :
  lease_typed l → retransmit_timer l = Some t → t ∉ timers s → dmdhcp_output_start_renew (LCtx l s) = None.
Proof.
  intros Hl Ht Hin. unfold dmdhcp_output_start_renew.
  rewrite (start_phase_enters _ _ _ _ (Some (offered_ip l)) None (server_id l) false) by (try apply Hl; done). by apply (arm_retransmit_dead _ _ t).
Qed.

Lemma start_rebind_dead l s t :
  lease_typed l → retransmit_timer l = Some t → t ∉ timers s → dmdhcp_output_start_rebind (LCtx l s) = None.
Proof.
  intros Hl Ht Hin. unfold dmdhcp_output_start_rebind.
  rewrite (start_phase_enters _ _ _ _ (Some (offered_ip l)) None limited_broadcast true) by (try apply Hl; done). by apply (arm_retransmit_dead _ _ t).
Qed.

Lemma start_reboot_run l s t :
  lease_typed l → retransmit_timer l = Some t → t ∈ timers s →
  dmdhcp_output_start_reboot (LCtx l s) =
    Some (tt, LCtx (in_phase dmdhcp_state_rebooting (rand_after (trace s)) l)
      (log_all (phase_calls (trace s) l dmdhcp_state_rebooting t None (Some (offered_ip l))
        limited_broadcast true) s)).
Proof. intros Hl ??. by apply start_phase_run; try apply Hl. Qed.

Lemma start_renew_run l s t :
  lease_typed l → retransmit_timer l = Some t → t ∈ timers s →
  dmdhcp_output_start_renew (LCtx l s) =
    Some (tt, LCtx (in_phase dmdhcp_state_renewing (rand_after (trace s)) l)
      (log_all (phase_calls (trace s) l dmdhcp_state_renewing t (Some (offered_ip l)) None
        (server_id l) false) s)).
Proof. intros Hl ??. by apply start_phase_run; try apply Hl. Qed.

Lemma start_rebind_run l s t :
  lease_typed l → retransmit_timer l = Some t → t ∈ timers s →
  dmdhcp_output_start_rebind (LCtx l s) =
    Some (tt, LCtx (in_phase dmdhcp_state_rebinding (rand_after (trace s)) l)
      (log_all (phase_calls (trace s) l dmdhcp_state_rebinding t (Some (offered_ip l)) None
        limited_broadcast true) s)).
Proof. intros Hl ??. by apply start_phase_run; try apply Hl. Qed.

(** ** Safety of the senders and of the phase entries *)
Lemma send_message_safe t ci req sid dst via :
  addr_arg_ok ci → addr_arg_ok req → addr_arg_ok sid →
  lop_safe (send_message t ci req sid dst via).
Proof.
  intros ???. apply lop_safe_calls. intros l s Hl _.
  destruct (send_message_run l s t ci req sid dst via) as (rc & Hrc & _); [done..|]. eauto.
Qed.

(** A sender reads the addresses of the lease it sends for. *)
Lemma send_for_safe t (ci req sid : lease → option dmroute_addr_t) dst via :
  (∀ l, lease_typed l → addr_arg_ok (ci l) ∧ addr_arg_ok (req l) ∧ addr_arg_ok (sid l)) →
  lop_safe (l ← getl id; send_message t (ci l) (req l) (sid l) (dst l) via).
Proof.
  intros Ha. apply lop_safe_calls. intros l s Hl _. rewrite getl_bind.
  destruct (Ha l Hl) as (?&?&?).
  destruct (send_message_run l s t (ci l) (req l) (sid l) (dst l) via) as (rc & Hrc & _); [done..|]. eauto.
Qed.

Lemma send_discover_safe : lop_safe send_discover.
Proof. by apply send_message_safe. Qed.

Lemma send_request_selecting_safe : lop_safe send_request_selecting.
Proof. apply (send_for_safe _ (λ _, None) (λ l, Some _) (λ l, Some _) (λ _, _)). intros l []; by split_and!. Qed.

Lemma send_request_reboot_safe : lop_safe send_request_reboot.
Proof. apply (send_for_safe _ (λ _, None) (λ l, Some _) (λ _, None) (λ _, _)). intros l []; by split_and!. Qed.

Lemma send_request_renew_safe : lop_safe send_request_renew.
Proof. apply (send_for_safe _ (λ l, Some _) (λ _, None) (λ _, None) server_id). intros l []; by split_and!. Qed.

Lemma send_request_rebind_safe : lop_safe send_request_rebind.
Proof. apply (send_for_safe _ (λ l, Some _) (λ _, None) (λ _, None) (λ _, _)). intros l []; by split_and!. Qed.

Lemma send_decline_safe : lop_safe send_decline.
Proof. apply (send_for_safe _ (λ _, None) (λ l, Some _) (λ l, Some _) (λ _, _)). intros l []; by split_and!. Qed.

Lemma send_release_safe : lop_safe dmdhcp_output_send_release.
Proof. apply (send_for_safe _ (λ l, Some _) (λ _, None) (λ l, Some _) server_id). intros l []; by split_and!. Qed.

Lemma arm_retransmit_safe ms : lop_safe (arm_retransmit ms).
Proof.
  apply lop_safe_calls. intros l s _ [(t & Ht & Hin) _].
  do 2 eexists. by apply (arm_retransmit_run _ _ t).
Qed.

Lemma next_backoff_range ms : 0 ≤ next_backoff ms ≤ DMDHCP_RETRANSMIT_MAX_MS.
Proof.
  unfold next_backoff, DMDHCP_RETRANSMIT_MAX_MS. pose proof (u32_range (ms * 2)) as [? ?].
  destruct (Z.ltb_spec 64000 (u32 (ms * 2))); lia.
Qed.

Lemma rearmed_typed l : lease_typed l → lease_typed (rearmed l).
Proof. intros []. split; try done. apply next_backoff_range. Qed.

Lemma rearm_backoff_safe : lop_safe rearm_backoff.
Proof.
  intros l s Hl [(t & Ht & Hin) _]. do 3 eexists. split; [by apply (rearm_backoff_run _ _ t)|].
  split; [by apply rearmed_typed|done|apply io_frame_log_all|done].
Qed.

Lemma start_discovery_safe : lop_safe dmdhcp_output_start_discovery.
Proof.
  intros l s Hl [(t & Ht & Hin) _]. do 3 eexists. split; [by apply (start_discovery_run _ _ t)|].
  split.
  - apply in_phase_typed; [by apply forgotten_typed|apply rand32_range].
  - done.
  - etransitivity; [apply io_frame_log_all|apply io_frame_set_blocks].
  - unfold lease_blocks. simpl. rewrite !cleared_count. lia.
Qed.

Lemma in_phase_safe (m : lop unit) st (cs : list call → lease → handle → list call) :
  (∀ l s t, lease_typed l → retransmit_timer l = Some t → t ∈ timers s →
     m (LCtx l s) = Some (tt, LCtx (in_phase st (rand_after (trace s)) l)
       (log_all (cs (trace s) l t) s))) →
  lop_safe m.
Proof.
  intros Hm l s Hl [(t & Ht & Hin) _]. do 3 eexists. split; [by apply (Hm l s t)|].
  split; [apply in_phase_typed; [done|apply rand32_range]|done|apply io_frame_log_all|done].
Qed.

Lemma start_reboot_safe : lop_safe dmdhcp_output_start_reboot.
Proof.
  apply (in_phase_safe _ dmdhcp_state_rebooting (λ h l t, phase_calls h l dmdhcp_state_rebooting t None (Some (offered_ip l))
    limited_broadcast true)).
  intros. by apply start_reboot_run.
Qed.

Lemma start_renew_safe : lop_safe dmdhcp_output_start_renew.
Proof.
  apply (in_phase_safe _ dmdhcp_state_renewing (λ h l t, phase_calls h l dmdhcp_state_renewing t (Some (offered_ip l)) None
    (server_id l) false)).
  intros. by apply start_renew_run.
Qed.

Lemma start_rebind_safe : lop_safe dmdhcp_output_start_rebind.
Proof.
  apply (in_phase_safe _ dmdhcp_state_rebinding (λ h l t, phase_calls h l dmdhcp_state_rebinding t (Some (offered_ip l)) None
    limited_broadcast true)).
  intros. by apply start_rebind_run.
Qed.
(** ** What the receiver of a datagram reads *)

(** The data of option [c] of a datagram, found the way a client of the codec
    finds it *)
Definition carried (payload : list Z) (c : Z) : option (list Z) :=
  option_found (drop 240 payload) c.

Lemma sent_payload_area l t ci req sid h i :
  lease_typed l → addr_arg_ok ci →
  drop 240 (sent_payload l t ci req sid (mac_after h i))
  = encode_options (sent_options l t req sid) ++ [DMDHCP_OPT_END].
Proof.
  intros Hl Hci. unfold sent_payload. apply drop_app_length'. symmetry.
  exact (header_of_length (sent_header l ci (mac_after h i)) (replicate 192 0)
    DMDHCP_MAGIC_COOKIE (sent_header_typed l ci h i Hl Hci) (length_replicate _ _)).
Qed.

Lemma carried_sent l t ci req sid h i c :
  lease_typed l → addr_arg_ok ci → addr_arg_ok req → addr_arg_ok sid →
  carried (sent_payload l t ci req sid (mac_after h i)) c
  = opt_data <$> List.find (λ o, code o =? c) (sent_options l t req sid).
Proof.
  intros Hl Hci Hr Hs. unfold carried, option_found. rewrite sent_payload_area by done.
  pose proof (encoded_find (sent_options l t req sid) c (DhcpOption 0 0 None)
    (sent_options_ok l t req sid Hl Hr Hs)) as H. cbn zeta in H.
  destruct (List.find _ _) as [o|].
  - destruct H as (found & -> & _ & _ & Hd). simpl. by rewrite Hd.
  - by rewrite H.
Qed.

Lemma sent_payload_parses l t ci req sid h i m0 off0 :
  lease_typed l → addr_arg_ok ci →
  dmdhcp_parse_message (Some (sent_payload l t ci req sid (mac_after h i)))
    (length (sent_payload l t ci req sid (mac_after h i))) (Some m0) (Some off0)
  = Some (0, Some (on_the_wire (sent_header l ci (mac_after h i))), Some 240%nat).
Proof.
  intros Hl Hci. pose proof (sent_header_typed l ci h i Hl Hci) as Ht.
  unfold sent_payload.
  change (message_bytes (sent_header l ci (mac_after h i))) with
    (header_of (sent_header l ci (mac_after h i)) (replicate 192 0) DMDHCP_MAGIC_COOKIE).
  rewrite parse_header_of; [done..|].
  rewrite length_app, header_of_length by done. lia.
Qed.

(** The seven messages of the client *)
Inductive sender : Set :=
  | S_discover | S_selecting | S_reboot | S_renew | S_rebind | S_decline | S_release.

Definition send_of (k : sender) : lop Z :=
  match k with
  | S_discover => send_discover
  | S_selecting => send_request_selecting
  | S_reboot => send_request_reboot
  | S_renew => send_request_renew
  | S_rebind => send_request_rebind
  | S_decline => send_decline
  | S_release => dmdhcp_output_send_release
  end.

(** RFC 2131, table 5 (and 4.4.4 for the destination): the message type, what
    [ciaddr], option 50 and option 54 hold, and whether the datagram is
    broadcast on the link *)
Record shape : Set := Shape {
  sh_type : dmdhcp_msg_type_t;
  sh_ciaddr : bool;
  sh_requested_ip : bool;
  sh_server_id : bool;
  sh_broadcast : bool;
}.

Definition shape_of (k : sender) : shape :=
  match k with
  | S_discover => Shape dmdhcp_msg_discover false false false true
  | S_selecting => Shape dmdhcp_msg_request false true true true
  | S_reboot => Shape dmdhcp_msg_request false true false true
  | S_renew => Shape dmdhcp_msg_request true false false false
  | S_rebind => Shape dmdhcp_msg_request true false false true
  | S_decline => Shape dmdhcp_msg_decline false true true true
  | S_release => Shape dmdhcp_msg_release true false true false
  end.

Definition when_true {A} (b : bool) (a : A) : option A := if b then Some a else None.

Lemma send_of_shape k l s :
  send_of k (LCtx l s) =
  send_message (sh_type (shape_of k)) (when_true (sh_ciaddr (shape_of k)) (offered_ip l))
    (when_true (sh_requested_ip (shape_of k)) (offered_ip l))
    (when_true (sh_server_id (shape_of k)) (server_id l))
    (if sh_broadcast (shape_of k) then limited_broadcast else server_id l)
    (sh_broadcast (shape_of k)) (LCtx l s).
Proof. by destruct k. Qed.

Lemma when_true_ok b a : addr_v4_or_none a → addr_arg_ok (when_true b a).
Proof. by destruct b. Qed.

(** The calls of a sender made after the calls [h] *)
Definition sender_calls (h : list call) (l : lease) (k : sender) : list call :=
  let sh := shape_of k in
  send_calls h l (sh_type sh) (when_true (sh_ciaddr sh) (offered_ip l))
    (when_true (sh_requested_ip sh) (offered_ip l)) (when_true (sh_server_id sh) (server_id l))
    (if sh_broadcast sh then limited_broadcast else server_id l) (sh_broadcast sh).

Lemma send_of_run k l s :
  lease_typed l →
  ∃ rc, send_of k (LCtx l s) = Some (rc, LCtx l (log_all (sender_calls (trace s) l k) s)).
Proof.
  intros Hl. rewrite send_of_shape. destruct (send_message_run l s (sh_type (shape_of k))
    (when_true (sh_ciaddr (shape_of k)) (offered_ip l))
    (when_true (sh_requested_ip (shape_of k)) (offered_ip l))
    (when_true (sh_server_id (shape_of k)) (server_id l))
    (if sh_broadcast (shape_of k) then limited_broadcast else server_id l)
    (sh_broadcast (shape_of k)) Hl) as (rc & Hrc & _);
    [apply when_true_ok, Hl..|]. exists rc. exact Hrc.
Qed.

(** C9: what the server reads in each of the seven messages.  A sender leaves
    the lease alone and returns; without memory for the 576-octet buffer it is
    [-ENOMEM] and nothing is sent.  Otherwise exactly one datagram leaves,
    from port 68 to port 67, on the link to 255.255.255.255 or routed to the
    server as RFC 2131 has it; it is at most 576 octets, and parsing it gives
    a BOOTREQUEST with the xid of the lease and the broadcast flag, the leased
    address in [ciaddr] or 0.0.0.0, the message type, and options 50 and 54
    exactly in the messages that carry them. *)
Theorem messages_rfc2131 k l s :
  lease_typed l →
  let sh := shape_of k in
  let alloc := [c_get_mac_address (iface l); c_malloc DMDHCP_MAX_MESSAGE_LEN] in
  ∃ rc cs, send_of k (LCtx l s) = Some (rc, LCtx l (log_all (alloc ++ cs) s)) ∧
    if buffer_allocated (trace s) (iface l) then ∃ payload m,
      cs = [if sh_broadcast sh
            then c_udp_send_on_iface (iface l) limited_broadcast 68 67 payload 1000
            else c_udp_send (server_id l) 68 67 payload 1000] ∧
      (length payload ≤ DMDHCP_MAX_MESSAGE_LEN)%nat ∧
      (∀ m0 off0, dmdhcp_parse_message (Some payload) (length payload) (Some m0) (Some off0)
        = Some (0, Some m, Some 240%nat)) ∧
      op m = dmdhcp_op_bootrequest ∧ msg_xid m = xid l ∧ flags m = DMDHCP_FLAG_BROADCAST ∧
      ciaddr m = as_v4 (if sh_ciaddr sh then offered_ip l else addr_none) ∧
      take DMNETIF_MAC_ADDR_LEN (chaddr m) = mac_after (trace s) (iface l) ∧
      carried payload DMDHCP_OPT_MSG_TYPE = Some [msg_type_val (sh_type sh)] ∧
      carried payload DMDHCP_OPT_REQUESTED_IP = when_true (sh_requested_ip sh) (v4 (offered_ip l)) ∧
      carried payload DMDHCP_OPT_SERVER_ID = when_true (sh_server_id sh) (v4 (server_id l)) ∧
      carried payload DMDHCP_OPT_HOSTNAME = take 255 <$> hostname l
    else cs = [] ∧ rc = - ENOMEM.
Proof.
  intros Hl sh alloc. rewrite send_of_shape. fold sh.
  pose proof (when_true_ok (sh_ciaddr sh) _ (lt_offered_ip l Hl)) as Hci.
  pose proof (when_true_ok (sh_requested_ip sh) _ (lt_offered_ip l Hl)) as Hreq.
  pose proof (when_true_ok (sh_server_id sh) _ (lt_server_id l Hl)) as Hsid.
  edestruct (send_message_run l s (sh_type sh)) as (rc & Hrc & Henomem); [exact Hl|exact Hci|exact Hreq|exact Hsid|].
  exists rc. eexists. rewrite Hrc. split; [done|].
  destruct (buffer_allocated (trace s) (iface l)); [|by split; [|apply Henomem]].
  destruct (mac_after_ok (trace s) (iface l)) as [Hmac _].
  set (ci := when_true (sh_ciaddr sh) _) in *. set (req := when_true (sh_requested_ip sh) _) in *.
  set (sid := when_true (sh_server_id sh) _) in *.
  exists (sent_payload l (sh_type sh) ci req sid (mac_after (trace s) (iface l))),
    (on_the_wire (sent_header l ci (mac_after (trace s) (iface l)))).
  split; [unfold udp_call; by destruct (sh_broadcast sh)|].
  split; [by apply sent_payload_length|]. split; [intros; by apply sent_payload_parses|].
  rewrite !carried_sent by done. subst ci req sid.
  split; [done|]. split; [done|]. split; [done|]. split; [simpl; by destruct (sh_ciaddr sh)|].
  split; [simpl; by rewrite <- Hmac, take_app_length|].
  assert (H4 : ∀ a, addr_v4_or_none a → opt_data (addr_option DMDHCP_OPT_REQUESTED_IP a) = v4 a
    ∧ opt_data (addr_option DMDHCP_OPT_SERVER_ID a) = v4 a).
  { intros a [[Ha _] _]. unfold opt_data, addr_option.
    change (Z.to_nat (len _)) with 4%nat. change (default [] (data _)) with (v4 a).
    unfold DMROUTE_IPV4_ADDR_LEN in Ha. split; apply take_ge; lia. }
  destruct (H4 _ (lt_offered_ip l Hl)) as [H50 _]. destruct (H4 _ (lt_server_id l Hl)) as [_ H54].
  assert (Hh : ∀ h, opt_data (hostname_option h) = take 255 h).
  { intros h. unfold opt_data. cbn [data len hostname_option default from_option]. rewrite Nat2Z.id.
    destruct (Nat.leb_spec (length h) 255).
    - rewrite Nat.min_l by lia. unfold id. by rewrite !take_ge by lia.
    - by rewrite Nat.min_r by lia. }
  clear -H50 H54 Hh. unfold sent_options.
  split; [done|]. split_and!; destruct k, (hostname l) as [hn|]; simpl; rewrite ?H50, ?H54, ?Hh; done.
Qed.

(** The value of the backoff after [n] retransmits *)
Lemma next_backoff_double ms :
  0 ≤ ms ≤ DMDHCP_RETRANSMIT_MAX_MS → next_backoff ms = Z.min (2 * ms) DMDHCP_RETRANSMIT_MAX_MS.
Proof.
  unfold next_backoff, DMDHCP_RETRANSMIT_MAX_MS. intros.
  rewrite u32_id by (unfold is_u32; lia). destruct (Z.ltb_spec 64000 (ms * 2)); lia.
Qed.

(** C33: the retransmission backoff.  Starting from 4 s, the period armed by the
    [n]-th retransmission is [min(4 s * 2^n, 64 s)] (no [uint32_t] doubling
    ever wraps), so it never decreases and is 64 s from the fourth on; each
    [rearm_backoff] arms the retransmit timer with exactly that period. *)
Theorem backoff_doubles_to_64s n l s t :
  retransmit_timer l = Some t → t ∈ timers s →
  retransmit_interval_ms l = Nat.iter n next_backoff DMDHCP_RETRANSMIT_INITIAL_MS →
  let ms := Z.min (DMDHCP_RETRANSMIT_INITIAL_MS * 2 ^ Z.of_nat (S n)) DMDHCP_RETRANSMIT_MAX_MS in
  rearm_backoff (LCtx l s) =
    Some (tt, LCtx (set_retransmit_interval_ms ms l)
      (log_all [c_timer_set_period t ms; c_timer_start t] s)).
Proof.
  intros Ht Hin Hn ms. rewrite (rearm_backoff_run _ _ t) by done.
  assert (Hi : ∀ n, Nat.iter n next_backoff DMDHCP_RETRANSMIT_INITIAL_MS =
    Z.min (DMDHCP_RETRANSMIT_INITIAL_MS * 2 ^ Z.of_nat n) DMDHCP_RETRANSMIT_MAX_MS).
  { clear. intros n. induction n as [|n IH]; [done|].
    rewrite Nat.iter_succ, IH. unfold DMDHCP_RETRANSMIT_INITIAL_MS, DMDHCP_RETRANSMIT_MAX_MS in *.
    pose proof (Z.pow_pos_nonneg 2 (Z.of_nat n)).
    rewrite next_backoff_double by (unfold DMDHCP_RETRANSMIT_MAX_MS; lia).
    rewrite Nat2Z.inj_succ, Z.pow_succ_r by lia. unfold DMDHCP_RETRANSMIT_MAX_MS. lia. }
  assert (Hms : next_backoff (retransmit_interval_ms l) = ms).
  { rewrite Hn, <- Nat.iter_succ. apply Hi. }
  unfold rearmed. by rewrite Hms.
Qed.
End Sent.

#[export] Hint Resolve send_discover_safe send_request_selecting_safe send_request_reboot_safe
  send_request_renew_safe send_request_rebind_safe send_decline_safe send_release_safe
  arm_retransmit_safe rearm_backoff_safe start_discovery_safe start_reboot_safe start_renew_safe
  start_rebind_safe : dhcp.
