(* ===== verification/Lifecycle.v ===== *)
(** [src/dmdhcp_lifecycle.c], the functions that work on one lease: applying
    it to the interface, undoing that, and arming the lease timer. *)
From S2P Require Import Prelude Types Platform Lease.

Section Lifecycle.
Context `{E : Env} `{D : DmList}.

(** [for (i ...) broadcast.addr.v4[i] = (uint8_t)(ip[i] | (uint8_t)(~mask[i]))]:
    [n] octets left, the next one is [i]. *)
Fixpoint broadcast_loop (n i : nat) (ip mask out : list Z) : option (list Z) :=
  match n with
  | O => Some out
  | S n =>
      a ← rd ip i;
      m ← rd mask i;
      out ← wr out i (u8 (Z.lor a (u8 (Z.lnot m))));
      broadcast_loop n (S i) ip mask out
  end.

Definition dmdhcp_lifecycle_apply : lop Z :=
  l ← getl id;
  result ← io_op (dmnetif_set_netmask (iface l) (netmask l));
  if negb (result =? 0) then mret result else
  result ← io_op (dmnetif_set_ip_address (iface l) (offered_ip l));
  if negb (result =? 0) then mret result else
  (if is_v4 (netmask l) then
     b ← st_opt (broadcast_loop DMROUTE_IPV4_ADDR_LEN 0 (v4 (offered_ip l)) (v4 (netmask l)) v4_zero);
     io_op (dmnetif_set_broadcast (iface l) (Addr dmroute_family_v4 b));;
     mret tt
   else mret tt);;
  (if is_v4 (gateway l) then
     let any := Addr dmroute_family_v4 v4_zero in
     name ← io_op (dmnetif_get_name (iface l));
     r ← io_op (dmroute_add any any (gateway l) name DMROUTE_DEFAULT_METRIC);
     setl (set_default_route r)
   else setl (set_default_route None));;
  setl (set_iface_configured true);;
  mret 0.

Definition dmdhcp_lifecycle_unapply : lop unit :=
  l ← getl id;
  if negb (iface_configured l) then mret tt else
  match default_route l with
  | Some r =>
      io_op (dmroute_remove r);;
      setl (set_default_route None)
  | None => mret tt
  end;;
  io_op (dmnetif_set_ip_address (iface l) addr_none);;
  io_op (dmnetif_set_netmask (iface l) addr_none);;
  io_op (dmnetif_set_broadcast (iface l) addr_none);;
  setl (set_iface_configured false).

Definition arm_lease_timer (ms : Z) : lop unit :=
  t ← getl lease_timer;
  io_op (dmosi_timer_set_period t ms);;
  io_op (dmosi_timer_start t).

(** The periods the three arming functions compute, in [uint32_t] *)
Definition t1_period (l : lease) : Z :=
  let period_ms := u32 (t1_sec l * 1000) in
  if period_ms =? 0 then 1 else period_ms.

Definition t2_period (l : lease) : Z :=
  let remaining_sec := if t1_sec l <? t2_sec l then u32 (t2_sec l - t1_sec l) else 1 in
  u32 (remaining_sec * 1000).

Definition expiry_period (l : lease) : Z :=
  let remaining_sec :=
    if t2_sec l <? lease_time_sec l then u32 (lease_time_sec l - t2_sec l) else 1 in
  u32 (remaining_sec * 1000).

Definition dmdhcp_lifecycle_arm_t1 : lop unit :=
  l ← getl id;
  arm_lease_timer (t1_period l).

Definition dmdhcp_lifecycle_arm_t2 : lop unit :=
  l ← getl id;
  arm_lease_timer (t2_period l).

Definition dmdhcp_lifecycle_arm_expiry : lop unit :=
  l ← getl id;
  arm_lease_timer (expiry_period l).

Definition dmdhcp_lifecycle_create_lease_timer (p : ptr) : st io (option handle) :=
  dmosi_timer_create lease_timer_kind p DMDHCP_RETRANSMIT_INITIAL_MS false.
End Lifecycle.

(** ** What applying a lease does *)
Section Applied.
Context `{E : Env} {EO : EnvOk E} `{D : DmList} {DL : DmListLaws D}.

(** The broadcast address: the host bits of the leased address set *)
Definition broadcast_octet (a m : Z) : Z := Z.lor a (Z.lxor m 255).
Definition broadcast_of (l : lease) : dmroute_addr_t :=
  Addr dmroute_family_v4 (zip_with broadcast_octet (v4 (offered_ip l)) (v4 (netmask l))).

Definition any_addr : dmroute_addr_t := Addr dmroute_family_v4 v4_zero.

(** The calls of a [dmdhcp_lifecycle_apply] made after the calls [h], and the
    lease it leaves, when both interface calls succeed *)
Definition configure_calls (l : lease) : list call :=
  [c_set_netmask (iface l) (netmask l); c_set_ip_address (iface l) (offered_ip l)]
  ++ (if is_v4 (netmask l) then [c_set_broadcast (iface l) (broadcast_of l)] else []).

Definition route_call (h : list call) (l : lease) : call :=
  c_route_add any_addr any_addr (gateway l) (answer (h ++ configure_calls l) (c_get_name (iface l)))
    DMROUTE_DEFAULT_METRIC.

Definition apply_route (h : list call) (l : lease) : option Z :=
  if is_v4 (gateway l)
  then answer (h ++ configure_calls l ++ [c_get_name (iface l)]) (route_call h l)
  else None.

Definition apply_calls (h : list call) (l : lease) : list call :=
  configure_calls l
  ++ (if is_v4 (gateway l) then [c_get_name (iface l); route_call h l] else []).

Definition applied (h : list call) (l : lease) : lease :=
  set_iface_configured true (set_default_route (apply_route h l) l).

(** The answers of the two calls that can fail *)
Definition netmask_rc (h : list call) (l : lease) : Z :=
  answer h (c_set_netmask (iface l) (netmask l)).
Definition address_rc (h : list call) (l : lease) : Z :=
  answer (h ++ [c_set_netmask (iface l) (netmask l)]) (c_set_ip_address (iface l) (offered_ip l)).

Lemma lnot_octet m : is_u8 m → u8 (Z.lnot m) = Z.lxor m 255.
Proof.
  intros Hm. unfold u8. change 256 with (2 ^ 8). rewrite <- Z.land_ones by lia.
  apply Z.bits_inj'. intros i Hi. rewrite Z.land_spec, Z.lnot_spec, Z.lxor_spec by done.
  change 255 with (Z.ones 8). destruct (Z.ltb_spec i 8).
  - rewrite Z.ones_spec_low by lia. by rewrite andb_true_r, xorb_true_r.
  - rewrite Z.ones_spec_high by lia. rewrite andb_false_r, xorb_false_r.
    rewrite <- (Z.mod_small m (2 ^ 8)) by exact Hm. by rewrite Z.mod_pow2_bits_high by lia.
Qed.

Lemma lxor_octet m : is_u8 m → is_u8 (Z.lxor m 255).
Proof. intros Hm. rewrite <- lnot_octet by done. apply u8_range. Qed.

Lemma lor_octet a b : is_u8 a → is_u8 b → is_u8 (Z.lor a b).
Proof.
  unfold is_u8. intros Ha Hb. split; [apply Z.lor_nonneg; lia|].
  destruct (Z.eq_dec (Z.lor a b) 0) as [->|]; [lia|].
  assert (0 ≤ Z.lor a b) by (apply Z.lor_nonneg; lia).
  apply (Z.log2_lt_pow2 _ 8); [lia|]. rewrite Z.log2_lor by lia.
  apply Z.max_lub_lt.
  - destruct (Z.eq_dec a 0) as [->|]; [done|]. apply Z.log2_lt_pow2; lia.
  - destruct (Z.eq_dec b 0) as [->|]; [done|]. apply Z.log2_lt_pow2; lia.
Qed.

Lemma broadcast_loop_run ip mask :
  length ip = 4%nat → length mask = 4%nat → bytes_ok ip → bytes_ok mask →
  broadcast_loop DMROUTE_IPV4_ADDR_LEN 0 ip mask v4_zero = Some (zip_with broadcast_octet ip mask).
Proof.
  intros (a0&a1&a2&a3&->)%length4 (m0&m1&m2&m3&->)%length4 Hip Hm.
  unfold bytes_ok in *. decompose_Forall_hyps. unfold broadcast_octet.
  cbn -[u8 Z.lor Z.lnot Z.lxor]. rewrite !lnot_octet by done.
  rewrite !u8_id by (apply lor_octet; [done|by apply lxor_octet]). done.
Qed.

Lemma lease_broadcast l :
  lease_typed l →
  broadcast_loop DMROUTE_IPV4_ADDR_LEN 0 (v4 (offered_ip l)) (v4 (netmask l)) v4_zero
  = Some (v4 (broadcast_of l)).
Proof. intros [_ [[? ?] _] [[? ?] _]]. by apply broadcast_loop_run. Qed.

(** [dmdhcp_lifecycle_apply] on every branch *)
Lemma apply_run l s :
  lease_typed l →
  dmdhcp_lifecycle_apply (LCtx l s) =
    if negb (netmask_rc (trace s) l =? 0)
    then Some (netmask_rc (trace s) l, LCtx l (log_all (take 1 (configure_calls l)) s))
    else if negb (address_rc (trace s) l =? 0)
    then Some (address_rc (trace s) l, LCtx l (log_all (take 2 (configure_calls l)) s))
    else Some (0, LCtx (applied (trace s) l) (log_all (apply_calls (trace s) l) s)).
Proof.
  intros Hl. unfold dmdhcp_lifecycle_apply. rewrite getl_bind.
  unfold id. run_ext. fold (netmask_rc (trace s) l).
  destruct (negb (netmask_rc (trace s) l =? 0)); [done|].
  run_ext. rewrite trace_log_all. fold (address_rc (trace s) l).
  destruct (negb (address_rc (trace s) l =? 0)); [by rewrite log_all_app|].
  rewrite !log_all_app. unfold applied, apply_calls, apply_route, route_call, configure_calls.
  pose proof (lease_broadcast l Hl) as Hb.
  assert (Hroute : ∀ cs, (((if is_v4 (gateway l) then
       name ← io_op (dmnetif_get_name (iface l));
       r ← io_op (dmroute_add any_addr any_addr (gateway l) name DMROUTE_DEFAULT_METRIC);
       setl (set_default_route r)
     else setl (set_default_route None));;
     setl (set_iface_configured true);; mret 0) : lop Z) (LCtx l (log_all cs s)) =
    Some (0, LCtx (set_iface_configured true (set_default_route
      (if is_v4 (gateway l) then
         answer (trace s ++ cs ++ [c_get_name (iface l)])
           (c_route_add any_addr any_addr (gateway l)
             (answer (trace s ++ cs) (c_get_name (iface l))) DMROUTE_DEFAULT_METRIC)
       else None) l))
      (log_all (cs ++ (if is_v4 (gateway l) then [c_get_name (iface l);
        c_route_add any_addr any_addr (gateway l)
             (answer (trace s ++ cs) (c_get_name (iface l))) DMROUTE_DEFAULT_METRIC] else [])) s))).
  { intros cs. destruct (is_v4 (gateway l)).
    - rewrite bind_bind. run_ext. rewrite bind_bind. run_ext. rewrite !setl_bind, !trace_log_all.
      rewrite !log_all_app. by rewrite <- !app_assoc.
    - by rewrite !setl_bind, app_nil_r. }
  destruct (is_v4 (netmask l)).
  - rewrite Hb, bind_bind, opt_bind, bind_bind. run_ext. rewrite ret_bind, log_all_app.
    apply Hroute.
  - rewrite ret_bind. apply Hroute.
Qed.

(** The same in one equation *)
Definition apply_rc (h : list call) (l : lease) : Z :=
  if negb (netmask_rc h l =? 0) then netmask_rc h l else address_rc h l.

Definition apply_made (h : list call) (l : lease) : list call :=
  if negb (netmask_rc h l =? 0) then take 1 (configure_calls l)
  else if negb (address_rc h l =? 0) then take 2 (configure_calls l)
  else apply_calls h l.

Definition apply_lease (h : list call) (l : lease) : lease :=
  if negb (netmask_rc h l =? 0) || negb (address_rc h l =? 0) then l else applied h l.

Lemma apply_made_run l s :
  lease_typed l →
  dmdhcp_lifecycle_apply (LCtx l s) =
    Some (apply_rc (trace s) l, LCtx (apply_lease (trace s) l) (log_all (apply_made (trace s) l) s)).
Proof.
  intros Hl. rewrite apply_run by done. unfold apply_rc, apply_made, apply_lease.
  destruct (Z.eqb_spec (netmask_rc (trace s) l) 0) as [->|]; [|done].
  by destruct (Z.eqb_spec (address_rc (trace s) l) 0) as [->|].
Qed.

Lemma apply_lease_step l s :
  lease_typed l → lease_step l s (apply_lease (trace s) l) (log_all (apply_made (trace s) l) s).
Proof.
  intros Hl. split; [|unfold apply_lease; by case_match|apply io_frame_log_all|unfold apply_lease; by case_match].
  unfold apply_lease. case_match; [done|]. destruct Hl. by split.
Qed.

(** ** Undoing it *)
Definition unapplied (l : lease) : lease :=
  if iface_configured l then set_iface_configured false (set_default_route None l) else l.

Definition unapply_calls (l : lease) : list call :=
  if iface_configured l then
    match default_route l with Some r => [c_route_remove r] | None => [] end
    ++ [c_set_ip_address (iface l) addr_none; c_set_netmask (iface l) addr_none;
        c_set_broadcast (iface l) addr_none]
  else [].

Lemma unapply_run l s :
  dmdhcp_lifecycle_unapply (LCtx l s) = Some (tt, LCtx (unapplied l) (log_all (unapply_calls l) s)).
Proof.
  unfold dmdhcp_lifecycle_unapply, unapplied, unapply_calls. rewrite getl_bind. unfold id.
  destruct (iface_configured l) eqn:Hc; cbn [negb]; [|by rewrite log_all_nil].
  destruct (default_route l) as [r|] eqn:Hr.
  - rewrite bind_bind. run_ext. rewrite setl_bind. do 3 run_ext. by rewrite !log_all_app.
  - rewrite ret_bind. do 3 run_ext. rewrite !log_all_app. unfold setl. do 3 f_equal.
    destruct l. simpl in *. by subst.
Qed.

(** ** The lease timer *)
Lemma arm_lease_timer_run l s t ms :
  lease_timer l = Some t → t ∈ timers s →
  arm_lease_timer ms (LCtx l s)
  = Some (tt, LCtx l (log_all [c_timer_set_period t ms; c_timer_start t] s)).
Proof.
  intros Ht Hin. unfold arm_lease_timer. rewrite getl_bind, Ht.
  erewrite io_bind by (by apply timer_call_run).
  unfold io_op. cbn [plat]. unfold dmosi_timer_start.
  rewrite timer_call_run by done. by rewrite log_all_app.
Qed.

Lemma arm_t1_run l s t :
  lease_timer l = Some t → t ∈ timers s →
  dmdhcp_lifecycle_arm_t1 (LCtx l s)
  = Some (tt, LCtx l (log_all [c_timer_set_period t (t1_period l); c_timer_start t] s)).
Proof. apply arm_lease_timer_run. Qed.

Lemma arm_t2_run l s t :
  lease_timer l = Some t → t ∈ timers s →
  dmdhcp_lifecycle_arm_t2 (LCtx l s)
  = Some (tt, LCtx l (log_all [c_timer_set_period t (t2_period l); c_timer_start t] s)).
Proof. apply arm_lease_timer_run. Qed.

Lemma arm_expiry_run l s t :
  lease_timer l = Some t → t ∈ timers s →
  dmdhcp_lifecycle_arm_expiry (LCtx l s)
  = Some (tt, LCtx l (log_all [c_timer_set_period t (expiry_period l); c_timer_start t] s)).
Proof. apply arm_lease_timer_run. Qed.

Lemma arm_lease_timer_safe (ms : lease → Z) : lop_safe (l ← getl id; arm_lease_timer (ms l)).
Proof.
  apply lop_safe_calls. intros l s _ [_ (t & Ht & Hin)]. rewrite getl_bind.
  do 2 eexists. by apply (arm_lease_timer_run _ _ t).
Qed.

Lemma arm_t1_safe : lop_safe dmdhcp_lifecycle_arm_t1.
Proof. apply (arm_lease_timer_safe t1_period). Qed.

Lemma arm_t2_safe : lop_safe dmdhcp_lifecycle_arm_t2.
Proof. apply (arm_lease_timer_safe t2_period). Qed.

Lemma arm_expiry_safe : lop_safe dmdhcp_lifecycle_arm_expiry.
Proof. apply (arm_lease_timer_safe expiry_period). Qed.

Lemma apply_safe : lop_safe dmdhcp_lifecycle_apply.
Proof.
  intros l s Hl _. do 3 eexists. split; [by apply apply_made_run|by apply apply_lease_step].
Qed.

Lemma unapplied_typed l : lease_typed l → lease_typed (unapplied l).
Proof. unfold unapplied. destruct (iface_configured l); [|done]. intros []. by split. Qed.

Lemma unapply_safe : lop_safe dmdhcp_lifecycle_unapply.
Proof.
  intros l s Hl _. do 3 eexists. split; [apply unapply_run|].
  assert (same_owned l (unapplied l)) as Hs.
  { unfold unapplied. destruct (iface_configured l); by split. }
  split; [by apply unapplied_typed|apply Hs|apply io_frame_log_all|].
  by rewrite (lease_blocks_same _ _ Hs).
Qed.

(** ** Properties *)

(** Octets of the broadcast address: the network part is the address's, every
    host bit is one. *)
Lemma broadcast_octet_spec a m :
  is_u8 a → is_u8 m →
  Z.land (broadcast_octet a m) m = Z.land a m ∧ Z.lor (broadcast_octet a m) m = 255.
Proof.
  intros Ha Hm. unfold broadcast_octet. change 255 with (Z.ones 8).
  assert (Hhigh : ∀ x i, is_u8 x → 8 ≤ i → Z.testbit x i = false).
  { intros x i Hx Hi. rewrite <- (Z.mod_small x (2 ^ 8)) by exact Hx.
    by rewrite Z.mod_pow2_bits_high by lia. }
  split; apply Z.bits_inj'; intros i Hi;
    rewrite ?Z.land_spec, ?Z.lor_spec, ?Z.land_spec, ?Z.lor_spec, ?Z.lxor_spec;
    (destruct (Z.ltb_spec i 8);
      [rewrite Z.ones_spec_low by lia|rewrite Z.ones_spec_high, ?(Hhigh a), ?(Hhigh m) by (done || lia)]);
    try destruct (Z.testbit a i); try destruct (Z.testbit m i); done.
Qed.

(** C31: [dmdhcp_lifecycle_apply] on every branch.  The netmask is set first;
    if that fails the error is returned and nothing else is called.  The
    address is set next, with the same rule.  After that the call succeeds: it
    sets the broadcast address (when there is a netmask) to the leased address
    with every host bit set, adds a default route through the gateway exactly
    when the lease has one, records the route it was given, and marks the
    interface as configured.  What setting the broadcast address or adding the
    route answers is not returned: dmdhcp_internal.h announces a negative errno
    when any of these calls failed. *)
Theorem apply_configures l s :
  lease_typed l →
  let h := trace s in
  let c1 := c_set_netmask (iface l) (netmask l) in
  let c2 := c_set_ip_address (iface l) (offered_ip l) in
  let name := answer (h ++ configure_calls l) (c_get_name (iface l)) in
  let add := c_route_add any_addr any_addr (gateway l) name DMROUTE_DEFAULT_METRIC in
  dmdhcp_lifecycle_apply (LCtx l s) =
    (if negb (netmask_rc h l =? 0) then Some (netmask_rc h l, LCtx l (log_all [c1] s))
     else if negb (address_rc h l =? 0) then Some (address_rc h l, LCtx l (log_all [c1; c2] s))
     else Some (0, LCtx
       (set_iface_configured true (set_default_route
          (if is_v4 (gateway l)
           then answer (h ++ configure_calls l ++ [c_get_name (iface l)]) add
           else None) l))
       (log_all (([c1; c2]
         ++ (if is_v4 (netmask l) then [c_set_broadcast (iface l) (broadcast_of l)] else []))
         ++ (if is_v4 (gateway l) then [c_get_name (iface l); add] else [])) s))) ∧
  ∀ i ip m, v4 (offered_ip l) !! i = Some ip → v4 (netmask l) !! i = Some m →
    ∃ b, v4 (broadcast_of l) !! i = Some b ∧ Z.land b m = Z.land ip m ∧ Z.lor b m = 255.
Proof.
  intros Hl h c1 c2 name add. split.
  - rewrite apply_run by done. done.
  - intros i ip m Hip Hm. exists (broadcast_octet ip m). split.
    + simpl. by apply lookup_zip_with_Some; eauto.
    + apply broadcast_octet_spec.
      * eapply Forall_lookup_1; [apply (lt_offered_ip l Hl)|done].
      * eapply Forall_lookup_1; [apply (lt_netmask l Hl)|done].
Qed.

(** C32: [dmdhcp_lifecycle_unapply] undoes a successful apply: it removes
    exactly the route that was added (if one was), then clears the address,
    the netmask and the broadcast address, and leaves the lease as it was with
    the interface unconfigured and no route; unapplying again does nothing. *)
Theorem unapply_undoes_apply l s :
  lease_typed l → netmask_rc (trace s) l = 0 → address_rc (trace s) l = 0 →
  let clear := [c_set_ip_address (iface l) addr_none; c_set_netmask (iface l) addr_none;
                c_set_broadcast (iface l) addr_none] in
  let undone := set_iface_configured false (set_default_route None l) in
  ∃ l1 s1 cs, dmdhcp_lifecycle_apply (LCtx l s) = Some (0, LCtx l1 s1) ∧
    dmdhcp_lifecycle_unapply (LCtx l1 s1) = Some (tt, LCtx undone (log_all (cs ++ clear) s1)) ∧
    cs = match apply_route (trace s) l with Some r => [c_route_remove r] | None => [] end ∧
    ∀ s2, dmdhcp_lifecycle_unapply (LCtx undone s2) = Some (tt, LCtx undone s2).
Proof.
  intros Hl H1 H2 clear undone. rewrite apply_run, H1, H2 by done.
  do 3 eexists. split; [done|]. rewrite unapply_run. split; [done|]. split; [done|].
  intros s2. by rewrite unapply_run, log_all_nil.
Qed.

(** A default route installed by an earlier apply is lost by the next
    one.  Applying a lease that already holds a route (every renewal does)
    overwrites the recorded route without removing it: whatever happens to the
    interface later through this lease, no [dmroute_remove] of the old route
    is ever made, unless [dmroute_add] returned the same route again. *)
Theorem reapply_forgets_route l s r :
  lease_typed l → netmask_rc (trace s) l = 0 → address_rc (trace s) l = 0 →
  iface_configured l = true → default_route l = Some r → apply_route (trace s) l ≠ Some r →
  ∃ l1 s1 l2 s2, dmdhcp_lifecycle_apply (LCtx l s) = Some (0, LCtx l1 s1) ∧
    dmdhcp_lifecycle_unapply (LCtx l1 s1) = Some (tt, LCtx l2 s2) ∧
    default_route l2 = None ∧ iface_configured l2 = false ∧
    ∃ cs, trace s2 = trace s ++ cs ∧ c_route_remove r ∉ cs.
Proof.
  intros Hl H1 H2 Hc Hr Hne. rewrite apply_run, H1, H2 by done.
  do 4 eexists. split; [done|]. rewrite unapply_run. split; [done|]. split; [done|]. split; [done|].
  rewrite !trace_log_all. eexists. rewrite <- app_assoc. split; [done|].
  unfold apply_calls, configure_calls, unapply_calls, route_call. simpl.
  rewrite !elem_of_cons, !elem_of_app, !elem_of_cons.
  destruct (is_v4 (netmask l)), (is_v4 (gateway l)), (apply_route (trace s) l) eqn:Ha;
    rewrite ?elem_of_cons, ?elem_of_nil; intros Hin; destruct_or! Hin; congruence.
Qed.

(** C34: the T1, T2 and expiry deadlines.  When [0 < T1 < T2 < lease time] and
    the lease time is at most 4294967 s (49.7 days), the three periods are
    exact in milliseconds and the deadlines fall T1, T2 and the lease time
    after the lease was bound.  Above, the conversion to milliseconds wraps in
    [uint32_t]: the T1 deadline of any longer T1 (an infinite lease has one)
    comes before its real value, and only T1 is guarded against a zero period
    - a T2 that is 2^29 s after T1, or an expiry 2^29 s after T2, arms the
    timer with 0. *)
Theorem lease_timer_timeline l :
  lease_typed l →
  (0 < t1_sec l < t2_sec l → t2_sec l < lease_time_sec l ≤ 4294967 →
   t1_period l = 1000 * t1_sec l ∧
   t1_period l + t2_period l = 1000 * t2_sec l ∧
   t1_period l + t2_period l + expiry_period l = 1000 * lease_time_sec l) ∧
  (4294967 < t1_sec l → t1_period l < 1000 * t1_sec l) ∧
  0 < t1_period l < 4294967296 ∧
  (t2_sec l = t1_sec l + 2 ^ 29 → t2_period l = 0) ∧
  (lease_time_sec l = t2_sec l + 2 ^ 29 → expiry_period l = 0).
Proof.
  intros Hl. pose proof (lt_t1 l Hl). pose proof (lt_t2 l Hl). pose proof (lt_lease_time l Hl).
  unfold is_u32, t1_period, t2_period, expiry_period in *. pose proof (u32_range (t1_sec l * 1000)).
  unfold is_u32 in *. split.
  { intros H3 H4. destruct (Z.ltb_spec (t1_sec l) (t2_sec l)); [|lia].
    destruct (Z.ltb_spec (t2_sec l) (lease_time_sec l)); [|lia].
    rewrite (u32_id (t2_sec l - _)), (u32_id (lease_time_sec l - _)) by (unfold is_u32; lia).
    rewrite !u32_id by (unfold is_u32; lia).
    destruct (Z.eqb_spec (t1_sec l * 1000) 0); lia. }
  split; [|split; [|split]].
  - intros. destruct (Z.eqb_spec (u32 (t1_sec l * 1000)) 0); lia.
  - destruct (Z.eqb_spec (u32 (t1_sec l * 1000)) 0); lia.
  - intros E'. destruct (Z.ltb_spec (t1_sec l) (t2_sec l)); [|lia].
    by replace (t2_sec l - t1_sec l) with (2 ^ 29) by lia.
  - intros E'. destruct (Z.ltb_spec (t2_sec l) (lease_time_sec l)); [|lia].
    by replace (lease_time_sec l - t2_sec l) with (2 ^ 29) by lia.
Qed.
End Applied.

#[export] Hint Resolve arm_t1_safe arm_t2_safe arm_expiry_safe apply_safe unapply_safe : dhcp.
