(* ===== verification/World.v ===== *)
(** The whole program state, and computations over it.

    [heap] holds the live [struct dmdhcp_lease] objects by address; freeing
    one removes it, so any later access through the same pointer is undefined
    behaviour ([None]).  [g_leases] and [g_leases_mutex] are the two statics of
    [src/dmdhcp_lease_table.c], NULL before [dmod_init]. *)
From S2P Require Import Prelude Types Platform Lease.

Record world `{DmList} : Type := World {
  heap : gmap ptr lease;
  g_leases : option (dmlist ptr);
  g_leases_mutex : option handle;
  w_io : io;
}.

Section World.
Context `{E : Env} `{D : DmList}.

Definition world_eta : world → world := λ w,
  World _ (heap w) (g_leases w) (g_leases_mutex w) (w_io w).

Definition set_heap : gmap ptr lease → world → world := ltac:(mk_set world_eta heap).
Definition set_g_leases : option (dmlist ptr) → world → world := ltac:(mk_set world_eta g_leases).
Definition set_g_leases_mutex : option handle → world → world :=
  ltac:(mk_set world_eta g_leases_mutex).
Definition set_w_io : io → world → world := ltac:(mk_set world_eta w_io).

Definition M (A : Type) : Type := st world A.

Definition getw {A} (f : world → A) : M A := λ w, Some (f w, w).
Definition setw (f : world → world) : M unit := λ w, Some (tt, f w).

(** A platform call *)
Definition wio {A} (m : st io A) : M A := λ w,
  match m (w_io w) with
  | Some (a, s) => Some (a, set_w_io s w)
  | None => None
  end.

(** Reading [*p], and a computation on [*p] *)
Definition load (p : ptr) : M lease := λ w,
  match heap w !! p with
  | Some l => Some (l, w)
  | None => None
  end.

Definition with_lease {A} (p : ptr) (m : lop A) : M A := λ w,
  match heap w !! p with
  | Some l =>
      match m (LCtx l (w_io w)) with
      | Some (a, c) => Some (a, set_w_io (plat c) (set_heap (<[p := self c]> (heap w)) w))
      | None => None
      end
  | None => None
  end.

(** [dmosi_mutex_lock(lease->lock)], [dmosi_mutex_unlock(lease->lock)] *)
Definition lock_lease (p : ptr) : M unit :=
  l ← load p;
  wio (dmosi_mutex_lock (lock l)).

Definition unlock_lease (p : ptr) : M unit :=
  l ← load p;
  wio (dmosi_mutex_unlock (lock l)).

(** ** The application

    What a [dmdhcp_callbacks_t] member does is not code of the repository: any
    computation over the world, possibly calling the public API. *)
Class Client := client : call → M unit.

(** Calling a function pointer that may be NULL *)
Definition invoke `{Client} (fn : option Z) (c : Z → call) : M unit :=
  match fn with
  | Some f => wio (ext (c f));; client (c f)
  | None => mret tt
  end.

(** ** The handle guard

    [lease == NULL || lease->magic != DMDHCP_LEASE_MAGIC] *)
Definition bad_handle (h : option ptr) : M bool :=
  match h with
  | None => mret true
  | Some p =>
      l ← load p;
      mret (negb (magic l =? DMDHCP_LEASE_MAGIC))
  end.
End World.

(** ** Running computations on the world *)
Section Runs.
Context `{E : Env} `{D : DmList}.

(** The world with lease [p] being [l] and the platform [s] *)
Definition put (p : ptr) (l : lease) (s : io) (w : world) : world :=
  set_w_io s (set_heap (<[p := l]> (heap w)) w).

Lemma heap_put p l s w : heap (put p l s w) !! p = Some l.
Proof. simpl. by rewrite lookup_insert_eq. Qed.

Lemma put_put p l s l' s' w : put p l s (put p l' s' w) = put p l s w.
Proof. unfold put, set_w_io, set_heap. simpl. by rewrite insert_insert_eq. Qed.

Lemma put_id p l w : heap w !! p = Some l → put p l (w_io w) w = w.
Proof. intros Hp. destruct w. unfold put, set_w_io, set_heap. simpl in *. by rewrite insert_id. Qed.

Lemma put_io p l s w : heap w !! p = Some l → put p l s w = set_w_io s w.
Proof. intros Hp. destruct w. unfold put, set_w_io, set_heap. simpl in *. by rewrite insert_id. Qed.

Lemma w_bind {A B} (m : M A) (k : A → M B) w a w' : m w = Some (a, w') → (m ≫= k) w = k a w'.
Proof. unfold mbind, st_bind. by intros ->. Qed.

Lemma w_bind_none {A B} (m : M A) (k : A → M B) w : m w = None → (m ≫= k) w = None.
Proof. unfold mbind, st_bind. by intros ->. Qed.

Lemma w_ret_bind {A B} (a : A) (k : A → M B) w : ((mret a : M A) ≫= k) w = k a w.
Proof. done. Qed.

Lemma w_opt_bind {A B} (a : A) (k : A → M B) w : ((st_opt (Some a) : M A) ≫= k) w = k a w.
Proof. done. Qed.

Lemma w_assoc {A B C} (m : M A) (k : A → M B) (k' : B → M C) w :
  ((m ≫= k) ≫= k') w = (m ≫= λ a, k a ≫= k') w.
Proof. unfold mbind, st_bind. by destruct (m w) as [[a c']|]. Qed.

Lemma w_ext {A B} (m : M A) (k k' : A → M B) w :
  (∀ a w', k a w' = k' a w') → (m ≫= k) w = (m ≫= k') w.
Proof. intros Hk. unfold mbind, st_bind. destruct (m w) as [[]|]; [apply Hk|done]. Qed.

Lemma load_put {B} p l s w (k : lease → M B) : (load p ≫= k) (put p l s w) = k l (put p l s w).
Proof. apply w_bind. unfold load. by rewrite heap_put. Qed.

Lemma with_lease_run {A} p (m : lop A) l s w a l' s' :
  m (LCtx l s) = Some (a, LCtx l' s') →
  with_lease p m (put p l s w) = Some (a, put p l' s' w).
Proof.
  intros Hm. unfold with_lease. rewrite heap_put. simpl. rewrite Hm. simpl.
  unfold put, set_w_io, set_heap. simpl. by rewrite insert_insert_eq.
Qed.

Lemma with_lease_put {A B} p (m : lop A) (k : A → M B) l s w a l' s' :
  m (LCtx l s) = Some (a, LCtx l' s') →
  (with_lease p m ≫= k) (put p l s w) = k a (put p l' s' w).
Proof. intros Hm. by apply w_bind, with_lease_run. Qed.

(** Two leases an operation cannot tell apart *)
Lemma with_lease_ext {A B} p (m : lop A) (k : A → M B) l l' s w :
  m (LCtx l s) = m (LCtx l' s) →
  (with_lease p m ≫= k) (put p l s w) = (with_lease p m ≫= k) (put p l' s w).
Proof.
  intros Hm. assert (Hr : with_lease p m (put p l s w) = with_lease p m (put p l' s w)).
  { unfold with_lease. rewrite !heap_put. simpl. rewrite Hm. destruct (m (LCtx l' s)) as [[a c]|]; [|done].
    unfold put, set_w_io, set_heap. simpl. by rewrite !insert_insert_eq. }
  unfold mbind, st_bind. by rewrite Hr.
Qed.

(** Taking and releasing a mutex *)
Definition grab (m : handle) (s : io) : io :=
  log_all [c_mutex_lock m] (set_mutexes (<[m := true]> (mutexes s)) s).
Definition release (m : handle) (s : io) : io :=
  log_all [c_mutex_unlock m] (set_mutexes (<[m := false]> (mutexes s)) s).

Lemma lock_run m s : mutexes s !! m = Some false → dmosi_mutex_lock (Some m) s = Some (tt, grab m s).
Proof. intros Hm. unfold dmosi_mutex_lock. by rewrite Hm. Qed.

Lemma unlock_run m s : mutexes s !! m = Some true → dmosi_mutex_unlock (Some m) s = Some (tt, release m s).
Proof. intros Hm. unfold dmosi_mutex_unlock. by rewrite Hm. Qed.

Lemma wio_run {A} (m : st io A) w a s : m (w_io w) = Some (a, s) → wio m w = Some (a, set_w_io s w).
Proof. intros Hm. unfold wio. by rewrite Hm. Qed.

Lemma set_w_io_put p l s s' w : set_w_io s' (put p l s w) = put p l s' w.
Proof. done. Qed.

Lemma wio_put {A B} (m : st io A) (k : A → M B) p l s w a s' :
  m s = Some (a, s') → (wio m ≫= k) (put p l s w) = k a (put p l s' w).
Proof. intros Hm. apply w_bind. by apply (wio_run m (put p l s w)). Qed.

Lemma lock_put {B} p l s w m (k : unit → M B) :
  lock l = Some m → mutexes s !! m = Some false →
  (lock_lease p ≫= k) (put p l s w) = k tt (put p l (grab m s) w).
Proof.
  intros Hl Hm. unfold lock_lease. rewrite w_assoc, load_put, Hl.
  erewrite w_bind; [|apply wio_run, lock_run, Hm]. done.
Qed.

Lemma unlock_put {B} p l s w m (k : unit → M B) :
  lock l = Some m → mutexes s !! m = Some true →
  (unlock_lease p ≫= k) (put p l s w) = k tt (put p l (release m s) w).
Proof.
  intros Hl Hm. unfold unlock_lease. rewrite w_assoc, load_put, Hl.
  erewrite w_bind; [|apply wio_run, unlock_run, Hm]. done.
Qed.

Lemma bind_ret_r {A} (m : M A) w : (m ≫= mret) w = m w.
Proof. unfold mbind, st_bind. by destruct (m w) as [[]|]. Qed.

Lemma unlock_put_last p l s w m :
  lock l = Some m → mutexes s !! m = Some true →
  unlock_lease p (put p l s w) = Some (tt, put p l (release m s) w).
Proof. intros. rewrite <- bind_ret_r. by erewrite unlock_put. Qed.

Lemma bad_handle_put p l s w :
  magic l = DMDHCP_LEASE_MAGIC → bad_handle (Some p) (put p l s w) = Some (false, put p l s w).
Proof. intros Hm. unfold bad_handle. rewrite load_put, Hm. done. Qed.

Lemma handle_put {B} p l s w (k : bool → M B) :
  magic l = DMDHCP_LEASE_MAGIC → (bad_handle (Some p) ≫= k) (put p l s w) = k false (put p l s w).
Proof. intros Hm. by erewrite w_bind by (by apply bad_handle_put). Qed.

Lemma mutexes_grab m s : mutexes (grab m s) !! m = Some true.
Proof. simpl. by rewrite lookup_insert_eq. Qed.

(** A critical section that does not touch the mutex adds its calls between
    the two mutex calls, and leaves the mutexes as they were. *)
Definition section_calls (m : handle) (cs : list call) : list call :=
  c_mutex_lock m :: cs ++ [c_mutex_unlock m].

Lemma release_grab m cs s :
  mutexes s !! m = Some false →
  release m (log_all cs (grab m s)) = log_all (section_calls m cs) s.
Proof.
  intros Hm. destruct s. unfold release, grab, log_all, set_trace, set_mutexes, section_calls.
  simpl in *. rewrite insert_insert_eq, insert_id by done. by rewrite <- !app_assoc.
Qed.

Lemma release_blocks m n s : release m (set_blocks n s) = set_blocks n (release m s).
Proof. done. Qed.

(** Runs of a critical section, in pieces *)
Lemma section_run {A B} (op : lop A) (k : A → M B) p l s w m a l' s' :
  lock l = Some m → mutexes s !! m = Some false →
  op (LCtx l (grab m s)) = Some (a, LCtx l' s') → lock l' = lock l → mutexes s' = mutexes (grab m s) →
  (lock_lease p;; r ← with_lease p op; unlock_lease p;; k r) (put p l s w)
  = k a (put p l' (release m s') w).
Proof.
  intros Hl Hm Hop Hl' Hs'. rewrite (lock_put _ _ _ _ m) by done.
  erewrite with_lease_put by done.
  rewrite (unlock_put _ _ _ _ m); [done|congruence|]. by rewrite Hs', mutexes_grab.
Qed.
End Runs.
