(* ===== verification/Invariant.v ===== *)
(** The invariant of the whole program, and the rules that carry it through a
    handler.

    [Inv busy off w]: the mutexes in [busy] are the ones held, the leases in
    [off] are live but not in the table.  It ties the table to the heap, makes
    every lease own its mutex and its two timers, and accounts exactly for
    every handle, block and list the program has allocated. *)
From S2P Require Import Prelude Types Platform Lease Output Lifecycle World.

Section Invariant.
Context `{E : Env} {EO : EnvOk E} `{D : DmList} {DL : DmListLaws D}.

(** The timers of a lease *)
Definition own_timer (l : lease) (t : handle) : Prop :=
  retransmit_timer l = Some t ∨ lease_timer l = Some t.

(** A lease that was fully constructed and not yet destroyed *)
Record lease_live (s : io) (l : lease) : Prop := {
  ll_magic : magic l = DMDHCP_LEASE_MAGIC;
  ll_typed : lease_typed l;
  ll_lock : ∃ m, lock l = Some m ∧ is_Some (mutexes s !! m);
  ll_timers : timers_live l s;
  ll_distinct : retransmit_timer l ≠ lease_timer l;
}.

(** Two leases share no mutex and no timer. *)
Definition apart (l l' : lease) : Prop :=
  lock l ≠ lock l' ∧ ∀ t, own_timer l t → ¬ own_timer l' t.

Definition heap_blocks (h : gmap ptr lease) : Z := map_fold (λ _ l n, lease_blocks l + n) 0 h.

Record Inv (busy : gset handle) (off : gset ptr) (w : world) : Prop := {
  inv_table : ∃ t, g_leases w = Some t ∧ NoDup (dmlist_elems t) ∧
    ∀ p, p ∈ dmlist_elems t ↔ is_Some (heap w !! p) ∧ p ∉ off;
  inv_table_mutex : ∃ gm, g_leases_mutex w = Some gm ∧ is_Some (mutexes (w_io w) !! gm) ∧
    ∀ p l, heap w !! p = Some l → lock l ≠ Some gm;
  inv_leases : ∀ p l, heap w !! p = Some l → lease_live (w_io w) l;
  inv_apart : ∀ p l p' l', heap w !! p = Some l → heap w !! p' = Some l' → p ≠ p' → apart l l';
  inv_ifaces : ∀ p l p' l', heap w !! p = Some l → heap w !! p' = Some l' →
    p ∉ off → p' ∉ off → iface l = iface l' → p = p';
  inv_mutexes : ∀ m b, mutexes (w_io w) !! m = Some b → b = bool_decide (m ∈ busy) ∧
    (g_leases_mutex w = Some m ∨ ∃ p l, heap w !! p = Some l ∧ lock l = Some m);
  inv_timers : ∀ t, t ∈ timers (w_io w) → ∃ p l, heap w !! p = Some l ∧ own_timer l t;
  inv_fresh : (∀ p, is_Some (heap w !! p) → (p < next_id (w_io w))%positive) ∧
    (∀ m, is_Some (mutexes (w_io w) !! m) → (m < next_id (w_io w))%positive) ∧
    (∀ t, t ∈ timers (w_io w) → (t < next_id (w_io w))%positive);
  inv_running : ∀ t, running (w_io w) = Some t → (t < next_id (w_io w))%positive;
  inv_blocks : blocks (w_io w) = heap_blocks (heap w);
  inv_lists : lists (w_io w) = 1 + 2 * Z.of_nat (size (heap w));
}.

(** ** Lemmas on the heap account *)
Lemma heap_blocks_insert h p l :
  h !! p = None → heap_blocks (<[p := l]> h) = lease_blocks l + heap_blocks h.
Proof. intros Hp. unfold heap_blocks. rewrite map_fold_insert_L; [done|intros; lia|done]. Qed.

Lemma heap_blocks_delete h p l :
  h !! p = Some l → heap_blocks h = lease_blocks l + heap_blocks (delete p h).
Proof. intros Hp. unfold heap_blocks. rewrite (map_fold_delete_L _ _ p l); [done|intros; lia|done]. Qed.

Lemma heap_blocks_update h p l l' :
  h !! p = Some l → heap_blocks (<[p := l']> h) = heap_blocks h - lease_blocks l + lease_blocks l'.
Proof.
  intros Hp. rewrite <- insert_delete_eq.
  rewrite heap_blocks_insert by (by rewrite lookup_delete_eq).
  rewrite (heap_blocks_delete h p l Hp). lia.
Qed.

(** ** Steps on one lease *)

Lemma own_timer_frame l l' t : lease_frame l l' → own_timer l' t ↔ own_timer l t.
Proof. intros []. unfold own_timer. by rewrite lf_rt, lf_lt. Qed.

Lemma lease_live_frame s s' l : io_frame s s' → lease_live s l → lease_live s' l.
Proof.
  intros [] []. split; try done.
  - by rewrite if_mutexes.
  - destruct ll_timers0 as [(t&?&?) (t'&?&?)]. split; eexists; rewrite if_timers; eauto.
Qed.

Lemma lease_live_step l s l' s' : lease_live s l → lease_step l s l' s' → lease_live s' l'.
Proof.
  intros [] [? Hf Hi _]. pose proof Hf as []. pose proof Hi as []. split; try done; try congruence.
  - rewrite lf_lock, if_mutexes. done.
  - by eapply timers_live_frame.
Qed.

(** A lookup in an updated heap is a lookup in the old one, up to the frame. *)
Lemma lookup_put p l s w q lq :
  heap (put p l s w) !! q = Some lq → (q = p ∧ lq = l) ∨ (q ≠ p ∧ heap w !! q = Some lq).
Proof.
  simpl. destruct (decide (q = p)) as [->|]; [rewrite lookup_insert_eq|rewrite lookup_insert_ne by done];
    intros; simplify_eq; auto.
Qed.

Lemma is_Some_put p l s w q :
  is_Some (heap w !! p) → is_Some (heap (put p l s w) !! q) ↔ is_Some (heap w !! q).
Proof.
  simpl. destruct (decide (q = p)) as [->|]; [rewrite lookup_insert_eq|by rewrite lookup_insert_ne].
  intros. split; eauto.
Qed.

Lemma Inv_step busy off w p l l' s' :
  Inv busy off w → heap w !! p = Some l → lease_step l (w_io w) l' s' →
  Inv busy off (put p l' s' w).
Proof.
  intros HI Hp Hstep. pose proof Hstep as [_ Hf Hi Hb]. pose proof Hi as [].
  assert (Hs : is_Some (heap w !! p)) by eauto.
  assert (Hold : ∀ q lq, heap (put p l' s' w) !! q = Some lq →
    ∃ l0, heap w !! q = Some l0 ∧ lease_frame l0 lq).
  { intros q lq [[-> ->]|[_ ?]]%lookup_put; eexists; split; done. }
  assert (Hnew : ∀ q l0, heap w !! q = Some l0 →
    ∃ lq, heap (put p l' s' w) !! q = Some lq ∧ lease_frame l0 lq).
  { intros q l0 Hq. simpl. destruct (decide (q = p)) as [->|].
    - rewrite lookup_insert_eq. exists l'. split; [done|]. by simplify_eq.
    - rewrite lookup_insert_ne by done. by exists l0. }
  split.
  - destruct (inv_table _ _ _ HI) as (t & ? & ? & Ht). exists t. split; [done|]. split; [done|].
    intros q. by rewrite Ht, is_Some_put.
  - destruct (inv_table_mutex _ _ _ HI) as (gm & ? & ? & Hgm). exists gm. split_and!; try done.
    + simpl. by rewrite if_mutexes.
    + intros q lq (l0 & Hq & [])%Hold. rewrite lf_lock. by eapply Hgm.
  - intros q lq [[-> ->]|[_ Hq]]%lookup_put; simpl.
    + eapply lease_live_step; [|done]. by eapply inv_leases.
    + eapply lease_live_frame; [done|]. by eapply inv_leases.
  - intros q lq q' lq' (l0 & Hq & Hf0)%Hold (l0' & Hq' & Hf0')%Hold Hne.
    destruct (inv_apart _ _ _ HI q l0 q' l0') as [Hlock Hown]; [done..|].
    split; [by rewrite (lf_lock _ _ Hf0), (lf_lock _ _ Hf0')|].
    intros t. rewrite (own_timer_frame l0 lq), (own_timer_frame l0' lq') by done. apply Hown.
  - intros q lq q' lq' (l0 & Hq & [])%Hold (l0' & Hq' & [])%Hold ?? Hif.
    eapply (inv_ifaces _ _ _ HI); try done. congruence.
  - intros m b. simpl. rewrite if_mutexes. intros Hm.
    destruct (inv_mutexes _ _ _ HI m b Hm) as [? [?|(q & l0 & Hq & Hl)]]; split; auto.
    right. destruct (Hnew q l0 Hq) as (lq & ? & []). exists q, lq. split; [done|congruence].
  - intros t. simpl. rewrite if_timers. intros Ht.
    destruct (inv_timers _ _ _ HI t Ht) as (q & l0 & Hq & Hl).
    destruct (Hnew q l0 Hq) as (lq & ? & ?). exists q, lq. split; [done|]. by rewrite own_timer_frame.
  - destruct (inv_fresh _ _ _ HI) as (Hfp & Hfm & Hft). split_and!.
    + intros q Hq. rewrite is_Some_put in Hq by done. simpl. rewrite if_next_id. by apply Hfp.
    + simpl. rewrite if_next_id, if_mutexes. done.
    + simpl. rewrite if_next_id, if_timers. done.
  - simpl. rewrite if_next_id, if_running. apply HI.
  - simpl. rewrite (heap_blocks_update _ _ l) by done. rewrite <- (inv_blocks _ _ _ HI). lia.
  - simpl. rewrite if_lists, (inv_lists _ _ _ HI). do 3 f_equal.
    by rewrite map_size_insert_Some.
Qed.

(** ** Steps on the platform *)
Lemma set_mutexes_live m b s l :
  is_Some (mutexes s !! m) → lease_live s l → lease_live (set_mutexes (<[m := b]> (mutexes s)) s) l.
Proof.
  intros Hm []. split; try done; [|by destruct ll_timers0]. destruct ll_lock0 as (m' & Hl & Hm').
  exists m'. split; [done|]. simpl. destruct (decide (m' = m)) as [->|];
    [rewrite lookup_insert_eq; eauto|by rewrite lookup_insert_ne].
Qed.

Lemma Inv_set_mutex busy busy' off w m b :
  Inv busy off w → is_Some (mutexes (w_io w) !! m) →
  b = bool_decide (m ∈ busy') → (∀ m', m' ≠ m → m' ∈ busy' ↔ m' ∈ busy) →
  Inv busy' off (set_w_io (set_mutexes (<[m := b]> (mutexes (w_io w))) (w_io w)) w).
Proof.
  intros HI Hm Hb Hbusy.
  assert (Hdom : ∀ m', is_Some (<[m := b]> (mutexes (w_io w)) !! m') → is_Some (mutexes (w_io w) !! m')).
  { intros m'. destruct (decide (m' = m)) as [->|]; [done|by rewrite lookup_insert_ne]. }
  split; simpl; try apply HI.
  - destruct (inv_table_mutex _ _ _ HI) as (gm & ? & Hgm & ?). exists gm. split_and!; try done.
    destruct (decide (gm = m)) as [->|]; [rewrite lookup_insert_eq; eauto|by rewrite lookup_insert_ne].
  - intros p l Hp. apply set_mutexes_live; [done|]. by eapply inv_leases.
  - intros m' b'. destruct (decide (m' = m)) as [->|].
    + rewrite lookup_insert_eq. intros [= <-]. destruct Hm as [b' Hm].
      split; [done|]. by eapply inv_mutexes.
    + rewrite lookup_insert_ne by done. intros Hm'.
      destruct (inv_mutexes _ _ _ HI m' b' Hm') as [-> ?]. split; [|done].
      apply bool_decide_ext. symmetry. by apply Hbusy.
  - destruct (inv_fresh _ _ _ HI) as (? & Hfm & ?). split_and!; try done. auto.
Qed.

Lemma Inv_io busy off w s' :
  Inv busy off w → io_frame (w_io w) s' → blocks s' = blocks (w_io w) →
  Inv busy off (set_w_io s' w).
Proof.
  intros HI Hf Hb. pose proof (λ l, lease_live_frame _ _ l Hf) as Hlive. destruct Hf.
  split; simpl; rewrite ?if_mutexes, ?if_timers, ?if_next_id, ?if_running, ?if_lists, ?Hb; try apply HI.
  intros p l Hp. apply Hlive. by eapply inv_leases.
Qed.

Lemma Inv_log busy off w cs : Inv busy off w → Inv busy off (set_w_io (log_all cs (w_io w)) w).
Proof. intros HI. apply Inv_io; [done|apply io_frame_log_all|done]. Qed.

Lemma Inv_grab busy off w m :
  Inv busy off w → is_Some (mutexes (w_io w) !! m) →
  Inv ({[m]} ∪ busy) off (set_w_io (grab m (w_io w)) w).
Proof.
  intros HI Hm.
  refine (Inv_log _ _ _ [c_mutex_lock m] (Inv_set_mutex _ _ _ _ m true HI Hm _ _)).
  - symmetry. apply bool_decide_eq_true. set_unfold. tauto.
  - intros m' Hne. rewrite elem_of_union, elem_of_singleton. tauto.
Qed.

Lemma Inv_release busy off w m :
  Inv busy off w → is_Some (mutexes (w_io w) !! m) →
  Inv (busy ∖ {[m]}) off (set_w_io (release m (w_io w)) w).
Proof.
  intros HI Hm.
  refine (Inv_log _ _ _ [c_mutex_unlock m] (Inv_set_mutex _ _ _ _ m false HI Hm _ _)).
  - symmetry. apply bool_decide_eq_false. set_unfold. tauto.
  - intros m' Hne. rewrite elem_of_difference, elem_of_singleton. tauto.
Qed.

(** ** Rules

    [At r p m busy off w]: the invariant holds, [p] is a live lease whose mutex
    is [m], and [r] is the timer whose callback is running. *)
Definition At (r : option handle) (p : ptr) (m : handle) (busy : gset handle) (off : gset ptr)
    (w : world) : Prop :=
  Inv busy off w ∧ running (w_io w) = r ∧ ∃ l, heap w !! p = Some l ∧ lock l = Some m.

Lemma at_mutex r p m busy off w :
  At r p m busy off w → mutexes (w_io w) !! m = Some (bool_decide (m ∈ busy)).
Proof.
  intros (HI & _ & l & Hp & Hl). destruct (ll_lock _ _ (inv_leases _ _ _ HI p l Hp)) as (m' & Hm' & [b Hb]).
  simplify_eq. rewrite Hb. f_equal. by eapply inv_mutexes.
Qed.

Lemma wp_with_lease {A} r p m busy off w (op : lop A) :
  lop_safe op → At r p m busy off w → wp (with_lease p op) (λ _, At r p m busy off) w.
Proof.
  intros Hop (HI & Hr & l & Hp & Hl). pose proof (inv_leases _ _ _ HI p l Hp) as Hlive.
  destruct (Hop l (w_io w) (ll_typed _ _ Hlive) (ll_timers _ _ Hlive)) as (a & l' & s' & Hrun & Hstep).
  unfold wp. rewrite <- (put_id p l w) by done. erewrite with_lease_run by done.
  pose proof Hstep as [_ [] [] _].
  split; [by eapply Inv_step|]. split; [simpl; congruence|].
  exists l'. split; [apply heap_put|congruence].
Qed.

(** The same, on the exact state: a critical section that runs one computation *)
Lemma Inv_section busy off w p l s m l' s' :
  Inv busy off (put p l s w) → m ∉ busy → lock l = Some m → lease_step l (grab m s) l' s' →
  Inv busy off (put p l' (release m s') w).
Proof.
  intros HI Hm Hl Hst. pose proof (heap_put p l s w) as Hp.
  destruct (ll_lock _ _ (inv_leases _ _ _ HI p l Hp)) as (m' & Hm' & Hmx). simplify_eq.
  pose proof (Inv_grab _ _ _ _ HI Hmx) as HI1.
  pose proof (Inv_step _ _ _ p l l' s' HI1 Hp Hst) as HI2.
  pose proof (Inv_release _ _ _ m HI2) as HI3. rewrite difference_union_distr_l_L in HI3.
  rewrite difference_diag_L, union_empty_l_L, difference_disjoint_L in HI3 by set_solver.
  assert (put p l' s' (set_w_io (grab m (w_io (put p l s w))) (put p l s w)) = put p l' s' w) as Heq.
  { unfold put, set_w_io, set_heap. simpl. by rewrite insert_insert_eq. }
  rewrite Heq in HI3. apply HI3. simpl. rewrite (if_mutexes _ _ (ls_io _ _ _ _ Hst)).
  rewrite mutexes_grab. eauto.
Qed.

Lemma wp_load r p m busy off w :
  At r p m busy off w →
  wp (load p) (λ l w', w' = w ∧ heap w !! p = Some l ∧ lock l = Some m ∧ lease_live (w_io w) l) w.
Proof.
  intros (HI & _ & l & Hp & Hl). unfold wp, load. rewrite Hp. split_and!; try done.
  by eapply inv_leases.
Qed.

Lemma wp_lock_lease r p m busy off w :
  m ∉ busy → At r p m busy off w →
  wp (lock_lease p) (λ _, At r p m ({[m]} ∪ busy) off) w.
Proof.
  intros Hm HA. pose proof (at_mutex _ _ _ _ _ _ HA) as Hmx.
  rewrite bool_decide_false in Hmx by done. destruct HA as (HI & Hr & l & Hp & Hl).
  unfold wp. rewrite <- (put_id p l w) by done. rewrite <- bind_ret_r.
  erewrite lock_put by done. unfold mret, st_ret.
  rewrite put_io by done.
  split; [by apply Inv_grab; eauto|]. split; [done|]. by exists l.
Qed.

Lemma wp_unlock_lease r p m busy off w :
  m ∈ busy → At r p m busy off w →
  wp (unlock_lease p) (λ _, At r p m (busy ∖ {[m]}) off) w.
Proof.
  intros Hm HA. pose proof (at_mutex _ _ _ _ _ _ HA) as Hmx.
  rewrite bool_decide_true in Hmx by done. destruct HA as (HI & Hr & l & Hp & Hl).
  unfold wp. rewrite <- (put_id p l w) by done. erewrite unlock_put_last by done.
  rewrite put_io by done.
  split; [by apply Inv_release; eauto|]. split; [done|]. by exists l.
Qed.

(** The lease mutex alone *)
Lemma wp_lock r p m off w :
  At r p m ∅ off w → wp (lock_lease p) (λ _, At r p m {[m]} off) w.
Proof.
  intros HA. pose proof (wp_lock_lease r p m ∅ off w (not_elem_of_empty m) HA) as H.
  by rewrite union_empty_r_L in H.
Qed.

Lemma wp_unlock r p m off w :
  At r p m {[m]} off w → wp (unlock_lease p) (λ _, At r p m ∅ off) w.
Proof.
  intros HA. pose proof (wp_unlock_lease r p m {[m]} off w (elem_of_singleton_2 m m eq_refl) HA) as H.
  by rewrite difference_diag_L in H.
Qed.

Lemma wp_wio_calls {A} r p m busy off w (c : st io A) :
  (∀ s, ∃ a cs, c s = Some (a, log_all cs s)) →
  At r p m busy off w → wp (wio c) (λ _, At r p m busy off) w.
Proof.
  intros Hc (HI & Hr & Hl). destruct (Hc (w_io w)) as (a & cs & Hrun).
  unfold wp, wio. rewrite Hrun. split; [by apply Inv_log|]. done.
Qed.

Lemma wp_ext r p m busy off w (c : call) :
  At r p m busy off w → wp (wio (ext c)) (λ _, At r p m busy off) w.
Proof. apply wp_wio_calls. intros s. do 2 eexists. apply ext_run. Qed.

Lemma wp_bad_handle r p m busy off w :
  At r p m busy off w → wp (bad_handle (Some p)) (λ b w', b = false ∧ w' = w) w.
Proof.
  intros (HI & _ & l & Hp & _). unfold wp. rewrite <- (put_id p l w) by done.
  rewrite bad_handle_put; [done|]. by eapply ll_magic, inv_leases.
Qed.
End Invariant.

(** ** The application

    What the program asks of a callback: it does not destroy the lease it is
    called for (see the findings on [dmdhcp_stop] from a callback), does not
    leave a mutex held, and keeps the invariant, which every call of the public
    API on other leases, and every accessor, does. *)
Definition about (c : call) (p : ptr) : Prop :=
  match c with
  | c_on_bound _ q _ _ | c_on_expired _ q _ | c_on_error _ q _ _ => q = p
  | _ => False
  end.

Class ClientOk `{E : Env} `{D : DmList} (C : Client) : Prop :=
  client_ok c r p m w : about c p → At r p m ∅ ∅ w → wp (client c) (λ _, At r p m ∅ ∅) w.

(** An application that does nothing, for the witnesses *)
Definition silent_client `{DmList} : Client := λ _, mret tt.

#[export] Instance silent_client_ok `{E : Env} `{D : DmList} : ClientOk silent_client.
Proof. by intros c r p m w _ HA. Qed.

Lemma wp_invoke `{E : Env} {EO : EnvOk E} `{D : DmList} {DL : DmListLaws D} `{C : !Client} `{!ClientOk C} r p m w fn c :
  (∀ f, about (c f) p) → At r p m ∅ ∅ w → wp (invoke fn c) (λ _, At r p m ∅ ∅) w.
Proof.
  intros Hc HA. destruct fn as [f|]; [|done]. simpl. apply wp_bind.
  eapply wp_mono; [|apply (wp_ext r p m); exact HA].
  intros ? w' HA'. by apply (client_ok (c f) r p m).
Qed.

(** One step of a handler: the tactic [at_step] runs the next computation of a
    sequence with the rule for it, keeping an [At] fact about the current
    world. *)
Lemma wp_seq {S A B} (m : st S A) (k : A → st S B) (R : A → S → Prop) Q s :
  wp m R s → (∀ a s', R a s' → wp (k a) Q s') → wp (m ≫= k) Q s.
Proof. intros Hm Hk. apply wp_bind. eapply wp_mono; [|done]. eauto. Qed.

(** The monad of the world, folded *)
Lemma wp_assoc {S A B C} (m : st S A) (k : A → st S B) (k' : B → st S C) Q s :
  wp (m ≫= λ a, k a ≫= k') Q s → wp ((m ≫= k) ≫= k') Q s.
Proof. unfold wp, mbind, st_bind. by destruct (m s) as [[a c']|]. Qed.

Ltac at_rule HA :=
  lazymatch goal with
  | |- wp (with_lease _ _) _ _ => eapply wp_with_lease; [solve [eauto 10 with dhcp]|exact HA]
  | |- wp (lock_lease _) _ _ => eapply wp_lock; exact HA
  | |- wp (unlock_lease _) _ _ => eapply wp_unlock; exact HA
  | |- wp (invoke _ _) _ _ => eapply wp_invoke; [done|exact HA]
  end.

Ltac at_step :=
  lazymatch goal with
  | |- wp ((_ ≫= _) ≫= _) _ _ => apply wp_assoc; cbv beta; at_step
  | HA : At _ ?p _ _ _ ?w |- wp (load ?p ≫= _) _ ?w =>
      eapply wp_seq; [exact (wp_load _ _ _ _ _ _ HA)|]; intros ? ? (-> & ? & ? & ?); cbv beta
  | HA : At _ ?p _ _ _ ?w |- wp (bad_handle (Some ?p) ≫= _) _ ?w =>
      eapply wp_seq; [exact (wp_bad_handle _ _ _ _ _ _ HA)|]; intros ? ? (-> & ->); cbv beta
  | HA : At _ _ _ _ _ ?w |- wp (_ ≫= _) _ ?w =>
      eapply wp_seq; [at_rule HA|]; clear HA; intros ? ? HA; cbv beta in HA |- *
  | HA : At _ _ _ _ _ ?w |- wp _ _ ?w =>
      eapply wp_mono; [|at_rule HA]; clear HA; intros ? ? HA; cbv beta in HA |- *
  end.

(** Run a whole handler: a rule for each step, both branches of each test. *)
Ltac at_run := repeat first [assumption | at_step | case_match]; try done.
