(* ===== verification/LeaseTable.v ===== *)
(** [src/dmdhcp_lease_table.c]: the lease table, the construction and
    destruction of a lease, the accessors, and the server visitors behind the
    two discovery interfaces of [src/dmdhcp_registrations.c]. *)
From S2P Require Import Prelude Types Platform Lease Output Lifecycle World.

Section LeaseTable.
Context `{E : Env} `{D : DmList}.

(** ** The table *)
Definition lock_table : M unit := m ← getw g_leases_mutex; wio (dmosi_mutex_lock m).
Definition unlock_table : M unit := m ← getw g_leases_mutex; wio (dmosi_mutex_unlock m).

(** Reading [g_leases]: a list operation on NULL is undefined behaviour. *)
Definition the_leases : M (dmlist ptr) := o ← getw g_leases; st_opt o.

Definition dmdhcp_lease_table_init : M Z :=
  l ← wio (dmlist_create ptr);
  setw (set_g_leases l);;
  m ← wio (dmosi_mutex_create false);
  setw (set_g_leases_mutex m);;
  mret (if bool_decide (is_Some l) && bool_decide (is_Some m) then 0 else -1).

(** The comparison callbacks given to [dmlist_find]: they dereference every
    entry they are shown. *)
Definition compare_by_iface (h : gmap ptr lease) (i : iface_t) (p : ptr) : bool :=
  match h !! p with Some l => iface l =? i | None => false end.

Definition compare_by_xid (h : gmap ptr lease) (i : iface_t) (x : Z) (p : ptr) : bool :=
  match h !! p with Some l => (iface l =? i) && (xid l =? x) | None => false end.

Definition compare_pointer (q p : ptr) : bool := bool_decide (p = q).

(** A search shows every entry to the callback: all must be live. *)
Definition entries_live (h : gmap ptr lease) (l : dmlist ptr) : bool :=
  forallb (λ p, bool_decide (is_Some (h !! p))) (dmlist_elems l).

Definition find_lease (f : gmap ptr lease → ptr → bool) : M (option ptr) :=
  l ← the_leases;
  h ← getw heap;
  if entries_live h l then mret (dmlist_find l (f h)) else ub.

Definition dmdhcp_lease_table_find_by_iface (i : iface_t) : M (option ptr) :=
  lock_table;;
  r ← find_lease (λ h, compare_by_iface h i);
  unlock_table;;
  mret r.

Definition dmdhcp_lease_table_find_by_xid (i : iface_t) (x : Z) : M (option ptr) :=
  lock_table;;
  r ← find_lease (λ h, compare_by_xid h i x);
  unlock_table;;
  mret r.

Definition dmdhcp_lease_table_insert (p : ptr) : M Z :=
  lock_table;;
  l ← load p;
  found ← find_lease (λ h, compare_by_iface h (iface l));
  result ← match found with
           | Some _ => mret (- EEXIST)
           | None =>
               t ← the_leases;
               r ← wio (dmlist_try_push t p);
               match r with
               | Some t => setw (set_g_leases (Some t));; mret 0
               | None => mret (- ENOMEM)
               end
           end;
  unlock_table;;
  mret result.

Definition dmdhcp_lease_table_remove (p : ptr) : M unit :=
  lock_table;;
  t ← the_leases;
  setw (set_g_leases (Some (dmlist_remove t (compare_pointer p))));;
  unlock_table.

(** ** Construction and destruction *)

(** [if (h != NULL) f(h);] *)
Definition when_some {A} (h : option A) (m : st io unit) : M unit :=
  match h with Some _ => wio m | None => mret tt end.

Definition destroy_with_context (p : ptr) (context : dmdhcp_teardown_context_t) : M unit :=
  with_lease p (setl (set_magic 0));;
  l ← load p;
  when_some (retransmit_timer l)
    (dmosi_timer_stop (retransmit_timer l);;
     if bool_decide (context = dmdhcp_teardown_context_retransmit_timer)
     then mret tt else dmosi_timer_destroy (retransmit_timer l));;
  when_some (lease_timer l)
    (dmosi_timer_stop (lease_timer l);;
     if bool_decide (context = dmdhcp_teardown_context_lease_timer)
     then mret tt else dmosi_timer_destroy (lease_timer l));;
  with_lease p dmdhcp_lease_table_clear_dns_servers;;
  when_some (dns_servers l) dmlist_destroy;;
  with_lease p dmdhcp_lease_table_clear_ntp_servers;;
  when_some (ntp_servers l) dmlist_destroy;;
  when_some (hostname l) Dmod_Free;;
  when_some (lock l) (dmosi_mutex_destroy (lock l));;
  setw (λ w, set_heap (delete p (heap w)) w).

Definition dmdhcp_lease_table_destroy_with_context (h : option ptr)
    (context : dmdhcp_teardown_context_t) : M unit :=
  match h with
  | None => mret tt
  | Some p => destroy_with_context p context
  end.

Definition dmdhcp_lease_table_destroy (h : option ptr) : M unit :=
  dmdhcp_lease_table_destroy_with_context h dmdhcp_teardown_context_normal.

(** [Dmod_Malloc(sizeof( *lease))] and the [memset]: a fresh zeroed object *)
Definition new_lease : M (option ptr) :=
  block ← wio (ext (c_malloc SIZEOF_LEASE));
  match (block : option (list Z)) with
  | None => mret None
  | Some _ =>
      p ← wio new_id;
      setw (λ w, set_heap (<[p := lease_zero]> (heap w)) w);;
      mret (Some p)
  end.

Definition dmdhcp_lease_table_create (i : iface_t) : M (option ptr) :=
  r ← new_lease;
  match r with
  | None => mret None
  | Some p =>
      m ← wio (dmosi_mutex_create false);
      with_lease p (setl (set_lock m));;
      dns ← wio (dmlist_create dmroute_addr_t);
      with_lease p (setl (set_dns_servers dns));;
      ntp ← wio (dmlist_create dmroute_addr_t);
      with_lease p (setl (set_ntp_servers ntp));;
      rt ← wio (dmdhcp_output_create_retransmit_timer p);
      with_lease p (setl (set_retransmit_timer rt));;
      lt ← wio (dmdhcp_lifecycle_create_lease_timer p);
      with_lease p (setl (set_lease_timer lt));;
      if bool_decide (is_Some m) && bool_decide (is_Some dns) && bool_decide (is_Some ntp)
         && bool_decide (is_Some rt) && bool_decide (is_Some lt)
      then
        with_lease p (setl (set_iface i));;
        with_lease p (setl (set_magic DMDHCP_LEASE_MAGIC));;
        mret (Some p)
      else
        dmdhcp_lease_table_destroy (Some p);;
        mret None
  end.

(** The loop of [dmdhcp_lease_table_deinit], [count] entries to go *)
Fixpoint deinit_loop (count : nat) : M unit :=
  match count with
  | O => mret tt
  | S count =>
      t ← the_leases;
      let '(entry, t) := dmlist_pop_front t in
      setw (set_g_leases (Some t));;
      p ← st_opt entry;
      lock_lease p;;
      l ← load p;
      (if iface_configured l then with_lease p dmdhcp_lifecycle_unapply else mret tt);;
      unlock_lease p;;
      dmdhcp_lease_table_destroy (Some p);;
      deinit_loop count
  end.

Definition dmdhcp_lease_table_deinit : M unit :=
  t ← the_leases;
  deinit_loop (dmlist_size t);;
  wio dmlist_destroy;;
  setw (set_g_leases None);;
  m ← getw g_leases_mutex;
  wio (dmosi_mutex_destroy m);;
  setw (set_g_leases_mutex None).

(** ** Accessors *)

(** The shape of an accessor that reads under the lease lock *)
Definition locked_read {A} (h : option ptr) (bad : A) (f : lease → A) : M A :=
  b ← bad_handle h;
  match h with
  | Some p =>
      if b : bool then mret bad else
      lock_lease p;;
      l ← load p;
      unlock_lease p;;
      mret (f l)
  | None => mret bad
  end.

Definition dmdhcp_set_callbacks (h : option ptr) (cbs : option dmdhcp_callbacks_t) (ud : Z) : M Z :=
  b ← bad_handle h;
  match h with
  | Some p =>
      if b : bool then mret (- EINVAL) else
      lock_lease p;;
      with_lease p (setl (set_callbacks (default callbacks_zero cbs)));;
      with_lease p (setl (set_user_data ud));;
      unlock_lease p;;
      mret 0
  | None => mret (- EINVAL)
  end.

Definition dmdhcp_get_state (h : option ptr) : M dmdhcp_state_t :=
  locked_read h dmdhcp_state_failed state.

Definition dmdhcp_get_iface (h : option ptr) : M iface_t :=
  b ← bad_handle h;
  match h with
  | Some p => if b : bool then mret 0 else l ← load p; mret (iface l)
  | None => mret 0
  end.

Definition dmdhcp_get_user_data (h : option ptr) : M Z := locked_read h 0 user_data.

Definition dmdhcp_get_xid (h : option ptr) : M Z := locked_read h 0 xid.

(** Output parameters: [None] is a NULL pointer; the result pairs the return
    code with the new value. *)
Definition lease_info (l : lease) : dmdhcp_lease_info_t :=
  LeaseInfo (offered_ip l) (netmask l) (gateway l) (server_id l)
    (lease_time_sec l) (t1_sec l) (t2_sec l).

Definition dmdhcp_get_lease_info (h : option ptr) (out : option dmdhcp_lease_info_t)
    : M (Z * option dmdhcp_lease_info_t) :=
  match out with
  | None => bad_handle h;; mret (- EINVAL, out)
  | Some _ =>
      locked_read h (- EINVAL, out) (λ l,
        if holds_valid_lease l then (0, Some (lease_info l)) else (- EINVAL, out))
  end.

(** [dmlist_size] and [dmlist_get] on a server list that may be NULL *)
Definition dmdhcp_get_dns_server_count (h : option ptr) : M nat :=
  r ← locked_read h (Some 0%nat) (λ l, dmlist_size <$> dns_servers l);
  st_opt r.

Definition dmdhcp_get_ntp_server_count (h : option ptr) : M nat :=
  r ← locked_read h (Some 0%nat) (λ l, dmlist_size <$> ntp_servers l);
  st_opt r.

Definition get_server (index : nat) (out : option dmroute_addr_t)
    (servers : option (dmlist dmroute_addr_t)) : option (Z * option dmroute_addr_t) :=
  l ← servers;
  Some (match dmlist_get l index with
        | Some a => (0, Some a)
        | None => (- EINVAL, out)
        end).

Definition dmdhcp_get_dns_server (h : option ptr) (index : nat) (out : option dmroute_addr_t)
    : M (Z * option dmroute_addr_t) :=
  match out with
  | None => bad_handle h;; mret (- EINVAL, out)
  | Some _ =>
      r ← locked_read h (Some (- EINVAL, out)) (λ l, get_server index out (dns_servers l));
      st_opt r
  end.

Definition dmdhcp_get_ntp_server (h : option ptr) (index : nat) (out : option dmroute_addr_t)
    : M (Z * option dmroute_addr_t) :=
  match out with
  | None => bad_handle h;; mret (- EINVAL, out)
  | Some _ =>
      r ← locked_read h (Some (- EINVAL, out)) (λ l, get_server index out (ntp_servers l));
      st_opt r
  end.

(** ** The servers of every valid lease *)

(** [for (j ...; written < max_count; ...) out[written++] = *entry], [n]
    servers to go, the next one is [j]; [out] is the caller's array. *)
Fixpoint copy_servers (n j : nat) (l : dmlist dmroute_addr_t) (out : list dmroute_addr_t)
    (written max_count : nat) : option (list dmroute_addr_t * nat) :=
  match n with
  | O => Some (out, written)
  | S n =>
      if (written <? max_count)%nat then
        match dmlist_get l j with
        | Some a =>
            if (written <? length out)%nat
            then copy_servers n (S j) l (<[written := a]> out) (S written) max_count
            else None
        | None => copy_servers n (S j) l out written max_count
        end
      else Some (out, written)
  end.

(** The outer loop, at entry [i] of the table; the fuel given is one more than
    the number of entries. *)
Fixpoint ntp_servers_loop (fuel i : nat) (out : list dmroute_addr_t) (written max_count : nat)
    : M (list dmroute_addr_t * nat) :=
  match fuel with
  | O => ub
  | S fuel =>
      t ← the_leases;
      if (i <? dmlist_size t)%nat && (written <? max_count)%nat then
        match dmlist_get t i with
        | None => ntp_servers_loop fuel (S i) out written max_count
        | Some p =>
            l ← load p;
            if negb (magic l =? DMDHCP_LEASE_MAGIC)
            then ntp_servers_loop fuel (S i) out written max_count else
            lock_lease p;;
            l ← load p;
            r ← (if holds_valid_lease l then
                   servers ← st_opt (ntp_servers l);
                   st_opt (copy_servers (dmlist_size servers) 0 servers out written max_count)
                 else mret (out, written));
            unlock_lease p;;
            ntp_servers_loop fuel (S i) r.1 r.2 max_count
        end
      else mret (out, written)
  end.

Definition dmdhcp_get_ntp_servers (out : option (list dmroute_addr_t)) (max_count : nat)
    : M (Z * option (list dmroute_addr_t)) :=
  match out with
  | None => mret (- EINVAL, out)
  | Some a =>
      if (max_count =? 0)%nat then mret (- EINVAL, out) else
      lock_table;;
      t ← the_leases;
      r ← ntp_servers_loop (S (dmlist_size t)) 0 a 0 max_count;
      unlock_table;;
      mret (i32 (Z.of_nat r.2), Some r.1)
  end.

(** The loop of [visit_lease_dns_servers], [n] servers to go *)
Fixpoint visit_dns_loop (n j : nat) (l : dmlist dmroute_addr_t) (visit ctx : Z) : M unit :=
  match n with
  | O => mret tt
  | S n =>
      match dmlist_get l j with
      | Some a => wio (ext (c_visit_dns visit ctx a));; visit_dns_loop n (S j) l visit ctx
      | None => visit_dns_loop n (S j) l visit ctx
      end
  end.

Definition visit_lease_dns_servers (p : ptr) (visit ctx : Z) : M unit :=
  l ← load p;
  if negb (holds_valid_lease l) then mret tt else
  servers ← st_opt (dns_servers l);
  visit_dns_loop (dmlist_size servers) 0 servers visit ctx.

Fixpoint visit_dns_leases (n i : nat) (visit ctx : Z) : M unit :=
  match n with
  | O => mret tt
  | S n =>
      t ← the_leases;
      match dmlist_get t i with
      | None => visit_dns_leases n (S i) visit ctx
      | Some p =>
          l ← load p;
          if negb (magic l =? DMDHCP_LEASE_MAGIC) then visit_dns_leases n (S i) visit ctx else
          lock_lease p;;
          visit_lease_dns_servers p visit ctx;;
          unlock_lease p;;
          visit_dns_leases n (S i) visit ctx
      end
  end.

Definition dmdhcp_lease_table_visit_dns_servers (visit : option Z) (ctx : Z) : M unit :=
  m ← getw g_leases_mutex;
  match visit, m with
  | Some f, Some _ =>
      lock_table;;
      t ← the_leases;
      visit_dns_leases (dmlist_size t) 0 f ctx;;
      unlock_table
  | _, _ => mret tt
  end.

(** The inner loop of [dmdhcp_lease_table_visit_ntp_servers]: it stops at the
    first server the visitor answers non-zero to. *)
Fixpoint visit_ntp_loop (n j : nat) (l : dmlist dmroute_addr_t) (visit ctx : Z) : M unit :=
  match n with
  | O => mret tt
  | S n =>
      match dmlist_get l j with
      | Some a =>
          if is_v4 a then
            r ← wio (ext (c_visit_ntp visit ctx (v4 a)));
            if negb ((r : Z) =? 0) then mret tt else visit_ntp_loop n (S j) l visit ctx
          else visit_ntp_loop n (S j) l visit ctx
      | None => visit_ntp_loop n (S j) l visit ctx
      end
  end.

Fixpoint visit_ntp_leases (n i : nat) (visit ctx : Z) : M unit :=
  match n with
  | O => mret tt
  | S n =>
      t ← the_leases;
      match dmlist_get t i with
      | None => visit_ntp_leases n (S i) visit ctx
      | Some p =>
          l ← load p;
          if negb (magic l =? DMDHCP_LEASE_MAGIC) then visit_ntp_leases n (S i) visit ctx else
          lock_lease p;;
          l ← load p;
          (if holds_valid_lease l then
             servers ← st_opt (ntp_servers l);
             visit_ntp_loop (dmlist_size servers) 0 servers visit ctx
           else mret tt);;
          unlock_lease p;;
          visit_ntp_leases n (S i) visit ctx
      end
  end.

Definition dmdhcp_lease_table_visit_ntp_servers (visit : option Z) (ctx : Z) : M unit :=
  match visit with
  | None => mret tt
  | Some f =>
      lock_table;;
      t ← the_leases;
      visit_ntp_leases (dmlist_size t) 0 f ctx;;
      unlock_table
  end.

(** ** [src/dmdhcp_registrations.c]: the two discovery implementations *)
Definition dmdhcp_dmdns_provide_servers (add : option Z) (sink_ctx : Z) : M unit :=
  match add with
  | Some _ => dmdhcp_lease_table_visit_dns_servers add sink_ctx
  | None => mret tt
  end.

Definition dmdhcp_dmntp_provide_servers (add : option Z) (sink_ctx : Z) : M unit :=
  dmdhcp_lease_table_visit_ntp_servers add sink_ctx.
End LeaseTable.
