(* ===== verification/TableFacts.v ===== *)
(** What the operations of the lease table do, and the proofs that they keep
    the invariant: searching, inserting, removing, creating and destroying. *)
From S2P Require Import Prelude Types Platform Lease Output Lifecycle World Invariant LeaseTable.

Section TableFacts.
Context `{E : Env} {EO : EnvOk E} `{D : DmList} {DL : DmListLaws D}.

(** ** Destroying a lease

    What [destroy_with_context] frees, for a lease any of whose resources may
    be missing (a failed construction). *)
Definition close_timer (o : option handle) (s : io) : io :=
  match o with
  | Some t => log_all [c_timer_stop t; c_timer_destroy t] (set_timers (timers s ∖ {[t]}) s)
  | None => s
  end.

Definition close_servers (o : option (dmlist dmroute_addr_t)) (s : io) : io :=
  match o with
  | Some _ => set_lists (lists s - 1) (log_all [c_list_destroy] (set_blocks (blocks s - server_count o) s))
  | None => s
  end.

Definition free_hostname (o : option (list Z)) (s : io) : io :=
  match o with Some _ => set_blocks (blocks s - 1) s | None => s end.

Definition close_mutex (o : option handle) (s : io) : io :=
  match o with
  | Some m => log_all [c_mutex_destroy m] (set_mutexes (delete m (mutexes s)) s)
  | None => s
  end.

Definition freed (l : lease) (s : io) : io :=
  close_mutex (lock l) (free_hostname (hostname l) (close_servers (ntp_servers l)
    (close_servers (dns_servers l) (close_timer (lease_timer l) (close_timer (retransmit_timer l) s))))).

(** The world without lease [p] *)
Definition gone (p : ptr) (s : io) (w : world) : world :=
  set_w_io s (set_heap (delete p (heap w)) w).

(** The resources a lease has are live, and no callback of its own timers is
    running. *)
Record closable (l : lease) (s : io) : Prop := {
  cl_rt : ∀ t, retransmit_timer l = Some t → t ∈ timers s ∧ running s ≠ Some t;
  cl_lt : ∀ t, lease_timer l = Some t → t ∈ timers s ∧ running s ≠ Some t ∧ retransmit_timer l ≠ Some t;
  cl_lock : ∀ m, lock l = Some m → mutexes s !! m = Some false;
}.

Lemma when_some_timer {B} (o : option handle) (k : unit → M B) p l s w :
  (∀ t, o = Some t → t ∈ timers s ∧ running s ≠ Some t) →
  (when_some o (dmosi_timer_stop o;; dmosi_timer_destroy o) ≫= k) (put p l s w)
  = k tt (put p l (close_timer o s) w).
Proof.
  intros Ho. destruct o as [t|]; [|done]. destruct (Ho t eq_refl) as [Hin Hr]. apply wio_put.
  unfold dmosi_timer_stop, mbind, st_bind.
  rewrite timer_call_run by done. unfold dmosi_timer_destroy.
  rewrite decide_True by done. unfold log, log_all, set_trace. simpl. by rewrite <- app_assoc.
Qed.

Lemma timers_close_timer o s : timers (close_timer o s) = timers s ∖ from_option (λ t, {[t]}) ∅ o.
Proof. destruct o; simpl; [done|]. by rewrite difference_empty_L. Qed.

Lemma running_close_timer o s : running (close_timer o s) = running s.
Proof. by destruct o. Qed.

Lemma when_some_put {A B} (o : option A) (m : st io unit) (k : unit → M B) p l s w (f : io → io) :
  (m s = Some (tt, f s)) →
  (when_some o m ≫= k) (put p l s w) = k tt (put p l (match o with Some _ => f s | None => s end) w).
Proof. intros Hm. destruct o; [|done]. by apply wio_put. Qed.

Lemma close_servers_eq (o : option (dmlist dmroute_addr_t)) s :
  match o with
  | Some _ => set_lists (lists (set_blocks (blocks s - server_count o) s) - 1)
                (log_all [c_list_destroy] (set_blocks (blocks s - server_count o) s))
  | None => set_blocks (blocks s - server_count o) s
  end = close_servers o s.
Proof. destruct o; [done|]. simpl. by rewrite Z.sub_0_r, set_blocks_id. Qed.

Lemma destroy_run p l s w :
  closable l s →
  destroy_with_context p dmdhcp_teardown_context_normal (put p l s w)
  = Some (tt, gone p (freed l s) w).
Proof.
  intros [Hrt Hlt Hm]. unfold destroy_with_context.
  erewrite with_lease_put by done. rewrite load_put.
  rewrite !bool_decide_false by done.
  rewrite when_some_timer by done. cbn [retransmit_timer lease_timer set_magic].
  rewrite when_some_timer.
  2:{ intros t Ht. destruct (Hlt t Ht) as (? & ? & ?). rewrite timers_close_timer, running_close_timer.
      split; [|done]. apply elem_of_difference. split; [done|].
      simpl in *. destruct (retransmit_timer l); simpl; [|apply not_elem_of_empty]. rewrite elem_of_singleton. congruence. }
  cbn [self plat].
  rewrite (with_lease_put _ _ _ _ _ _ _ _ _ (clear_dns_run _ _)).
  rewrite (when_some_put _ _ _ _ _ _ _ (λ s, set_lists (lists s - 1) (log_all [c_list_destroy] s)))
    by done.
  rewrite (with_lease_put _ _ _ _ _ _ _ _ _ (clear_ntp_run _ _)).
  rewrite (when_some_put _ _ _ _ _ _ _ (λ s, set_lists (lists s - 1) (log_all [c_list_destroy] s)))
    by done.
  rewrite (when_some_put _ _ _ _ _ _ _ (λ s, set_blocks (blocks s - 1) s)) by done.
  cbn [dns_servers ntp_servers hostname lock set_dns_servers set_ntp_servers set_magic].
  rewrite !close_servers_eq.
  set (s1 := close_servers _ _). 
  change (match hostname l with Some _ => set_blocks (blocks s1 - 1) s1 | None => s1 end)
    with (free_hostname (hostname l) s1). set (s2 := free_hostname _ _).
  assert (Hs2 : mutexes s2 = mutexes s).
  { unfold s2, s1. by destruct (hostname l), (ntp_servers l), (dns_servers l), (lease_timer l),
      (retransmit_timer l). }
  unfold when_some. destruct (lock l) as [m|] eqn:Hlock.
  - rewrite (wio_put _ _ _ _ _ _ tt (log_all [c_mutex_destroy m] (set_mutexes (delete m (mutexes s2)) s2))).
    2:{ unfold dmosi_mutex_destroy. by rewrite Hs2, Hm. }
    unfold setw, gone, freed, put. rewrite Hlock. simpl.
    unfold set_w_io, set_heap. simpl. by rewrite delete_insert_eq.
  - rewrite w_ret_bind. unfold setw, gone, freed, put. rewrite Hlock. simpl.
    unfold set_w_io, set_heap. simpl. by rewrite delete_insert_eq.
Qed.

Definition list_count {A} (o : option A) : Z := if o is Some _ then 1 else 0.

Lemma freed_io l s :
  mutexes (freed l s) = from_option (λ m, delete m (mutexes s)) (mutexes s) (lock l) ∧
  (∀ t, t ∈ timers (freed l s) ↔ t ∈ timers s ∧ ¬ own_timer l t) ∧
  blocks (freed l s) = blocks s - lease_blocks l ∧
  lists (freed l s) = lists s - list_count (dns_servers l) - list_count (ntp_servers l) ∧
  next_id (freed l s) = next_id s ∧ running (freed l s) = running s.
Proof.
  assert (Ht : timers (freed l s)
    = timers s ∖ from_option singleton ∅ (retransmit_timer l) ∖ from_option singleton ∅ (lease_timer l)).
  { unfold freed. destruct (lock l), (hostname l), (ntp_servers l), (dns_servers l),
      (lease_timer l), (retransmit_timer l); simpl; by rewrite ?difference_empty_L. }
  split; [by unfold freed; destruct (lock l), (hostname l), (ntp_servers l), (dns_servers l),
    (lease_timer l), (retransmit_timer l)|].
  split.
  { intros t. rewrite Ht, !elem_of_difference. unfold own_timer.
    assert (Ho : ∀ o : option positive, t ∈ (from_option singleton ∅ o : gset positive) ↔ o = Some t).
    { intros [t'|]; simpl; [rewrite elem_of_singleton|rewrite elem_of_empty]; naive_solver. }
    rewrite !Ho. tauto. }
  unfold freed, lease_blocks, server_count, list_count. clear Ht.
  destruct (lock l), (hostname l), (ntp_servers l), (dns_servers l), (lease_timer l),
    (retransmit_timer l); simpl; split_and!; try done; lia.
Qed.

Lemma closable_live busy off w p l :
  Inv busy off w → heap w !! p = Some l → lock l ∉ (Some <$> elements busy) →
  (∀ t, own_timer l t → running (w_io w) ≠ Some t) → closable l (w_io w).
Proof.
  intros HI Hp Hb Hr. destruct (inv_leases _ _ _ HI p l Hp) as [_ _ (m & Hm & [b Hmb]) [(t & Ht & Hin) (t' & Ht' & Hin')] Hd].
  split.
  - intros t0 Ht0. simplify_eq. split; [done|]. apply Hr. by left.
  - intros t0 Ht0. simplify_eq. split; [done|]. split; [apply Hr; by right|congruence].
  - intros m0 Hm0. simplify_eq. rewrite Hmb. f_equal.
    destruct (inv_mutexes _ _ _ HI _ _ Hmb) as [-> _]. apply bool_decide_eq_false.
    intros Hin0. apply Hb. rewrite Hm. apply list_elem_of_fmap. exists m. by rewrite elem_of_elements.
Qed.

Lemma Inv_destroyed busy off w p l :
  Inv busy off w → p ∈ off → heap w !! p = Some l →
  Inv busy (off ∖ {[p]}) (gone p (freed l (w_io w)) w).
Proof.
  intros HI Hoff Hp. destruct (freed_io l (w_io w)) as (Hmx & Htm & Hbl & Hli & Hid & Hrun).
  destruct (inv_leases _ _ _ HI p l Hp) as [_ Hty (m & Hm & Hmlive) _ _].
  rewrite Hm in Hmx. simpl in Hmx.
  assert (Hold : ∀ q lq, heap (gone p (freed l (w_io w)) w) !! q = Some lq → q ≠ p ∧ heap w !! q = Some lq).
  { intros q lq. simpl. intros [? ?]%lookup_delete_Some. done. }
  assert (Hkeep : ∀ q lq, heap w !! q = Some lq → q ≠ p → heap (gone p (freed l (w_io w)) w) !! q = Some lq).
  { intros q lq Hq Hne. simpl. by rewrite lookup_delete_ne. }
  split; simpl in *.
  - destruct (inv_table _ _ _ HI) as (t & ? & ? & Ht). exists t. split; [done|]. split; [done|].
    intros q. rewrite Ht, elem_of_difference, elem_of_singleton. destruct (decide (q = p)) as [->|].
    + rewrite lookup_delete_eq. split; [tauto|]. intros [[? ?] _]. done.
    + rewrite lookup_delete_ne by done. tauto.
  - destruct (inv_table_mutex _ _ _ HI) as (gm & ? & ? & Hgm). exists gm. split; [done|]. split.
    + rewrite Hmx. rewrite lookup_delete_ne; [done|]. intros ->. by eapply Hgm.
    + intros q lq [_ Hq]%Hold. by eapply Hgm.
  - intros q lq [Hne Hq]%Hold. destruct (inv_leases _ _ _ HI q lq Hq) as [? ? (m' & Hm' & Hlive) Htl ?].
    destruct (inv_apart _ _ _ HI q lq p l Hq Hp Hne) as [Hlock Hown].
    split; try done.
    + exists m'. split; [done|]. rewrite Hmx, lookup_delete_ne by congruence. done.
    + destruct Htl as [(t1 & H1 & ?) (t2 & H2 & ?)].
      split; [exists t1|exists t2]; (split; [done|]); apply Htm; (split; [done|]); apply Hown;
        [by left|by right].
  - intros q lq q' lq' [_ Hq]%Hold [_ Hq']%Hold. by eapply inv_apart.
  - intros q lq q' lq' [Hne Hq]%Hold [Hne' Hq']%Hold [Ho|?%elem_of_singleton]%not_elem_of_difference
      [Ho'|?%elem_of_singleton]%not_elem_of_difference; try done. by apply (inv_ifaces _ _ _ HI).
  - intros m' b. rewrite Hmx. intros [Hne Hb]%lookup_delete_Some.
    destruct (inv_mutexes _ _ _ HI m' b Hb) as [? [?|(q & lq & Hq & Hl)]]; split; auto.
    right. exists q, lq. split; [apply Hkeep; [done|]|done]. intros ->. congruence.
  - intros t [Ht Hno]%Htm. destruct (inv_timers _ _ _ HI t Ht) as (q & lq & Hq & Hl).
    exists q, lq. split; [apply Hkeep; [done|]|done]. intros ->. by simplify_eq.
  - rewrite Hid. destruct (inv_fresh _ _ _ HI) as (Hf1 & Hf2 & Hf3). split_and!.
    + intros q [lq [_ Hq]%Hold]. apply Hf1. eauto.
    + intros m'. rewrite Hmx. intros [b [_ Hb]%lookup_delete_Some]. apply Hf2. eauto.
    + intros t [Ht _]%Htm. by apply Hf3.
  - rewrite Hrun, Hid. apply HI.
  - rewrite Hbl, (inv_blocks _ _ _ HI), (heap_blocks_delete _ p l) by done. lia.
  - rewrite Hli, (inv_lists _ _ _ HI). destruct Hty as []. destruct lt_dns as (d & -> & _), lt_ntp as (n & -> & _).
    rewrite map_size_delete, Hp. assert (size (heap w) ≠ 0%nat); [|simpl; lia].
    apply (map_size_ne_0_lookup_2 _ p). eauto.
Qed.

Lemma Inv_gone w p l :
  Inv ∅ {[p]} w → heap w !! p = Some l → Inv ∅ ∅ (gone p (freed l (w_io w)) w).
Proof.
  intros HI Hp. rewrite <- (difference_diag_L {[p]}) at 2.
  apply Inv_destroyed; [done|by apply elem_of_singleton|done].
Qed.

(** ** The table *)

(** The table mutex, free outside a critical section *)
Lemma table_mutex off w :
  Inv ∅ off w → ∃ gm, g_leases_mutex w = Some gm ∧ mutexes (w_io w) !! gm = Some false.
Proof.
  intros HI. destruct (inv_table_mutex _ _ _ HI) as (gm & Hg & [b Hb] & _).
  exists gm. split; [done|]. rewrite Hb. f_equal.
  by destruct (inv_mutexes _ _ _ HI gm b Hb) as [-> _].
Qed.

Lemma lock_table_run gm w :
  g_leases_mutex w = Some gm → mutexes (w_io w) !! gm = Some false →
  lock_table w = Some (tt, set_w_io (grab gm (w_io w)) w).
Proof.
  intros Hg Hm. unfold lock_table, mbind, st_bind, getw. rewrite Hg. by apply wio_run, lock_run.
Qed.

Lemma unlock_table_run gm w :
  g_leases_mutex w = Some gm → mutexes (w_io w) !! gm = Some true →
  unlock_table w = Some (tt, set_w_io (release gm (w_io w)) w).
Proof.
  intros Hg Hm. unfold unlock_table, mbind, st_bind, getw. rewrite Hg. by apply wio_run, unlock_run.
Qed.

Lemma the_leases_run t w : g_leases w = Some t → the_leases w = Some (t, w).
Proof. intros Ht. unfold the_leases, mbind, st_bind, getw. by rewrite Ht. Qed.

(** A search over the whole table *)
Lemma entries_live_inv busy off w t :
  Inv busy off w → g_leases w = Some t → entries_live (heap w) t = true.
Proof.
  intros HI Ht. destruct (inv_table _ _ _ HI) as (t' & Ht' & _ & Hel). simplify_eq.
  unfold entries_live. apply forallb_forall. intros p Hp%list_elem_of_In.
  apply bool_decide_eq_true. by apply Hel.
Qed.

Lemma find_lease_run busy off w t f :
  Inv busy off w → g_leases w = Some t →
  find_lease f w = Some (List.find (f (heap w)) (dmlist_elems t), w).
Proof.
  intros HI Ht. unfold find_lease, the_leases, mbind, st_bind, getw, st_opt. rewrite Ht.
  rewrite (entries_live_inv _ _ _ _ HI Ht). by rewrite elems_find.
Qed.

Lemma find_locked_run off w t gm f :
  Inv ∅ off w → g_leases w = Some t → g_leases_mutex w = Some gm →
  (lock_table;; r ← find_lease f; unlock_table;; mret r) w =
    Some (List.find (f (heap w)) (dmlist_elems t),
          set_w_io (log_all [c_mutex_lock gm; c_mutex_unlock gm] (w_io w)) w).
Proof.
  intros HI Ht Hg. destruct (table_mutex _ _ HI) as (gm' & Hg' & Hm). simplify_eq.
  rewrite (w_bind _ _ _ _ _ (lock_table_run _ _ Hg Hm)).
  assert (HI1 : Inv ({[gm]} ∪ ∅) off (set_w_io (grab gm (w_io w)) w)) by (apply Inv_grab; eauto).
  rewrite (w_bind _ _ _ _ _ (find_lease_run _ _ _ _ f HI1 Ht)).
  rewrite (w_bind _ _ _ _ _ (unlock_table_run gm (set_w_io (grab gm (w_io w)) w) Hg (mutexes_grab _ _))).
  unfold mret, st_ret. do 2 f_equal. unfold set_w_io. simpl. f_equal.
  rewrite <- (log_all_nil (grab gm (w_io w))). by apply release_grab.
Qed.

(** Which lease a search finds *)
Lemma find_in_table off w t (P : lease → bool) :
  Inv ∅ off w → g_leases w = Some t →
  (∀ p l p' l', heap w !! p = Some l → heap w !! p' = Some l' → p ∉ off → p' ∉ off →
     P l = true → P l' = true → p = p') →
  ∀ r, List.find (λ p, match heap w !! p with Some l => P l | None => false end) (dmlist_elems t) = r ↔
    match r with
    | Some p => ∃ l, heap w !! p = Some l ∧ (p ∉ off) ∧ P l = true
    | None => ∀ p l, heap w !! p = Some l → p ∉ off → P l = false
    end.
Proof.
  intros HI Ht Huniq. destruct (inv_table _ _ _ HI) as (t' & Ht' & _ & Hel). simplify_eq.
  set (g := λ p, match heap w !! p with Some l => P l | None => false end).
  assert (Hg : ∀ p, g p = true → ∃ l, heap w !! p = Some l ∧ P l = true).
  { intros p. unfold g. destruct (heap w !! p); [eauto|done]. }
  assert (Hsome : ∀ p, List.find g (dmlist_elems t) = Some p →
    ∃ l, heap w !! p = Some l ∧ (p ∉ off) ∧ P l = true).
  { intros p Hf. apply find_some in Hf as [Hin (l & Hl & HP)%Hg].
    apply list_elem_of_In, Hel in Hin as [_ ?]. eauto. }
  assert (Hnone : List.find g (dmlist_elems t) = None → ∀ p l, heap w !! p = Some l → p ∉ off → P l = false).
  { intros Hf p l Hl Ho. assert (g p = false) as Hgp.
    { apply (find_none _ _ Hf). apply list_elem_of_In, Hel. eauto. }
    unfold g in Hgp. by rewrite Hl in Hgp. }
  intros r. split; [intros <-; destruct (List.find g (dmlist_elems t)) as [p|]; [apply Hsome|apply Hnone]; done|].
  destruct r as [p|]; destruct (List.find g (dmlist_elems t)) as [q|]; intros Hr; [| |..|done].
  - destruct Hr as (l & Hl & Ho & HP). destruct (Hsome q eq_refl) as (lq & Hq & Hoq & HPq).
    f_equal. by eapply Huniq.
  - destruct Hr as (l & Hl & Ho & HP). rewrite (Hnone eq_refl p l) in HP; done.
  - destruct (Hsome q eq_refl) as (lq & Hq & Hoq & HPq). rewrite (Hr q lq) in HPq; done.
Qed.

Lemma iface_unique off w (P : lease → bool) i :
  Inv ∅ off w → (∀ l, P l = true → iface l = i) →
  ∀ p l p' l', heap w !! p = Some l → heap w !! p' = Some l' → p ∉ off → p' ∉ off →
     P l = true → P l' = true → p = p'.
Proof.
  intros HI Hi p l p' l' Hp Hp' Ho Ho' H1%Hi H2%Hi. apply (inv_ifaces _ _ _ HI p l p' l'); [done..|congruence].
Qed.


(** ** Membership *)
Lemma Inv_members busy off off' w t' :
  Inv busy off w → NoDup (dmlist_elems t') →
  (∀ p, p ∈ dmlist_elems t' ↔ is_Some (heap w !! p) ∧ p ∉ off') →
  (∀ p l p' l', heap w !! p = Some l → heap w !! p' = Some l' →
    p ∉ off' → p' ∉ off' → iface l = iface l' → p = p') →
  Inv busy off' (set_g_leases (Some t') w).
Proof.
  intros HI Hnd Hel Hif. split; simpl; try apply HI; [|done]. by exists t'.
Qed.

Lemma Inv_unlink busy off w t p :
  Inv busy off w → g_leases w = Some t →
  Inv busy ({[p]} ∪ off) (set_g_leases (Some (dmlist_remove t (compare_pointer p))) w).
Proof.
  intros HI Ht. destruct (inv_table _ _ _ HI) as (t' & Ht' & Hnd & Hel). simplify_eq.
  assert (Hrem : dmlist_elems (dmlist_remove t (compare_pointer p))
    = List.filter (λ x, negb (compare_pointer p x)) (dmlist_elems t)).
  { apply elems_remove. clear -Hnd. induction Hnd as [|q qs Hq _ IH]; simpl; [lia|].
    unfold compare_pointer at 1. case_bool_decide as Heq; simpl; [|done]. subst q.
    assert (List.filter (compare_pointer p) qs = []) as ->; [|simpl; lia].
    clear -Hq. induction qs as [|q qs IH]; [done|]. simpl. unfold compare_pointer at 1.
    apply not_elem_of_cons in Hq as [? ?]. rewrite bool_decide_false by congruence. by apply IH. }
  assert (Hout : ∀ q, q ∉ {[p]} ∪ off ↔ q ≠ p ∧ q ∉ off).
  { intros q. rewrite elem_of_union, elem_of_singleton. tauto. }
  apply Inv_members with off; [done|..].
  - rewrite Hrem. apply NoDup_ListNoDup, List.NoDup_filter, NoDup_ListNoDup. done.
  - intros q. rewrite Hrem, list_elem_of_In, filter_In, <- list_elem_of_In, Hel.
    unfold compare_pointer. rewrite negb_true_iff, bool_decide_eq_false, Hout. tauto.
  - intros q l q' l' Hq Hq' [_ ?]%Hout [_ ?]%Hout. by apply (inv_ifaces _ _ _ HI).
Qed.

Lemma Inv_remove w t p :
  Inv ∅ ∅ w → g_leases w = Some t →
  Inv ∅ {[p]} (set_g_leases (Some (dmlist_remove t (compare_pointer p))) w).
Proof. intros HI Ht. rewrite <- (union_empty_r_L {[p]}). by apply Inv_unlink. Qed.

Lemma Inv_publish busy off w t p l :
  Inv busy off w → p ∈ off → g_leases w = Some t → heap w !! p = Some l →
  (∀ q lq, heap w !! q = Some lq → q ∉ off → iface lq ≠ iface l) →
  Inv busy (off ∖ {[p]}) (set_g_leases (Some (dmlist_push_back t p)) w).
Proof.
  intros HI Hoff Ht Hp Hif. destruct (inv_table _ _ _ HI) as (t' & Ht' & Hnd & Hel). simplify_eq.
  assert (Hout : ∀ q, q ∉ off ∖ {[p]} → q = p ∨ q ∉ off).
  { intros q [?| ->%elem_of_singleton]%not_elem_of_difference; auto. }
  apply Inv_members with off; [done|..]; rewrite ?elems_push.
  - apply list.NoDup_app. split; [done|]. split; [|apply list.NoDup_singleton].
    intros q [_ Hq]%Hel. rewrite list_elem_of_singleton. by intros ->.
  - intros q. rewrite elem_of_app, Hel, list_elem_of_singleton. split.
    + intros [[? ?]| ->]; (split; [eauto|]); apply not_elem_of_difference; [by left|right; by apply elem_of_singleton].
    + intros [? [->|?]%Hout]; auto.
  - intros q lq q' lq' Hq Hq' [->|Ho]%Hout [->|Ho']%Hout Heq; simplify_eq; [done|..].
    + by destruct (Hif q' lq').
    + by destruct (Hif q lq).
    + by eapply (inv_ifaces _ _ _ HI).
Qed.

Lemma Inv_insert w t p l :
  Inv ∅ {[p]} w → g_leases w = Some t → heap w !! p = Some l →
  (∀ q lq, heap w !! q = Some lq → q ≠ p → iface lq ≠ iface l) →
  Inv ∅ ∅ (set_g_leases (Some (dmlist_push_back t p)) w).
Proof.
  intros HI Ht Hp Hif. rewrite <- (difference_diag_L {[p]}) at 2.
  apply (Inv_publish _ _ _ _ _ l); [done|by apply elem_of_singleton|done|done|].
  intros q lq Hq Hne. apply (Hif q lq Hq). by apply not_elem_of_singleton in Hne.
Qed.

Lemma remove_run w p :
  Inv ∅ ∅ w → is_Some (heap w !! p) →
  ∃ gm t, g_leases_mutex w = Some gm ∧ g_leases w = Some t ∧
    dmdhcp_lease_table_remove p w = Some (tt,
      set_g_leases (Some (dmlist_remove t (compare_pointer p)))
        (set_w_io (log_all [c_mutex_lock gm; c_mutex_unlock gm] (w_io w)) w)) ∧
    Inv ∅ {[p]} (set_g_leases (Some (dmlist_remove t (compare_pointer p)))
        (set_w_io (log_all [c_mutex_lock gm; c_mutex_unlock gm] (w_io w)) w)).
Proof.
  intros HI Hp. destruct (table_mutex _ _ HI) as (gm & Hg & Hm).
  destruct (inv_table _ _ _ HI) as (t & Ht & _). exists gm, t. split; [done|]. split; [done|]. split.
  - unfold dmdhcp_lease_table_remove.
    rewrite (w_bind _ _ _ _ _ (lock_table_run _ _ Hg Hm)).
    erewrite w_bind by (apply the_leases_run; exact Ht).
    unfold mbind, st_bind, setw. erewrite unlock_table_run by (done || apply mutexes_grab).
    do 2 f_equal. unfold set_w_io, set_g_leases. simpl. f_equal.
    rewrite <- (log_all_nil (grab gm (w_io w))). by apply release_grab.
  - by apply Inv_remove; [apply Inv_log|].
Qed.

(** Inserting a lease that is live but not in the table *)
Lemma insert_run w p l :
  Inv ∅ {[p]} w → heap w !! p = Some l →
  ∃ gm t, g_leases_mutex w = Some gm ∧ g_leases w = Some t ∧
    let s1 := grab gm (w_io w) in
    let taken := List.find (λ q, compare_by_iface (heap w) (iface l) q) (dmlist_elems t) in
    dmdhcp_lease_table_insert p w =
      match taken with
      | Some _ => Some (- EEXIST, set_w_io (log_all [c_mutex_lock gm; c_mutex_unlock gm] (w_io w)) w)
      | None =>
          let s2 := log_all [c_mutex_lock gm; c_list_push; c_mutex_unlock gm] (w_io w) in
          if answer (trace s1) c_list_push
          then Some (0, set_g_leases (Some (dmlist_push_back t p)) (set_w_io s2 w))
          else Some (- ENOMEM, set_w_io s2 w)
      end ∧
    (taken = None ↔ ∀ q lq, heap w !! q = Some lq → q ≠ p → iface lq ≠ iface l).
Proof.
  intros HI Hp. destruct (table_mutex _ _ HI) as (gm & Hg & Hm).
  destruct (inv_table _ _ _ HI) as (t & Ht & _). exists gm, t. split; [done|]. split; [done|].
  intros s1 taken. split.
  - unfold dmdhcp_lease_table_insert.
    rewrite (w_bind _ _ _ _ _ (lock_table_run _ _ Hg Hm)). fold s1.
    assert (HI1 : Inv ({[gm]} ∪ ∅) {[p]} (set_w_io s1 w)) by (apply Inv_grab; eauto).
    unfold load, mbind at 1, st_bind at 1. simpl. rewrite Hp.
    rewrite (w_bind _ _ _ _ _ (find_lease_run _ _ _ _ (λ h, compare_by_iface h (iface l)) HI1 Ht)).
    change (List.find _ (dmlist_elems t)) with taken.
    assert (Hrel : ∀ cs, release gm (log_all cs s1) = log_all (section_calls gm cs) (w_io w))
      by (intros; by apply release_grab).
    destruct taken.
    + rewrite w_ret_bind. erewrite w_bind by (by apply unlock_table_run; [|apply mutexes_grab]).
      unfold mret, st_ret. do 2 f_equal. unfold set_w_io. simpl. f_equal.
      rewrite <- (log_all_nil s1). apply Hrel.
    + rewrite w_assoc. erewrite w_bind by (apply the_leases_run; exact Ht).
      unfold dmlist_try_push, mbind, st_bind, wio. rewrite ext_run.
      unfold mret, st_ret.
      change (trace (w_io (set_w_io s1 w))) with (trace (w_io w) ++ [c_mutex_lock gm]).
      change (trace s1) with (trace (w_io w) ++ [c_mutex_lock gm]).
      destruct (answer (trace (w_io w) ++ [c_mutex_lock gm]) c_list_push); unfold setw;
        (rewrite (unlock_table_run gm) by (exact Hg || apply mutexes_grab));
        do 2 f_equal; unfold set_w_io, set_g_leases; simpl; f_equal; apply (Hrel [c_list_push]).
  - pose proof (find_in_table {[p]} w t (λ lq, iface lq =? iface l) HI Ht
      (iface_unique _ _ _ _ HI (λ lq, proj1 (Z.eqb_eq (iface lq) (iface l)))) None) as Hf.
    change (taken = None) with (List.find (λ q, match heap w !! q with
      Some lq => iface lq =? iface l | None => false end) (dmlist_elems t) = None).
    rewrite Hf. setoid_rewrite Z.eqb_neq. setoid_rewrite not_elem_of_singleton.
    split; intros Hn q lq; intros; by eapply Hn.
Qed.

(** ** Creating a lease

    [building s0 s l]: since [s0], exactly the resources of the lease [l] have
    been created, with fresh handles. *)
Record building (s0 s : io) (l : lease) : Prop := {
  bl_mutexes : mutexes s = from_option (λ m, <[m := false]> (mutexes s0)) (mutexes s0) (lock l);
  bl_timers : ∀ t, t ∈ timers s ↔ own_timer l t ∨ t ∈ timers s0;
  bl_lists : lists s = lists s0 + list_count (dns_servers l) + list_count (ntp_servers l);
  bl_blocks : blocks s = blocks s0;
  bl_running : running s = running s0;
  bl_trace : trace s0 `prefix_of` trace s;
  bl_next : (next_id s0 ≤ next_id s)%positive;
  bl_lock_fresh : ∀ m, lock l = Some m → (next_id s0 ≤ m < next_id s)%positive;
  bl_timer_fresh : ∀ t, own_timer l t → (next_id s0 ≤ t < next_id s)%positive;
  bl_distinct : ∀ t, retransmit_timer l = Some t → lease_timer l ≠ Some t;
  bl_dns : ∀ d, dns_servers l = Some d → dmlist_elems d = [];
  bl_ntp : ∀ d, ntp_servers l = Some d → dmlist_elems d = [];
}.

(** Every allocation made between two points of the trace is granted. *)
Definition grants (c : call) : answer_of c → Prop :=
  match c with
  | c_malloc _ => λ a, is_Some a
  | c_mutex_create _ | c_list_create | c_list_push | c_timer_create _ _ _ _ => λ a, a = true
  | _ => λ _, True
  end.

Definition granted (h h' : list call) : Prop :=
  ∀ k c, h `prefix_of` k → k ++ [c] `prefix_of` h' → grants c (answer k c).

Lemma granted_mono h h1 h2 h' : granted h h' → h `prefix_of` h1 → h2 `prefix_of` h' → granted h1 h2.
Proof. intros Hg H1 H2 k c Hk Hc. apply Hg; by etransitivity. Qed.

(** An object asked for between [s] and [s'] *)
Definition asked {A} (s s' : io) (o : option A) : Prop :=
  trace s `prefix_of` trace s' ∧ (granted (trace s) (trace s') → is_Some o).

Lemma asked_call (c : call) s s' {A} (o : option A) :
  trace s' = trace s ++ [c] → (grants c (answer (trace s) c) → is_Some o) → asked s s' o.
Proof. intros Ht Ho. unfold asked. rewrite Ht. split; [by apply prefix_app_r|]. intros Hg. by apply Ho, Hg. Qed.

Lemma building_lock s0 s l :
  building s0 s l → lock l = None →
  ∃ o s', dmosi_mutex_create false s = Some (o, s') ∧ building s0 s' (set_lock o l) ∧ asked s s' o.
Proof.
  intros [] Hl. unfold dmosi_mutex_create, mbind, st_bind. rewrite ext_run.
  destruct (answer (trace s) (c_mutex_create false) : bool) eqn:Ha; do 2 eexists; (split; [reflexivity|]);
    (split; [|eapply asked_call; [reflexivity|cbn [grants]; rewrite Ha; first [by eauto|done]]]).
  - split; simpl; try done.
    + rewrite bl_mutexes0, Hl. done.
    + etransitivity; [done|]. by apply prefix_app_r.
    + lia.
    + intros m [= <-]. lia.
    + intros t Ht. pose proof (bl_timer_fresh0 t Ht). lia.
  - split; simpl; try done.
    + by rewrite bl_mutexes0, Hl.
    + etransitivity; [done|]. by apply prefix_app_r.
Qed.

Lemma building_dns s0 s l :
  building s0 s l → dns_servers l = None →
  ∃ o s', dmlist_create dmroute_addr_t s = Some (o, s') ∧ building s0 s' (set_dns_servers o l) ∧
    asked s s' o.
Proof.
  intros [] Hl. rewrite Hl in *. unfold dmlist_create, mbind, st_bind. rewrite ext_run.
  destruct (answer (trace s) c_list_create : bool) eqn:Ha; do 2 eexists; (split; [reflexivity|]);
    (split; [|eapply asked_call; [reflexivity|cbn [grants]; rewrite Ha; first [by eauto|done]]]).
  - split; simpl; try done.
    + simpl in *. lia.
    + etransitivity; [done|]. by apply prefix_app_r.
    + intros d [= <-]. apply elems_empty.
  - split; simpl; try done. etransitivity; [done|]. by apply prefix_app_r.
Qed.

Lemma building_ntp s0 s l :
  building s0 s l → ntp_servers l = None →
  ∃ o s', dmlist_create dmroute_addr_t s = Some (o, s') ∧ building s0 s' (set_ntp_servers o l) ∧
    asked s s' o.
Proof.
  intros [] Hl. rewrite Hl in *. unfold dmlist_create, mbind, st_bind. rewrite ext_run.
  destruct (answer (trace s) c_list_create : bool) eqn:Ha; do 2 eexists; (split; [reflexivity|]);
    (split; [|eapply asked_call; [reflexivity|cbn [grants]; rewrite Ha; first [by eauto|done]]]).
  - split; simpl; try done.
    + simpl in *. lia.
    + etransitivity; [done|]. by apply prefix_app_r.
    + intros d [= <-]. apply elems_empty.
  - split; simpl; try done. etransitivity; [done|]. by apply prefix_app_r.
Qed.

(** A timer, for either of the two fields *)
Lemma timer_create_cases k p ms s :
  ∃ o s', dmosi_timer_create k p ms false s = Some (o, s') ∧
    mutexes s' = mutexes s ∧ lists s' = lists s ∧ blocks s' = blocks s ∧ running s' = running s ∧
    trace s `prefix_of` trace s' ∧ (next_id s ≤ next_id s')%positive ∧
    (∀ t, t ∈ timers s' ↔ o = Some t ∨ t ∈ timers s) ∧
    (∀ t, o = Some t → t = next_id s ∧ (t < next_id s')%positive) ∧ asked s s' o.
Proof.
  unfold dmosi_timer_create, mbind, st_bind. rewrite ext_run.
  destruct (answer (trace s) (c_timer_create k p ms false) : bool) eqn:Ha; do 2 eexists; (split; [reflexivity|]);
    simpl; split_and!; try done; try (by apply prefix_app_r);
    try (eapply asked_call; [reflexivity|cbn [grants]; rewrite Ha; first [by eauto|done]]).
  - lia.
  - intros t. rewrite elem_of_union, elem_of_singleton. intuition congruence.
  - intros t [= <-]. split; [done|]. lia.
  - intros t. intuition congruence.
Qed.

Lemma building_rt s0 s l p :
  building s0 s l → retransmit_timer l = None → lease_timer l = None →
  ∃ o s', dmdhcp_output_create_retransmit_timer p s = Some (o, s') ∧
    building s0 s' (set_retransmit_timer o l) ∧ asked s s' o.
Proof.
  intros [] Hl Hl'. unfold own_timer in *. rewrite Hl, Hl' in *.
  destruct (timer_create_cases retransmit_timer_kind p DMDHCP_RETRANSMIT_INITIAL_MS s)
    as (o & s' & Hrun & Hm & Hli & Hbl & Hru & Htr & Hn & Ht & Hf & HP).
  exists o, s'. split; [exact Hrun|]. split; [|exact HP]. split; unfold own_timer; simpl; rewrite ?Hl'; try done; try (intros; congruence).
  - intros t. rewrite Ht, bl_timers0. intuition congruence.
  - by etransitivity.
  - lia.
  - intros m Hlm. pose proof (bl_lock_fresh0 m Hlm). lia.
  - intros t [Ho|]; [|done]. apply Hf in Ho as [-> ?]. lia.
Qed.

Lemma building_lt s0 s l p :
  building s0 s l → lease_timer l = None →
  ∃ o s', dmdhcp_lifecycle_create_lease_timer p s = Some (o, s') ∧
    building s0 s' (set_lease_timer o l) ∧ asked s s' o.
Proof.
  intros [] Hl. unfold own_timer in *. rewrite Hl in *.
  destruct (timer_create_cases lease_timer_kind p DMDHCP_RETRANSMIT_INITIAL_MS s)
    as (o & s' & Hrun & Hm & Hli & Hbl & Hru & Htr & Hn & Ht & Hf & HP).
  exists o, s'. split; [exact Hrun|]. split; [|exact HP]. split; unfold own_timer; simpl; try done; try (intros; congruence).
  - intros t. rewrite Ht, bl_timers0. intuition congruence.
  - by etransitivity.
  - lia.
  - intros m Hlm. pose proof (bl_lock_fresh0 m Hlm). lia.
  - intros t [Ho|Ho].
    + pose proof (bl_timer_fresh0 t (or_introl Ho)). lia.
    + apply Hf in Ho as [-> ?]. lia.
  - intros t Hrt Ho. apply Hf in Ho as [-> _].
    pose proof (bl_timer_fresh0 _ (or_introl Hrt)). lia.
Qed.

(** The platform [s] has what [w] owns, and more handles. *)
Record same_resources (s s' : io) : Prop := {
  sr_mutexes : mutexes s' = mutexes s;
  sr_timers : ∀ t, t ∈ timers s' ↔ t ∈ timers s;
  sr_lists : lists s' = lists s;
  sr_blocks : blocks s' = blocks s;
  sr_running : running s' = running s;
  sr_next : (next_id s ≤ next_id s')%positive;
}.

Lemma same_resources_trans s1 s2 s3 :
  same_resources s1 s2 → same_resources s2 s3 → same_resources s1 s3.
Proof.
  intros [] []. split; try congruence; [|lia]. intros t. rewrite sr_timers1. apply sr_timers0.
Qed.

Lemma Inv_resources busy off w s' :
  Inv busy off w → same_resources (w_io w) s' → Inv busy off (set_w_io s' w).
Proof.
  intros HI [Hm Ht Hli Hbl Hr Hn]. split; simpl; rewrite ?Hm, ?Hli, ?Hbl, ?Hr; try apply HI.
  - intros p l Hp. destruct (inv_leases _ _ _ HI p l Hp) as [? ? ? [(t1&?&?) (t2&?&?)] ?].
    split; try done; [by rewrite Hm|]. split; [exists t1|exists t2]; (split; [done|]); by apply Ht.
  - intros t Hin%Ht. by apply (inv_timers _ _ _ HI).
  - destruct (inv_fresh _ _ _ HI) as (H1 & H2 & H3). split_and!.
    + intros p Hp%H1. lia.
    + intros m Hp%H2. lia.
    + intros t Hp%Ht%H3. lia.
  - intros t Hp%(inv_running _ _ _ HI). lia.
Qed.

(** *** A new object, all of whose resources could be created *)
Section New.
Context (busy off : gset positive) (w : world) (s0 s : io) (p : ptr) (l : lease) (m rt lt : handle).
Context (HI : Inv busy off w) (Hres : same_resources (w_io w) s0) (Hb : building s0 s l).
Context (Hp : (next_id (w_io w) ≤ p < next_id s0)%positive).
Context (Hm : lock l = Some m) (Hrt : retransmit_timer l = Some rt) (Hlt : lease_timer l = Some lt).

Lemma new_absent : heap w !! p = None.
Proof.
  destruct (heap w !! p) eqn:Hpe; [|done].
  destruct (inv_fresh _ _ _ HI) as (Hfp & _ & _). assert (p < next_id (w_io w))%positive by eauto. lia.
Qed.

Lemma new_lock_fresh m' : is_Some (mutexes (w_io w) !! m') → m' ≠ m.
Proof.
  intros Hm' ->. destruct (inv_fresh _ _ _ HI) as (_ & Hfm & _). apply Hfm in Hm'.
  pose proof (bl_lock_fresh _ _ _ Hb m Hm). pose proof (sr_next _ _ Hres). lia.
Qed.

Lemma new_mutexes : mutexes s = <[m := false]> (mutexes (w_io w)).
Proof. by rewrite (bl_mutexes _ _ _ Hb), Hm, (sr_mutexes _ _ Hres). Qed.

Lemma new_mutexes_old m' : is_Some (mutexes (w_io w) !! m') → mutexes s !! m' = mutexes (w_io w) !! m'.
Proof. intros Hm'. by rewrite new_mutexes, lookup_insert_ne by (apply not_eq_sym; by apply new_lock_fresh). Qed.

Lemma new_timers t : t ∈ timers s ↔ own_timer l t ∨ t ∈ timers (w_io w).
Proof. by rewrite (bl_timers _ _ _ Hb), (sr_timers _ _ Hres). Qed.

Lemma new_timer_fresh t : t ∈ timers (w_io w) → ¬ own_timer l t.
Proof.
  intros Ht Ho. destruct (inv_fresh _ _ _ HI) as (_ & _ & Hft). apply Hft in Ht.
  pose proof (bl_timer_fresh _ _ _ Hb t Ho). pose proof (sr_next _ _ Hres). lia.
Qed.

Lemma new_kept q lq : heap w !! q = Some lq → heap (put p l s w) !! q = Some lq.
Proof. intros Hq. simpl. rewrite lookup_insert_ne; [done|]. intros <-. by rewrite new_absent in Hq. Qed.

Lemma new_apart q lq : heap w !! q = Some lq → apart lq l.
Proof.
  intros Hq. destruct (inv_leases _ _ _ HI q lq Hq) as [_ _ (m' & Hm' & Hl') [(t1 & ? & ?) (t2 & ? & ?)] _]. split.
  - rewrite Hm, Hm'. intros [= ->]. by apply (new_lock_fresh m).
  - intros t Ht. apply new_timer_fresh. by destruct Ht; simplify_eq.
Qed.

Lemma new_live q lq :
  lease_typed l → magic l = DMDHCP_LEASE_MAGIC → heap (put p l s w) !! q = Some lq → lease_live s lq.
Proof.
  intros Hty Hmag [[-> ->]|[_ Hq]]%lookup_put.
  - split; try done.
    + exists m. split; [done|]. rewrite new_mutexes, lookup_insert_eq. eauto.
    + split; [exists rt|exists lt]; (split; [done|]); apply new_timers; left; [by left|by right].
    + rewrite Hrt, Hlt. rewrite <- Hlt. apply not_eq_sym. by apply (bl_distinct _ _ _ Hb).
  - destruct (inv_leases _ _ _ HI q lq Hq) as [? ? (m' & Hm' & Hl') [(t1 & ? & ?) (t2 & ? & ?)] ?].
    split; try done.
    + exists m'. split; [done|]. by rewrite new_mutexes_old.
    + split; [exists t1|exists t2]; (split; [done|]); apply new_timers; by right.
Qed.

Lemma new_pairs q lq q' lq' :
  heap (put p l s w) !! q = Some lq → heap (put p l s w) !! q' = Some lq' → q ≠ q' → apart lq lq'.
Proof.
  intros [[-> ->]|[_ Hq]]%lookup_put [[-> ->]|[_ Hq']]%lookup_put Hne; [done| | |].
  - destruct (new_apart q' lq' Hq') as [? Ho]. split; [done|]. intros t ? ?. by eapply Ho.
  - by eapply new_apart.
  - by eapply (inv_apart _ _ _ HI).
Qed.

Lemma new_mutex_owned m' b :
  (∀ m, m ∈ busy → is_Some (mutexes (w_io w) !! m)) → mutexes s !! m' = Some b →
  b = bool_decide (m' ∈ busy) ∧
  (g_leases_mutex w = Some m' ∨ ∃ q lq, heap (put p l s w) !! q = Some lq ∧ lock lq = Some m').
Proof.
  intros Hbusy. rewrite new_mutexes. destruct (decide (m' = m)) as [->|].
  - rewrite lookup_insert_eq. intros [= <-]. split.
    { symmetry. apply bool_decide_eq_false. intros Hin0%Hbusy. by apply (new_lock_fresh m). }
    right. exists p, l. by rewrite heap_put.
  - rewrite lookup_insert_ne by done. intros Hm'.
    destruct (inv_mutexes _ _ _ HI m' b Hm') as [? [?|(q & lq & Hq & ?)]]; split; auto.
    right. exists q, lq. split; [by apply new_kept|done].
Qed.

Lemma new_fresh :
  (∀ q, is_Some (heap (put p l s w) !! q) → (q < next_id s)%positive) ∧
  (∀ m', is_Some (mutexes s !! m') → (m' < next_id s)%positive) ∧
  (∀ t, t ∈ timers s → (t < next_id s)%positive).
Proof.
  destruct (inv_fresh _ _ _ HI) as (Hfp & Hfm & Hft).
  pose proof (sr_next _ _ Hres). pose proof (bl_next _ _ _ Hb). split_and!.
  - intros q [lq [[-> _]|[_ Hq]]%lookup_put]; [lia|]. assert (q < next_id (w_io w))%positive by eauto. lia.
  - intros m'. rewrite new_mutexes. destruct (decide (m' = m)) as [->|].
    + intros _. pose proof (bl_lock_fresh _ _ _ Hb m Hm). lia.
    + rewrite lookup_insert_ne by done. intros ?%Hfm. lia.
  - intros t [Ho%(bl_timer_fresh _ _ _ Hb)|Ht%Hft]%new_timers; lia.
Qed.

Lemma Inv_new d n :
  (∀ m, m ∈ busy → is_Some (mutexes (w_io w) !! m)) →
  lease_typed l → magic l = DMDHCP_LEASE_MAGIC → hostname l = None →
  dns_servers l = Some d → ntp_servers l = Some n →
  Inv busy ({[p]} ∪ off) (put p l s w).
Proof.
  intros Hbusy Hty Hmag Hh Hd Hn. split; try exact new_fresh.
  - destruct (inv_table _ _ _ HI) as (t & ? & ? & Hel). exists t. split; [done|]. split; [done|].
    intros q. rewrite Hel, elem_of_union, elem_of_singleton. simpl. destruct (decide (q = p)) as [->|].
    + rewrite new_absent, lookup_insert_eq. split; [intros [[? ?] _]; done|tauto].
    + rewrite lookup_insert_ne by done. tauto.
  - destruct (inv_table_mutex _ _ _ HI) as (gm & ? & Hgm & Hgl). exists gm. split; [done|]. split.
    + change (is_Some (mutexes s !! gm)). by rewrite new_mutexes_old.
    + intros q lq [[-> ->]|[_ Hq]]%lookup_put; [|by eapply Hgl]. rewrite Hm. intros [= <-].
      by apply (new_lock_fresh m).
  - intros q lq. by apply new_live.
  - exact new_pairs.
  - intros q lq q' lq' [[-> ->]|[_ Hq]]%lookup_put [[-> ->]|[_ Hq']]%lookup_put Ho Ho';
      rewrite ?not_elem_of_union, ?not_elem_of_singleton in Ho, Ho'; try tauto.
    by apply (inv_ifaces _ _ _ HI); try tauto.
  - intros m' b. by apply new_mutex_owned.
  - intros t [Hown|Ht]%new_timers.
    + exists p, l. by rewrite heap_put.
    + destruct (inv_timers _ _ _ HI t Ht) as (q & lq & Hq & ?). exists q, lq. split; [by apply new_kept|done].
  - intros t Ht. change (running s = Some t) in Ht. rewrite (bl_running _ _ _ Hb), (sr_running _ _ Hres) in Ht.
    apply (inv_running _ _ _ HI) in Ht. simpl. pose proof (sr_next _ _ Hres). pose proof (bl_next _ _ _ Hb). lia.
  - simpl. rewrite heap_blocks_insert by apply new_absent.
    rewrite (bl_blocks _ _ _ Hb), (sr_blocks _ _ Hres), (inv_blocks _ _ _ HI). unfold lease_blocks.
    rewrite Hd, Hn, Hh. simpl. by rewrite (bl_dns _ _ _ Hb d), (bl_ntp _ _ _ Hb n) by done.
  - simpl. rewrite (bl_lists _ _ _ Hb), Hd, Hn, (sr_lists _ _ Hres), (inv_lists _ _ _ HI),
      map_size_insert_None by apply new_absent. simpl. lia.
Qed.
End New.

(** The object [dmdhcp_lease_table_create] builds *)
Definition built (m : option handle) (dns ntp : option (dmlist dmroute_addr_t))
    (rt lt : option handle) : lease :=
  set_lease_timer lt (set_retransmit_timer rt (set_ntp_servers ntp (set_dns_servers dns
    (set_lock m lease_zero)))).

Definition created (i : iface_t) (l : lease) : lease :=
  set_magic DMDHCP_LEASE_MAGIC (set_iface i l).

Lemma building_zero s : building s s lease_zero.
Proof.
  split; try done; unfold own_timer; simpl; try lia; try (intros; intuition congruence).
Qed.

Lemma built_typed m rt lt d n :
  dmlist_elems d = [] → dmlist_elems n = [] → lease_typed (built m (Some d) (Some n) rt lt).
Proof.
  intros Hd Hn. pose proof addr_zero_v4_or_none.
  split; simpl; try done; unfold is_u32; try lia; eexists; (split; [done|]); by rewrite ?Hd, ?Hn.
Qed.

Lemma building_created i s0 s l : building s0 s l → building s0 s (created i l).
Proof. intros []. split; assumption. Qed.

Lemma created_typed i l : lease_typed l → lease_typed (created i l).
Proof. intros []. split; assumption. Qed.

Lemma asked_all {A B C F G} s s0 s1 s2 s3 s4 s5 (m : option A) (dns : option B) (ntp : option C)
    (rt : option F) (lt : option G) :
  trace s `prefix_of` trace s0 → asked s0 s1 m → asked s1 s2 dns → asked s2 s3 ntp → asked s3 s4 rt →
  asked s4 s5 lt → granted (trace s) (trace s5) →
  is_Some m ∧ is_Some dns ∧ is_Some ntp ∧ is_Some rt ∧ is_Some lt.
Proof.
  intros H0 [H1 P1] [H2 P2] [H3 P3] [H4 P4] [H5 P5] HP.
  split_and!; [apply P1|apply P2|apply P3|apply P4|apply P5]; (eapply granted_mono; [exact HP|..]);
    repeat first [done|eassumption|etransitivity; [eassumption|]].
Qed.

(** The allocations, up to the test *)
Lemma create_allocates i w :
  let s1 := log_all [c_malloc SIZEOF_LEASE] (w_io w) in
  let p := next_id (w_io w) in
  let s0 := set_next_id (Pos.succ p) s1 in
  match (answer (trace (w_io w)) (c_malloc SIZEOF_LEASE) : option (list Z)) with
  | None => dmdhcp_lease_table_create i w = Some (None, set_w_io s1 w)
  | Some _ => ∃ m dns ntp rt lt s, building s0 s (built m dns ntp rt lt) ∧
      (granted (trace (w_io w)) (trace s) → is_Some m ∧ is_Some dns ∧ is_Some ntp ∧ is_Some rt ∧ is_Some lt) ∧
      dmdhcp_lease_table_create i w =
        (if bool_decide (is_Some m) && bool_decide (is_Some dns) && bool_decide (is_Some ntp)
            && bool_decide (is_Some rt) && bool_decide (is_Some lt)
         then Some (Some p, put p (created i (built m dns ntp rt lt)) s w)
         else (dmdhcp_lease_table_destroy (Some p);; mret None) (put p (built m dns ntp rt lt) s w))
  end.
Proof.
  intros s1 p s0. unfold dmdhcp_lease_table_create, new_lease.
  rewrite w_assoc.
  rewrite (w_bind _ _ _ _ _ (wio_run _ w _ _ (ext_run (c_malloc SIZEOF_LEASE) (w_io w)))). fold s1.
  destruct (answer (trace (w_io w)) (c_malloc SIZEOF_LEASE) : option (list Z)); [|done].
  rewrite w_assoc. erewrite w_bind by (by apply wio_run; reflexivity).
  change (next_id (w_io (set_w_io s1 w))) with p. rewrite w_assoc.
  erewrite w_bind by reflexivity. rewrite w_ret_bind.
  change (set_heap _ _) with (put p lease_zero s0 w).
  destruct (building_lock s0 s0 lease_zero (building_zero s0) eq_refl) as (m & s2 & H2 & B2 & P2).
  erewrite wio_put by exact H2. erewrite with_lease_put by reflexivity.
  destruct (building_dns _ _ _ B2 eq_refl) as (dns & s3 & H3 & B3 & P3).
  erewrite wio_put by exact H3. erewrite with_lease_put by reflexivity.
  destruct (building_ntp _ _ _ B3 eq_refl) as (ntp & s4 & H4 & B4 & P4).
  erewrite wio_put by exact H4. erewrite with_lease_put by reflexivity.
  destruct (building_rt _ _ _ p B4 eq_refl eq_refl) as (rt & s5 & H5 & B5 & P5).
  erewrite wio_put by exact H5. erewrite with_lease_put by reflexivity.
  destruct (building_lt _ _ _ p B5 eq_refl) as (lt & s6 & H6 & B6 & P6).
  erewrite wio_put by exact H6. erewrite with_lease_put by reflexivity.
  exists m, dns, ntp, rt, lt, s6. split; [exact B6|]. split.
  { eapply asked_all; [|exact P2|exact P3|exact P4|exact P5|exact P6]. by apply prefix_app_r. }
  destruct (bool_decide (is_Some m) && _ && _ && _ && _); [|done].
  erewrite with_lease_put by reflexivity. by erewrite with_lease_put by reflexivity.
Qed.

Lemma freed_grows l s : trace s `prefix_of` trace (freed l s).
Proof.
  unfold freed, close_mutex, free_hostname, close_servers, close_timer.
  destruct (lock l), (hostname l), (ntp_servers l), (dns_servers l), (lease_timer l), (retransmit_timer l);
    simpl; rewrite <- ?app_assoc; first [by apply prefix_app_r|done].
Qed.

(** Giving back a partially built lease returns every resource. *)
Lemma freed_building s0 s l :
  building s0 s l → hostname l = None → (∀ m, is_Some (mutexes s0 !! m) → (m < next_id s0)%positive) →
  (∀ t, t ∈ timers s0 → (t < next_id s0)%positive) → same_resources s0 (freed l s).
Proof.
  intros HB Hh Hm0 Ht0. destruct (freed_io l s) as (Hm & Ht & Hb & Hli & Hn & Hr). destruct HB.
  split; try congruence.
  - rewrite Hm, bl_mutexes0. destruct (lock l) as [m|] eqn:Hl; simpl; [|done].
    rewrite delete_insert_eq. apply delete_id. destruct (mutexes s0 !! m) eqn:Hx; [|done].
    assert (m < next_id s0)%positive by eauto. pose proof (bl_lock_fresh0 m eq_refl). lia.
  - intros t. rewrite Ht, bl_timers0. split; [tauto|]. intros Hin. split; [by right|].
    intros Hown%bl_timer_fresh0. apply Ht0 in Hin. lia.
  - rewrite Hli, bl_lists0. lia.
  - rewrite Hb, bl_blocks0. unfold lease_blocks. rewrite Hh.
    assert (server_count (dns_servers l) = 0).
    { destruct (dns_servers l) as [d|]; simpl; [|done]. by rewrite bl_dns0. }
    assert (server_count (ntp_servers l) = 0).
    { destruct (ntp_servers l) as [d|]; simpl; [|done]. by rewrite bl_ntp0. }
    lia.
Qed.

Lemma closable_building s0 s l :
  building s0 s l → (∀ t, running s0 = Some t → (t < next_id s0)%positive) → closable l s.
Proof.
  intros [] Hr. split.
  - intros t Ht. assert (Ho : own_timer l t) by (by left). split; [apply bl_timers0; by left|].
    rewrite bl_running0. intros ?%Hr. pose proof (bl_timer_fresh0 t Ho). lia.
  - intros t Ht. assert (Ho : own_timer l t) by (by right). split; [apply bl_timers0; by left|].
    split; [|by intros ?%bl_distinct0].
    rewrite bl_running0. intros ?%Hr. pose proof (bl_timer_fresh0 t Ho). lia.
  - intros m Hm. rewrite bl_mutexes0, Hm. simpl. apply lookup_insert_eq.
Qed.

(** [dmdhcp_lease_table_create]: a fresh lease outside the table, or nothing -
    with everything that was allocated on the way given back. *)
Lemma create_anywhere busy off i w :
  Inv busy off w → (∀ m, m ∈ busy → is_Some (mutexes (w_io w) !! m)) →
  ∃ r w', dmdhcp_lease_table_create i w = Some (r, w') ∧
    match r with
    | None => ∃ s, w' = set_w_io s w ∧ same_resources (w_io w) s
    | Some p => ∃ m d n rt lt s, heap w !! p = None ∧ (next_id (w_io w) ≤ p < next_id s)%positive ∧
        w' = put p (created i (built (Some m) (Some d) (Some n) (Some rt) (Some lt))) s w ∧
        Inv busy ({[p]} ∪ off) w' ∧ running s = running (w_io w) ∧
        closable (created i (built (Some m) (Some d) (Some n) (Some rt) (Some lt))) s
    end ∧ asked (w_io w) (w_io w') r.
Proof.
  intros HI Hbusy. destruct (inv_fresh _ _ _ HI) as (Hfp & Hfm & Hft). pose proof (create_allocates i w) as HC.
  cbn zeta in HC. destruct (answer (trace (w_io w)) (c_malloc SIZEOF_LEASE) : option (list Z)) eqn:Ha.
  2:{ do 2 eexists. split; [exact HC|]. split; [eexists; split; [done|]; by split|].
      eapply (asked_call (c_malloc SIZEOF_LEASE)); [reflexivity|]. cbn [grants]. rewrite Ha. by intros [? ?]. }
  destruct HC as (m & dns & ntp & rt & lt & s & HB & HP & HC). set (p := next_id (w_io w)) in *.
  set (s0 := set_next_id (Pos.succ p) _) in *.
  assert (Hs0 : same_resources (w_io w) s0) by (split; try done; simpl; subst p; lia).
  assert (Hp : heap w !! p = None).
  { destruct (heap w !! p) eqn:Hpe; [|done]. assert (p < next_id (w_io w))%positive by eauto. lia. }
  assert (Hr0 : ∀ t, running s0 = Some t → (t < next_id s0)%positive).
  { intros t Ht%(inv_running _ _ _ HI). simpl. lia. }
  assert (Hgrow : trace (w_io w) `prefix_of` trace s).
  { etransitivity; [|exact (bl_trace _ _ _ HB)]. by apply prefix_app_r. }
  destruct (bool_decide (is_Some m) && _ && _ && _ && _) eqn:Hall.
  - do 2 eexists. split; [exact HC|]. split; [|split; [exact Hgrow|by eauto]].
    rewrite !andb_true_iff, !bool_decide_eq_true in Hall.
    destruct Hall as [[[[[m' ->] [d ->]] [n ->]] [rt' ->]] [lt' ->]].
    exists m', d, n, rt', lt', s. split; [done|].
    split; [split; [by subst p|]; pose proof (bl_next _ _ _ HB); simpl in *; lia|]. split; [done|].
    pose proof (building_created i _ _ _ HB) as HB'.
    split; [|split; [by rewrite (bl_running _ _ _ HB)|by eapply closable_building]].
    apply (Inv_new busy off w s0 s p _ m' rt' lt') with (d := d) (n := n); try done; [simpl; subst p; lia|].
    apply created_typed, built_typed;
      [exact (bl_dns _ _ _ HB d eq_refl)|exact (bl_ntp _ _ _ HB n eq_refl)].
  - assert (Hcl : closable (built m dns ntp rt lt) s) by (by eapply closable_building).
    unfold dmdhcp_lease_table_destroy, dmdhcp_lease_table_destroy_with_context in HC.
    rewrite (w_bind _ _ _ _ _ (destroy_run p _ s w Hcl)) in HC.
    do 2 eexists. split; [exact HC|]. split.
    2:{ split; [etransitivity; [exact Hgrow|apply freed_grows]|].
        intros HP'. assert (HPs : granted (trace (w_io w)) (trace s)).
        { eapply granted_mono; [exact HP'|done|]. apply freed_grows. }
        destruct (HP HPs) as (? & ? & ? & ? & ?). by rewrite !bool_decide_true in Hall. }
    exists (freed (built m dns ntp rt lt) s). split.
    + unfold gone, set_w_io, set_heap. simpl. f_equal. by apply delete_id.
    + apply (same_resources_trans _ s0); [done|]. apply freed_building; [done|done|..].
      * intros q Hq. simpl in Hq. apply Hfm in Hq. simpl. subst p. lia.
      * intros t Ht. simpl in Ht. apply Hft in Ht. simpl. subst p. lia.
Qed.
Lemma create_run i w :
  Inv ∅ ∅ w →
  ∃ r w', dmdhcp_lease_table_create i w = Some (r, w') ∧
    match r with
    | None => ∃ s, w' = set_w_io s w ∧ same_resources (w_io w) s
    | Some p => ∃ m d n rt lt s, heap w !! p = None ∧
        w' = put p (created i (built (Some m) (Some d) (Some n) (Some rt) (Some lt))) s w ∧
        Inv ∅ {[p]} w' ∧ running s = running (w_io w) ∧
        closable (created i (built (Some m) (Some d) (Some n) (Some rt) (Some lt))) s
    end ∧ asked (w_io w) (w_io w') r.
Proof.
  intros HI. destruct (create_anywhere ∅ ∅ i w HI) as (r & w' & Hrun & Hr & HP); [by intros m ?%not_elem_of_empty|].
  exists r, w'. split; [done|]. split; [|done]. destruct r as [p|]; [|done].
  destruct Hr as (m & d & n & rt & lt & s & Hp & _ & Hw & HI' & Hrest).
  exists m, d, n, rt, lt, s. rewrite union_empty_r_L in HI'. done.
Qed.
End TableFacts.
