(* ===== verification/Queries.v ===== *)
(** The read-only operations of the table: the per-lease accessors, the NTP
    snapshot [dmdhcp_get_ntp_servers], and the two visitors behind the
    discovery interfaces. *)
From S2P Require Import Prelude Types Platform Lease Output Lifecycle World Invariant LeaseTable TableFacts.

Section Queries.
Context `{E : Env} {EO : EnvOk E} `{D : DmList} {DL : DmListLaws D}.

(** [w'] is [w] after some more calls. *)
Definition logged (cs : list call) (w : world) : world := set_w_io (log_all cs (w_io w)) w.

Lemma logged_logged cs cs' w : logged cs' (logged cs w) = logged (cs ++ cs') w.
Proof. unfold logged, set_w_io. simpl. by rewrite log_all_app. Qed.

Lemma logged_nil w : logged [] w = w.
Proof. unfold logged. rewrite log_all_nil. by destruct w. Qed.

(** Reading under a mutex that is free: the section adds its calls and nothing
    else. *)
Lemma lock_read {B} p l m w (k : unit → M B) :
  heap w !! p = Some l → lock l = Some m → mutexes (w_io w) !! m = Some false →
  (lock_lease p ≫= k) w = k tt (set_w_io (grab m (w_io w)) w).
Proof.
  intros Hp Hl Hm. rewrite <- (put_id p l w) at 1 by done. rewrite (lock_put _ _ _ _ m) by done.
  by rewrite put_io.
Qed.

Lemma unlock_read {B} p l m w cs (k : unit → M B) :
  heap w !! p = Some l → lock l = Some m → mutexes (w_io w) !! m = Some false →
  (unlock_lease p ≫= k) (logged cs (set_w_io (grab m (w_io w)) w)) = k tt (logged (section_calls m cs) w).
Proof.
  intros Hp Hl Hm. set (w1 := logged cs _).
  assert (Hw1 : heap w1 !! p = Some l) by done.
  rewrite <- (put_id p l w1) at 1 by done. rewrite (unlock_put _ _ _ _ m) by (done || apply mutexes_grab).
  f_equal. rewrite put_io by done. unfold w1, logged, set_w_io. simpl. f_equal. by apply release_grab.
Qed.

Lemma load_read {B} p l w (k : lease → M B) : heap w !! p = Some l → (load p ≫= k) w = k l w.
Proof. intros Hp. apply w_bind. unfold load. by rewrite Hp. Qed.

(** ** Accessors *)
Lemma handle_read {B} p l w (k : bool → M B) :
  heap w !! p = Some l → magic l = DMDHCP_LEASE_MAGIC → (bad_handle (Some p) ≫= k) w = k false w.
Proof. intros Hp Hm. rewrite <- (put_id p l w) by done. by rewrite handle_put. Qed.

Lemma locked_read_run {A} w p l m (bad : A) (f : lease → A) :
  Inv ∅ ∅ w → heap w !! p = Some l → lock l = Some m →
  locked_read (Some p) bad f w = Some (f l, logged [c_mutex_lock m; c_mutex_unlock m] w).
Proof.
  intros HI Hp Hl. pose proof (inv_leases _ _ _ HI p l Hp) as [Hmag _ (m' & Hm' & [b Hb]) _ _].
  simplify_eq. destruct (inv_mutexes _ _ _ HI _ _ Hb) as [-> _].
  unfold locked_read. rewrite (handle_read _ l) by done. rewrite (lock_read _ l m) by done.
  rewrite (load_read _ l) by done.
  rewrite <- (logged_nil (set_w_io (grab m (w_io w)) w)).
  by rewrite (unlock_read _ l m).
Qed.

(** ** A whole table that can be read *)
Record readable (w : world) (t : dmlist ptr) : Prop := {
  rd_table : g_leases w = Some t;
  rd_leases : ∀ p, p ∈ dmlist_elems t → ∃ l m, heap w !! p = Some l ∧ magic l = DMDHCP_LEASE_MAGIC ∧
    lease_typed l ∧ lock l = Some m ∧ mutexes (w_io w) !! m = Some false;
}.

Lemma readable_logged cs w t : readable w t → readable (logged cs w) t.
Proof. intros []. by split. Qed.

Lemma readable_inv w t gm :
  Inv ∅ ∅ w → g_leases w = Some t → g_leases_mutex w = Some gm →
  readable (set_w_io (grab gm (w_io w)) w) t.
Proof.
  intros HI Ht Hg. split; [done|]. intros p Hp.
  destruct (inv_table _ _ _ HI) as (t' & Ht' & _ & Hel). simplify_eq.
  apply Hel in Hp as [[l Hl] _]. destruct (inv_leases _ _ _ HI p l Hl) as [? ? (m & Hm & [b Hb]) _ _].
  exists l, m. split; [done|]. split; [done|]. split; [done|]. split; [done|].
  destruct (inv_table_mutex _ _ _ HI) as (gm' & ? & _ & Hne). simplify_eq. simpl.
  rewrite lookup_insert_ne; [|intros ->; by eapply Hne].
  rewrite Hb. f_equal. by destruct (inv_mutexes _ _ _ HI _ _ Hb) as [-> _].
Qed.

(** What a valid lease reports *)
Definition servers_of (f : lease → option (dmlist dmroute_addr_t)) (w : world) (p : ptr) : list dmroute_addr_t :=
  match heap w !! p with
  | Some l => if holds_valid_lease l then from_option dmlist_elems [] (f l) else []
  | None => []
  end.

(** ** The NTP snapshot *)
Lemma copy_servers_run (l : dmlist dmroute_addr_t) max n j pre rest :
  (j + n = length (dmlist_elems l))%nat → (length pre ≤ max ≤ length (pre ++ rest))%nat →
  let xs := take (max - length pre) (drop j (dmlist_elems l)) in
  copy_servers n j l (pre ++ rest) (length pre) max
  = Some (pre ++ xs ++ drop (length xs) rest, (length pre + length xs)%nat).
Proof.
  revert j pre rest. induction n as [|n IH]; intros j pre rest Hj Hm; cbn [copy_servers]; cbn zeta.
  { rewrite (drop_ge (dmlist_elems l)) by lia. rewrite take_nil. simpl. by rewrite Nat.add_0_r. }
  destruct (Nat.ltb_spec (length pre) max) as [Hlt|Hge].
  2:{ replace (max - length pre)%nat with 0%nat by lia. simpl. by rewrite Nat.add_0_r. }
  rewrite elems_get. destruct (dmlist_elems l !! j) as [a|] eqn:Ha.
  2:{ apply lookup_ge_None in Ha. lia. }
  rewrite length_app in *. destruct rest as [|r rest]; simpl in Hm; [lia|].
  destruct (Nat.ltb_spec (length pre) (length pre + length (r :: rest))) as [_|]; [|simpl in *; lia].
  rewrite insert_app_r_alt, Nat.sub_diag by lia. cbn [list_insert insert].
  pose proof (IH (S j) (pre ++ [a]) rest) as IH'. rewrite <- !app_assoc in IH'. cbn [app] in IH'.
  rewrite !length_app in IH'. cbn [length] in IH'. rewrite Nat.add_1_r in IH'.
  rewrite IH' by lia. clear IH IH'.
  rewrite (drop_S _ _ _ Ha). replace (max - length pre)%nat with (S (max - S (length pre))) by lia.
  cbn [take length drop]. rewrite <- app_assoc. do 2 f_equal. lia.
Qed.

(** The mutex calls of a walk over the entries [ps], lease by lease *)
Definition lock_of (w : world) (p : ptr) : list call :=
  match heap w !! p with
  | Some l => match lock l with Some m => [c_mutex_lock m; c_mutex_unlock m] | None => [] end
  | None => []
  end.

Lemma lock_of_logged cs w p : lock_of (logged cs w) p = lock_of w p.
Proof. done. Qed.

Lemma flat_map_drop_S {A B} (f : A → list B) (l : list A) i x :
  l !! i = Some x → flat_map f (drop i l) = f x ++ flat_map f (drop (S i) l).
Proof. intros Hx. by rewrite (drop_S _ _ _ Hx). Qed.

Lemma ntp_servers_loop_run w t max fuel i pre rest :
  readable w t → (length (dmlist_elems t) - i < fuel)%nat →
  (length pre ≤ max ≤ length (pre ++ rest))%nat →
  let xs := take (max - length pre) (flat_map (servers_of ntp_servers w) (drop i (dmlist_elems t))) in
  ∃ cs, ntp_servers_loop fuel i (pre ++ rest) (length pre) max w
    = Some ((pre ++ xs ++ drop (length xs) rest, (length pre + length xs)%nat), logged cs w).
Proof.
  revert w i pre rest. induction fuel as [|fuel IH]; intros w i pre rest Hw Hf Hm; cbn zeta; [lia|].
  cbn [ntp_servers_loop]. rewrite (w_bind _ _ _ _ _ (the_leases_run t w (rd_table _ _ Hw))).
  rewrite elems_size.
  destruct (Nat.ltb_spec i (length (dmlist_elems t))) as [Hi|Hi]; cbn [andb].
  2:{ exists []. rewrite logged_nil, (drop_ge (dmlist_elems t)) by lia. simpl. rewrite take_nil. simpl.
      by rewrite Nat.add_0_r. }
  destruct (Nat.ltb_spec (length pre) max) as [Hlt|Hge].
  2:{ exists []. rewrite logged_nil. replace (max - length pre)%nat with 0%nat by lia. simpl.
      by rewrite Nat.add_0_r. }
  rewrite elems_get. destruct (lookup_lt_is_Some_2 _ _ Hi) as [p Hp]. rewrite Hp.
  destruct (rd_leases _ _ Hw p (list_elem_of_lookup_2 _ _ _ Hp)) as (l & m & Hl & Hmag & Hty & Hlk & Hmx).
  rewrite (load_read _ l) by done. rewrite Hmag, Z.eqb_refl. cbn [negb].
  rewrite (lock_read _ l m) by done. rewrite (load_read _ l) by done.
  rewrite (flat_map_drop_S _ _ _ _ Hp).
  set (ys := servers_of ntp_servers w p).
  assert (Hcopy : ∀ k : list dmroute_addr_t * nat → M (list dmroute_addr_t * nat),
    let zs := take (max - length pre) ys in
    ((if holds_valid_lease l then
        servers ← st_opt (ntp_servers l);
        st_opt (copy_servers (dmlist_size servers) 0 servers (pre ++ rest) (length pre) max)
      else mret (pre ++ rest, length pre)) ≫= k) (set_w_io (grab m (w_io w)) w)
    = k (pre ++ zs ++ drop (length zs) rest, (length pre + length zs)%nat) (set_w_io (grab m (w_io w)) w)).
  { intros k. unfold ys, servers_of. rewrite Hl. destruct (holds_valid_lease l).
    - destruct (lt_ntp _ Hty) as (d & Hd & _). rewrite Hd. unfold mbind, st_bind, st_opt.
      rewrite elems_size, (copy_servers_run d max _ 0 pre rest) by lia. done.
    - rewrite take_nil. simpl. by rewrite Nat.add_0_r. }
  rewrite Hcopy. clear Hcopy. cbv zeta. set (zs := take (max - length pre) ys).
  rewrite <- (logged_nil (set_w_io (grab m (w_io w)) w)).
  rewrite (unlock_read _ l m) by done. cbn [fst snd].
  assert (Hz : (length zs = (max - length pre) `min` length ys)%nat) by apply length_take.
  rewrite length_app in Hm.
  destruct (IH (logged (section_calls m []) w) (S i) (pre ++ zs) (drop (length zs) rest)) as (cs & Hrun).
  - by apply readable_logged.
  - lia.
  - rewrite !length_app, length_drop. lia.
  - rewrite length_app, <- app_assoc in Hrun. rewrite Hrun. exists (section_calls m [] ++ cs).
    rewrite logged_logged. do 2 f_equal.
    change (servers_of ntp_servers (logged _ w)) with (servers_of ntp_servers w).
    set (us := flat_map _ (drop (S i) _)).
    assert (Htake : take (max - length pre) (ys ++ us) = zs ++ take (max - (length pre + length zs)) us).
    { unfold zs. rewrite take_app. do 2 f_equal. rewrite length_take. lia. }
    rewrite Htake, drop_drop, length_app, <- !app_assoc, Nat.add_assoc. done.
Qed.

(** ** The visitors *)
Lemma visit_dns_loop_run n j (l : dmlist dmroute_addr_t) f ctx w :
  (j + n = length (dmlist_elems l))%nat →
  visit_dns_loop n j l f ctx w
  = Some (tt, logged (c_visit_dns f ctx <$> drop j (dmlist_elems l)) w).
Proof.
  revert j w. induction n as [|n IH]; intros j w Hj; cbn [visit_dns_loop].
  { rewrite drop_ge by lia. by rewrite logged_nil. }
  rewrite elems_get. destruct (dmlist_elems l !! j) as [a|] eqn:Ha; [|apply lookup_ge_None in Ha; lia].
  rewrite (w_bind _ _ _ _ _ (wio_run _ w _ _ (ext_run (c_visit_dns f ctx a) (w_io w)))).
  fold (logged [c_visit_dns f ctx a] w). rewrite IH by lia.
  by rewrite logged_logged, (drop_S _ _ _ Ha).
Qed.

(** The calls of a DNS walk, lease by lease *)
Definition dns_walk (f ctx : Z) (w : world) (p : ptr) : list call :=
  match heap w !! p with
  | Some l => match lock l with
              | Some m => section_calls m (c_visit_dns f ctx <$> servers_of dns_servers w p)
              | None => []
              end
  | None => []
  end.

Lemma visit_lease_dns_run w p l f ctx :
  heap w !! p = Some l → lease_typed l →
  visit_lease_dns_servers p f ctx w
  = Some (tt, logged (c_visit_dns f ctx <$> servers_of dns_servers w p) w).
Proof.
  intros Hl Hty. unfold visit_lease_dns_servers, servers_of. rewrite (load_read _ l) by done. rewrite Hl.
  destruct (holds_valid_lease l); cbn [negb]; [|by rewrite logged_nil].
  destruct (lt_dns _ Hty) as (d & Hd & _). rewrite Hd, w_opt_bind, elems_size.
  by rewrite visit_dns_loop_run by done.
Qed.

Lemma visit_dns_leases_run w t n i f ctx :
  readable w t → (i + n = length (dmlist_elems t))%nat →
  visit_dns_leases n i f ctx w
  = Some (tt, logged (flat_map (dns_walk f ctx w) (drop i (dmlist_elems t))) w).
Proof.
  revert w i. induction n as [|n IH]; intros w i Hw Hi; cbn [visit_dns_leases].
  { rewrite drop_ge by lia. by rewrite logged_nil. }
  rewrite (w_bind _ _ _ _ _ (the_leases_run t w (rd_table _ _ Hw))), elems_get.
  destruct (lookup_lt_is_Some_2 (dmlist_elems t) i) as [p Hp]; [lia|]. rewrite Hp.
  destruct (rd_leases _ _ Hw p (list_elem_of_lookup_2 _ _ _ Hp)) as (l & m & Hl & Hmag & Hty & Hlk & Hmx).
  rewrite (load_read _ l) by done. rewrite Hmag, Z.eqb_refl. cbn [negb].
  rewrite (lock_read _ l m) by done.
  rewrite (w_bind _ _ _ _ _ (visit_lease_dns_run (set_w_io (grab m (w_io w)) w) p l f ctx Hl Hty)).
  rewrite (unlock_read _ l m) by done. rewrite IH by (try apply readable_logged; done || lia).
  rewrite logged_logged, (flat_map_drop_S _ _ _ _ Hp). do 3 f_equal.
  unfold dns_walk at 2. by rewrite Hl, Hlk.
Qed.

(** What the NTP visitor is called on in one lease: the IPv4 servers in order,
    up to and including the first it answers non-zero to *)
Fixpoint ntp_visits (h : list call) (f ctx : Z) (servers : list dmroute_addr_t) : list call :=
  match servers with
  | [] => []
  | a :: servers =>
      if is_v4 a then
        let c := c_visit_ntp f ctx (v4 a) in
        if answer h c =? 0 then c :: ntp_visits (h ++ [c]) f ctx servers else [c]
      else ntp_visits h f ctx servers
  end.

Lemma visit_ntp_loop_run n j (l : dmlist dmroute_addr_t) f ctx w :
  (j + n = length (dmlist_elems l))%nat →
  visit_ntp_loop n j l f ctx w
  = Some (tt, logged (ntp_visits (trace (w_io w)) f ctx (drop j (dmlist_elems l))) w).
Proof.
  revert j w. induction n as [|n IH]; intros j w Hj; cbn [visit_ntp_loop].
  { rewrite drop_ge by lia. by rewrite logged_nil. }
  rewrite elems_get. destruct (dmlist_elems l !! j) as [a|] eqn:Ha; [|apply lookup_ge_None in Ha; lia].
  rewrite (drop_S _ _ _ Ha). cbn [ntp_visits]. destruct (is_v4 a); [|by apply IH; lia].
  rewrite (w_bind _ _ _ _ _ (wio_run _ w _ _ (ext_run (c_visit_ntp f ctx (v4 a)) (w_io w)))).
  fold (logged [c_visit_ntp f ctx (v4 a)] w).
  destruct (answer (trace (w_io w)) (c_visit_ntp f ctx (v4 a)) =? 0); cbn [negb]; [|done].
  rewrite IH by lia. by rewrite logged_logged.
Qed.

(** The calls of an NTP walk; [h] is the trace before it. *)
Fixpoint ntp_walk (h : list call) (f ctx : Z) (w : world) (ps : list ptr) : list call :=
  match ps with
  | [] => []
  | p :: ps =>
      let here := match heap w !! p with
        | Some l => match lock l with
            | Some m => section_calls m (ntp_visits (h ++ [c_mutex_lock m]) f ctx (servers_of ntp_servers w p))
            | None => []
            end
        | None => []
        end in
      here ++ ntp_walk (h ++ here) f ctx w ps
  end.

Lemma ntp_walk_io s h f ctx w ps : ntp_walk h f ctx (set_w_io s w) ps = ntp_walk h f ctx w ps.
Proof. revert h. induction ps as [|p ps IH]; intros h; [done|]. cbn [ntp_walk]. by rewrite IH. Qed.

Lemma visit_ntp_leases_run w t n i f ctx :
  readable w t → (i + n = length (dmlist_elems t))%nat →
  visit_ntp_leases n i f ctx w
  = Some (tt, logged (ntp_walk (trace (w_io w)) f ctx w (drop i (dmlist_elems t))) w).
Proof.
  revert w i. induction n as [|n IH]; intros w i Hw Hi; cbn [visit_ntp_leases].
  { rewrite drop_ge by lia. by rewrite logged_nil. }
  rewrite (w_bind _ _ _ _ _ (the_leases_run t w (rd_table _ _ Hw))), elems_get.
  destruct (lookup_lt_is_Some_2 (dmlist_elems t) i) as [p Hp]; [lia|]. rewrite Hp.
  destruct (rd_leases _ _ Hw p (list_elem_of_lookup_2 _ _ _ Hp)) as (l & m & Hl & Hmag & Hty & Hlk & Hmx).
  rewrite (load_read _ l) by done. rewrite Hmag, Z.eqb_refl. cbn [negb].
  rewrite (lock_read _ l m) by done. rewrite (load_read _ l) by done.
  set (w1 := set_w_io (grab m (w_io w)) w).
  assert (Hv : (if holds_valid_lease l then
      servers ← st_opt (ntp_servers l);
      visit_ntp_loop (dmlist_size servers) 0 servers f ctx else mret tt) w1
    = Some (tt, logged (ntp_visits (trace (w_io w) ++ [c_mutex_lock m]) f ctx (servers_of ntp_servers w p)) w1)).
  { unfold servers_of. rewrite Hl. destruct (holds_valid_lease l); [|by rewrite logged_nil].
    destruct (lt_ntp _ Hty) as (d & Hd & _). rewrite Hd, w_opt_bind, elems_size.
    by rewrite visit_ntp_loop_run by done. }
  rewrite (w_bind _ _ _ _ _ Hv). subst w1. rewrite (unlock_read _ l m) by done.
  rewrite IH by (try apply readable_logged; done || lia).
  rewrite logged_logged, (drop_S _ _ _ Hp). cbn [ntp_walk]. rewrite Hl, Hlk.
  unfold logged. by rewrite ntp_walk_io.
Qed.

(** Under the table mutex *)
Lemma under_table {A B} w t gm (m : M A) (k : A → M B) cs a :
  Inv ∅ ∅ w → g_leases w = Some t → g_leases_mutex w = Some gm →
  m (set_w_io (grab gm (w_io w)) w) = Some (a, logged cs (set_w_io (grab gm (w_io w)) w)) →
  (lock_table;; r ← m; unlock_table;; k r) w = k a (logged (section_calls gm cs) w).
Proof.
  intros HI Ht Hg Hm. destruct (table_mutex _ _ HI) as (gm' & Hg' & Hf). simplify_eq.
  rewrite (w_bind _ _ _ _ _ (lock_table_run _ _ Hg Hf)), (w_bind _ _ _ _ _ Hm).
  assert (Hu : unlock_table (logged cs (set_w_io (grab gm (w_io w)) w))
    = Some (tt, logged (section_calls gm cs) w)).
  { rewrite (unlock_table_run gm) by (done || apply mutexes_grab). do 2 f_equal.
    unfold logged, set_w_io. simpl. f_equal. by apply release_grab. }
  by rewrite (w_bind _ _ _ _ _ Hu).
Qed.

Lemma bind_ret_tt (m : M unit) w : (m;; mret tt) w = m w.
Proof. unfold mbind, st_bind. by destruct (m w) as [[[] ?]|]. Qed.

Lemma is_v4_eta b : is_v4 b = true → Addr dmroute_family_v4 (v4 b) = b.
Proof. by destruct b as [[] ?]. Qed.

Lemma ntp_visits_in h f ctx servers a :
  c_visit_ntp f ctx a ∈ ntp_visits h f ctx servers → ∃ b, b ∈ servers ∧ is_v4 b = true ∧ a = v4 b.
Proof.
  revert h. induction servers as [|b servers IH]; intros h; cbn [ntp_visits]; [by rewrite elem_of_nil|].
  destruct (is_v4 b) eqn:Hb.
  - cbn zeta. destruct (_ =? 0); rewrite ?elem_of_cons, ?elem_of_nil.
    + intros [[= ->]|(b' & ? & ? & ?)%IH]; [|exists b'; rewrite elem_of_cons; by auto].
      exists b. by rewrite elem_of_cons; auto.
    + intros [[= ->]|[]]. exists b. by rewrite elem_of_cons; auto.
  - intros (b' & ? & ? & ?)%IH. exists b'. rewrite elem_of_cons. auto.
Qed.

(** ** The whole calls *)
Lemma get_ntp_servers_run w t out max_count :
  Inv ∅ ∅ w → g_leases w = Some t → (max_count ≤ length out)%nat →
  let all := flat_map (servers_of ntp_servers w) (dmlist_elems t) in
  let n := (max_count `min` length all)%nat in
  ∃ cs, dmdhcp_get_ntp_servers (Some out) max_count w =
    if (max_count =? 0)%nat then Some ((- EINVAL, Some out), w)
    else Some ((i32 (Z.of_nat n), Some (take n all ++ drop n out)), logged cs w).
Proof.
  intros HI Ht Hmax. cbn zeta. unfold dmdhcp_get_ntp_servers.
  destruct (Nat.eqb_spec max_count 0) as [->|Hne]; [by exists []; rewrite ?logged_nil|].
  destruct (table_mutex _ _ HI) as (gm & Hg & _).
  set (w1 := set_w_io (grab gm (w_io w)) w).
  pose proof (readable_inv w t gm HI Ht Hg) as Hrd.
  destruct (ntp_servers_loop_run w1 t max_count (S (length (dmlist_elems t))) 0 [] out Hrd)
    as (cs & Hrun); [lia|simpl; lia|].
  cbn [app length drop] in Hrun. rewrite Nat.sub_0_r in Hrun.
  exists (section_calls gm cs).
  change (flat_map (servers_of ntp_servers w1)) with (flat_map (servers_of ntp_servers w)) in Hrun.
  rewrite drop_0, length_take in Hrun. set (all := flat_map _ _) in *.
  assert (Hbody : (t ← the_leases; ntp_servers_loop (S (dmlist_size t)) 0 out 0 max_count : M _) w1
    = Some ((take max_count all ++ drop (max_count `min` length all) out, (max_count `min` length all)%nat),
            logged cs w1)).
  { erewrite w_bind by (by apply the_leases_run). by rewrite elems_size. }
  transitivity ((lock_table;; r ← (t ← the_leases; ntp_servers_loop (S (dmlist_size t)) 0 out 0 max_count : M _);
    unlock_table;; mret (i32 (Z.of_nat r.2), Some r.1)) w).
  { apply w_ext; intros ? ?. by rewrite w_assoc. }
  rewrite (under_table w t gm _ _ cs _ HI Ht Hg Hbody). cbn [fst snd].
  unfold mret, st_ret. do 5 f_equal.
  destruct (Nat.leb_spec max_count (length all)).
  - by rewrite Nat.min_l by lia.
  - rewrite Nat.min_r by lia. by rewrite !take_ge by lia.
Qed.

Lemma provide_dns_run w t gm f ctx :
  Inv ∅ ∅ w → g_leases w = Some t → g_leases_mutex w = Some gm →
  dmdhcp_dmdns_provide_servers (Some f) ctx w
  = Some (tt, logged (section_calls gm (flat_map (dns_walk f ctx w) (dmlist_elems t))) w).
Proof.
  intros HI Ht Hg.
  unfold dmdhcp_dmdns_provide_servers, dmdhcp_lease_table_visit_dns_servers.
  erewrite w_bind by (unfold getw; reflexivity). rewrite Hg.
  set (w1 := set_w_io (grab gm (w_io w)) w).
  pose proof (readable_inv w t gm HI Ht Hg) as Hrd.
  pose proof (visit_dns_leases_run w1 t (length (dmlist_elems t)) 0 f ctx Hrd eq_refl) as Hrun.
  assert (Hbody : (t ← the_leases; visit_dns_leases (dmlist_size t) 0 f ctx : M _) w1
    = Some (tt, logged (flat_map (dns_walk f ctx w1) (dmlist_elems t)) w1)).
  { erewrite w_bind by (by apply the_leases_run). by rewrite elems_size. }
  transitivity ((lock_table;; r ← (t ← the_leases; visit_dns_leases (dmlist_size t) 0 f ctx : M _);
    unlock_table;; mret tt) w).
  { apply w_ext; intros ? ?. rewrite w_assoc. apply w_ext; intros ? ?. apply w_ext; intros ? ?.
    symmetry. apply (bind_ret_tt unlock_table). }
  by rewrite (under_table w t gm _ _ _ _ HI Ht Hg Hbody).
Qed.

Lemma provide_ntp_run w t gm f ctx :
  Inv ∅ ∅ w → g_leases w = Some t → g_leases_mutex w = Some gm →
  dmdhcp_dmntp_provide_servers (Some f) ctx w = Some (tt, logged (section_calls gm
    (ntp_walk (trace (w_io w) ++ [c_mutex_lock gm]) f ctx w (dmlist_elems t))) w).
Proof.
  intros HI Ht Hg.
  unfold dmdhcp_dmntp_provide_servers, dmdhcp_lease_table_visit_ntp_servers.
  set (w1 := set_w_io (grab gm (w_io w)) w).
  pose proof (readable_inv w t gm HI Ht Hg) as Hrd.
  pose proof (visit_ntp_leases_run w1 t (length (dmlist_elems t)) 0 f ctx Hrd eq_refl) as Hrun.
  assert (Hbody : (t ← the_leases; visit_ntp_leases (dmlist_size t) 0 f ctx : M _) w1
    = Some (tt, logged (ntp_walk (trace (w_io w1)) f ctx w1 (dmlist_elems t)) w1)).
  { erewrite w_bind by (by apply the_leases_run). by rewrite elems_size. }
  transitivity ((lock_table;; r ← (t ← the_leases; visit_ntp_leases (dmlist_size t) 0 f ctx : M _);
    unlock_table;; mret tt) w).
  { apply w_ext; intros ? ?. rewrite w_assoc. apply w_ext; intros ? ?. apply w_ext; intros ? ?.
    symmetry. apply (bind_ret_tt unlock_table). }
  rewrite (under_table w t gm _ _ _ _ HI Ht Hg Hbody). unfold w1. by rewrite ntp_walk_io.
Qed.

(** ** Properties *)

(** C35: [dmdhcp_get_ntp_servers] returns a consistent, bounded snapshot: the
    NTP servers of exactly the leases that are BOUND, RENEWING or REBINDING, in
    table order, cut to [max_count]; it returns how many it wrote, as an [int] -
    the number itself up to INT_MAX, wrapped above -, leaves the rest of the
    caller's array alone, never writes past [max_count], and changes nothing of
    the program (every mutex taken is released).  NULL or a zero count is
    [-EINVAL]. *)
Theorem get_ntp_servers_snapshot w t out max_count :
  Inv ∅ ∅ w → g_leases w = Some t → (max_count ≤ length out)%nat →
  dmdhcp_get_ntp_servers None max_count w = Some ((- EINVAL, None), w) ∧
  let all := flat_map (servers_of ntp_servers w) (dmlist_elems t) in
  let n := (max_count `min` length all)%nat in
  ∃ cs, dmdhcp_get_ntp_servers (Some out) max_count w =
      (if (max_count =? 0)%nat then Some ((- EINVAL, Some out), w)
       else Some ((i32 (Z.of_nat n), Some (take n all ++ drop n out)), logged cs w)) ∧
  (Z.of_nat n ≤ 2147483647 → i32 (Z.of_nat n) = Z.of_nat n).
Proof.
  intros HI Ht Hmax. split; [done|]. cbv zeta.
  destruct (get_ntp_servers_run w t out max_count HI Ht Hmax) as [cs Hrun]. exists cs. split; [exact Hrun|].
  intros Hn. apply i32_id. lia.
Qed.

(** C36: the DNS servers reported to dmdns are exactly those of the leases
    that are valid at that moment, lease by lease in table order, each lease
    read under its own mutex and the table under its own; nothing is reported
    when the module is not initialised or no sink is given, and the program's
    state does not change. *)
Theorem provide_dns_servers w t gm f ctx :
  Inv ∅ ∅ w → g_leases w = Some t → g_leases_mutex w = Some gm →
  dmdhcp_dmdns_provide_servers (Some f) ctx w
  = Some (tt, logged (section_calls gm (flat_map (dns_walk f ctx w) (dmlist_elems t))) w) ∧
  dmdhcp_dmdns_provide_servers None ctx w = Some (tt, w) ∧
  ∀ w0, g_leases_mutex w0 = None → dmdhcp_dmdns_provide_servers (Some f) ctx w0 = Some (tt, w0).
Proof.
  intros HI Ht Hg. split; [by apply provide_dns_run|]. split; [done|].
  intros w0 H0. unfold dmdhcp_dmdns_provide_servers, dmdhcp_lease_table_visit_dns_servers.
  erewrite w_bind by (unfold getw; reflexivity). by rewrite H0.
Qed.

(** C37: the NTP servers reported to dmntp are IPv4 servers of valid leases
    only, in table order.  A non-zero answer of the sink ends the walk of the
    current lease, not the walk: the next valid lease is still reported. *)
Theorem provide_ntp_servers w t gm f ctx :
  Inv ∅ ∅ w → g_leases w = Some t → g_leases_mutex w = Some gm →
  let calls := section_calls gm (ntp_walk (trace (w_io w) ++ [c_mutex_lock gm]) f ctx w (dmlist_elems t)) in
  dmdhcp_dmntp_provide_servers (Some f) ctx w = Some (tt, logged calls w) ∧
  dmdhcp_dmntp_provide_servers None ctx w = Some (tt, w) ∧
  ∀ a, c_visit_ntp f ctx a ∈ calls →
    ∃ p l s, heap w !! p = Some l ∧ holds_valid_lease l = true ∧ ntp_servers l = Some s ∧
      Addr dmroute_family_v4 a ∈ dmlist_elems s.
Proof.
  intros HI Ht Hg calls. split; [by apply provide_ntp_run|]. split; [done|].
  intros a. unfold calls, section_calls. rewrite elem_of_cons, elem_of_app, list_elem_of_singleton.
  intros [?|[Hin|?]]; [done| |done]. revert Hin. generalize (trace (w_io w) ++ [c_mutex_lock gm]).
  induction (dmlist_elems t) as [|p ps IH]; intros h; cbn [ntp_walk]; [by rewrite elem_of_nil|].
  rewrite elem_of_app. intros [Hin|Hin]; [|by eapply IH].
  destruct (heap w !! p) as [l|] eqn:Hl; [|by rewrite elem_of_nil in Hin].
  destruct (lock l) as [m|]; [|by rewrite elem_of_nil in Hin].
  unfold section_calls in Hin. rewrite elem_of_cons, elem_of_app, list_elem_of_singleton in Hin.
  destruct Hin as [?|[Hin|?]]; [done| |done]. apply ntp_visits_in in Hin as (b & Hb & Hv & ->).
  unfold servers_of in Hb. rewrite Hl in Hb. destruct (holds_valid_lease l) eqn:Hval; [|by rewrite elem_of_nil in Hb].
  destruct (ntp_servers l) as [s|] eqn:Hs; simpl in Hb; [|by rewrite elem_of_nil in Hb].
  exists p, l, s. split_and!; try done. by rewrite (is_v4_eta b Hv).
Qed.
End Queries.
