(* ===== verification/Timers.v ===== *)
(** The two timer callbacks: [retransmit_timer_callback] and the conflict
    probe of [src/dmdhcp_output.c], [lease_timer_callback] and
    [dmdhcp_lifecycle_handle_lost] of [src/dmdhcp_lifecycle.c].

    These functions take and release the lease lock themselves, because they
    call the application back. *)
From S2P Require Import Prelude Types Platform Lease Output Lifecycle World Invariant.

Section Timers.
Context `{E : Env} `{D : DmList} `{C : !Client}.

Definition discard {A} (m : lop A) : lop unit := m;; mret tt.

Definition handle_conflict (p : ptr) : M unit :=
  with_lease p send_decline;;
  l ← load p;
  with_lease p (setl (set_decline_retry_count (u32 (decline_retry_count l + 1))));;
  l ← load p;
  if DMDHCP_MAX_DECLINE_RETRIES <? decline_retry_count l then
    with_lease p (setl (set_state dmdhcp_state_failed));;
    l ← load p;
    let fn := on_error (callbacks l) in
    let ud := user_data l in
    unlock_lease p;;
    invoke fn (λ f, c_on_error f p (- EADDRINUSE) ud);;
    lock_lease p
  else
    with_lease p (setl (set_state dmdhcp_state_declining));;
    with_lease p (arm_retransmit DMDHCP_DECLINE_PAUSE_MS).

Definition run_conflict_probe (p : ptr) : M unit :=
  l ← load p;
  r ← wio (dmarp_resolve (iface l) (offered_ip l) DMDHCP_ARP_PROBE_TIMEOUT_MS);
  if r =? 0 then handle_conflict p else
  l ← load p;
  if bool_decide (state l = dmdhcp_state_checking_offer) then
    with_lease p send_request_selecting;;
    with_lease p (setl (set_state dmdhcp_state_requesting));;
    with_lease p (setl (set_retransmit_count 0));;
    with_lease p (setl (set_retransmit_interval_ms DMDHCP_RETRANSMIT_INITIAL_MS));;
    with_lease p (ms ← getl retransmit_interval_ms; arm_retransmit ms)
  else
    with_lease p dmdhcp_lifecycle_apply;;
    with_lease p (setl (set_state dmdhcp_state_bound));;
    with_lease p (setl (set_decline_retry_count 0));;
    with_lease p dmdhcp_lifecycle_arm_t1;;
    l ← load p;
    let fn := on_bound (callbacks l) in
    let ud := user_data l in
    unlock_lease p;;
    invoke fn (λ f, c_on_bound f p false ud);;
    lock_lease p.

Definition retransmit_timer_callback (h : option ptr) : M unit :=
  b ← bad_handle h;
  match h with
  | None => mret tt
  | Some p =>
      if b : bool then mret tt else
      lock_lease p;;
      l ← load p;
      match state l with
      | dmdhcp_state_selecting =>
          with_lease p (discard send_discover);;
          with_lease p rearm_backoff
      | dmdhcp_state_requesting | dmdhcp_state_rebooting =>
          with_lease p (setl (set_retransmit_count (u32 (retransmit_count l + 1))));;
          l ← load p;
          if DMDHCP_MAX_REQUEST_RETRANSMITS <? retransmit_count l then
            with_lease p dmdhcp_output_start_discovery
          else
            (if bool_decide (state l = dmdhcp_state_requesting)
             then with_lease p (discard send_request_selecting)
             else with_lease p (discard send_request_reboot));;
            with_lease p rearm_backoff
      | dmdhcp_state_renewing =>
          with_lease p (discard send_request_renew);;
          with_lease p rearm_backoff
      | dmdhcp_state_rebinding =>
          with_lease p (discard send_request_rebind);;
          with_lease p rearm_backoff
      | dmdhcp_state_checking_offer | dmdhcp_state_checking_ack => run_conflict_probe p
      | dmdhcp_state_declining => with_lease p dmdhcp_output_start_discovery
      | _ => mret tt
      end;;
      unlock_lease p
  end.

Definition dmdhcp_lifecycle_handle_lost (p : ptr) : M unit :=
  lock_lease p;;
  with_lease p dmdhcp_lifecycle_unapply;;
  with_lease p dmdhcp_lease_table_clear_ntp_servers;;
  l ← load p;
  let fn := on_expired_or_lost (callbacks l) in
  let ud := user_data l in
  unlock_lease p;;
  invoke fn (λ f, c_on_expired f p ud);;
  lock_lease p;;
  with_lease p dmdhcp_output_start_discovery;;
  unlock_lease p.

Definition lease_timer_callback (h : option ptr) : M unit :=
  b ← bad_handle h;
  match h with
  | None => mret tt
  | Some p =>
      if b : bool then mret tt else
      lock_lease p;;
      l ← load p;
      match state l with
      | dmdhcp_state_bound =>
          with_lease p dmdhcp_output_start_renew;;
          with_lease p dmdhcp_lifecycle_arm_t2;;
          unlock_lease p
      | dmdhcp_state_renewing =>
          with_lease p dmdhcp_output_start_rebind;;
          with_lease p dmdhcp_lifecycle_arm_expiry;;
          unlock_lease p
      | dmdhcp_state_rebinding =>
          unlock_lease p;;
          dmdhcp_lifecycle_handle_lost p
      | _ => unlock_lease p
      end
  end.
End Timers.

(** ** Safety *)
Lemma discard_safe `{E : Env} `{D : DmList} {A} (m : lop A) : lop_safe m → lop_safe (discard m).
Proof. intros. apply lop_safe_bind; auto with dhcp. Qed.

#[export] Hint Resolve discard_safe : dhcp.

Section TimersSafe.
Context `{E : Env} {EO : EnvOk E} `{D : DmList} {DL : DmListLaws D}.
Context `{C : !Client} {CO : ClientOk C}.

Lemma handle_conflict_safe r p m w :
  At r p m {[m]} ∅ w → wp (handle_conflict p) (λ _, At r p m {[m]} ∅) w.
Proof.
  intros HA. unfold handle_conflict. at_step. at_step. at_step. at_step.
  case_match; [|by do 2 at_step].
  at_step. at_step. at_step. at_step. by at_step.
Qed.

Lemma run_conflict_probe_safe r p m w :
  At r p m {[m]} ∅ w → wp (run_conflict_probe p) (λ _, At r p m {[m]} ∅) w.
Proof.
  intros HA. unfold run_conflict_probe. at_step.
  eapply wp_seq; [exact (wp_ext r p m _ _ w (c_arp_resolve _ _ _) HA)|].
  clear HA. intros rc w1 HA. cbv beta in HA |- *.
  case_match; [by apply handle_conflict_safe|]. at_step.
  case_match; [by do 5 at_step|]. by do 8 at_step.
Qed.

Lemma retransmit_timer_callback_safe r p m w :
  At r p m ∅ ∅ w → wp (retransmit_timer_callback (Some p)) (λ _, At r p m ∅ ∅) w.
Proof.
  intros HA. unfold retransmit_timer_callback. do 3 at_step.
  eapply wp_seq with (R := λ _, At r p m {[m]} ∅); [|intros ? ? HA'; by at_step].
  clear -HA EO DL CO.
  destruct (state a0); try done;
    lazymatch goal with
    | |- wp (run_conflict_probe _) _ _ => by apply run_conflict_probe_safe
    | |- _ => by at_run
    end.
Qed.

Lemma handle_lost_safe r p m w :
  At r p m ∅ ∅ w → wp (dmdhcp_lifecycle_handle_lost p) (λ _, At r p m ∅ ∅) w.
Proof. intros HA. unfold dmdhcp_lifecycle_handle_lost. at_run. Qed.

Lemma lease_timer_callback_safe r p m w :
  At r p m ∅ ∅ w → wp (lease_timer_callback (Some p)) (λ _, At r p m ∅ ∅) w.
Proof.
  intros HA. unfold lease_timer_callback. do 3 at_step.
  destruct (state a0); try by at_run.
  at_step. by apply handle_lost_safe.
Qed.
End TimersSafe.
