(* ===== verification/Input.v ===== *)
(** [src/dmdhcp_input.c]: learning a lease from an OFFER or ACK, and the
    dispatch of a received datagram. *)
From S2P Require Import Prelude Types Wire Options Platform Lease Output Lifecycle World LeaseTable TableFacts Invariant Timers.

Section Input.
Context `{E : Env} `{D : DmList} `{C : !Client}.

(** [dmdhcp_options_find(options, options_len, code, &opt)]: [opt] when found *)
Definition find_opt (options : list Z) (c : Z) : lop (option dmdhcp_option_t) :=
  r ← st_opt (dmdhcp_options_find (Some options) (length options) c (Some (DhcpOption 0 0 None)));
  let '(rc, opt) := r in
  mret (if rc =? 0 then opt else None).

(** The loop filling a server list from a multi-address option, [n] addresses
    to go, the next one is [i]; it stops when memory runs out. *)
Fixpoint fill_servers (n i : nat) (opt : dmdhcp_option_t) (l : dmlist dmroute_addr_t)
    : st io (dmlist dmroute_addr_t) :=
  match n with
  | O => mret l
  | S n =>
      entry ← Dmod_Malloc SIZEOF_ADDR;
      match entry with
      | None => mret l
      | Some _ =>
          r ← st_opt (dmdhcp_option_get_addr_at (Some opt) i (Some addr_none));
          a ← st_opt r.2;
          pushed ← dmlist_try_push l a;
          match pushed with
          | None => Dmod_Free;; mret l
          | Some l => fill_servers n (S i) opt l
          end
      end
  end.

(** The two option-to-field reads that fall back to a default *)
Definition addr_field (opt : option dmdhcp_option_t) (old : dmroute_addr_t) : lop dmroute_addr_t :=
  match opt with
  | Some _ =>
      r ← st_opt (dmdhcp_option_get_addr opt (Some old));
      st_opt r.2
  | None => mret old
  end.

(** [uint32_t v = 0; if (find == 0) get_u32(&opt, &v); else v = def;] *)
Definition u32_field (opt : option dmdhcp_option_t) (def : Z) : lop Z :=
  match opt with
  | Some _ =>
      r ← st_opt (dmdhcp_option_get_u32 opt (Some 0));
      st_opt r.2
  | None => mret def
  end.

(** The [if]/[else] on option 3 *)
Definition learn_gateway (opt : option dmdhcp_option_t) : lop unit :=
  if bool_decide (is_Some opt) && (0 <? dmdhcp_option_addr_count opt)%nat then
    old ← getl gateway;
    r ← st_opt (dmdhcp_option_get_addr_at opt 0 (Some old));
    a ← st_opt r.2;
    setl (set_gateway a)
  else setl (set_gateway addr_none).

(** The two [if]s that fill the cleared server lists *)
Definition fill_dns_servers (opt : option dmdhcp_option_t) : lop unit :=
  match opt with
  | Some o =>
      servers ← getl dns_servers;
      l ← st_opt servers;
      l ← io_op (fill_servers (dmdhcp_option_addr_count opt) 0 o l);
      setl (set_dns_servers (Some l))
  | None => mret tt
  end.

Definition fill_ntp_servers (opt : option dmdhcp_option_t) : lop unit :=
  match opt with
  | Some o =>
      if (0 <? len o) && (len o `mod` Z.of_nat DMROUTE_IPV4_ADDR_LEN =? 0) then
        servers ← getl ntp_servers;
        l ← st_opt servers;
        l ← io_op (fill_servers (dmdhcp_option_addr_count opt) 0 o l);
        setl (set_ntp_servers (Some l))
      else mret tt
  | None => mret tt
  end.

Definition populate_lease_from_options (msg : dmdhcp_message_t) (options : list Z) : lop unit :=
  setl (set_offered_ip (yiaddr msg));;
  opt ← find_opt options DMDHCP_OPT_SUBNET_MASK;
  old ← getl netmask;
  a ← addr_field opt old;
  setl (set_netmask a);;
  opt ← find_opt options DMDHCP_OPT_ROUTER;
  learn_gateway opt;;
  opt ← find_opt options DMDHCP_OPT_SERVER_ID;
  old ← getl server_id;
  a ← addr_field opt old;
  setl (set_server_id a);;
  opt ← find_opt options DMDHCP_OPT_LEASE_TIME;
  lease_time ← u32_field opt 0;
  setl (set_lease_time_sec lease_time);;
  opt ← find_opt options DMDHCP_OPT_RENEWAL_T1;
  t1 ← u32_field opt (if 0 <? lease_time then lease_time `div` 2 else 0);
  setl (set_t1_sec t1);;
  opt ← find_opt options DMDHCP_OPT_REBINDING_T2;
  t2 ← u32_field opt (if 0 <? lease_time then u32 (lease_time * 7) `div` 8 else 0);
  setl (set_t2_sec t2);;
  dmdhcp_lease_table_clear_dns_servers;;
  opt ← find_opt options DMDHCP_OPT_DNS_SERVER;
  fill_dns_servers opt;;
  dmdhcp_lease_table_clear_ntp_servers;;
  opt ← find_opt options DMDHCP_OPT_NTP_SERVER;
  fill_ntp_servers opt.

(** The locals [dmdhcp_message_t msg;] and [dmdhcp_option_t opt;] before the
    first write to them *)
Definition msg_uninit : dmdhcp_message_t :=
  Message 0 0 0 0 0 0 0 addr_none addr_none addr_none addr_none (replicate DMDHCP_CHADDR_LEN 0).

(** [*data], the one byte of the message type option *)
Definition option_byte (o : dmdhcp_option_t) : option Z := d ← data o; rd d 0.

Definition arm_probe : lop unit := arm_retransmit DMDHCP_PROBE_HANDOFF_MS.

(** The part of [dmdhcp_handle_datagram] under the lease lock: the dispatch on
    the state and the message type *)
Definition dispatch_message (p : ptr) (msg : dmdhcp_message_t) (options : list Z) (msg_type : Z)
    : M unit :=
  lock_lease p;;
  l ← load p;
  let s := state l in
  if (msg_type =? u8 (msg_type_val dmdhcp_msg_offer)) && bool_decide (s = dmdhcp_state_selecting)
  then
    with_lease p (populate_lease_from_options msg options);;
    with_lease p (setl (set_state dmdhcp_state_checking_offer));;
    with_lease p arm_probe;;
    unlock_lease p
  else if (msg_type =? u8 (msg_type_val dmdhcp_msg_ack))
    && (bool_decide (s = dmdhcp_state_requesting) || bool_decide (s = dmdhcp_state_rebooting))
  then
    with_lease p (populate_lease_from_options msg options);;
    with_lease p (setl (set_state dmdhcp_state_checking_ack));;
    with_lease p arm_probe;;
    unlock_lease p
  else if (msg_type =? u8 (msg_type_val dmdhcp_msg_nak))
    && (bool_decide (s = dmdhcp_state_requesting) || bool_decide (s = dmdhcp_state_rebooting))
  then
    with_lease p dmdhcp_output_start_discovery;;
    unlock_lease p
  else if (msg_type =? u8 (msg_type_val dmdhcp_msg_ack))
    && (bool_decide (s = dmdhcp_state_renewing) || bool_decide (s = dmdhcp_state_rebinding))
  then
    with_lease p (populate_lease_from_options msg options);;
    with_lease p dmdhcp_lifecycle_apply;;
    with_lease p (setl (set_state dmdhcp_state_bound));;
    with_lease p (setl (set_decline_retry_count 0));;
    with_lease p dmdhcp_lifecycle_arm_t1;;
    l ← load p;
    let fn := on_bound (callbacks l) in
    let ud := user_data l in
    unlock_lease p;;
    invoke fn (λ f, c_on_bound f p true ud)
  else if (msg_type =? u8 (msg_type_val dmdhcp_msg_nak))
    && (bool_decide (s = dmdhcp_state_renewing) || bool_decide (s = dmdhcp_state_rebinding))
  then
    unlock_lease p;;
    dmdhcp_lifecycle_handle_lost p
  else unlock_lease p.

Definition dmdhcp_handle_datagram (i : iface_t) (payload : list Z) : M unit :=
  r ← st_opt (dmdhcp_parse_message (Some payload) (length payload) (Some msg_uninit) (Some 0%nat));
  let '(rc, msg, options_offset) := r in
  if negb (rc =? 0) then mret tt else
  msg ← st_opt msg;
  options_offset ← st_opt options_offset;
  if negb (op msg =? dmdhcp_op_bootreply) then mret tt else
  found ← dmdhcp_lease_table_find_by_xid i (msg_xid msg);
  match found with
  | None => mret tt
  | Some p =>
      let options := drop options_offset payload in
      r ← st_opt (dmdhcp_options_find (Some options) (length options) DMDHCP_OPT_MSG_TYPE
                    (Some (DhcpOption 0 0 None)));
      let '(rc, opt) := r in
      type_opt ← st_opt opt;
      if negb (rc =? 0) || negb (len type_opt =? 1) then mret tt else
      msg_type ← st_opt (option_byte type_opt);
      dispatch_message p msg options msg_type
  end.

Definition dmdhcp_input_register : M Z := wio (dmudp_bind DMDHCP_CLIENT_PORT).
Definition dmdhcp_input_unregister : M unit := wio (dmudp_unbind DMDHCP_CLIENT_PORT).
End Input.

(** ** What an OFFER or ACK teaches *)
Section Learned.
Context `{E : Env} {EO : EnvOk E} `{D : DmList} {DL : DmListLaws D}.

(** The value of a 4-octet option, 0 for one of another length *)
Definition u32_data (d : list Z) : Z :=
  match d with
  | [a; b; c; e] => a * 16777216 + b * 65536 + c * 256 + e
  | _ => 0
  end.

Definition addr_data (old : dmroute_addr_t) (d : list Z) : dmroute_addr_t :=
  if (length d =? 4)%nat then Addr dmroute_family_v4 d else old.

(** The addresses of a multi-address option *)
Definition addresses (d : list Z) : list dmroute_addr_t :=
  addr_at d <$> seq 0 (length d `div` 4).

Definition ntp_length_ok (d : list Z) : bool :=
  (0 <? length d)%nat && (length d `mod` 4 =? 0)%nat.

(** The scalars a message sets *)
Definition learned_netmask (options : list Z) (l : lease) : dmroute_addr_t :=
  from_option (addr_data (netmask l)) (netmask l) (option_found options DMDHCP_OPT_SUBNET_MASK).
Definition learned_gateway (options : list Z) : dmroute_addr_t :=
  match option_found options DMDHCP_OPT_ROUTER with
  | Some d => if (0 <? length d `div` 4)%nat then addr_at d 0 else addr_none
  | None => addr_none
  end.
Definition learned_server_id (options : list Z) (l : lease) : dmroute_addr_t :=
  from_option (addr_data (server_id l)) (server_id l) (option_found options DMDHCP_OPT_SERVER_ID).
Definition learned_lease_time (options : list Z) : Z :=
  from_option u32_data 0 (option_found options DMDHCP_OPT_LEASE_TIME).
Definition learned_t1 (options : list Z) : Z :=
  from_option u32_data (learned_lease_time options `div` 2)
    (option_found options DMDHCP_OPT_RENEWAL_T1).
Definition learned_t2 (options : list Z) : Z :=
  from_option u32_data (u32 (learned_lease_time options * 7) `div` 8)
    (option_found options DMDHCP_OPT_REBINDING_T2).
Definition learned_dns (options : list Z) : list dmroute_addr_t :=
  from_option addresses [] (option_found options DMDHCP_OPT_DNS_SERVER).
Definition learned_ntp (options : list Z) : list dmroute_addr_t :=
  match option_found options DMDHCP_OPT_NTP_SERVER with
  | Some d => if ntp_length_ok d then addresses d else []
  | None => []
  end.

(** The lease after the message, [dns] and [ntp] being its server lists *)
Definition learned (msg : dmdhcp_message_t) (options : list Z)
    (dns ntp : option (dmlist dmroute_addr_t)) (l : lease) : lease :=
  set_ntp_servers ntp (set_dns_servers dns (set_t2_sec (learned_t2 options)
    (set_t1_sec (learned_t1 options) (set_lease_time_sec (learned_lease_time options)
      (set_server_id (learned_server_id options l) (set_gateway (learned_gateway options)
        (set_netmask (learned_netmask options l) (set_offered_ip (yiaddr msg) l)))))))).

(** A server list holding the first of the addresses [want]: all of them,
    unless memory ran out. *)
Definition memory_available : Prop :=
  (∀ h, is_Some (answer h (c_malloc SIZEOF_ADDR) : option (list Z))) ∧
  (∀ h, answer h c_list_push = true).

Definition holds_servers (o : option (dmlist dmroute_addr_t)) (want : list dmroute_addr_t) : Prop :=
  ∃ l k, o = Some l ∧ dmlist_elems l = take k want ∧
    (memory_available → dmlist_elems l = want).

(** The only calls made on the way: the allocations of the server lists *)
Definition allocates (c : call) : Prop :=
  match c with c_malloc _ | c_list_push => True | _ => False end.

(** ** Running it *)
Lemma find_opt_run options c l s :
  bytes_ok options →
  ∃ after, find_opt options c (LCtx l s) =
    Some ((λ d, DhcpOption c (Z.of_nat (length d)) (Some (d ++ after))) <$> option_found options c,
          LCtx l s).
Proof.
  intros Hok. pose proof (option_found_spec options c Hok) as H. unfold find_opt.
  destruct (option_found options c) as [d|].
  - destruct H as (after & -> & _). exists after. done.
  - destruct H as (rc & Hrc & ->). exists []. cbv [mbind st_bind st_opt].
    destruct (Z.eqb_spec rc 0); done.
Qed.

Lemma option_found_ok options c d :
  bytes_ok options → option_found options c = Some d → bytes_ok d ∧ (length d < 256)%nat.
Proof.
  intros Hok Hf. pose proof (option_found_spec options c Hok) as H. rewrite Hf in H.
  by destruct H as (_ & _ & ? & ?).
Qed.

Lemma addr_field_run c (o : option (list Z)) after old cx :
  addr_field ((λ d, DhcpOption c (Z.of_nat (length d)) (Some (d ++ after))) <$> o) old cx
  = Some (from_option (addr_data old) old o, cx).
Proof.
  destruct o as [d|]; [|done]. unfold addr_field, addr_data.
  cbn [fmap option_fmap option_map from_option]. rewrite option_get_addr_spec. by destruct (length d =? 4)%nat.
Qed.

Lemma u32_field_run c (o : option (list Z)) after def cx :
  (∀ d, o = Some d → bytes_ok d) →
  u32_field ((λ d, DhcpOption c (Z.of_nat (length d)) (Some (d ++ after))) <$> o) def cx
  = Some (from_option u32_data def o, cx).
Proof.
  intros Hok. destruct o as [d|]; [|done]. unfold u32_field.
  cbn [fmap option_fmap option_map from_option]. rewrite option_get_u32_spec by auto. unfold u32_data. by destruct d as [|? [|? [|? [|? []]]]].
Qed.

Lemma u32_data_range d : bytes_ok d → is_u32 (u32_data d).
Proof.
  unfold u32_data, bytes_ok. intros Hok. destruct d as [|? [|? [|? [|? []]]]]; try done.
  decompose_Forall_hyps. unfold is_u8, is_u32 in *. lia.
Qed.

Lemma addr_data_ok old d : addr_v4_or_none old → bytes_ok d → addr_v4_or_none (addr_data old d).
Proof.
  intros Ho Hd. unfold addr_data. destruct (Nat.eqb_spec (length d) 4); [|done]. by split.
Qed.

Lemma addresses_ok d : bytes_ok d → Forall addr_ok (addresses d).
Proof.
  intros Hd. unfold addresses. apply list.Forall_forall. intros a (i & -> & Hi)%list_elem_of_fmap.
  apply elem_of_seq in Hi. apply addr_at_ok; [done|lia].
Qed.

Lemma fill_servers_run c d after (n i : nat) (l : dmlist dmroute_addr_t) s :
  (i + n = length d `div` 4)%nat →
  ∃ k l' cs, fill_servers n i (DhcpOption c (Z.of_nat (length d)) (Some (d ++ after))) l s
    = Some (l', set_blocks (blocks s + Z.of_nat k) (log_all cs s)) ∧ (k ≤ n)%nat ∧ Forall allocates cs ∧
    dmlist_elems l' = dmlist_elems l ++ (addr_at d <$> seq i k) ∧ (memory_available → k = n).
Proof.
  revert i l s. induction n as [|n IH]; intros i l s Hn.
  { exists 0%nat, l, []. rewrite log_all_nil, Z.add_0_r, set_blocks_id, app_nil_r. by split_and!; try constructor. }
  cbn [fill_servers]. unfold Dmod_Malloc, mbind, st_bind. rewrite ext_run.
  destruct (answer (trace s) (c_malloc SIZEOF_ADDR) : option (list Z)) as [b|] eqn:Hm.
  2:{ exists 0%nat, l, [c_malloc SIZEOF_ADDR]. unfold mret, st_ret. simpl.
      rewrite Z.add_0_r, app_nil_r. rewrite <- (blocks_log_all [c_malloc SIZEOF_ADDR] s), set_blocks_id.
      split_and!; try done; [lia|by repeat constructor|]. intros [HM _]. destruct (HM (trace s)). congruence. }
  unfold st_modify, mret, st_ret. rewrite option_get_addr_at_spec.
  destruct (Nat.ltb_spec i (length d `div` 4)); [|lia]. cbn [st_opt snd].
  unfold dmlist_try_push, mbind, st_bind. rewrite ext_run. unfold mret, st_ret.
  match goal with |- context [answer ?h c_list_push] => destruct (answer h c_list_push : bool) eqn:Hp end.
  - destruct (IH (S i) (dmlist_push_back l (addr_at d i))
      (log_all [c_list_push] (set_blocks (blocks (log_all [c_malloc SIZEOF_ADDR] s) + 1)
        (log_all [c_malloc SIZEOF_ADDR] s)))) as (k & l' & cs & Hrun & Hk & Hal & Hel & Hmem); [lia|].
    exists (S k), l', ([c_malloc SIZEOF_ADDR] ++ [c_list_push] ++ cs). rewrite Hrun. split_and!.
    + do 2 f_equal. destruct s. unfold set_blocks, log_all, set_trace. simpl.
      rewrite <- !app_assoc. f_equal. lia.
    + lia.
    + by repeat constructor.
    + rewrite Hel, elems_push, <- app_assoc. done.
    + intros HM. by rewrite Hmem.
  - exists 0%nat, l, ([c_malloc SIZEOF_ADDR] ++ [c_list_push]). unfold Dmod_Free, st_modify. split_and!.
    + do 2 f_equal. destruct s. unfold set_blocks, log_all, set_trace. simpl.
      rewrite <- !app_assoc. f_equal. lia.
    + lia.
    + by repeat constructor.
    + by rewrite app_nil_r.
    + intros [_ HM]. rewrite HM in Hp. done.
Qed.

(** A server list that was just cleared, filled again *)
Lemma fill_servers_cleared c d after (o : option (dmlist dmroute_addr_t)) s :
  servers_typed o →
  ∃ l1 l2 cs, cleared o = Some l1 ∧
    fill_servers (length d `div` 4) 0 (DhcpOption c (Z.of_nat (length d)) (Some (d ++ after))) l1 s
    = Some (l2, set_blocks (blocks s + server_count (Some l2)) (log_all cs s)) ∧
    Forall allocates cs ∧ holds_servers (Some l2) (addresses d).
Proof.
  intros (l0 & -> & _). exists (drained (length (dmlist_elems l0)) l0).
  destruct (fill_servers_run c d after (length d `div` 4) 0 (drained (length (dmlist_elems l0)) l0) s)
    as (k & l' & cs & Hrun & Hk & Hal & Hel & Hmem); [lia|].
  rewrite drained_elems in Hel by done. cbn [app] in Hel.
  exists l', cs. split; [done|].
  assert (Hlen : length (dmlist_elems l') = k) by (by rewrite Hel, length_fmap, length_seq).
  split; [rewrite Hrun; simpl; by rewrite Hlen|]. split; [done|].
  exists l', k. split; [done|]. split.
  - rewrite Hel. unfold addresses. rewrite <- fmap_take, take_seq. by rewrite Nat.min_l by lia.
  - intros HM. by rewrite Hel, Hmem by done.
Qed.

Lemma fill_dns_run options l l0 s c after :
  servers_typed (dns_servers l0) → dns_servers l = cleared (dns_servers l0) →
  ∃ dns cs, fill_dns_servers
      ((λ d, DhcpOption c (Z.of_nat (length d)) (Some (d ++ after)))
         <$> option_found options DMDHCP_OPT_DNS_SERVER) (LCtx l s)
    = Some (tt, LCtx (set_dns_servers dns l) (set_blocks (blocks s + server_count dns) (log_all cs s))) ∧
    Forall allocates cs ∧ holds_servers dns (learned_dns options).
Proof.
  intros Hty Hl. unfold learned_dns.
  destruct (option_found options DMDHCP_OPT_DNS_SERVER) as [d|]; simpl.
  - destruct (fill_servers_cleared c d after _ s Hty) as (l1 & l2 & cs & Hc & Hrun & Hal & Hh).
    exists (Some l2), cs. split; [|by split].
    rewrite getl_bind, Hl, Hc, opt_bind, Nat2Z.id.
    by rewrite (io_bind _ _ _ _ _ _ Hrun).
  - destruct Hty as (d0 & Hd & _). exists (dns_servers l), []. split.
    + rewrite log_all_nil, Hl, cleared_count, Z.add_0_r, set_blocks_id, <- Hl. by destruct l.
    + split; [constructor|]. rewrite Hl, Hd. eexists _, 0%nat. split; [done|]. by rewrite drained_elems by done.
Qed.

Lemma fill_ntp_run options l l0 s c after :
  servers_typed (ntp_servers l0) → ntp_servers l = cleared (ntp_servers l0) →
  ∃ ntp cs, fill_ntp_servers
      ((λ d, DhcpOption c (Z.of_nat (length d)) (Some (d ++ after)))
         <$> option_found options DMDHCP_OPT_NTP_SERVER) (LCtx l s)
    = Some (tt, LCtx (set_ntp_servers ntp l) (set_blocks (blocks s + server_count ntp) (log_all cs s))) ∧
    Forall allocates cs ∧ holds_servers ntp (learned_ntp options).
Proof.
  intros Hty Hl. unfold learned_ntp.
  assert (Hnone : ∃ ntp cs, (mret tt : lop unit) (LCtx l s) = Some (tt, LCtx (set_ntp_servers ntp l)
      (set_blocks (blocks s + server_count ntp) (log_all cs s))) ∧ Forall allocates cs ∧ holds_servers ntp []).
  { destruct Hty as (d0 & Hd & _). exists (ntp_servers l), []. split.
    + rewrite log_all_nil, Hl, cleared_count, Z.add_0_r, set_blocks_id, <- Hl. by destruct l.
    + split; [constructor|]. rewrite Hl, Hd. eexists _, 0%nat. split; [done|]. by rewrite drained_elems by done. }
  destruct (option_found options DMDHCP_OPT_NTP_SERVER) as [d|]; [|done].
  unfold fill_ntp_servers. cbn [fmap option_fmap option_map len].
  assert ((0 <? Z.of_nat (length d)) && (Z.of_nat (length d) `mod` Z.of_nat DMROUTE_IPV4_ADDR_LEN =? 0)
    = ntp_length_ok d) as ->.
  { unfold ntp_length_ok, DMROUTE_IPV4_ADDR_LEN. rewrite <- Nat2Z.inj_mod.
    destruct (Z.ltb_spec 0 (Z.of_nat (length d))), (Nat.ltb_spec 0 (length d)); try lia;
    destruct (Z.eqb_spec (Z.of_nat (length d `mod` 4)) 0), (Nat.eqb_spec (length d `mod` 4) 0); try done; lia. }
  destruct (ntp_length_ok d); [|done].
  destruct (fill_servers_cleared c d after _ s Hty) as (l1 & l2 & cs & Hc & Hrun & Hal & Hh).
  exists (Some l2), cs. split; [|by split].
  rewrite getl_bind, Hl, Hc, opt_bind, option_addr_count_spec.
  by rewrite (io_bind _ _ _ _ _ _ Hrun).
Qed.

Lemma learn_gateway_run options after l s :
  learn_gateway ((λ d, DhcpOption DMDHCP_OPT_ROUTER (Z.of_nat (length d)) (Some (d ++ after)))
    <$> option_found options DMDHCP_OPT_ROUTER) (LCtx l s)
  = Some (tt, LCtx (set_gateway (learned_gateway options) l) s).
Proof.
  unfold learn_gateway, learned_gateway.
  destruct (option_found options DMDHCP_OPT_ROUTER) as [d|]; [|done].
  cbn [fmap option_fmap option_map]. rewrite bool_decide_true by eauto.
  rewrite option_addr_count_spec. destruct (0 <? length d `div` 4)%nat eqn:Hn; [|done].
  cbn [andb]. rewrite getl_bind, option_get_addr_at_spec, Hn, opt_bind. cbn [snd].
  by rewrite opt_bind.
Qed.

Lemma learned_lease_time_range options : bytes_ok options → is_u32 (learned_lease_time options).
Proof.
  intros Hok. unfold learned_lease_time.
  destruct (option_found options DMDHCP_OPT_LEASE_TIME) as [d|] eqn:Hf; simpl; [|by unfold is_u32].
  by eapply u32_data_range, option_found_ok.
Qed.

(** The guards [lease_time > 0] of the defaults change nothing. *)
Lemma default_t1 n : is_u32 n → (if 0 <? n then n `div` 2 else 0) = n `div` 2.
Proof. unfold is_u32. intros. destruct (Z.ltb_spec 0 n); [done|]. by replace n with 0 by lia. Qed.

Lemma default_t2 n : is_u32 n → (if 0 <? n then u32 (n * 7) `div` 8 else 0) = u32 (n * 7) `div` 8.
Proof. unfold is_u32. intros. destruct (Z.ltb_spec 0 n); [done|]. by replace n with 0 by lia. Qed.

Ltac run_find Hok :=
  match goal with
  | |- context [(find_opt ?o ?c ≫= ?k) (LCtx ?l ?s)] =>
      let after := fresh "after" in
      let H := fresh in
      destruct (find_opt_run o c l s Hok) as [after H];
      rewrite (lop_bind _ k _ _ _ H); clear H
  end.

Lemma populate_run msg options l s :
  lease_typed l → bytes_ok options →
  ∃ dns ntp cs, populate_lease_from_options msg options (LCtx l s) =
    Some (tt, LCtx (learned msg options dns ntp l)
      (set_blocks (blocks s - server_count (dns_servers l) - server_count (ntp_servers l)
                   + server_count dns + server_count ntp) (log_all cs s))) ∧
    Forall allocates cs ∧
    holds_servers dns (learned_dns options) ∧ holds_servers ntp (learned_ntp options).
Proof.
  intros Hl Hok. unfold populate_lease_from_options. rewrite setl_bind.
  run_find Hok. rewrite getl_bind, (lop_bind _ _ _ _ _ (addr_field_run _ _ _ _ _)), setl_bind.
  run_find Hok.
  rewrite (lop_bind _ _ _ _ _ (learn_gateway_run _ _ _ _)).
  run_find Hok. rewrite getl_bind, (lop_bind _ _ _ _ _ (addr_field_run _ _ _ _ _)), setl_bind.
  assert (Hu : ∀ c d, option_found options c = Some d → bytes_ok d)
    by (intros; by eapply option_found_ok).
  pose proof (learned_lease_time_range options Hok) as Hlt.
  run_find Hok. rewrite (lop_bind _ _ _ _ _ (u32_field_run _ _ _ _ _ (Hu _))), setl_bind.
  fold (learned_lease_time options).
  run_find Hok. rewrite (lop_bind _ _ _ _ _ (u32_field_run _ _ _ _ _ (Hu _))), setl_bind.
  rewrite (default_t1 _ Hlt). fold (learned_t1 options).
  run_find Hok. rewrite (lop_bind _ _ _ _ _ (u32_field_run _ _ _ _ _ (Hu _))), setl_bind.
  rewrite (default_t2 _ Hlt). fold (learned_t2 options).
  rewrite (lop_bind _ _ _ _ _ (clear_dns_run _ _)).
  run_find Hok.
  match goal with |- context [(fill_dns_servers _ ≫= _) (LCtx ?l1 ?s1)] =>
    destruct (fill_dns_run options l1 l s1 DMDHCP_OPT_DNS_SERVER after5 (lt_dns l Hl) eq_refl)
      as (dns & cs & Hdns & Had & Hhd) end.
  rewrite (lop_bind _ _ _ _ _ Hdns). clear Hdns.
  rewrite (lop_bind _ _ _ _ _ (clear_ntp_run _ _)).
  run_find Hok.
  match goal with |- context [fill_ntp_servers _ (LCtx ?l1 ?s1)] =>
    destruct (fill_ntp_run options l1 l s1 DMDHCP_OPT_NTP_SERVER after6 (lt_ntp l Hl) eq_refl)
      as (ntp & cs' & Hntp & Han & Hhn) end.
  rewrite Hntp. exists dns, ntp, (cs ++ cs'). split; [|split; [by apply Forall_app|by split]].
  apply lctx_eq.
  - unfold learned, learned_netmask, learned_server_id. lease_fields. reflexivity.
  - rewrite <- log_all_app. unfold log_all, set_blocks, set_trace.
    cbn [trace mutexes timers running blocks lists next_id]. f_equal. clear. lease_fields. lia.
Qed.

Lemma holds_servers_typed o want :
  holds_servers o want → Forall addr_ok want → servers_typed o.
Proof.
  intros (l & k & -> & Hel & _) Hw. exists l. split; [done|]. rewrite Hel. by apply Forall_take.
Qed.

Lemma learned_typed msg options dns ntp l :
  lease_typed l → bytes_ok options → addr_v4_or_none (yiaddr msg) →
  servers_typed dns → servers_typed ntp → lease_typed (learned msg options dns ntp l).
Proof.
  intros Hl Hok Hyi Hd Hn.
  assert (Hu : ∀ c v, is_u32 v → is_u32 (from_option u32_data v (option_found options c))).
  { intros c v Hv. destruct (option_found options c) as [d|] eqn:Hf; [|done].
    by eapply u32_data_range, option_found_ok. }
  assert (Ha : ∀ c old, addr_v4_or_none old →
    addr_v4_or_none (from_option (addr_data old) old (option_found options c))).
  { intros c old Ho. destruct (option_found options c) as [d|] eqn:Hf; [|done].
    by eapply addr_data_ok, option_found_ok. }
  pose proof (learned_lease_time_range options Hok) as Hlt.
  destruct Hl. split; simpl; try done; try apply Ha; try apply Hu; try done.
  - unfold learned_gateway. destruct (option_found options DMDHCP_OPT_ROUTER) as [d|] eqn:Hf;
      [|apply addr_none_v4_or_none].
    destruct (Nat.ltb_spec 0 (length d `div` 4)); [|apply addr_none_v4_or_none].
    split; [|done]. apply addr_at_ok; [by eapply option_found_ok|done].
  - unfold is_u32 in *. split; [apply Z.div_pos; lia|]. apply Z.div_lt_upper_bound; lia.
  - pose proof (u32_range (learned_lease_time options * 7)). unfold is_u32 in *.
    split; [apply Z.div_pos; lia|]. apply Z.div_lt_upper_bound; lia.
Qed.

Lemma learned_servers_ok options :
  bytes_ok options → Forall addr_ok (learned_dns options) ∧ Forall addr_ok (learned_ntp options).
Proof.
  intros Hok. unfold learned_dns, learned_ntp. split.
  - destruct (option_found options DMDHCP_OPT_DNS_SERVER) as [d|] eqn:Hf; simpl; [|done].
    by eapply addresses_ok, option_found_ok.
  - destruct (option_found options DMDHCP_OPT_NTP_SERVER) as [d|] eqn:Hf; simpl; [|done].
    destruct (ntp_length_ok d); [|done]. by eapply addresses_ok, option_found_ok.
Qed.

Lemma learned_step msg options dns ntp l s cs :
  lease_typed l → bytes_ok options → addr_v4_or_none (yiaddr msg) →
  holds_servers dns (learned_dns options) → holds_servers ntp (learned_ntp options) →
  lease_step l s (learned msg options dns ntp l)
    (set_blocks (blocks s - server_count (dns_servers l) - server_count (ntp_servers l)
                 + server_count dns + server_count ntp) (log_all cs s)).
Proof.
  intros Hl Hok Hyi Hd Hn. destruct (learned_servers_ok options Hok) as [Hfd Hfn]. split.
  - apply learned_typed; try done; by eapply holds_servers_typed.
  - done.
  - etransitivity; [apply io_frame_log_all|apply io_frame_set_blocks].
  - unfold lease_blocks. simpl. lia.
Qed.

Lemma populate_safe msg options :
  bytes_ok options → addr_v4_or_none (yiaddr msg) → lop_safe (populate_lease_from_options msg options).
Proof.
  intros Hok Hyi l s Hl _. destruct (populate_run msg options l s Hl Hok) as (dns & ntp & cs & Hrun & _ & Hd & Hn).
  do 3 eexists. split; [exact Hrun|]. by apply learned_step.
Qed.

(** ** Properties *)

(** C30: what the lease learns from an OFFER or ACK, field by field.  The
    leased address is [yiaddr]; netmask and server id come from a 4-octet
    option 1 / 54 and are otherwise kept; the gateway is the first address of
    option 3, or none; the lease time, T1 and T2 are options 51, 58 and 59, with
    T1 = lease / 2 and T2 = 7/8 of the lease (in [uint32_t]) when 58 / 59 are
    absent; the DNS list is every complete address of option 6, the NTP list
    those of option 42 when its length is a positive multiple of 4 - both in
    order, the old ones freed - truncated only if memory runs out.  Nothing
    else of the lease changes, and no block is leaked. *)
Theorem populate_learns msg options l s :
  lease_typed l → bytes_ok options → addr_v4_or_none (yiaddr msg) →
  let found c := option_found options c in
  ∃ l' s', populate_lease_from_options msg options (LCtx l s) = Some (tt, LCtx l' s') ∧
    offered_ip l' = yiaddr msg ∧
    netmask l' = (match found 1 with
                  | Some d => if (length d =? 4)%nat then Addr dmroute_family_v4 d else netmask l
                  | None => netmask l end) ∧
    server_id l' = (match found 54 with
                    | Some d => if (length d =? 4)%nat then Addr dmroute_family_v4 d else server_id l
                    | None => server_id l end) ∧
    gateway l' = (match found 3 with
                  | Some d => if (4 <=? length d)%nat then Addr dmroute_family_v4 (take 4 d) else addr_none
                  | None => addr_none end) ∧
    lease_time_sec l' = from_option u32_data 0 (found 51) ∧
    t1_sec l' = from_option u32_data (lease_time_sec l' `div` 2) (found 58) ∧
    t2_sec l' = from_option u32_data (u32 (lease_time_sec l' * 7) `div` 8) (found 59) ∧
    holds_servers (dns_servers l') (from_option addresses [] (found 6)) ∧
    holds_servers (ntp_servers l')
      (match found 42 with Some d => if ntp_length_ok d then addresses d else [] | None => [] end) ∧
    state l' = state l ∧ xid l' = xid l ∧ lease_step l s l' s'.
Proof.
  intros Hl Hok Hyi found.
  destruct (populate_run msg options l s Hl Hok) as (dns & ntp & cs & Hrun & _ & Hd & Hn).
  do 2 eexists. split; [exact Hrun|]. split; [done|]. split; [done|]. split; [done|].
  split; [|split_and!; try done; by apply learned_step].
  change (gateway _) with (learned_gateway options).
  unfold learned_gateway. fold (found DMDHCP_OPT_ROUTER).
  change DMDHCP_OPT_ROUTER with 3. destruct (found 3) as [d|]; [|done].
  destruct (Nat.ltb_spec 0 (length d `div` 4)) as [Hlt|Hge], (Nat.leb_spec 4 (length d)) as [H4|H4]; try done.
  - rewrite Nat.div_small in Hlt by lia. lia.
  - assert (length d `div` 4 ≠ 0)%nat; [|lia]. intros Hz%Nat.div_small_iff; lia.
Qed.

(** The default T2 is computed in [uint32_t].  It is 7/8 of the lease
    time, after T1, exactly for lease times below 2^32 / 7 s (19.4 years);
    above, the product wraps, and an infinite lease (RFC 2131: 0xFFFFFFFF)
    without options 58 and 59 gets a T2 that is before its T1. *)
Theorem default_t2_wraps msg options dns ntp l :
  bytes_ok options →
  option_found options DMDHCP_OPT_RENEWAL_T1 = None →
  option_found options DMDHCP_OPT_REBINDING_T2 = None →
  let l' := learned msg options dns ntp l in
  (lease_time_sec l' ≤ 613566756 → t2_sec l' = (lease_time_sec l' * 7) `div` 8 ∧ t1_sec l' ≤ t2_sec l') ∧
  (613566756 < lease_time_sec l' → t2_sec l' < (lease_time_sec l' * 7) `div` 8) ∧
  (lease_time_sec l' = 0xFFFFFFFF → t1_sec l' = 0x7FFFFFFF ∧ t2_sec l' = 0x1FFFFFFF).
Proof.
  intros Hok H1 H2 l'. pose proof (learned_lease_time_range options Hok) as Hr.
  subst l'. simpl. unfold learned_t1, learned_t2. rewrite H1, H2. simpl.
  set (n := learned_lease_time options) in *. clearbody n. unfold is_u32 in Hr. split_and!.
  - intros Hn. rewrite u32_id by (unfold is_u32; lia). split; [done|]. Z.div_mod_to_equations. lia.
  - intros Hn. apply Z.lt_le_trans with (u32 (n * 7) `div` 8 + 1); [lia|].
    assert (u32 (n * 7) + 8 ≤ n * 7).
    { unfold u32. pose proof (Z.div_mod (n * 7) 4294967296).
      assert (1 ≤ (n * 7) `div` 4294967296) by (apply Z.div_le_lower_bound; lia).
      pose proof (Z.mod_pos_bound (n * 7) 4294967296). lia. }
    replace (u32 (n * 7) `div` 8 + 1) with ((u32 (n * 7) + 1 * 8) `div` 8) by (by rewrite Z.div_add).
    apply Z.div_le_mono; lia.
  - intros ->. done.
Qed.
End Learned.

(** ** Receiving *)
Section Received.
Context `{E : Env} {EO : EnvOk E} `{D : DmList} {DL : DmListLaws D}.
Context `{C : !Client}.

(** The BOOTREPLY a datagram holds, and its message type *)
Definition reply_of (payload : list Z) : option dmdhcp_message_t :=
  match dmdhcp_parse_message (Some payload) (length payload) (Some msg_uninit) (Some 0%nat) with
  | Some (rc, Some m, Some _) => if (rc =? 0) && (op m =? dmdhcp_op_bootreply) then Some m else None
  | _ => None
  end.

Definition type_of (payload : list Z) : option Z :=
  match option_found (drop 240 payload) DMDHCP_OPT_MSG_TYPE with
  | Some [t] => Some t
  | _ => None
  end.

(** The lease waiting for transaction [x] on interface [i] *)
Definition waiting (w : world) (i : iface_t) (x : Z) (r : option ptr) : Prop :=
  match r with
  | Some p => ∃ l, heap w !! p = Some l ∧ iface l = i ∧ xid l = x
  | None => ∀ p l, heap w !! p = Some l → ¬ (iface l = i ∧ xid l = x)
  end.

Lemma find_by_xid_run w i x :
  Inv ∅ ∅ w → ∃ gm r, g_leases_mutex w = Some gm ∧ waiting w i x r ∧
    dmdhcp_lease_table_find_by_xid i x w =
      Some (r, set_w_io (log_all [c_mutex_lock gm; c_mutex_unlock gm] (w_io w)) w).
Proof.
  intros HI. destruct (table_mutex _ _ HI) as (gm & Hg & _).
  destruct (inv_table _ _ _ HI) as (t & Ht & _). exists gm.
  eexists. split; [done|]. split; [|by eapply (find_locked_run ∅)].
  assert (Hi : ∀ l, (iface l =? i) && (xid l =? x) = true → iface l = i)
    by (by intros l [?%Z.eqb_eq _]%andb_true_iff).
  pose proof (proj1 (find_in_table ∅ w t _ HI Ht (iface_unique ∅ w _ i HI Hi) _) eq_refl) as Hr.
  change (λ p, match heap w !! p with Some l => (iface l =? i) && (xid l =? x) | None => false end)
    with (compare_by_xid (heap w) i x) in Hr.
  unfold waiting. destruct (List.find _ _) as [p|].
  - destruct Hr as (l & Hl & _ & [?%Z.eqb_eq ?%Z.eqb_eq]%andb_true_iff). by exists l.
  - intros p l Hl [Hli Hlx]. specialize (Hr p l Hl (not_elem_of_empty _)). cbv beta in Hr.
    by rewrite Hli, Hlx, !Z.eqb_refl in Hr.
Qed.

(** [dmdhcp_handle_datagram] up to the dispatch *)
Lemma datagram_run i payload w :
  Inv ∅ ∅ w → bytes_ok payload →
  dmdhcp_handle_datagram i payload w =
    match reply_of payload with
    | None => Some (tt, w)
    | Some m =>
        match dmdhcp_lease_table_find_by_xid i (msg_xid m) w with
        | Some (Some p, w1) =>
            match type_of payload with
            | Some t => dispatch_message p m (drop 240 payload) t w1
            | None => Some (tt, w1)
            end
        | Some (None, w1) => Some (tt, w1)
        | None => None
        end
    end.
Proof.
  intros HI Hok. unfold dmdhcp_handle_datagram, reply_of, type_of.
  destruct (parse_cases payload msg_uninit 0 Hok) as [(rc & Hrc & Hp)|(m & Hl & _ & _ & Hp)]; rewrite Hp.
  { rewrite w_opt_bind. by destruct (Z.eqb_spec rc 0). }
  rewrite w_opt_bind. cbn [andb negb Z.eqb]. rewrite !w_opt_bind.
  destruct (op m =? dmdhcp_op_bootreply); [|done]. cbn [negb].
  destruct (find_by_xid_run w i (msg_xid m) HI) as (gm & r & _ & _ & Hrun).
  rewrite (w_bind _ _ _ _ _ Hrun), Hrun. destruct r as [p|]; [|done].
  assert (Hopt : bytes_ok (drop 240 payload)) by (by apply Forall_drop).
  pose proof (option_found_spec (drop 240 payload) DMDHCP_OPT_MSG_TYPE Hopt) as Hf.
  destruct (option_found (drop 240 payload) DMDHCP_OPT_MSG_TYPE) as [d|].
  - destruct Hf as (after & -> & _). rewrite !w_opt_bind. cbn [negb Z.eqb orb len].
    destruct d as [|b [|b' d]]; [done|done|].
    by rewrite (proj2 (Z.eqb_neq (Z.of_nat (length (b :: b' :: d))) 1)) by (simpl; lia).
  - destruct Hf as (rc & Hrc & ->). rewrite !w_opt_bind. by destruct (Z.eqb_spec rc 0).
Qed.

Lemma reply_of_typed payload m :
  bytes_ok payload → reply_of payload = Some m → message_typed m ∧ addr_v4_or_none (yiaddr m).
Proof.
  intros Hok. unfold reply_of.
  destruct (parse_cases payload msg_uninit 0 Hok) as [(rc & Hrc & Hp)|(m' & Hl & Ht & Hv & Hp)]; rewrite Hp.
  { by destruct (Z.eqb_spec rc 0). }
  cbn [andb Z.eqb]. case_match; [|done]. intros [= <-]. split; [done|].
  destruct Hv as (_ & Hy & _). split; [apply Ht|]. by rewrite Hy.
Qed.

(** ** Safety *)
Context {CO : ClientOk C}.

Lemma dispatch_safe r p m msg options t w :
  bytes_ok options → addr_v4_or_none (yiaddr msg) → At r p m ∅ ∅ w →
  wp (dispatch_message p msg options t) (λ _, At r p m ∅ ∅) w.
Proof.
  intros Hok Hy HA. pose proof (populate_safe msg options Hok Hy) as Hpop.
  pose proof (arm_retransmit_safe DMDHCP_PROBE_HANDOFF_MS) as Harm.
  change (arm_retransmit DMDHCP_PROBE_HANDOFF_MS) with arm_probe in Harm.
  unfold dispatch_message. at_step. at_step. cbv zeta.
  repeat (case_match; [by at_run|]). case_match; [|by at_step].
  at_step. by apply handle_lost_safe.
Qed.

Lemma datagram_safe i payload w :
  Inv ∅ ∅ w → bytes_ok payload →
  wp (dmdhcp_handle_datagram i payload)
    (λ _ w', Inv ∅ ∅ w' ∧ running (w_io w') = running (w_io w)) w.
Proof.
  intros HI Hok. unfold wp. rewrite datagram_run by done.
  destruct (reply_of payload) as [msg|] eqn:Hm; [|done].
  destruct (find_by_xid_run w i (msg_xid msg) HI) as (gm & r & Hg & Hr & Hrun). rewrite Hrun.
  set (w1 := set_w_io _ w).
  assert (HI1 : Inv ∅ ∅ w1) by (by apply Inv_log).
  destruct r as [p|]; [|done]. destruct (type_of payload) as [t|]; [|done].
  destruct Hr as (l & Hl & _). destruct (inv_leases _ _ _ HI p l Hl) as [_ _ (m & Hlm & _) _ _].
  assert (HA : At (running (w_io w)) p m ∅ ∅ w1) by (split; [done|]; split; [done|]; by exists l).
  destruct (reply_of_typed payload msg Hok Hm) as [_ Hy].
  pose proof (dispatch_safe _ p m msg (drop 240 payload) t w1 (Forall_drop _ _ _ Hok) Hy HA) as Hd.
  unfold wp in Hd. destruct (dispatch_message _ _ _ _ w1) as [[a w2]|]; [|done].
  by destruct Hd as (? & ? & _).
Qed.
End Received.
