(* ===== verification/Api.v ===== *)
(** [src/dmdhcp.c]: the public operations that start, renew, release and stop
    a lease, and the module's two entry points. *)
From S2P Require Import Prelude Types Platform Lease Output Lifecycle World Invariant LeaseTable TableFacts Input.

Section Api.
Context `{E : Env} `{D : DmList}.

(** The [hostname] and [requested_ip] members behind [options], which may be
    NULL *)
Definition start_hostname (options : option dmdhcp_options_t) : option (list Z) :=
  o ← options; opt_hostname o.

Definition start_requested_ip (options : option dmdhcp_options_t) : option dmroute_addr_t :=
  o ← options;
  if is_v4 (requested_ip o) then Some (requested_ip o) else None.

Definition dmdhcp_start (i : iface_t) (cbs : option dmdhcp_callbacks_t) (ud : Z)
    (options : option dmdhcp_options_t) : M (option ptr) :=
  if i =? 0 then mret None else
  r ← dmdhcp_lease_table_create i;
  match r with
  | None => mret None
  | Some p =>
      match cbs with
      | Some c => with_lease p (setl (set_callbacks c))
      | None => mret tt
      end;;
      with_lease p (setl (set_user_data ud));;
      match start_hostname options with
      | Some h =>
          h ← wio (Dmod_StrDup h);
          with_lease p (setl (set_hostname h))
      | None => mret tt
      end;;
      rc ← dmdhcp_lease_table_insert p;
      if negb (rc =? 0) then
        dmdhcp_lease_table_destroy (Some p);;
        mret None
      else
        lock_lease p;;
        match start_requested_ip options with
        | Some a =>
            with_lease p (setl (set_offered_ip a));;
            with_lease p dmdhcp_output_start_reboot
        | None => with_lease p dmdhcp_output_start_discovery
        end;;
        unlock_lease p;;
        mret (Some p)
  end.

Definition dmdhcp_renew (h : option ptr) : M Z :=
  b ← bad_handle h;
  match h with
  | Some p =>
      if b : bool then mret (- EINVAL) else
      lock_lease p;;
      l ← load p;
      (if bool_decide (state l = dmdhcp_state_bound)
       then with_lease p dmdhcp_output_start_renew else mret tt);;
      unlock_lease p;;
      mret 0
  | None => mret (- EINVAL)
  end.

Definition dmdhcp_release (h : option ptr) : M Z :=
  b ← bad_handle h;
  match h with
  | Some p =>
      if b : bool then mret (- EINVAL) else
      dmdhcp_lease_table_remove p;;
      lock_lease p;;
      l ← load p;
      (if is_v4 (offered_ip l) && is_v4 (server_id l)
       then with_lease p dmdhcp_output_send_release;; mret tt else mret tt);;
      l ← load p;
      (if iface_configured l then with_lease p dmdhcp_lifecycle_unapply else mret tt);;
      unlock_lease p;;
      dmdhcp_lease_table_destroy (Some p);;
      mret 0
  | None => mret (- EINVAL)
  end.

Definition dmdhcp_stop (h : option ptr) : M unit :=
  b ← bad_handle h;
  match h with
  | Some p =>
      if b : bool then mret tt else
      dmdhcp_lease_table_remove p;;
      lock_lease p;;
      l ← load p;
      (if iface_configured l then with_lease p dmdhcp_lifecycle_unapply else mret tt);;
      unlock_lease p;;
      dmdhcp_lease_table_destroy (Some p)
  | None => mret tt
  end.

Definition dmod_init : M Z :=
  rc ← dmdhcp_lease_table_init;
  if negb (rc =? 0) then mret (-1) else
  result ← dmdhcp_input_register;
  if negb (result =? 0) then mret (-1) else
  mret 0.

Definition dmod_deinit : M Z :=
  dmdhcp_input_unregister;;
  dmdhcp_lease_table_deinit;;
  mret 0.
End Api.

Section ApiFacts.
Context `{E : Env} {EO : EnvOk E} `{D : DmList} {DL : DmListLaws D}.

(** ** Tearing a lease down

    [dmdhcp_stop] and [dmdhcp_release] differ in what they run under the lease
    lock: [op]. *)
Lemma load_then_unapply p l s w :
  (l ← load p; if iface_configured l then with_lease p dmdhcp_lifecycle_unapply else mret tt)
    (put p l s w)
  = Some (tt, put p (unapplied l) (log_all (unapply_calls l) s) w).
Proof.
  rewrite load_put. destruct (iface_configured l) eqn:Hc.
  - apply with_lease_run, unapply_run.
  - unfold unapplied, unapply_calls. by rewrite Hc, log_all_nil.
Qed.

(** The world after a teardown that ended its critical section in [l', s'] *)
Definition torn_down (p m : handle) (l' : lease) (s' : io) (t : dmlist ptr) (w : world) : world :=
  gone p (freed l' (release m s')) (set_g_leases (Some (dmlist_remove t (compare_pointer p))) w).

Definition unlinked (gm : handle) (s : io) : io := log_all [c_mutex_lock gm; c_mutex_unlock gm] s.

Lemma own_timer_step l s l' s' t : lease_step l s l' s' → own_timer l' t ↔ own_timer l t.
Proof. intros Hs. apply own_timer_frame, Hs. Qed.

Lemma teardown_run w p l (op : M unit) l' s' m :
  Inv ∅ ∅ w → heap w !! p = Some l → lock l = Some m →
  (∀ t, own_timer l t → running (w_io w) ≠ Some t) →
  ∃ gm t, g_leases_mutex w = Some gm ∧ g_leases w = Some t ∧
    (lease_step l (grab m (unlinked gm (w_io w))) l' s' →
     (∀ w0, op (put p l (grab m (unlinked gm (w_io w))) w0) = Some (tt, put p l' s' w0)) →
     (dmdhcp_lease_table_remove p;; lock_lease p;; op;; unlock_lease p;;
      dmdhcp_lease_table_destroy (Some p)) w = Some (tt, torn_down p m l' s' t w) ∧
     Inv ∅ ∅ (torn_down p m l' s' t w)).
Proof.
  intros HI Hp Hm Hr. assert (Hlive : is_Some (heap w !! p)) by eauto.
  destruct (remove_run w p HI Hlive) as (gm & t & Hg & Ht & Hrun & HI1).
  exists gm, t. split; [done|]. split; [done|]. intros Hst Hop.
  set (s1 := unlinked gm (w_io w)) in *.
  set (w1 := set_g_leases (Some (dmlist_remove t (compare_pointer p))) (set_w_io s1 w)) in *.
  assert (Hw1 : w1 = put p l s1 w1) by (symmetry; by apply (put_id p l w1)).
  pose proof Hst as [_ Hf Hi _].
  assert (Hfree : mutexes s1 !! m = Some false).
  { destruct (inv_leases _ _ _ HI p l Hp) as [_ _ (m' & Hm' & [b Hb]) _ _]. simplify_eq.
    simpl. rewrite Hb. f_equal. by destruct (inv_mutexes _ _ _ HI _ _ Hb) as [-> _]. }
  assert (HI1' : Inv ∅ {[p]} (put p l s1 w1)) by (rewrite <- Hw1; exact HI1).
  change (dmdhcp_lease_table_remove p w = Some (tt, w1)) in Hrun. pose proof (Inv_section _ _ _ _ _ _ m l' s' HI1' (not_elem_of_empty m) Hm Hst) as HI2.
  assert (Hcl : closable l' (release m s')).
  { assert (Hp2 : heap (put p l' (release m s') w1) !! p = Some l') by apply heap_put.
    apply (closable_live _ _ _ p l' HI2 Hp2).
    - rewrite elements_empty. apply not_elem_of_nil.
    - intros u Hu%(own_timer_step _ _ _ _ _ Hst). simpl. rewrite (if_running _ _ Hi). by apply Hr. }
  split.
  - rewrite (w_bind _ _ _ _ _ Hrun). rewrite Hw1, (lock_put _ _ _ _ m) by done.
    rewrite (w_bind _ _ _ _ _ (Hop w1)).
    rewrite (unlock_put _ _ _ _ m) by (by rewrite ?(lf_lock _ _ Hf), ?(if_mutexes _ _ Hi), ?mutexes_grab).
    unfold dmdhcp_lease_table_destroy, dmdhcp_lease_table_destroy_with_context.
    rewrite destroy_run by done. done.
  - assert (Hp2 : heap (put p l' (release m s') w1) !! p = Some l') by apply heap_put.
    pose proof (Inv_gone _ p l' HI2 Hp2) as HI3.
    assert (gone p (freed l' (w_io (put p l' (release m s') w1))) (put p l' (release m s') w1)
      = torn_down p m l' s' t w) as Heq.
    { unfold gone, torn_down, put, set_w_io, set_heap, set_g_leases. simpl. by rewrite delete_insert_eq. }
    by rewrite Heq in HI3.
Qed.

Lemma stop_run w p l m :
  Inv ∅ ∅ w → heap w !! p = Some l → lock l = Some m →
  (∀ t, own_timer l t → running (w_io w) ≠ Some t) →
  ∃ gm t, g_leases_mutex w = Some gm ∧ g_leases w = Some t ∧
    let w' := torn_down p m (unapplied l)
      (log_all (unapply_calls l) (grab m (unlinked gm (w_io w)))) t w in
    dmdhcp_stop (Some p) w = Some (tt, w') ∧ Inv ∅ ∅ w'.
Proof.
  intros HI Hp Hm Hr. destruct (inv_leases _ _ _ HI p l Hp) as [Hmag Hty _ Htl _].
  destruct (table_mutex _ _ HI) as (gm & Hg & _). destruct (inv_table _ _ _ HI) as (t & Ht & _).
  exists gm, t. split; [done|]. split; [done|]. cbn zeta.
  destruct (teardown_run w p l
    (l ← load p; if iface_configured l then with_lease p dmdhcp_lifecycle_unapply else mret tt)
    (unapplied l) (log_all (unapply_calls l) (grab m (unlinked gm (w_io w)))) m HI Hp Hm Hr)
    as (gm' & t' & Hg' & Ht' & Hrun). simplify_eq.
  destruct Hrun as [Hrun HI'].
  - destruct (unapply_safe l (grab m (unlinked gm (w_io w))) Hty) as (? & ? & ? & Hrun & Hst).
    { destruct Htl. by split. }
    rewrite unapply_run in Hrun. by simplify_eq.
  - intros w0. apply load_then_unapply.
  - split; [|done]. unfold dmdhcp_stop. rewrite <- Hrun.
    rewrite <- (put_id p l w) at 1 by done. rewrite handle_put, put_id by done.
    apply w_ext; intros ? ?. apply w_ext; intros ? ?. by rewrite w_assoc.
Qed.

(** The run of [dmdhcp_output_send_release] when both addresses are known *)
Definition releases (l : lease) : bool := is_v4 (offered_ip l) && is_v4 (server_id l).

Definition release_calls (h : list call) (l : lease) : list call :=
  if releases l
  then send_calls h l dmdhcp_msg_release (Some (offered_ip l)) None (Some (server_id l)) (server_id l) false
  else [].

Lemma release_op_run p l s w :
  lease_typed l →
  (l ← load p;
   (if is_v4 (offered_ip l) && is_v4 (server_id l)
    then with_lease p dmdhcp_output_send_release;; mret tt else mret tt);;
   l ← load p;
   if iface_configured l then with_lease p dmdhcp_lifecycle_unapply else mret tt) (put p l s w)
  = Some (tt, put p (unapplied l) (log_all (release_calls (trace s) l ++ unapply_calls l) s) w).
Proof.
  intros Hl. rewrite load_put. unfold release_calls, releases.
  destruct (is_v4 (offered_ip l) && is_v4 (server_id l)).
  - destruct (send_message_run l s dmdhcp_msg_release (Some (offered_ip l)) None (Some (server_id l))
      (server_id l) false) as (rc & Hrc & _); [done|apply Hl|done|apply Hl|].
    rewrite w_assoc. erewrite with_lease_put by exact Hrc. rewrite w_ret_bind, load_then_unapply.
    by rewrite log_all_app.
  - rewrite w_ret_bind. apply load_then_unapply.
Qed.

Lemma release_run w p l m :
  Inv ∅ ∅ w → heap w !! p = Some l → lock l = Some m →
  (∀ t, own_timer l t → running (w_io w) ≠ Some t) →
  ∃ gm t, g_leases_mutex w = Some gm ∧ g_leases w = Some t ∧
    let s := grab m (unlinked gm (w_io w)) in
    let w' := torn_down p m (unapplied l)
      (log_all (release_calls (trace s) l ++ unapply_calls l) s) t w in
    dmdhcp_release (Some p) w = Some (0, w') ∧ Inv ∅ ∅ w'.
Proof.
  intros HI Hp Hm Hr. destruct (inv_leases _ _ _ HI p l Hp) as [Hmag Hty _ Htl _].
  destruct (table_mutex _ _ HI) as (gm & Hg & _). destruct (inv_table _ _ _ HI) as (t & Ht & _).
  exists gm, t. split; [done|]. split; [done|]. cbn zeta. set (s := grab m (unlinked gm (w_io w))).
  destruct (teardown_run w p l
    (l ← load p;
     (if is_v4 (offered_ip l) && is_v4 (server_id l)
      then with_lease p dmdhcp_output_send_release;; mret tt else mret tt);;
     l ← load p;
     if iface_configured l then with_lease p dmdhcp_lifecycle_unapply else mret tt) (unapplied l)
    (log_all (release_calls (trace s) l ++ unapply_calls l) s) m HI Hp Hm Hr)
    as (gm' & t' & Hg' & Ht' & Hrun). simplify_eq.
  destruct Hrun as [Hrun HI'].
  - destruct (unapply_safe l s Hty) as (? & ? & ? & Hrun & Hst).
    { destruct Htl. by split. }
    rewrite unapply_run in Hrun. simplify_eq. destruct Hst as [? ? _ Hb].
    split; [done|done|apply io_frame_log_all|done].
  - intros w0. by apply release_op_run.
  - split; [|done]. unfold dmdhcp_release.
    rewrite <- (put_id p l w) at 1 by done. rewrite handle_put, put_id by done.
    match type of Hrun with ?f w = _ =>
      transitivity ((f;; mret 0) w); [|by erewrite w_bind by exact Hrun] end.
    repeat (rewrite ?w_assoc; apply w_ext; intros ? ?). done.
Qed.

(** ** Starting a lease *)

(** The lease as [dmdhcp_start] hands it to the table: what the application
    passed in, the hostname if it could be copied *)
Definition configured (cbs : option dmdhcp_callbacks_t) (ud : Z) (hn : option (list Z)) (l : lease) : lease :=
  let l := match cbs with Some c => set_callbacks c l | None => l end in
  set_hostname hn (set_user_data ud l).

Definition copied_hostname (h : list call) (o : option (list Z)) : option (list Z) :=
  match o with
  | Some hn => if answer h (c_strdup hn) then Some hn else None
  | None => None
  end.

Definition copy_hostname (o : option (list Z)) (s : io) : io :=
  match o with
  | Some hn =>
      let s1 := log_all [c_strdup hn] s in
      if answer (trace s) (c_strdup hn) then set_blocks (blocks s + 1) s1 else s1
  | None => s
  end.

Lemma configure_run {B} cbs ud options p l s w (k : M B) :
  hostname l = None →
  (match cbs with
   | Some c => with_lease p (setl (set_callbacks c))
   | None => mret tt
   end;;
   with_lease p (setl (set_user_data ud));;
   match start_hostname options with
   | Some h => h ← wio (Dmod_StrDup h); with_lease p (setl (set_hostname h))
   | None => mret tt
   end;;
   k) (put p l s w)
  = k (put p (configured cbs ud (copied_hostname (trace s) (start_hostname options)) l)
        (copy_hostname (start_hostname options) s) w).
Proof.
  intros Hh. unfold configured.
  assert (H2 : ∀ l1, hostname l1 = None → (with_lease p (setl (set_user_data ud));;
     match start_hostname options with
     | Some h => h ← wio (Dmod_StrDup h); with_lease p (setl (set_hostname h))
     | None => mret tt
     end;; k) (put p l1 s w) = k (put p (set_hostname (copied_hostname (trace s) (start_hostname options))
        (set_user_data ud l1)) (copy_hostname (start_hostname options) s) w)).
  { intros l1 Hl1. erewrite with_lease_put by reflexivity. cbn [self plat].
    destruct (start_hostname options) as [hn|]; simpl.
    - rewrite w_assoc. unfold Dmod_StrDup.
      destruct (answer (trace s) (c_strdup hn) : bool) eqn:Ha.
      + erewrite wio_put; [by erewrite with_lease_put by reflexivity|].
        unfold mbind, st_bind. rewrite ext_run, Ha. reflexivity.
      + erewrite wio_put; [by erewrite with_lease_put by reflexivity|].
        unfold mbind, st_bind. rewrite ext_run, Ha. reflexivity.
    - rewrite w_ret_bind. do 2 f_equal. destruct l1; simpl in *; by subst. }
  destruct cbs as [c|].
  - erewrite with_lease_put by reflexivity. by apply H2.
  - rewrite w_ret_bind. by apply H2.
Qed.

Lemma configured_step cbs ud o l s :
  lease_typed l → hostname l = None → from_option bytes_ok True o →
  lease_step l s (configured cbs ud (copied_hostname (trace s) o) l) (copy_hostname o s).
Proof.
  intros Hl Hh Ho. assert (Hty : lease_typed (configured cbs ud (copied_hostname (trace s) o) l)).
  { destruct Hl. unfold configured, copied_hostname.
    destruct cbs; split; try done; simpl; destruct o as [hn|]; try done;
      by destruct (answer (trace s) (c_strdup hn)). }
  split; [done| | |].
  - unfold configured. by destruct cbs.
  - unfold copy_hostname. destruct o as [hn|]; [|done].
    destruct (answer (trace s) (c_strdup hn) : bool); [|apply io_frame_log_all].
    etransitivity; [apply io_frame_log_all|apply io_frame_set_blocks].
  - unfold lease_blocks, configured, copy_hostname, copied_hostname. rewrite Hh.
    destruct cbs, o as [hn|]; simpl; rewrite ?Hh; try lia;
      destruct (answer (trace s) (c_strdup hn) : bool); simpl; lia.
Qed.

Lemma closable_step l s l' s' : closable l s → lease_step l s l' s' → closable l' s'.
Proof.
  intros [] [_ [] [] _]. split; intros x.
  - rewrite lf_rt, if_timers, if_running. auto.
  - rewrite lf_lt, lf_rt, if_timers, if_running. auto.
  - rewrite lf_lock, if_mutexes. auto.
Qed.

Lemma closable_io l s s' : closable l s → io_frame s s' → closable l s'.
Proof.
  intros [] []. split; intros x; rewrite ?if_timers, ?if_running, ?if_mutexes; auto.
Qed.

(** The first message: [dmdhcp_output_start_reboot] or [_start_discovery] *)
Definition start_op (req : option dmroute_addr_t) : lop unit :=
  match req with
  | Some a => setl (set_offered_ip a);; dmdhcp_output_start_reboot
  | None => dmdhcp_output_start_discovery
  end.

Lemma set_offered_ip_safe a : addr_v4_or_none a → lop_safe (setl (set_offered_ip a)).
Proof. intros Ha. apply lop_safe_setl. intros l []. by split; split. Qed.

Lemma start_op_safe req : addr_arg_ok req → lop_safe (start_op req).
Proof.
  intros Hr. destruct req as [a|]; [|apply start_discovery_safe].
  apply lop_safe_bind; [by apply set_offered_ip_safe|]. intros _. apply start_reboot_safe.
Qed.

(** What a started lease is like, whatever the path *)
Record started (i : iface_t) (cbs : option dmdhcp_callbacks_t) (ud : Z)
    (req : option dmroute_addr_t) (l : lease) : Prop := {
  st_iface : iface l = i;
  st_callbacks : callbacks l = default callbacks_zero cbs;
  st_user_data : user_data l = ud;
  st_state : state l = if req is Some _ then dmdhcp_state_rebooting else dmdhcp_state_selecting;
  st_offered_ip : offered_ip l = default addr_none req;
  st_interval : retransmit_interval_ms l = DMDHCP_RETRANSMIT_INITIAL_MS;
  st_count : retransmit_count l = 0;
  st_declines : decline_retry_count l = 0;
  st_configured : iface_configured l = false;
}.

Lemma in_phase_started i cbs ud req x l st :
  iface l = i → callbacks l = default callbacks_zero cbs → user_data l = ud →
  decline_retry_count l = 0 → iface_configured l = false → offered_ip l = default addr_none req →
  st = (if req is Some _ then dmdhcp_state_rebooting else dmdhcp_state_selecting) →
  started i cbs ud req (in_phase st x l).
Proof. by split. Qed.

Lemma start_op_run req i cbs ud l s :
  addr_arg_ok req → lease_typed l → timers_live l s → iface l = i →
  callbacks l = default callbacks_zero cbs → user_data l = ud →
  decline_retry_count l = 0 → iface_configured l = false →
  ∃ l' s', start_op req (LCtx l s) = Some (tt, LCtx l' s') ∧ lease_step l s l' s' ∧
    started i cbs ud req l' ∧ hostname l' = hostname l.
Proof.
  intros Hreq Hl Ht Hi Hcb Hud Hd Hc.
  destruct (start_op_safe req Hreq l s Hl Ht) as ([] & l' & s' & Hrun & Hst).
  exists l', s'. split; [done|]. split; [done|]. destruct Ht as [(t & Ht & Hin) _].
  destruct req as [a|]; unfold start_op in Hrun.
  - rewrite setl_bind in Hrun.
    rewrite (start_reboot_run _ s t) in Hrun; [|by destruct Hl; split|done|done].
    injection Hrun as <- _. split; [by apply in_phase_started|done].
  - rewrite (start_discovery_run _ s t) in Hrun by done.
    injection Hrun as <- _. split; [by apply in_phase_started|done].
Qed.

(** [dmdhcp_start] after the insertion returned [rc] *)
Definition start_tail (p : ptr) (req : option dmroute_addr_t) (rc : Z) : M (option ptr) :=
  if negb (rc =? 0) then
    dmdhcp_lease_table_destroy (Some p);;
    mret None
  else
    lock_lease p;;
    match req with
    | Some a =>
        with_lease p (setl (set_offered_ip a));;
        with_lease p dmdhcp_output_start_reboot
    | None => with_lease p dmdhcp_output_start_discovery
    end;;
    unlock_lease p;;
    mret (Some p).

Lemma start_tail_fails p l s w req rc :
  Inv ∅ {[p]} (put p l s w) → heap w !! p = None → closable l s → rc ≠ 0 →
  ∃ w', start_tail p req rc (put p l s w) = Some (None, w') ∧ Inv ∅ ∅ w' ∧
    running (w_io w') = running s ∧ heap w' = heap w ∧ g_leases w' = g_leases w ∧
    trace s `prefix_of` trace (w_io w').
Proof.
  intros HI Hp Hcl Hrc. unfold start_tail. rewrite (proj2 (Z.eqb_neq rc 0) Hrc). cbn [negb].
  unfold dmdhcp_lease_table_destroy, dmdhcp_lease_table_destroy_with_context.
  rewrite (w_bind _ _ _ _ _ (destroy_run p l s w Hcl)).
  eexists. split; [reflexivity|].
  pose proof (Inv_gone _ p l HI (heap_put _ _ _ _)) as HI'.
  assert (gone p (freed l (w_io (put p l s w))) (put p l s w) = gone p (freed l s) w) as Heq.
  { unfold gone, put, set_w_io, set_heap. simpl. by rewrite delete_insert_eq. }
  rewrite Heq in HI'. split; [done|]. simpl.
  destruct (freed_io l s) as (_ & _ & _ & _ & _ & ->).
  split; [done|]. split; [by apply delete_id|]. split; [done|]. apply freed_grows.
Qed.

Lemma start_tail_runs p l s w m req i cbs ud :
  Inv ∅ ∅ (put p l s w) → lock l = Some m → addr_arg_ok req → iface l = i →
  callbacks l = default callbacks_zero cbs → user_data l = ud →
  decline_retry_count l = 0 → iface_configured l = false →
  ∃ l' s', start_tail p req 0 (put p l s w) = Some (Some p, put p l' s' w) ∧
    Inv ∅ ∅ (put p l' s' w) ∧ running s' = running s ∧ started i cbs ud req l' ∧ hostname l' = hostname l.
Proof.
  intros HI Hm Hreq Hi Hcb Hud Hd Hc.
  pose proof (inv_leases _ _ _ HI p l (heap_put _ _ _ _)) as [_ Hty (m' & Hm' & [b Hb]) Htl _].
  simplify_eq. destruct (inv_mutexes _ _ _ HI _ _ Hb) as [-> _].
  destruct (start_op_run req (iface l) cbs (user_data l) l (grab m s) Hreq Hty)
    as (l' & s' & Hrun & Hst & Hstd & Hh); try done.
  { destruct Htl. by split. }
  pose proof Hst as [_ Hf Hio _].
  exists l', (release m s'). unfold start_tail. cbn [negb Z.eqb].
  rewrite (lock_put _ _ _ _ m) by done. split; [|split; [|split; [|split]]].
  - assert (Hop : match req with
      | Some a => with_lease p (setl (set_offered_ip a));; with_lease p dmdhcp_output_start_reboot
      | None => with_lease p dmdhcp_output_start_discovery
      end (put p l (grab m s) w) = Some (tt, put p l' s' w)).
    { destruct req as [a|]; [|by apply with_lease_run]. unfold start_op in Hrun.
      rewrite setl_bind in Hrun. erewrite with_lease_put by reflexivity. by apply with_lease_run. }
    rewrite (w_bind _ _ _ _ _ Hop).
    by rewrite (unlock_put _ _ _ _ m) by (by rewrite ?(lf_lock _ _ Hf), ?(if_mutexes _ _ Hio), ?mutexes_grab).
  - by apply (Inv_section ∅ ∅ w p l s m).
  - simpl. by rewrite (if_running _ _ Hio).
  - done.
  - done.
Qed.

(** What [dmdhcp_start] answers and leaves *)
Definition start_result (i : iface_t) (cbs : option dmdhcp_callbacks_t) (ud : Z)
    (options : option dmdhcp_options_t) (w : world) (r : option ptr) (w' : world) : Prop :=
  Inv ∅ ∅ w' ∧ running (w_io w') = running (w_io w) ∧
  match r with
  | None => heap w' = heap w ∧ g_leases w' = g_leases w
  | Some p => (∀ q lq, heap w !! q = Some lq → iface lq ≠ i) ∧ heap w !! p = None ∧
      ∃ l, heap w' = <[p := l]> (heap w) ∧ started i cbs ud (start_requested_ip options) l ∧
        (hostname l = start_hostname options ∨ hostname l = None)
  end ∧
  (granted (trace (w_io w)) (trace (w_io w')) → (∀ q lq, heap w !! q = Some lq → iface lq ≠ i) → is_Some r).

Lemma start_inserted i cbs ud options w p l s t m cs :
  Inv ∅ {[p]} (put p l s w) → heap w !! p = None → g_leases w = Some t → lock l = Some m →
  iface l = i → callbacks l = default callbacks_zero cbs → user_data l = ud →
  decline_retry_count l = 0 → iface_configured l = false →
  (hostname l = start_hostname options ∨ hostname l = None) →
  addr_arg_ok (start_requested_ip options) → running s = running (w_io w) →
  (∀ q lq, heap (put p l s w) !! q = Some lq → q ≠ p → iface lq ≠ iface l) →
  ∃ r w', start_tail p (start_requested_ip options) 0
    (put p l (log_all cs s) (set_g_leases (Some (dmlist_push_back t p)) w)) = Some (r, w') ∧
    start_result i cbs ud options w r w'.
Proof.
  intros HI Hp Ht Hm Hi Hcb Hud Hd Hc Hh Hreq Hr Hfree.
  assert (HI1 : Inv ∅ ∅ (put p l (log_all cs s) (set_g_leases (Some (dmlist_push_back t p)) w))).
  { exact (Inv_log _ _ _ cs (Inv_insert _ t p l HI Ht (heap_put _ _ _ _) Hfree)). }
  destruct (start_tail_runs p l (log_all cs s) _ m (start_requested_ip options) i cbs ud HI1 Hm)
    as (l' & s' & Hrun & HI' & Hr' & Hst & Hh'); [done..|].
  do 2 eexists. split; [exact Hrun|]. split; [done|]. split; [by rewrite <- Hr|].
  split; [|by eauto]. split; [|split; [done|]].
  - intros q lq Hq. assert (Hqp : q ≠ p) by congruence. rewrite <- Hi. apply (Hfree q); [|done].
    simpl. by rewrite lookup_insert_ne.
  - exists l'. split; [done|]. split; [done|]. by rewrite Hh'.
Qed.

Lemma start_run i cbs ud options w :
  Inv ∅ ∅ w → i ≠ 0 →
  from_option bytes_ok True (start_hostname options) → addr_arg_ok (start_requested_ip options) →
  ∃ r w', dmdhcp_start i cbs ud options w = Some (r, w') ∧ start_result i cbs ud options w r w'.
Proof.
  intros HI Hi Hhn Hreq. unfold dmdhcp_start. rewrite (proj2 (Z.eqb_neq i 0) Hi).
  destruct (create_run i w HI) as (r & w1 & Hcr & Hr & Hgrow & HP). rewrite (w_bind _ _ _ _ _ Hcr).
  destruct r as [p|].
  2:{ destruct Hr as (s & -> & Hs). do 2 eexists. split; [reflexivity|].
      split; [by apply Inv_resources|]. split; [apply Hs|]. split; [done|]. by intros HP'%HP. }
  destruct Hr as (m & d & n & rt & lt & s & Hp & -> & HI1 & Hrs & Hcl).
  set (l0 := created i _) in *. rewrite configure_run by reflexivity.
  set (hn := copied_hostname (trace s) (start_hostname options)).
  set (l1 := configured cbs ud hn l0). set (s1 := copy_hostname (start_hostname options) s).
  assert (Hty0 : lease_typed l0) by (apply (inv_leases _ _ _ HI1 p); apply heap_put).
  assert (Hst1 : lease_step l0 s l1 s1) by (by apply configured_step).
  assert (HI2 : Inv ∅ {[p]} (put p l1 s1 w)).
  { pose proof (Inv_step _ _ _ p l0 l1 s1 HI1 (heap_put _ _ _ _) Hst1) as H. by rewrite put_put in H. }
  pose proof (closable_step _ _ _ _ Hcl Hst1) as Hcl1.
  assert (Hr1 : running s1 = running (w_io w)).
  { rewrite <- Hrs. apply (if_running _ _ (ls_io _ _ _ _ Hst1)). }
  destruct (insert_run (put p l1 s1 w) p l1 HI2 (heap_put _ _ _ _)) as (gm & t & Hg & Ht & Hins & Htaken).
  cbn zeta in Hins, Htaken.
  assert (Hfree : (∀ q lq, heap w !! q = Some lq → iface lq ≠ i) →
    ∀ q lq, heap (put p l1 s1 w) !! q = Some lq → q ≠ p → iface lq ≠ iface l1).
  { intros Hf q lq [[-> _]|[_ Hq]]%lookup_put Hne; [done|].
    replace (iface l1) with i by (unfold l1, configured; by destruct cbs). by eapply Hf. }
  assert (Hfail : ∀ rc cs, rc ≠ 0 → (∀ h', trace (log_all cs s1) `prefix_of` h' → granted (trace (w_io w)) h' →
      (∀ q lq, heap w !! q = Some lq → iface lq ≠ i) → False) → ∃ r w',
    start_tail p (start_requested_ip options) rc (put p l1 (log_all cs s1) w) = Some (r, w') ∧
    start_result i cbs ud options w r w').
  { intros rc cs Hrc Hno.
    destruct (start_tail_fails p l1 (log_all cs s1) w (start_requested_ip options) rc)
      as (w' & Hrun & HI' & Hr' & Hh' & Hl' & Htr'); [|done| |done|].
    - exact (Inv_log _ _ _ cs HI2).
    - exact (closable_io _ _ _ Hcl1 (io_frame_log_all cs s1)).
    - exists None, w'. split; [done|]. split; [done|]. split; [by rewrite Hr'|].
      split; [done|]. intros HP1 HP2. by destruct (Hno _ Htr' HP1 HP2). }
  destruct (List.find _ _) as [q|];
    [|destruct (answer (trace (grab gm (w_io (put p l1 s1 w)))) c_list_push : bool) eqn:Hpush];
    rewrite (w_bind _ _ _ _ _ Hins); clear Hins.
  - apply (Hfail (- EEXIST) [c_mutex_lock gm; c_mutex_unlock gm]); [done|].
    intros _ _ _ Hf. by pose proof (proj2 Htaken (Hfree Hf)).
  - apply (start_inserted i cbs ud options w p l1 s1 t m [c_mutex_lock gm; c_list_push; c_mutex_unlock gm]);
      try done; try (unfold l1, configured; by destruct cbs).
    + unfold l1, configured, hn, copied_hostname. destruct (start_hostname options) as [h|], cbs; simpl; auto;
        destruct (answer (trace s) (c_strdup h) : bool); auto.
    + by apply Htaken.
  - apply (Hfail (- ENOMEM) [c_mutex_lock gm; c_list_push; c_mutex_unlock gm]); [done|].
    intros h' Hh' HG _. specialize (HG (trace (grab gm s1)) c_list_push). cbn [grants] in HG.
    change (w_io (put p l1 s1 w)) with s1 in Hpush. rewrite HG in Hpush; [done|..].
    + etransitivity; [exact Hgrow|]. apply prefix_app_r, (if_trace _ _ (ls_io _ _ _ _ Hst1)).
    + etransitivity; [|exact Hh']. exists [c_mutex_unlock gm]. simpl. by rewrite <- !app_assoc.
Qed.
End ApiFacts.
