(* ===== verification/Handlers.v ===== *)
(** What each handler does to one lease, exactly: the dispatch of a datagram,
    the two timer callbacks and [dmdhcp_renew], on every branch, as the lease
    and the calls they leave. *)
From S2P Require Import Prelude Types Wire Options Platform Lease Output Lifecycle World Invariant LeaseTable TableFacts Queries Timers Input Api.

(** ** One critical section *)
Section Sections.
Context `{E : Env} {EO : EnvOk E} `{D : DmList} {DL : DmListLaws D}.

(** [p] is the live lease [l], with its mutex and its two timers, and no mutex
    is held. *)
Record owner (w : world) (p : ptr) (l : lease) (m rt lt : handle) : Prop := {
  ow_inv : Inv ∅ ∅ w;
  ow_lease : heap w !! p = Some l;
  ow_lock : lock l = Some m;
  ow_retransmit : retransmit_timer l = Some rt;
  ow_timer : lease_timer l = Some lt;
}.

(** The world after a critical section of lease [p] that made the calls [cs]
    and left the lease as [l'] *)
Definition sectioned (p : ptr) (m : handle) (cs : list call) (l l' : lease) (w : world) : world :=
  put p l' (set_blocks (blocks (w_io w) - lease_blocks l + lease_blocks l')
    (log_all (section_calls m cs) (w_io w))) w.

(** The calls made when the section is entered *)
Definition entered (m : handle) (w : world) : list call := trace (w_io w) ++ [c_mutex_lock m].

Lemma owner_live w p l m rt lt : owner w p l m rt lt → lease_live (w_io w) l.
Proof. intros []. by eapply inv_leases. Qed.

Lemma owner_typed w p l m rt lt : owner w p l m rt lt → lease_typed l.
Proof. intros Ho. eapply ll_typed, owner_live, Ho. Qed.

Lemma owner_rt w p l m rt lt : owner w p l m rt lt → rt ∈ timers (w_io w).
Proof.
  intros Ho. destruct (ll_timers _ _ (owner_live _ _ _ _ _ _ Ho)) as [(t & Ht & Hin) _].
  pose proof (ow_retransmit _ _ _ _ _ _ Ho). by simplify_eq.
Qed.

Lemma owner_lt w p l m rt lt : owner w p l m rt lt → lt ∈ timers (w_io w).
Proof.
  intros Ho. destruct (ll_timers _ _ (owner_live _ _ _ _ _ _ Ho)) as [_ (t & Ht & Hin)].
  pose proof (ow_timer _ _ _ _ _ _ Ho). by simplify_eq.
Qed.

Lemma owner_free w p l m rt lt : owner w p l m rt lt → mutexes (w_io w) !! m = Some false.
Proof.
  intros Ho. destruct (ll_lock _ _ (owner_live _ _ _ _ _ _ Ho)) as (m' & Hm & [b Hb]).
  pose proof (ow_lock _ _ _ _ _ _ Ho). simplify_eq. rewrite Hb. f_equal.
  by destruct (inv_mutexes _ _ _ (ow_inv _ _ _ _ _ _ Ho) _ _ Hb) as [-> _].
Qed.

Lemma live_owner w p l : Inv ∅ ∅ w → heap w !! p = Some l → ∃ m rt lt, owner w p l m rt lt.
Proof.
  intros HI Hp. destruct (inv_leases _ _ _ HI p l Hp) as [_ _ (m & Hm & _) [(rt & Hrt & _) (lt & Hlt & _)] _].
  by exists m, rt, lt.
Qed.

Lemma owner_logged cs w p l m rt lt : owner w p l m rt lt → owner (logged cs w) p l m rt lt.
Proof. intros []. split; try done. by apply Inv_log. Qed.

(** Entering the section, and leaving it *)
Lemma section_start {B} w p l m rt lt (k : unit → M B) :
  owner w p l m rt lt → (lock_lease p ≫= k) w = k tt (put p l (grab m (w_io w)) w).
Proof.
  intros Ho. rewrite <- (put_id p l w) at 1 by apply Ho.
  by rewrite (lock_put _ _ _ _ m) by (apply Ho || by eapply owner_free).
Qed.

Lemma section_end {B} w p l m rt lt cs n l' (k : unit → M B) :
  owner w p l m rt lt → lock l' = lock l → n = blocks (w_io w) - lease_blocks l + lease_blocks l' →
  (unlock_lease p ≫= k) (put p l' (set_blocks n (log_all cs (grab m (w_io w)))) w)
  = k tt (sectioned p m cs l l' w).
Proof.
  intros Ho Hl ->. rewrite (unlock_put _ _ _ _ m).
  - by rewrite release_blocks, release_grab by (by eapply owner_free).
  - rewrite Hl. apply Ho.
  - apply mutexes_grab.
Qed.

Lemma section_last w p l m rt lt cs n l' :
  owner w p l m rt lt → lock l' = lock l → n = blocks (w_io w) - lease_blocks l + lease_blocks l' →
  unlock_lease p (put p l' (set_blocks n (log_all cs (grab m (w_io w)))) w)
  = Some (tt, sectioned p m cs l l' w).
Proof. intros. rewrite <- bind_ret_r. by erewrite section_end. Qed.

(** The same for a section that only made calls and set fields *)
Lemma section_end_owned {B} w p l m rt lt cs l' (k : unit → M B) :
  owner w p l m rt lt → same_owned l l' →
  (unlock_lease p ≫= k) (put p l' (log_all cs (grab m (w_io w))) w) = k tt (sectioned p m cs l l' w).
Proof.
  intros Ho Hs. change (log_all cs (grab m (w_io w))) with
    (set_blocks (blocks (w_io w)) (log_all cs (grab m (w_io w)))).
  eapply section_end; [done|apply Hs|]. rewrite (lease_blocks_same _ _ Hs). lia.
Qed.

Lemma section_last_owned w p l m rt lt cs l' :
  owner w p l m rt lt → same_owned l l' →
  unlock_lease p (put p l' (log_all cs (grab m (w_io w))) w) = Some (tt, sectioned p m cs l l' w).
Proof. intros. rewrite <- bind_ret_r. by erewrite section_end_owned. Qed.

(** The invariant after a section *)
Lemma section_blocks l l' m cs n w :
  lease_step l (grab m (w_io w)) l' (set_blocks n (log_all cs (grab m (w_io w)))) →
  n = blocks (w_io w) - lease_blocks l + lease_blocks l'.
Proof. intros [_ _ _ Hb]. simpl in Hb. lia. Qed.

Lemma sectioned_owner w p l m rt lt cs n l' :
  owner w p l m rt lt →
  lease_step l (grab m (w_io w)) l' (set_blocks n (log_all cs (grab m (w_io w)))) →
  owner (sectioned p m cs l l' w) p l' m rt lt.
Proof.
  intros Ho Hst. pose proof (section_blocks _ _ _ _ _ _ Hst) as ->.
  pose proof Hst as [_ [] _ _]. pose proof Ho as [HI Hp Hm Hrt Hlt].
  split; [|apply heap_put|congruence..].
  assert (HI' : Inv ∅ ∅ (put p l (w_io w) w)) by (by rewrite put_id).
  pose proof (Inv_section ∅ ∅ w p l (w_io w) m _ _ HI' (not_elem_of_empty m) Hm Hst) as HI2.
  by rewrite release_blocks, release_grab in HI2 by (by eapply owner_free).
Qed.

(** A section that changes nothing *)
Lemma section_idle w p l m rt lt :
  owner w p l m rt lt →
  owner (logged (section_calls m []) w) p l m rt lt ∧
  ∀ (B : Type) (k : unit → M B), (lock_lease p;; unlock_lease p ≫= k) w = k tt (logged (section_calls m []) w).
Proof.
  intros Ho. split.
  - by apply owner_logged.
  - intros B k. erewrite section_start by done.
    change (grab m (w_io w)) with (set_blocks (blocks (w_io w)) (grab m (w_io w))).
    rewrite <- (log_all_nil (grab m (w_io w))). erewrite section_end; [|done|done|lia].
    f_equal. unfold sectioned, logged. replace (_ - _ + _) with (blocks (w_io w)) by lia.
    rewrite put_io by apply Ho. by rewrite set_blocks_log_all, set_blocks_id.
Qed.

(** The end of a handler that called the application back *)
Lemma relocked w p l m rt lt :
  owner w p l m rt lt →
  (lock_lease p;; unlock_lease p) w = Some (tt, logged (section_calls m []) w).
Proof.
  intros Ho. destruct (section_idle _ _ _ _ _ _ Ho) as [_ Hrun].
  etransitivity; [|exact (Hrun unit mret)]. apply w_ext. intros ? ?. symmetry. apply bind_ret_r.
Qed.
End Sections.

(** Run the next computation of a handler inside the section. *)
Ltac in_section H := erewrite with_lease_put by exact H.
Ltac in_rt Ho := erewrite with_lease_put
  by (eapply arm_retransmit_run; [exact (ow_retransmit _ _ _ _ _ _ Ho)|exact (owner_rt _ _ _ _ _ _ Ho)]).
Ltac in_lt Ho tac := erewrite with_lease_put
  by (eapply tac; [exact (ow_timer _ _ _ _ _ _ Ho)|exact (owner_lt _ _ _ _ _ _ Ho)]).
Ltac accounts := unfold lease_blocks; simpl; lia.
Ltac section_done Ho := erewrite (section_last _ _ _ _ _ _ _ _ _ Ho); [reflexivity|reflexivity|accounts].
Ltac section_ends Ho := erewrite (section_end _ _ _ _ _ _ _ _ _ _ Ho); [|reflexivity|accounts].
Ltac type_codes :=
  change (u8 (msg_type_val dmdhcp_msg_offer)) with 2 in *;
  change (u8 (msg_type_val dmdhcp_msg_ack)) with 5 in *;
  change (u8 (msg_type_val dmdhcp_msg_nak)) with 6 in *.
Ltac set_field := erewrite with_lease_put by reflexivity; cbn [self plat].

(** ** Datagrams *)
Section Datagrams.
Context `{E : Env} {EO : EnvOk E} `{D : DmList} {DL : DmListLaws D} `{C : !Client}.

(** The replies that start a conflict probe, and the state that waits for it *)
Definition probed_as (t : Z) (s : dmdhcp_state_t) : option dmdhcp_state_t :=
  match s with
  | dmdhcp_state_selecting => if t =? 2 then Some dmdhcp_state_checking_offer else None
  | dmdhcp_state_requesting | dmdhcp_state_rebooting =>
      if t =? 5 then Some dmdhcp_state_checking_ack else None
  | _ => None
  end.

Lemma probe_handoff w p l m rt lt msg options t s' :
  owner w p l m rt lt → bytes_ok options → probed_as t (state l) = Some s' →
  ∃ dns ntp cs, Forall allocates cs ∧
    holds_servers dns (learned_dns options) ∧ holds_servers ntp (learned_ntp options) ∧
    dispatch_message p msg options t w =
      Some (tt, sectioned p m (cs ++ arm_calls rt DMDHCP_PROBE_HANDOFF_MS) l
        (set_state s' (learned msg options dns ntp l)) w).
Proof.
  intros Ho Hok Hs. pose proof (owner_typed _ _ _ _ _ _ Ho) as Hl.
  destruct (populate_run msg options l (grab m (w_io w)) Hl Hok) as (dns & ntp & cs & Hrun & Hal & Hd & Hn).
  exists dns, ntp, cs. do 3 (split; [done|]).
  unfold dispatch_message. erewrite section_start by done. rewrite load_put. cbv zeta. type_codes.
  unfold probed_as in Hs. destruct (state l); try done;
    (lazymatch type of Hs with context [?a =? ?b] => destruct (Z.eqb_spec a b) as [->|] end; [|done]);
    injection Hs as <-; decide_states; cbn [Z.eqb Pos.eqb andb orb]; in_section Hrun; set_field;
    unfold arm_probe; in_rt Ho; rewrite <- set_blocks_log_all, log_all_app;
    section_done Ho.
Qed.

(** C17: an OFFER while selecting, and an ACK while requesting or rebooting,
    are learned and then probed: under the lease lock the lease learns the
    message ([learned]), goes to the checking state, and its
    retransmit timer is armed for 1 ms later, so that the ARP probe runs in
    the timer's context.  Nothing else is called but the allocations of the
    server lists, and every octet allocated is owned by the lease. *)
Theorem reply_hands_to_probe w p l m rt lt msg options t s' :
  owner w p l m rt lt → bytes_ok options → probed_as t (state l) = Some s' →
  ∃ dns ntp cs, Forall allocates cs ∧
    holds_servers dns (learned_dns options) ∧ holds_servers ntp (learned_ntp options) ∧
    dispatch_message p msg options t w =
      Some (tt, sectioned p m (cs ++ [c_timer_set_period rt 1; c_timer_start rt]) l
        (set_state s' (learned msg options dns ntp l)) w).
Proof. apply probe_handoff. Qed.

(** The lease as a binding leaves it: applied to the interface (if that
    succeeded), bound, its declines forgotten, T1 armed *)
Definition bound_as (h : list call) (l : lease) : lease :=
  set_decline_retry_count 0 (set_state dmdhcp_state_bound (apply_lease h l)).

Definition binding_calls (h : list call) (l : lease) (lt : handle) : list call :=
  apply_made h l ++ [c_timer_set_period lt (t1_period l); c_timer_start lt].

Lemma t1_period_bound h l : t1_period (bound_as h l) = t1_period l.
Proof. unfold bound_as, apply_lease. by case_match. Qed.

Lemma bound_as_owned h l : same_owned l (bound_as h l) ∧ callbacks (bound_as h l) = callbacks l ∧
  user_data (bound_as h l) = user_data l.
Proof. unfold bound_as, apply_lease. by case_match. Qed.

Lemma binding_step l s lt :
  lease_typed l →
  lease_step l s (bound_as (trace s) l) (log_all (binding_calls (trace s) l lt) s).
Proof.
  intros Hl. destruct (apply_lease_step l s Hl) as [Hty Hf _ Hb].
  destruct (bound_as_owned (trace s) l) as [Hs _].
  split; [|apply Hs|apply io_frame_log_all|by rewrite (lease_blocks_same _ _ Hs)].
  unfold bound_as. destruct Hty. by split; [..|split|].
Qed.

(** The four computations of a binding *)
Lemma binding_run {B} p l s w lt (k : unit → M B) :
  lease_typed l → lease_timer l = Some lt → lt ∈ timers s →
  (with_lease p dmdhcp_lifecycle_apply;;
   with_lease p (setl (set_state dmdhcp_state_bound));;
   with_lease p (setl (set_decline_retry_count 0));;
   with_lease p dmdhcp_lifecycle_arm_t1 ≫= k) (put p l s w)
  = k tt (put p (bound_as (trace s) l) (log_all (binding_calls (trace s) l lt) s) w).
Proof.
  intros Hl Hlt Hin. erewrite with_lease_put by (by apply apply_made_run). do 2 set_field.
  change (set_decline_retry_count 0 _) with (bound_as (trace s) l).
  destruct (bound_as_owned (trace s) l) as [[[] _] _].
  erewrite with_lease_put by (apply (arm_t1_run _ _ lt); [congruence|done]).
  by rewrite t1_period_bound, log_all_app.
Qed.

(** C16: an ACK while renewing or rebinding binds the lease again, at once and
    without a probe.  The lease learns the message and is applied to the
    interface; it is bound - even when applying failed - with its declines
    reset and its lease timer armed for the new T1.  Then, and only then, the
    lease lock is released and [on_bound] is called, as a renewal, in a world
    where the invariant holds and no mutex is held. *)
Theorem renewal_rebinds w p l m rt lt msg options :
  owner w p l m rt lt → bytes_ok options → addr_v4_or_none (yiaddr msg) →
  state l = dmdhcp_state_renewing ∨ state l = dmdhcp_state_rebinding →
  ∃ dns ntp cs, Forall allocates cs ∧
    holds_servers dns (learned_dns options) ∧ holds_servers ntp (learned_ntp options) ∧
    let l1 := learned msg options dns ntp l in
    let h := entered m w ++ cs in
    let w1 := sectioned p m (cs ++ apply_made h l1 ++ [c_timer_set_period lt (t1_period l1); c_timer_start lt])
                l (bound_as h l1) w in
    dispatch_message p msg options 5 w
      = invoke (on_bound (callbacks l)) (λ f, c_on_bound f p true (user_data l)) w1 ∧
    owner w1 p (bound_as h l1) m rt lt.
Proof.
  intros Ho Hok Hy Hs. pose proof (owner_typed _ _ _ _ _ _ Ho) as Hl.
  destruct (populate_run msg options l (grab m (w_io w)) Hl Hok) as (dns & ntp & cs & Hrun & Hal & Hd & Hn).
  exists dns, ntp, cs. do 3 (split; [done|]). cbn zeta.
  pose proof (learned_step msg options dns ntp l (grab m (w_io w)) cs Hl Hok Hy Hd Hn) as Hst.
  set (l1 := learned msg options dns ntp l) in *. set (s1 := set_blocks _ _) in *.
  pose proof (lease_step_trans _ _ _ _ _ _ Hst (binding_step l1 s1 lt (ls_typed _ _ _ _ Hst))) as Hst2.
  change (trace s1) with (entered m w ++ cs) in Hst2. set (h := entered m w ++ cs) in *.
  unfold s1 in Hst2. rewrite <- set_blocks_log_all, log_all_app in Hst2.
  split; [|by eapply sectioned_owner].
  unfold dispatch_message. erewrite section_start by done. rewrite load_put. cbv zeta. type_codes.
  assert (Hlt : lease_timer l1 = Some lt) by apply Ho.
  destruct Hs as [-> | ->]; decide_states; cbn [Z.eqb Pos.eqb andb orb]; in_section Hrun;
    (rewrite (binding_run _ _ _ _ lt); [|apply Hst|exact Hlt|exact (owner_lt _ _ _ _ _ _ Ho)]);
    change (trace s1) with h; rewrite load_put; cbv zeta;
    unfold s1; rewrite <- set_blocks_log_all, log_all_app;
    rewrite (section_end _ _ _ _ _ _ _ _ _ _ Ho (lf_lock _ _ (ls_frame _ _ _ _ Hst2))
      (section_blocks _ _ _ _ _ _ Hst2));
    by destruct (bound_as_owned h l1) as (_ & -> & ->).
Qed.

(** The lease when its loss is reported: off the interface, its NTP servers
    withdrawn *)
Definition given_up (l : lease) : lease := set_ntp_servers (cleared (ntp_servers l)) (unapplied l).

Lemma given_up_step l s :
  lease_typed l →
  lease_step l s (given_up l) (set_blocks (blocks s - server_count (ntp_servers l))
    (log_all (unapply_calls l) s)).
Proof.
  intros Hl. assert (Hs : same_owned l (unapplied l)) by (unfold unapplied; case_match; by repeat split).
  split.
  - pose proof (unapplied_typed l Hl) as []. split; try done.
    apply cleared_typed, Hl.
  - destruct Hs as [[] _]. by split.
  - etransitivity; [apply io_frame_log_all|apply io_frame_set_blocks].
  - destruct Hs as (_ & Hd & _ & Hh). unfold lease_blocks, given_up. simpl. rewrite cleared_count, Hd, Hh. lia.
Qed.

(** A section that restarts discovery *)
Lemma discovery_section {B} w p l m rt lt (k : unit → M B) :
  owner w p l m rt lt →
  (with_lease p dmdhcp_output_start_discovery;; unlock_lease p ≫= k) (put p l (grab m (w_io w)) w)
  = k tt (sectioned p m (discovery_calls (entered m w) l rt) l
      (discovering (rand_after (entered m w)) l) w).
Proof.
  intros Ho. erewrite with_lease_put.
  2:{ apply (start_discovery_run _ _ rt); [by eapply owner_typed|apply Ho|exact (owner_rt _ _ _ _ _ _ Ho)]. }
  erewrite section_end; [done|done|done|].
  unfold lease_blocks. simpl. rewrite !cleared_count. lia.
Qed.

Lemma discovery_last w p l m rt lt :
  owner w p l m rt lt →
  (with_lease p dmdhcp_output_start_discovery;; unlock_lease p) (put p l (grab m (w_io w)) w)
  = Some (tt, sectioned p m (discovery_calls (entered m w) l rt) l
      (discovering (rand_after (entered m w)) l) w).
Proof.
  intros Ho. etransitivity; [|exact (discovery_section w p l m rt lt mret Ho)].
  apply w_ext. intros ? ?. symmetry. apply bind_ret_r.
Qed.

(** [dmdhcp_lifecycle_handle_lost], from its callback on *)
Lemma handle_lost_callback w p l m rt lt :
  owner w p l m rt lt →
  dmdhcp_lifecycle_handle_lost p w =
  (invoke (on_expired_or_lost (callbacks l)) (λ f, c_on_expired f p (user_data l));;
   lock_lease p;; with_lease p dmdhcp_output_start_discovery;; unlock_lease p)
  (sectioned p m (unapply_calls l) l (given_up l) w).
Proof.
  intros Ho. pose proof (given_up_step l (grab m (w_io w)) (owner_typed _ _ _ _ _ _ Ho)) as Hst.
  unfold dmdhcp_lifecycle_handle_lost. erewrite section_start by done.
  in_section (unapply_run l (grab m (w_io w))).
  in_section (clear_ntp_run (unapplied l) (log_all (unapply_calls l) (grab m (w_io w)))).
  assert (Hn : ntp_servers (unapplied l) = ntp_servers l) by (unfold unapplied; by case_match).
  assert (Hc : callbacks (given_up l) = callbacks l ∧ user_data (given_up l) = user_data l)
    by (unfold given_up, unapplied; by case_match).
  rewrite Hn. change (set_ntp_servers _ _) with (given_up l). rewrite load_put. cbv zeta.
  rewrite (section_end _ _ _ _ _ _ _ _ _ _ Ho (lf_lock _ _ (ls_frame _ _ _ _ Hst)) (section_blocks _ _ _ _ _ _ Hst)).
  by destruct Hc as [-> ->].
Qed.

(** The whole of it, when the callback leaves the lease alive *)
Lemma handle_lost_run w p l m rt lt :
  owner w p l m rt lt →
  let w1 := sectioned p m (unapply_calls l) l (given_up l) w in
  owner w1 p (given_up l) m rt lt ∧
  ∀ l2 w2,
    invoke (on_expired_or_lost (callbacks l)) (λ f, c_on_expired f p (user_data l)) w1 = Some (tt, w2) →
    owner w2 p l2 m rt lt →
    dmdhcp_lifecycle_handle_lost p w = Some (tt, sectioned p m (discovery_calls (entered m w2) l2 rt) l2
      (discovering (rand_after (entered m w2)) l2) w2).
Proof.
  intros Ho w1. pose proof (given_up_step l (grab m (w_io w)) (owner_typed _ _ _ _ _ _ Ho)) as Hst.
  split; [by eapply sectioned_owner|]. intros l2 w2 Hcb Ho2.
  erewrite handle_lost_callback by done. rewrite (w_bind _ _ _ _ _ Hcb).
  erewrite section_start by done. by eapply discovery_last.
Qed.

(** C13: losing a lease - a NAK while renewing or rebinding, or the lease
    timer while rebinding.  What the lease applied is undone, its NTP servers
    are withdrawn, then the lease lock is released and [on_expired_or_lost] is
    called with no mutex held and the invariant true (the state still reads as
    before).  When the callback returns - whatever it did short of destroying
    the lease, to a lease that is now [l2] - the lease has a new transaction
    and is selecting, with everything learned from the server forgotten, a
    DISCOVER sent and the retransmit timer armed for 4 s. *)
Theorem lost_lease_restarts w p l m rt lt msg options :
  owner w p l m rt lt →
  let w0 := logged (section_calls m []) w in
  let w1 := sectioned p m (unapply_calls l) l (given_up l) w0 in
  owner w1 p (given_up l) m rt lt ∧
  ∀ l2 w2,
    invoke (on_expired_or_lost (callbacks l)) (λ f, c_on_expired f p (user_data l)) w1 = Some (tt, w2) →
    owner w2 p l2 m rt lt →
    let h := entered m w2 in
    let l3 := discovering (answer h c_rand32) l2 in
    let w3 := sectioned p m ([c_rand32]
        ++ send_calls (h ++ [c_rand32]) l3 dmdhcp_msg_discover None None None limited_broadcast true
        ++ [c_timer_set_period rt 4000; c_timer_start rt]) l2 l3 w2 in
    ((state l = dmdhcp_state_renewing ∨ state l = dmdhcp_state_rebinding) →
     dispatch_message p msg options 6 w = Some (tt, w3)) ∧
    (state l = dmdhcp_state_rebinding → lease_timer_callback (Some p) w = Some (tt, w3)).
Proof.
  intros Ho w0 w1. destruct (section_idle _ _ _ _ _ _ Ho) as [Ho0 Hidle].
  pose proof (handle_lost_run w0 p l m rt lt Ho0) as [Ho1 Hrun]. split; [exact Ho1|].
  intros l2 w2 Hcb Ho2. specialize (Hrun l2 w2 Hcb Ho2). cbn zeta. split; intros Hs.
  - unfold dispatch_message. erewrite section_start by done. rewrite load_put. cbv zeta. type_codes.
    etransitivity; [|exact Hrun]. unfold w0. rewrite <- (Hidle unit (λ _, dmdhcp_lifecycle_handle_lost p)).
    erewrite section_start by done.
    by destruct Hs as [-> | ->]; decide_states.
  - unfold lease_timer_callback. rewrite (handle_read _ l) by (apply Ho || eapply ll_magic, owner_live, Ho).
    erewrite section_start by done. rewrite load_put, Hs. 
    etransitivity; [|exact Hrun]. unfold w0. rewrite <- (Hidle unit (λ _, dmdhcp_lifecycle_handle_lost p)).
    by erewrite section_start by done.
Qed.
End Datagrams.

(** ** Timers and renewal *)
Section TimerRuns.
Context `{E : Env} {EO : EnvOk E} `{D : DmList} {DL : DmListLaws D} `{C : !Client}.

(** The start of the two timer callbacks *)
Lemma retransmit_start w p l m rt lt :
  owner w p l m rt lt →
  retransmit_timer_callback (Some p) w =
  (match state l with
   | dmdhcp_state_selecting =>
       with_lease p (discard send_discover);;
       with_lease p rearm_backoff
   | dmdhcp_state_requesting | dmdhcp_state_rebooting =>
       with_lease p (setl (set_retransmit_count (u32 (retransmit_count l + 1))));;
       l ← load p;
       if DMDHCP_MAX_REQUEST_RETRANSMITS <? retransmit_count l then
         with_lease p dmdhcp_output_start_discovery
       else
         (if bool_decide (state l = dmdhcp_state_requesting)
          then with_lease p (discard send_request_selecting)
          else with_lease p (discard send_request_reboot));;
         with_lease p rearm_backoff
   | dmdhcp_state_renewing =>
       with_lease p (discard send_request_renew);;
       with_lease p rearm_backoff
   | dmdhcp_state_rebinding =>
       with_lease p (discard send_request_rebind);;
       with_lease p rearm_backoff
   | dmdhcp_state_checking_offer | dmdhcp_state_checking_ack => run_conflict_probe p
   | dmdhcp_state_declining => with_lease p dmdhcp_output_start_discovery
   | _ => mret tt
   end;;
   unlock_lease p) (put p l (grab m (w_io w)) w).
Proof.
  intros Ho. unfold retransmit_timer_callback.
  rewrite (handle_read _ l) by (apply Ho || eapply ll_magic, owner_live, Ho).
  erewrite section_start by done. by rewrite load_put.
Qed.

Lemma discard_run {A} (op : lop A) l s a l' s' :
  op (LCtx l s) = Some (a, LCtx l' s') → discard op (LCtx l s) = Some (tt, LCtx l' s').
Proof. intros Hop. unfold discard, mbind, st_bind. by rewrite Hop. Qed.

(** C20: what restarts discovery from scratch before a lease is bound: a NAK
    while requesting or rebooting, the fifth retransmission of a REQUEST that
    nobody answered, and the end of the pause after a declined address.  All
    three end in the same world: a new transaction, selecting, with everything
    learned forgotten (its memory freed), the counters reset, one DISCOVER sent
    and the retransmit timer armed for 4 s. *)
Theorem discovery_restarts w p l m rt lt msg options :
  owner w p l m rt lt →
  let h := entered m w in
  let l' := discovering (answer h c_rand32) l in
  let restarted := Some (tt, sectioned p m ([c_rand32]
      ++ send_calls (h ++ [c_rand32]) l' dmdhcp_msg_discover None None None limited_broadcast true
      ++ [c_timer_set_period rt 4000; c_timer_start rt]) l l' w) in
  let asked := state l = dmdhcp_state_requesting ∨ state l = dmdhcp_state_rebooting in
  (asked → dispatch_message p msg options 6 w = restarted) ∧
  (asked → 4 ≤ retransmit_count l < 4294967295 → retransmit_timer_callback (Some p) w = restarted) ∧
  (state l = dmdhcp_state_declining → retransmit_timer_callback (Some p) w = restarted).
Proof.
  intros Ho h l' restarted asked. split_and!.
  - intros Hs. unfold dispatch_message. erewrite section_start by done. rewrite load_put. cbv zeta. type_codes.
    destruct Hs as [-> | ->]; decide_states; cbn [Z.eqb Pos.eqb andb orb]; exact (discovery_last _ _ _ _ _ _ Ho).
  - intros Hs Hc. erewrite retransmit_start by done.
    pose proof (owner_typed _ _ _ _ _ _ Ho) as Hl.
    set (l1 := set_retransmit_count (u32 (retransmit_count l + 1)) l).
    assert (Hl1 : lease_typed l1) by (destruct Hl; split; try done; apply u32_range).
    assert (Hrun : dmdhcp_output_start_discovery (LCtx l1 (grab m (w_io w))) =
      dmdhcp_output_start_discovery (LCtx l (grab m (w_io w)))).
    { rewrite (start_discovery_run _ _ rt), (start_discovery_run l _ rt);
        try done; try apply Ho; exact (owner_rt _ _ _ _ _ _ Ho). }
    assert (Hgo : (with_lease p dmdhcp_output_start_discovery;; unlock_lease p) (put p l1 (grab m (w_io w)) w) = restarted).
    { etransitivity; [|exact (discovery_last _ _ _ _ _ _ Ho)].
      exact (with_lease_ext _ _ _ _ _ _ _ Hrun). }
    assert (Hlim : (DMDHCP_MAX_REQUEST_RETRANSMITS <? retransmit_count l1) = true).
    { subst l1. simpl. rewrite u32_id by (unfold is_u32; lia). unfold DMDHCP_MAX_REQUEST_RETRANSMITS.
      apply Z.ltb_lt. lia. }
    destruct Hs as [-> | ->]; rewrite w_assoc; set_field; rewrite w_assoc, load_put;
      fold l1; rewrite Hlim; exact Hgo.
  - intros Hs. erewrite retransmit_start by done. rewrite Hs. exact (discovery_last _ _ _ _ _ _ Ho).
Qed.

(** What each state retransmits, and whether it counts *)
Definition resends (s : dmdhcp_state_t) : option sender :=
  match s with
  | dmdhcp_state_selecting => Some S_discover
  | dmdhcp_state_requesting => Some S_selecting
  | dmdhcp_state_rebooting => Some S_reboot
  | dmdhcp_state_renewing => Some S_renew
  | dmdhcp_state_rebinding => Some S_rebind
  | _ => None
  end.

Definition counted (s : dmdhcp_state_t) : bool :=
  bool_decide (s = dmdhcp_state_requesting) || bool_decide (s = dmdhcp_state_rebooting).

(** Resend and rearm, the end of a section *)
Lemma resend_run w p l m rt lt l1 k :
  owner w p l m rt lt → lease_typed l1 → same_owned l l1 →
  (with_lease p (discard (send_of k));; with_lease p rearm_backoff;; unlock_lease p)
    (put p l1 (grab m (w_io w)) w)
  = Some (tt, sectioned p m (sender_calls (entered m w) l1 k
        ++ arm_calls rt (next_backoff (retransmit_interval_ms l1))) l (rearmed l1) w).
Proof.
  intros Ho Hl1 Hs. destruct (send_of_run k l1 (grab m (w_io w)) Hl1) as [rc Hrc].
  erewrite with_lease_put by (by eapply discard_run).
  erewrite with_lease_put.
  2:{ apply (rearm_backoff_run _ _ rt).
      - destruct Hs as [[] _]. rewrite lf_rt. apply Ho.
      - exact (owner_rt _ _ _ _ _ _ Ho). }
  rewrite log_all_app. eapply section_last_owned; [done|].
  destruct Hs as ([] & ? & ? & ?). by split; [split|].
Qed.

(** C21: a retransmission.  In each of the five waiting states the retransmit
    timer sends that state's message again ([shape_of] tells which)
    with the same transaction id, doubles the interval up to 64 s and arms the
    timer with it; while requesting or rebooting it counts itself, up to
    four.  The lease changes in nothing else. *)
Theorem retransmission w p l m rt lt k :
  owner w p l m rt lt → resends (state l) = Some k → (counted (state l) = true → retransmit_count l < 4) →
  let n := if counted (state l) then retransmit_count l + 1 else retransmit_count l in
  let ms := Z.min (2 * retransmit_interval_ms l) DMDHCP_RETRANSMIT_MAX_MS in
  retransmit_timer_callback (Some p) w =
    Some (tt, sectioned p m
      (sender_calls (entered m w) l k ++ [c_timer_set_period rt ms; c_timer_start rt]) l
      (set_retransmit_interval_ms ms (set_retransmit_count n l)) w).
Proof.
  intros Ho Hk Hc n ms. pose proof (owner_typed _ _ _ _ _ _ Ho) as Hl.
  pose proof (lt_count l Hl) as Hr. pose proof (next_backoff_double _ (lt_interval l Hl)) as Hms.
  assert (Hl1 : lease_typed (set_retransmit_count n l)).
  { destruct Hl. split; try done. subst n. simpl. unfold is_u32 in *.
    destruct (counted (state l)); [specialize (Hc eq_refl)|]; lia. }
  assert (Hid : counted (state l) = false → set_retransmit_count n l = l).
  { intros Hf. subst n. rewrite Hf. by destruct l. }
  pose proof (resend_run w p l m rt lt _ k Ho Hl1) as Hrun. unfold rearmed in Hrun.
  cbn [retransmit_interval_ms set_retransmit_count] in Hrun. rewrite Hms in Hrun.
  change (sender_calls _ (set_retransmit_count n l) k) with (sender_calls (entered m w) l k) in Hrun.
  etransitivity; [|apply Hrun; by repeat split]. clear Hrun Hms. erewrite retransmit_start by done.
  unfold counted in *. destruct (state l) eqn:Hst; try discriminate Hk; injection Hk as <-;
    cbn [send_of]; rewrite ?w_assoc; try (by rewrite Hid by done);
    set_field; rewrite w_assoc, load_put;
    rewrite u32_id by (unfold is_u32 in *; specialize (Hc eq_refl); lia);
    change (set_retransmit_count (retransmit_count l + 1) l) with (set_retransmit_count n l);
    (destruct (Z.ltb_spec DMDHCP_MAX_REQUEST_RETRANSMITS (retransmit_count (set_retransmit_count n l)));
     [specialize (Hc eq_refl); subst n; unfold DMDHCP_MAX_REQUEST_RETRANSMITS in *; simpl in *; lia|]);
    change (state (set_retransmit_count n l)) with (state l); rewrite Hst; decide_states; by rewrite w_assoc.
Qed.

(** ** Conflict probes *)
Definition probe_call (l : lease) : call :=
  c_arp_resolve (iface l) (offered_ip l) DMDHCP_ARP_PROBE_TIMEOUT_MS.

(** [retransmit_timer_callback] while checking, up to the answer of the probe *)
Lemma probe_start w p l m rt lt :
  owner w p l m rt lt →
  state l = dmdhcp_state_checking_offer ∨ state l = dmdhcp_state_checking_ack →
  retransmit_timer_callback (Some p) w =
  ((if (answer (entered m w) (probe_call l) : Z) =? 0 then handle_conflict p else
    l ← load p;
    if bool_decide (state l = dmdhcp_state_checking_offer) then
      with_lease p send_request_selecting;;
      with_lease p (setl (set_state dmdhcp_state_requesting));;
      with_lease p (setl (set_retransmit_count 0));;
      with_lease p (setl (set_retransmit_interval_ms DMDHCP_RETRANSMIT_INITIAL_MS));;
      with_lease p (ms ← getl retransmit_interval_ms; arm_retransmit ms)
    else
      with_lease p dmdhcp_lifecycle_apply;;
      with_lease p (setl (set_state dmdhcp_state_bound));;
      with_lease p (setl (set_decline_retry_count 0));;
      with_lease p dmdhcp_lifecycle_arm_t1;;
      l ← load p;
      let fn := on_bound (callbacks l) in
      let ud := user_data l in
      unlock_lease p;;
      invoke fn (λ f, c_on_bound f p false ud);;
      lock_lease p);;
   unlock_lease p) (put p l (log_all [probe_call l] (grab m (w_io w))) w).
Proof.
  intros Ho Hs. erewrite retransmit_start by done.
  transitivity ((run_conflict_probe p;; unlock_lease p) (put p l (grab m (w_io w)) w));
    [by destruct Hs as [-> | ->]|].
  unfold run_conflict_probe. rewrite w_assoc, load_put, w_assoc.
  erewrite wio_put by exact (ext_run (probe_call l) _). reflexivity.
Qed.

Lemma clean_offer_run w p l m rt lt :
  owner w p l m rt lt → state l = dmdhcp_state_checking_offer →
  (answer (entered m w) (probe_call l) : Z) ≠ 0 →
  retransmit_timer_callback (Some p) w =
    Some (tt, sectioned p m
      ([probe_call l] ++ sender_calls (entered m w ++ [probe_call l]) l S_selecting
       ++ arm_calls rt DMDHCP_RETRANSMIT_INITIAL_MS) l
      (set_retransmit_interval_ms DMDHCP_RETRANSMIT_INITIAL_MS
        (set_retransmit_count 0 (set_state dmdhcp_state_requesting l))) w).
Proof.
  intros Ho Hs Hr. erewrite probe_start by (done || by left). rewrite (proj2 (Z.eqb_neq _ 0) Hr).
  rewrite w_assoc, load_put, Hs. decide_states.
  destruct (send_of_run S_selecting l (log_all [probe_call l] (grab m (w_io w)))) as [rc Hrc];
    [by eapply owner_typed|].
  rewrite w_assoc. in_section Hrc. do 3 (rewrite w_assoc; set_field).
  erewrite with_lease_put.
  2:{ rewrite getl_bind. eapply arm_retransmit_run; [apply Ho|exact (owner_rt _ _ _ _ _ _ Ho)]. }
  rewrite !log_all_app. by eapply section_last_owned.
Qed.

(** C19: an offered address nobody answers for is requested.  The clean probe
    of an OFFER sends one REQUEST naming the address and the server, with the
    same transaction id, goes to requesting with the counters reset and arms
    the retransmit timer for 4 s. *)
Theorem clean_offer_requested w p l m rt lt :
  owner w p l m rt lt → state l = dmdhcp_state_checking_offer →
  (answer (entered m w) (probe_call l) : Z) ≠ 0 →
  retransmit_timer_callback (Some p) w =
    Some (tt, sectioned p m
      ([c_arp_resolve (iface l) (offered_ip l) 1000]
       ++ sender_calls (entered m w ++ [probe_call l]) l S_selecting
       ++ [c_timer_set_period rt 4000; c_timer_start rt]) l
      (set_retransmit_interval_ms 4000 (set_retransmit_count 0 (set_state dmdhcp_state_requesting l))) w).
Proof. apply clean_offer_run. Qed.

Lemma clean_ack_run w p l m rt lt :
  owner w p l m rt lt → state l = dmdhcp_state_checking_ack →
  (answer (entered m w) (probe_call l) : Z) ≠ 0 →
  let h := entered m w ++ [probe_call l] in
  let w1 := sectioned p m ([probe_call l] ++ binding_calls h l lt) l (bound_as h l) w in
  owner w1 p (bound_as h l) m rt lt ∧
  retransmit_timer_callback (Some p) w =
  (invoke (on_bound (callbacks l)) (λ f, c_on_bound f p false (user_data l));;
   lock_lease p;; unlock_lease p) w1.
Proof.
  intros Ho Hs Hr h w1. pose proof (owner_typed _ _ _ _ _ _ Ho) as Hl.
  pose proof (lease_step_trans _ _ _ _ _ _ (lease_step_calls l (grab m (w_io w)) [probe_call l] Hl)
    (binding_step l (log_all [probe_call l] (grab m (w_io w))) lt Hl)) as Hst.
  change (trace (log_all _ _)) with h in Hst. rewrite log_all_app in Hst.
  destruct (bound_as_owned h l) as (Hown & Hcb & Hud).
  assert (Ho1 : owner w1 p (bound_as h l) m rt lt).
  { apply (sectioned_owner w p l m rt lt ([probe_call l] ++ binding_calls h l lt) (blocks (w_io w))); [done|].
    exact Hst. }
  split; [exact Ho1|].
  erewrite probe_start by (done || by right). rewrite (proj2 (Z.eqb_neq _ 0) Hr).
  rewrite w_assoc, load_put, Hs. decide_states.
  assert (Hgo : (with_lease p dmdhcp_lifecycle_apply;;
      with_lease p (setl (set_state dmdhcp_state_bound));;
      with_lease p (setl (set_decline_retry_count 0));;
      with_lease p dmdhcp_lifecycle_arm_t1;;
      l ← load p;
      unlock_lease p;;
      invoke (on_bound (callbacks l)) (λ f, c_on_bound f p false (user_data l));;
      lock_lease p;;
      unlock_lease p) (put p l (log_all [probe_call l] (grab m (w_io w))) w)
    = (invoke (on_bound (callbacks l)) (λ f, c_on_bound f p false (user_data l));;
       lock_lease p;; unlock_lease p) w1).
  { rewrite (binding_run _ _ _ _ lt); [|done|apply Ho|exact (owner_lt _ _ _ _ _ _ Ho)].
    change (trace (log_all _ _)) with h. rewrite load_put, log_all_app.
    by rewrite (section_end_owned _ _ _ _ _ _ _ _ _ Ho Hown), Hcb, Hud. }
  rewrite <- Hgo. repeat (rewrite w_assoc; apply w_ext; intros ? ?). done.
Qed.

(** C18: an acknowledged address nobody answers for is bound.  The clean
    probe of an ACK applies the lease to the interface, marks it bound - even
    when applying failed - with its declines reset, arms the lease timer for
    T1, releases the lease lock and calls [on_bound], not as a renewal, with no
    mutex held and the invariant true; the lock is only taken again to be
    released. *)
Theorem clean_ack_bound w p l m rt lt :
  owner w p l m rt lt → state l = dmdhcp_state_checking_ack →
  (answer (entered m w) (probe_call l) : Z) ≠ 0 →
  let h := entered m w ++ [probe_call l] in
  let w1 := sectioned p m
      ([probe_call l] ++ apply_made h l ++ [c_timer_set_period lt (t1_period l); c_timer_start lt])
      l (bound_as h l) w in
  owner w1 p (bound_as h l) m rt lt ∧
  ∀ l2 w2,
    invoke (on_bound (callbacks l)) (λ f, c_on_bound f p false (user_data l)) w1 = Some (tt, w2) →
    owner w2 p l2 m rt lt →
    retransmit_timer_callback (Some p) w = Some (tt, logged (section_calls m []) w2).
Proof.
  intros Ho Hs Hr h w1. destruct (clean_ack_run w p l m rt lt Ho Hs Hr) as [Ho1 ->]. split; [exact Ho1|].
  intros l2 w2 Hrun Ho2. rewrite (w_bind _ _ _ _ _ Hrun). by eapply relocked.
Qed.

(** C15: a conflict - somebody answered for an offered or acknowledged
    address - is declined.  A DECLINE naming the address and the server is
    sent and counted.  Up to the third in a row, discovery restarts after a
    pause of 10 s; at the fourth the client gives up: the lease is failed, no
    timer is armed, the lease lock is released and [on_error] is called with
    [-EADDRINUSE]. *)
Theorem conflict_declines w p l m rt lt :
  owner w p l m rt lt →
  state l = dmdhcp_state_checking_offer ∨ state l = dmdhcp_state_checking_ack →
  (answer (entered m w) (probe_call l) : Z) = 0 → decline_retry_count l ≤ 3 →
  let cs := [probe_call l] ++ sender_calls (entered m w ++ [probe_call l]) l S_decline in
  let l' := set_decline_retry_count (decline_retry_count l + 1) l in
  (decline_retry_count l < 3 →
   retransmit_timer_callback (Some p) w =
     Some (tt, sectioned p m (cs ++ [c_timer_set_period rt 10000; c_timer_start rt]) l
       (set_state dmdhcp_state_declining l') w)) ∧
  (decline_retry_count l = 3 →
   let w1 := sectioned p m cs l (set_state dmdhcp_state_failed l') w in
   owner w1 p (set_state dmdhcp_state_failed l') m rt lt ∧
   ∀ l2 w2,
     invoke (on_error (callbacks l)) (λ f, c_on_error f p (- EADDRINUSE) (user_data l)) w1 = Some (tt, w2) →
     owner w2 p l2 m rt lt →
     retransmit_timer_callback (Some p) w = Some (tt, logged (section_calls m []) w2)).
Proof.
  intros Ho Hs Hr Hd cs l'. pose proof (owner_typed _ _ _ _ _ _ Ho) as Hl.
  pose proof (lt_declines l Hl) as Hdr. unfold is_u32 in Hdr.
  destruct (send_of_run S_decline l (log_all [probe_call l] (grab m (w_io w))) Hl) as [rc Hrc].
  rewrite log_all_app in Hrc. fold cs in Hrc.
  assert (Hgo : retransmit_timer_callback (Some p) w =
    ((if 3 <? decline_retry_count l + 1 then
        with_lease p (setl (set_state dmdhcp_state_failed));;
        l ← load p;
        let fn := on_error (callbacks l) in
        let ud := user_data l in
        unlock_lease p;;
        invoke fn (λ f, c_on_error f p (- EADDRINUSE) ud);;
        lock_lease p
      else
        with_lease p (setl (set_state dmdhcp_state_declining));;
        with_lease p (arm_retransmit DMDHCP_DECLINE_PAUSE_MS));;
     unlock_lease p) (put p l' (log_all cs (grab m (w_io w))) w)).
  { erewrite probe_start by done. rewrite Hr. unfold handle_conflict. cbn [Z.eqb].
    rewrite w_assoc. in_section Hrc. rewrite w_assoc, load_put, w_assoc. set_field.
    rewrite w_assoc, load_put. rewrite u32_id by (unfold is_u32; lia). done. }
  assert (Hst : ∀ s, lease_step l (grab m (w_io w)) (set_state s l') (set_blocks (blocks (w_io w)) (log_all cs (grab m (w_io w))))).
  { intros s. split; [|by split|etransitivity; [apply (io_frame_log_all cs)|apply io_frame_set_blocks]|done].
    destruct Hl. split; try done. simpl. unfold is_u32. lia. }
  rewrite Hgo. clear Hgo. split.
  - intros H3. destruct (Z.ltb_spec 3 (decline_retry_count l + 1)); [lia|].
    rewrite w_assoc. set_field. in_rt Ho. rewrite log_all_app. by eapply section_last_owned.
  - intros H3 w1. split; [by eapply sectioned_owner|]. intros l2 w2 Hrun Ho2.
    rewrite H3. change (3 <? 3 + 1) with true. cbv iota. rewrite w_assoc. set_field.
    rewrite w_assoc, load_put. cbv zeta. rewrite w_assoc.
    rewrite (section_end_owned _ _ _ _ _ _ _ (set_state dmdhcp_state_failed l') _ Ho) by (by repeat split).
    rewrite w_assoc, (w_bind _ _ _ _ _ Hrun). by eapply relocked.
Qed.

(** ** Deadlines *)

(** A phase entry, then the lease timer *)
Lemma phase_section w p l m rt lt st (start arm : lop unit) (ms : lease → Z)
    (cs : list call → lease → handle → list call) :
  owner w p l m rt lt →
  (∀ s, rt ∈ timers s → start (LCtx l s) =
    Some (tt, LCtx (in_phase st (rand_after (trace s)) l) (log_all (cs (trace s) l rt) s))) →
  (∀ l s, lease_timer l = Some lt → lt ∈ timers s → arm (LCtx l s) =
    Some (tt, LCtx l (log_all [c_timer_set_period lt (ms l); c_timer_start lt] s))) →
  (∀ st x l, ms (in_phase st x l) = ms l) →
  (with_lease p start;; with_lease p arm;; unlock_lease p) (put p l (grab m (w_io w)) w)
  = Some (tt, sectioned p m (cs (entered m w) l rt ++ [c_timer_set_period lt (ms l); c_timer_start lt]) l
      (in_phase st (rand_after (entered m w)) l) w).
Proof.
  intros Ho Hs Ha Hms. rewrite <- (Hms st (rand_after (entered m w)) l).
  in_section (Hs (grab m (w_io w)) (owner_rt _ _ _ _ _ _ Ho)).
  erewrite with_lease_put by (apply Ha; [apply Ho|exact (owner_lt _ _ _ _ _ _ Ho)]).
  rewrite log_all_app. by eapply section_last_owned.
Qed.

(** C14: the deadlines of a bound lease.  At T1 the lease timer makes it
    renewing: a REQUEST for its address goes to the server alone, and the timer
    is armed again for T2.  At T2 it is rebinding: the REQUEST is broadcast,
    and the timer is armed for the expiry.  Both start a new transaction with a
    4 s retransmission.  [dmdhcp_renew] does to a bound lease exactly what T1
    does, except that it leaves the lease timer alone - T1 stays armed, and
    will find the lease renewing.  In any other state (but rebinding, where the lease is lost)
    the timer and [dmdhcp_renew] do nothing. *)
Theorem deadlines w p l m rt lt :
  owner w p l m rt lt →
  let h := entered m w in
  let request st sh_ciaddr dst via := [c_rand32]
    ++ send_calls (h ++ [c_rand32]) (in_phase st (answer h c_rand32) l) dmdhcp_msg_request
         sh_ciaddr None None dst via
    ++ [c_timer_set_period rt 4000; c_timer_start rt] in
  let renewing := request dmdhcp_state_renewing (Some (offered_ip l)) (server_id l) false in
  let rebinding := request dmdhcp_state_rebinding (Some (offered_ip l)) limited_broadcast true in
  let in_state st := in_phase st (answer h c_rand32) l in
  let nothing := logged (section_calls m []) w in
  (state l = dmdhcp_state_bound →
   lease_timer_callback (Some p) w = Some (tt, sectioned p m
     (renewing ++ [c_timer_set_period lt (t2_period l); c_timer_start lt]) l (in_state dmdhcp_state_renewing) w) ∧
   dmdhcp_renew (Some p) w = Some (0, sectioned p m renewing l (in_state dmdhcp_state_renewing) w)) ∧
  (state l = dmdhcp_state_renewing →
   lease_timer_callback (Some p) w = Some (tt, sectioned p m
     (rebinding ++ [c_timer_set_period lt (expiry_period l); c_timer_start lt]) l (in_state dmdhcp_state_rebinding) w)) ∧
  (state l ≠ dmdhcp_state_bound → dmdhcp_renew (Some p) w = Some (0, nothing)) ∧
  (holds_valid_lease l = false → lease_timer_callback (Some p) w = Some (tt, nothing)).
Proof.
  intros Ho h request renewing rebinding in_state nothing.
  pose proof (owner_typed _ _ _ _ _ _ Ho) as Hl. pose proof (ow_retransmit _ _ _ _ _ _ Ho) as Hrt.
  assert (Hread : ∀ B (k : bool → M B), (bad_handle (Some p) ≫= k) w = k false w).
  { intros. rewrite (handle_read _ l); [done|apply Ho|eapply ll_magic, owner_live, Ho]. }
  assert (Htimer : lease_timer_callback (Some p) w = (match state l with
      | dmdhcp_state_bound =>
          with_lease p dmdhcp_output_start_renew;; with_lease p dmdhcp_lifecycle_arm_t2;; unlock_lease p
      | dmdhcp_state_renewing =>
          with_lease p dmdhcp_output_start_rebind;; with_lease p dmdhcp_lifecycle_arm_expiry;; unlock_lease p
      | dmdhcp_state_rebinding => unlock_lease p;; dmdhcp_lifecycle_handle_lost p
      | _ => unlock_lease p
      end) (put p l (grab m (w_io w)) w)).
  { unfold lease_timer_callback. rewrite Hread. erewrite section_start by done. by rewrite load_put. }
  assert (Hrenew : dmdhcp_renew (Some p) w = ((if bool_decide (state l = dmdhcp_state_bound)
      then with_lease p dmdhcp_output_start_renew else mret tt);; unlock_lease p;; mret 0)
      (put p l (grab m (w_io w)) w)).
  { unfold dmdhcp_renew. rewrite Hread. erewrite section_start by done. by rewrite load_put. }
  destruct (section_idle _ _ _ _ _ _ Ho) as [_ Hidle].
  rewrite Htimer, Hrenew. clear Htimer Hrenew. split_and!.
  - intros ->. decide_states. split.
    + apply (phase_section w p l m rt lt _ _ _ t2_period (λ h l t, phase_calls h l dmdhcp_state_renewing
        t (Some (offered_ip l)) None (server_id l) false)); [exact Ho| |intros; by apply arm_t2_run|done].
      intros s Hin. by apply (start_renew_run l s rt).
    + in_section (start_renew_run l (grab m (w_io w)) rt Hl Hrt (owner_rt _ _ _ _ _ _ Ho)).
      by erewrite section_end_owned.
  - intros ->. apply (phase_section w p l m rt lt _ _ _ expiry_period (λ h l t, phase_calls h l
      dmdhcp_state_rebinding t (Some (offered_ip l)) None limited_broadcast true));
      [exact Ho| |intros; by apply arm_expiry_run|done].
    intros s Hin. by apply (start_rebind_run l s rt).
  - intros Hs. decide_states. rewrite w_ret_bind. etransitivity; [|exact (Hidle Z (λ _, mret 0))].
    by erewrite section_start.
  - intros Hv. etransitivity; [|exact (relocked _ _ _ _ _ _ Ho)]. erewrite section_start by done.
    unfold holds_valid_lease in Hv. by destruct (state l).
Qed.
End TimerRuns.
