(* ===== verification/Machine.v ===== *)
(** The client state machine, as a specification: what a lease's phase, retry
    counters and notifications do on each event (RFC 2131, figure 5, as
    [docs/dmdhcp.md] describes it), and the proof that the handlers of
    [src/dmdhcp_input.c], [src/dmdhcp_output.c] and [src/dmdhcp_lifecycle.c]
    implement it. *)
From S2P Require Import Prelude Types Wire Options Platform Lease Output Lifecycle World Invariant LeaseTable TableFacts Queries Timers Input Api.

(** ** The specification

    An agent is what the state machine sees of a lease: no octet of a message,
    no handle, no deadline. *)
Record agent : Set := Agent {
  a_iface : iface_t;
  a_xid : Z;
  a_address : dmroute_addr_t;
  a_state : dmdhcp_state_t;
  a_retries : Z;
  a_declines : Z;
  a_callbacks : dmdhcp_callbacks_t;
  a_user_data : Z;
}.

(** A new phase; one that starts with a message of its own, under a new
    transaction id; discovery from scratch; a binding; the counters; the
    address of a reply *)
Definition move (s : dmdhcp_state_t) (a : agent) : agent :=
  Agent (a_iface a) (a_xid a) (a_address a) s (a_retries a) (a_declines a) (a_callbacks a) (a_user_data a).
Definition enter (s : dmdhcp_state_t) (x : Z) (a : agent) : agent :=
  Agent (a_iface a) x (a_address a) s 0 (a_declines a) (a_callbacks a) (a_user_data a).
Definition restart (x : Z) (a : agent) : agent :=
  Agent (a_iface a) x addr_none dmdhcp_state_selecting 0 (a_declines a) (a_callbacks a) (a_user_data a).
Definition bind (a : agent) : agent :=
  Agent (a_iface a) (a_xid a) (a_address a) dmdhcp_state_bound (a_retries a) 0 (a_callbacks a) (a_user_data a).
Definition request (a : agent) : agent :=
  Agent (a_iface a) (a_xid a) (a_address a) dmdhcp_state_requesting 0 (a_declines a) (a_callbacks a)
    (a_user_data a).
Definition retried (n : Z) (a : agent) : agent :=
  Agent (a_iface a) (a_xid a) (a_address a) (a_state a) n (a_declines a) (a_callbacks a) (a_user_data a).
Definition declined (n : Z) (a : agent) : agent :=
  Agent (a_iface a) (a_xid a) (a_address a) (a_state a) (a_retries a) n (a_callbacks a) (a_user_data a).
Definition learn (y : dmroute_addr_t) (a : agent) : agent :=
  Agent (a_iface a) (a_xid a) y (a_state a) (a_retries a) (a_declines a) (a_callbacks a) (a_user_data a).

Definition recalled (c : dmdhcp_callbacks_t) (a : agent) : agent :=
  Agent (a_iface a) (a_xid a) (a_address a) (a_state a) (a_retries a) (a_declines a) c (a_user_data a).
Definition redata (ud : Z) (a : agent) : agent :=
  Agent (a_iface a) (a_xid a) (a_address a) (a_state a) (a_retries a) (a_declines a) (a_callbacks a) ud.

(** Notifications of the application *)
Definition note_bound (p : ptr) (is_renewal : bool) (a : agent) : list call :=
  from_option (λ f, [c_on_bound f p is_renewal (a_user_data a)]) [] (on_bound (a_callbacks a)).
Definition note_lost (p : ptr) (a : agent) : list call :=
  from_option (λ f, [c_on_expired f p (a_user_data a)]) [] (on_expired_or_lost (a_callbacks a)).
Definition note_error (p : ptr) (e : Z) (a : agent) : list call :=
  from_option (λ f, [c_on_error f p e (a_user_data a)]) [] (on_error (a_callbacks a)).

(** What an event does to an agent: the agent when the application is told,
    what it is told, and what becomes of the agent the application leaves *)
Record outcome : Type := Outcome {
  o_agent : agent;
  o_notes : list call;
  o_after : agent → agent;
}.

Definition quietly (a : agent) : outcome := Outcome a [] (λ a, a).
Definition telling (ns : list call) (a : agent) : outcome := Outcome a ns (λ a, a).

(** A message of type [t] with the address [y] for this lease; [x] is the
    transaction id a new phase draws *)
Definition spec_datagram (x : Z) (p : ptr) (t : Z) (y : dmroute_addr_t) (a : agent) : outcome :=
  match a_state a with
  | dmdhcp_state_selecting =>
      quietly (if t =? 2 then move dmdhcp_state_checking_offer (learn y a) else a)
  | dmdhcp_state_requesting | dmdhcp_state_rebooting =>
      quietly (if t =? 5 then move dmdhcp_state_checking_ack (learn y a)
               else if t =? 6 then restart x a else a)
  | dmdhcp_state_renewing | dmdhcp_state_rebinding =>
      if t =? 5 then telling (note_bound p true a) (bind (learn y a))
      else if t =? 6 then Outcome a (note_lost p a) (restart x) else quietly a
  | _ => quietly a
  end.

(** A conflict: decline and pause, give up at the fourth *)
Definition spec_conflict (p : ptr) (a : agent) : outcome :=
  let a := declined (u32 (a_declines a + 1)) a in
  if 3 <? a_declines a
  then telling (note_error p (- EADDRINUSE) a) (move dmdhcp_state_failed a)
  else quietly (move dmdhcp_state_declining a).

(** The retransmit timer, when the probe it may run finds the address in use
    ([conflict]) or not *)
Definition spec_retransmit (x : Z) (conflict : bool) (p : ptr) (a : agent) : outcome :=
  match a_state a with
  | dmdhcp_state_requesting | dmdhcp_state_rebooting =>
      let a := retried (u32 (a_retries a + 1)) a in
      quietly (if 4 <? a_retries a then restart x a else a)
  | dmdhcp_state_checking_offer =>
      if conflict then spec_conflict p a else quietly (request a)
  | dmdhcp_state_checking_ack =>
      if conflict then spec_conflict p a else telling (note_bound p false a) (bind a)
  | dmdhcp_state_declining => quietly (restart x a)
  | _ => quietly a
  end.

(** The lease timer: T1, T2, expiry *)
Definition spec_lease_timer (x : Z) (p : ptr) (a : agent) : outcome :=
  match a_state a with
  | dmdhcp_state_bound => quietly (enter dmdhcp_state_renewing x a)
  | dmdhcp_state_renewing => quietly (enter dmdhcp_state_rebinding x a)
  | dmdhcp_state_rebinding => Outcome a (note_lost p a) (restart x)
  | _ => quietly a
  end.

Definition spec_renew (x : Z) (a : agent) : agent :=
  if bool_decide (a_state a = dmdhcp_state_bound) then enter dmdhcp_state_renewing x a else a.

(** What the rest of the machine relies on, once started *)
Record agent_ok (a : agent) : Prop := {
  ao_state : a_state a ≠ dmdhcp_state_init ∧ a_state a ≠ dmdhcp_state_init_reboot;
  ao_retries : 0 ≤ a_retries a ≤ 4;
  ao_declines : 0 ≤ a_declines a ≤ 4;
  ao_failed : a_state a = dmdhcp_state_failed ↔ a_declines a = 4;
  ao_bound : a_state a = dmdhcp_state_bound ∨ a_state a = dmdhcp_state_renewing ∨
    a_state a = dmdhcp_state_rebinding → a_declines a = 0;
}.

(** ** The agent of a lease *)
Section Agents.
Context `{E : Env} `{D : DmList}.

Definition agent_of (l : lease) : agent :=
  Agent (iface l) (xid l) (offered_ip l) (state l) (retransmit_count l) (decline_retry_count l)
    (callbacks l) (user_data l).

Definition is_note (c : call) : bool :=
  match c with
  | c_on_bound _ _ _ _ | c_on_expired _ _ _ | c_on_error _ _ _ _ => true
  | _ => false
  end.

(** The notifications among some calls *)
Definition notes (cs : list call) : list call := List.filter is_note cs.

Lemma notes_app cs cs' : notes (cs ++ cs') = notes cs ++ notes cs'.
Proof. apply List.filter_app. Qed.

(** The calls [h'] continue the calls [h] without a notification. *)
Definition silently (h h' : list call) : Prop := ∃ cs, h' = h ++ cs ∧ notes cs = [].

#[global] Instance silently_preorder : PreOrder silently.
Proof.
  split; [intros h; exists []; by rewrite app_nil_r|].
  intros h1 h2 h3 (cs & -> & Hc) (ds & -> & Hd). exists (cs ++ ds). by rewrite app_assoc, notes_app, Hc, Hd.
Qed.

Lemma silently_call h c : is_note c = false → silently h (h ++ [c]).
Proof. intros Hc. exists [c]. split; [done|]. unfold notes. simpl. by rewrite Hc. Qed.

Lemma silently_notes h h' : silently h h' → notes h' = notes h.
Proof. intros (cs & -> & Hc). by rewrite notes_app, Hc, app_nil_r. Qed.

Lemma silently_prefix h h' : silently h h' → h `prefix_of` h'.
Proof. intros (cs & -> & _). by exists cs. Qed.

(** A platform computation that notifies nobody *)
Definition io_quiet {A} (m : st io A) : Prop := ∀ s a s',
  m s = Some (a, s') → silently (trace s) (trace s').

(** A computation on a lease that does [f] to its agent; one that draws a
    transaction id to do it *)
Definition lop_does {A} (m : lop A) (f : agent → agent) : Prop := ∀ c a c',
  m c = Some (a, c') →
  agent_of (self c') = f (agent_of (self c)) ∧ silently (trace (plat c)) (trace (plat c')).

Definition lop_draws {A} (m : lop A) (f : Z → agent → agent) : Prop := ∀ c a c',
  m c = Some (a, c') →
  (∃ x, agent_of (self c') = f x (agent_of (self c))) ∧ silently (trace (plat c)) (trace (plat c')).

Lemma io_quiet_bind {A B} (m : st io A) (k : A → st io B) :
  io_quiet m → (∀ a, io_quiet (k a)) → io_quiet (m ≫= k).
Proof.
  intros Hm Hk s b s'. unfold mbind, st_bind. destruct (m s) as [[a s1]|] eqn:Hr; [|done].
  intros Hr'. etransitivity; [by eapply Hm|by eapply Hk].
Qed.

Lemma io_quiet_ret {A} (a : A) : io_quiet (mret a).
Proof. by intros s b s' [= -> ->]. Qed.

Lemma io_quiet_opt {A} (o : option A) : io_quiet (st_opt o).
Proof. intros s a s'. destruct o; simpl; intros; by simplify_eq. Qed.

Lemma io_quiet_ext (c : call) : is_note c = false → io_quiet (ext c).
Proof. intros Hc s a s' [= _ <-]. by apply silently_call. Qed.

Lemma io_quiet_modify f : (∀ s, trace (f s) = trace s) → io_quiet (st_modify f).
Proof. by intros Hf s a s' [= _ <-]; rewrite Hf. Qed.

Lemma io_quiet_timer (t : option handle) (c : handle → call) :
  (∀ t, is_note (c t) = false) → io_quiet (timer_call t c).
Proof.
  intros Hc s a s'. unfold timer_call. destruct t as [t|]; [|done]. case_decide; [|done].
  intros [= _ <-]. by apply silently_call.
Qed.

Lemma does_bind {A B} (m : lop A) (k : A → lop B) f g :
  lop_does m f → (∀ a, lop_does (k a) g) → lop_does (m ≫= k) (λ x, g (f x)).
Proof.
  intros Hm Hk c b c'. unfold mbind, st_bind. destruct (m c) as [[a c1]|] eqn:Hr; [|done].
  intros Hr'. destruct (Hm _ _ _ Hr) as [H1 H2], (Hk _ _ _ _ Hr') as [H3 H4].
  split; [congruence|by etransitivity].
Qed.

(** The common case: a computation that leaves the agent alone *)
Abbreviation keeps m := (lop_does m (λ x, x)).

Lemma keeps_bind {A B} (m : lop A) (k : A → lop B) : keeps m → (∀ a, keeps (k a)) → keeps (m ≫= k).
Proof. intros Hm Hk. exact (does_bind m k _ _ Hm Hk). Qed.

Lemma keeps_ret {A} (a : A) : keeps (mret a).
Proof. by intros c b c' [= -> ->]. Qed.

Lemma keeps_getl {A} (f : lease → A) : keeps (getl f).
Proof. by intros c b c' [= _ ->]. Qed.

Lemma keeps_opt {A} (o : option A) : keeps (st_opt o).
Proof. intros c a c'. destruct o; simpl; intros; by simplify_eq. Qed.

Lemma keeps_io {A} (m : st io A) : io_quiet m → keeps (io_op m).
Proof.
  intros Hm c a c'. unfold io_op. destruct (m (plat c)) as [[b s]|] eqn:Hr; [|done].
  intros [= -> <-]. split; [done|]. by apply (Hm _ _ _ Hr).
Qed.

Lemma does_setl g f : (∀ l, agent_of (g l) = f (agent_of l)) → lop_does (setl g) f.
Proof. intros Hg c a c' [= _ <-]. split; [apply Hg|done]. Qed.

(** Drawing a transaction id *)
Lemma draws_rand {B} (k : Z → lop B) f :
  (∀ x, lop_does (setl (set_xid x);; k x) (f x)) →
  lop_draws (x ← io_op dmosi_rand32; setl (set_xid x);; k x) f.
Proof.
  intros Hk c b c'. unfold mbind at 1, st_bind at 1, io_op, dmosi_rand32. rewrite ext_run.
  intros Hr. destruct (Hk _ _ _ _ Hr) as [Ha Ht]. split; [by eexists|].
  etransitivity; [|exact Ht]. by apply silently_call.
Qed.
End Agents.

Create HintDb agents.
#[export] Hint Resolve io_quiet_ret io_quiet_opt keeps_ret keeps_getl keeps_opt keeps_io : agents.

Abbreviation keeps m := (lop_does m (λ x, x)).

(** Prove that a computation leaves the agent alone, by its structure. *)
Ltac quiet := repeat first
  [ lazymatch goal with
    | |- lop_does (_ ≫= _) _ => apply keeps_bind; [|intros ?]
    | |- io_quiet (_ ≫= _) => apply io_quiet_bind; [|intros ?]
    end
  | solve [auto with agents]
  | apply keeps_io
  | match goal with
    | |- io_quiet (ext ?c) => exact (io_quiet_ext c eq_refl)
    | |- io_quiet ?m => let m' := eval red in m in
        lazymatch m' with ext ?c => exact (io_quiet_ext c eq_refl) end
    end
  | apply io_quiet_modify; reflexivity
  | apply io_quiet_timer; reflexivity
  | apply does_setl; reflexivity
  | match goal with |- context [match ?x with _ => _ end] => destruct x end
  | progress cbv beta zeta ].

(** ** What each computation does to the agent *)
Section Does.
Context `{E : Env} `{D : DmList}.

Lemma io_quiet_malloc n : io_quiet (Dmod_Malloc n).
Proof. unfold Dmod_Malloc. quiet. Qed.

Lemma io_quiet_free : io_quiet Dmod_Free.
Proof. unfold Dmod_Free. quiet. Qed.

Lemma io_quiet_try_push {A} (l : dmlist A) x : io_quiet (dmlist_try_push l x).
Proof. unfold dmlist_try_push. quiet. Qed.

#[local] Hint Resolve io_quiet_malloc io_quiet_free io_quiet_try_push : agents.

Lemma io_quiet_pop_all n l : io_quiet (pop_all n l).
Proof.
  revert l. induction n as [|n IH]; intros l; [by intros ? ? ?|].
  unfold pop_all; fold pop_all. destruct (dmlist_pop_front l) as [[?|] ?]; quiet.
Qed.

Lemma io_quiet_fill n i o l : io_quiet (fill_servers n i o l).
Proof.
  revert i l. induction n as [|n IH]; intros i l; cbn [fill_servers]; quiet.
Qed.

#[local] Hint Resolve io_quiet_pop_all io_quiet_fill : agents.

Lemma keeps_clear_dns : keeps dmdhcp_lease_table_clear_dns_servers.
Proof. unfold dmdhcp_lease_table_clear_dns_servers. quiet. Qed.

Lemma keeps_clear_ntp : keeps dmdhcp_lease_table_clear_ntp_servers.
Proof. unfold dmdhcp_lease_table_clear_ntp_servers. quiet. Qed.

Lemma keeps_send t ci req sid dst via : keeps (send_message t ci req sid dst via).
Proof. unfold send_message. quiet. Qed.

#[local] Hint Resolve keeps_clear_dns keeps_clear_ntp keeps_send : agents.

Lemma keeps_sender k : keeps (send_of k).
Proof.
  destruct k; cbn [send_of]; unfold send_discover, send_request_selecting, send_request_reboot,
    send_request_renew, send_request_rebind, send_decline, dmdhcp_output_send_release; quiet.
Qed.

Lemma keeps_arm_retransmit ms : keeps (arm_retransmit ms).
Proof. unfold arm_retransmit, dmosi_timer_set_period, dmosi_timer_start. quiet. Qed.

#[local] Hint Resolve keeps_arm_retransmit : agents.

Lemma keeps_rearm : keeps rearm_backoff.
Proof. unfold rearm_backoff. quiet. Qed.

Lemma keeps_lease_timer ms : keeps (arm_lease_timer ms).
Proof. unfold arm_lease_timer, dmosi_timer_set_period, dmosi_timer_start. quiet. Qed.

#[local] Hint Resolve keeps_lease_timer : agents.

Lemma keeps_arm_t1 : keeps dmdhcp_lifecycle_arm_t1.
Proof. unfold dmdhcp_lifecycle_arm_t1. quiet. Qed.

Lemma keeps_arm_t2 : keeps dmdhcp_lifecycle_arm_t2.
Proof. unfold dmdhcp_lifecycle_arm_t2. quiet. Qed.

Lemma keeps_arm_expiry : keeps dmdhcp_lifecycle_arm_expiry.
Proof. unfold dmdhcp_lifecycle_arm_expiry. quiet. Qed.

Lemma keeps_apply : keeps dmdhcp_lifecycle_apply.
Proof. unfold dmdhcp_lifecycle_apply. quiet. Qed.

Lemma keeps_unapply : keeps dmdhcp_lifecycle_unapply.
Proof. unfold dmdhcp_lifecycle_unapply. quiet. Qed.

(** One computation at a time *)
Lemma does_first {A B} (m : lop A) (k : A → lop B) f :
  keeps m → (∀ a, lop_does (k a) f) → lop_does (m ≫= k) f.
Proof. intros Hm Hk. exact (does_bind m k _ _ Hm Hk). Qed.

Lemma does_then {A B} (m : lop A) (k : A → lop B) f :
  lop_does m f → (∀ a, keeps (k a)) → lop_does (m ≫= k) f.
Proof. intros Hm Hk. exact (does_bind m k _ _ Hm Hk). Qed.

Lemma does_setl_then {B} g (k : unit → lop B) f f' :
  (∀ l, agent_of (g l) = f (agent_of l)) → lop_does (k tt) f' →
  lop_does (setl g ≫= k) (λ x, f' (f x)).
Proof. intros Hg Hk. apply does_bind; [by apply does_setl|by intros []]. Qed.

(** Learning a reply is learning its address. *)
Lemma does_populate msg options : lop_does (populate_lease_from_options msg options) (learn (yiaddr msg)).
Proof.
  unfold populate_lease_from_options, find_opt, addr_field, u32_field, learn_gateway,
    fill_dns_servers, fill_ntp_servers.
  apply (does_setl_then _ _ (learn (yiaddr msg)) (λ a, a)); [done|]. quiet.
Qed.

#[local] Hint Resolve keeps_sender : agents.

Lemma does_move {B} (m : lop B) s (k : lop unit) :
  keeps m → keeps k → lop_does (m;; setl (set_state s);; k) (move s).
Proof.
  intros Hm Hk. apply does_first; [done|]. intros _.
  by apply does_then; [apply does_setl|].
Qed.

Lemma does_interval {B} (k : lop B) n f :
  lop_does k f → lop_does (setl (set_retransmit_interval_ms n);; k) f.
Proof. intros Hk. apply does_first; [by apply does_setl|by intros []]. Qed.

Lemma does_start_phase (k : sender) s : lop_draws (start_phase (send_of k) s) (enter s).
Proof.
  unfold start_phase. apply draws_rand. intros x.
  set (xided := λ a, Agent (a_iface a) x (a_address a) (a_state a) (a_retries a) (a_declines a)
    (a_callbacks a) (a_user_data a)).
  apply (does_setl_then _ _ xided (λ a, move s (retried 0 a))); [done|].
  apply (does_setl_then _ _ (retried 0) (move s)); [done|].
  apply does_interval, does_move; [apply keeps_sender|quiet].
Qed.

Lemma does_start_discovery : lop_draws dmdhcp_output_start_discovery restart.
Proof.
  unfold dmdhcp_output_start_discovery. apply draws_rand. intros x.
  set (xided := λ a, Agent (a_iface a) x (a_address a) (a_state a) (a_retries a) (a_declines a)
    (a_callbacks a) (a_user_data a)).
  apply (does_setl_then _ _ xided (λ a, move dmdhcp_state_selecting (retried 0 (learn addr_none a)))); [done|].
  apply (does_setl_then _ _ (learn addr_none) (λ a, move dmdhcp_state_selecting (retried 0 a))); [done|].
  do 5 (apply does_first; [quiet|intros ?]).
  apply (does_setl_then _ _ (retried 0) (move dmdhcp_state_selecting)); [done|].
  apply does_interval, (does_move send_discover); [apply (keeps_sender S_discover)|quiet].
Qed.

Lemma does_start_reboot : lop_draws dmdhcp_output_start_reboot (enter dmdhcp_state_rebooting).
Proof. apply (does_start_phase S_reboot). Qed.

Lemma does_start_renew : lop_draws dmdhcp_output_start_renew (enter dmdhcp_state_renewing).
Proof. apply (does_start_phase S_renew). Qed.

Lemma does_start_rebind : lop_draws dmdhcp_output_start_rebind (enter dmdhcp_state_rebinding).
Proof. apply (does_start_phase S_rebind). Qed.

(** The field updates of the handlers *)
Lemma does_set_state s : lop_does (setl (set_state s)) (move s).
Proof. by apply does_setl. Qed.

Lemma does_set_declines n : lop_does (setl (set_decline_retry_count n)) (declined n).
Proof. by apply does_setl. Qed.

Lemma does_set_retries n : lop_does (setl (set_retransmit_count n)) (retried n).
Proof. by apply does_setl. Qed.

Lemma does_set_callbacks c : lop_does (setl (set_callbacks c)) (recalled c).
Proof. by apply does_setl. Qed.

Lemma does_set_user_data ud : lop_does (setl (set_user_data ud)) (redata ud).
Proof. by apply does_setl. Qed.

Lemma keeps_set_interval n : keeps (setl (set_retransmit_interval_ms n)).
Proof. by apply does_setl. Qed.

Lemma keeps_arm_interval : keeps (ms ← getl retransmit_interval_ms; arm_retransmit ms).
Proof. quiet. Qed.

Lemma keeps_discard {A} (m : lop A) : keeps m → keeps (discard m).
Proof. intros Hm. unfold discard. quiet. Qed.
End Does.

#[export] Hint Resolve keeps_clear_dns keeps_clear_ntp keeps_arm_retransmit keeps_rearm keeps_arm_t1
  keeps_arm_t2 keeps_arm_expiry keeps_apply keeps_unapply does_populate does_start_discovery
  does_start_reboot does_start_renew does_start_rebind does_set_state does_set_declines
  does_set_retries does_set_callbacks does_set_user_data keeps_set_interval keeps_arm_interval keeps_discard : agents.
#[export] Hint Extern 3 (lop_does send_discover _) => exact (keeps_sender S_discover) : agents.
#[export] Hint Extern 3 (lop_does send_request_selecting _) => exact (keeps_sender S_selecting) : agents.
#[export] Hint Extern 3 (lop_does send_request_reboot _) => exact (keeps_sender S_reboot) : agents.
#[export] Hint Extern 3 (lop_does send_request_renew _) => exact (keeps_sender S_renew) : agents.
#[export] Hint Extern 3 (lop_does send_request_rebind _) => exact (keeps_sender S_rebind) : agents.
#[export] Hint Extern 3 (lop_does send_decline _) => exact (keeps_sender S_decline) : agents.
