(* ===== verification/Dhcpc.v ===== *)
(** [tools/dhcpc/src/dhcpc.c]: the command that starts a lease on a named
    interface. *)
From S2P Require Import Prelude Types Platform Lease World Api.

Section Dhcpc.
Context `{E : Env} `{D : DmList}.

(** [argv[i]]: a NULL entry is [None]; a string has no terminator here. *)
Definition dhcpc_main (argc : Z) (argv : list (option (list Z))) : M Z :=
  if argc <? 2 then mret (- EINVAL) else
  arg ← st_opt (argv !! 1%nat);
  match arg with
  | None | Some [] => mret (- EINVAL)
  | Some name =>
      i ← wio (dmnetif_find_by_name name);
      if i =? 0 then mret (- ENODEV) else
      r ← dmdhcp_start i None 0 None;
      match r with
      | None => mret (- EALREADY)
      | Some _ => mret 0
      end
  end.
End Dhcpc.
