(* ===== verification/System.v ===== *)
(** Loading and unloading the module: what [dmod_init] and [dmod_deinit] of
    [src/dmdhcp.c] leave, and the proof that unloading frees everything. *)
From S2P Require Import Prelude Types Wire Options Platform Lease Output Lifecycle World Invariant LeaseTable TableFacts Queries Timers Input Api.

Section Module.
Context `{E : Env} {EO : EnvOk E} `{D : DmList} {DL : DmListLaws D}.

(** Before [dmod_init]: nothing is allocated. *)
Definition unloaded (s : io) : world := World _ ∅ None None s.

Record empty_io (s : io) : Prop := {
  ei_mutexes : mutexes s = ∅;
  ei_timers : timers s = ∅;
  ei_running : running s = None;
  ei_blocks : blocks s = 0;
  ei_lists : lists s = 0;
}.

(** ** Loading *)

(** The three answers [dmod_init] depends on *)
Definition init_list (h : list call) : bool := answer h c_list_create.
Definition init_mutex (h : list call) : bool := answer (h ++ [c_list_create]) (c_mutex_create false).
Definition init_bind (h : list call) : Z :=
  answer (h ++ [c_list_create; c_mutex_create false]) (c_udp_bind DMDHCP_CLIENT_PORT).

Definition init_world (s : io) : world :=
  let m := next_id s in
  World _ ∅ (Some (dmlist_empty ptr)) (Some m)
    (log_all [c_list_create; c_mutex_create false; c_udp_bind DMDHCP_CLIENT_PORT]
      (set_lists (lists s + 1) (set_next_id (Pos.succ m) (set_mutexes (<[m := false]> (mutexes s)) s)))).

Lemma init_ok s :
  init_list (trace s) = true → init_mutex (trace s) = true →
  dmod_init (unloaded s) = Some (if init_bind (trace s) =? 0 then 0 else -1, init_world s).
Proof.
  intros H1 H2. unfold dmod_init, dmdhcp_lease_table_init, unloaded.
  rewrite w_assoc. erewrite w_bind.
  2:{ apply wio_run. unfold dmlist_create, mbind, st_bind. rewrite ext_run. cbn [w_io].
      unfold init_list in H1. rewrite H1. reflexivity. }
  rewrite w_assoc. erewrite w_bind by reflexivity.
  rewrite w_assoc. erewrite w_bind.
  2:{ apply wio_run. unfold dmosi_mutex_create, mbind, st_bind. rewrite ext_run. cbn.
      unfold init_mutex in H2. rewrite H2. reflexivity. }
  rewrite w_assoc. erewrite w_bind by reflexivity.
  rewrite w_ret_bind, !bool_decide_true by eauto. cbn [andb negb Z.eqb].
  match goal with |- _ ?w1 = _ => rewrite (w_bind dmdhcp_input_register _ w1 _ _
    (wio_run _ w1 _ _ (ext_run (c_udp_bind DMDHCP_CLIENT_PORT) (w_io w1)))) end.
  cbn [w_io set_w_io set_g_leases_mutex set_g_leases].
  assert (Hs : ∀ s', s' = w_io (init_world s) →
    (if negb (init_bind (trace s) =? 0) then mret (-1) else mret 0 : M Z)
      (World _ ∅ (Some (dmlist_empty positive)) (Some (next_id s)) s')
    = Some (if init_bind (trace s) =? 0 then 0 else -1, init_world s)).
  { intros s' ->. by destruct (init_bind (trace s) =? 0). }
  rewrite <- Hs with (s' := w_io (init_world s)) by done. clear Hs.
  unfold init_bind. cbn [trace log_all set_trace set_mutexes set_next_id set_lists].
  rewrite <- !app_assoc. cbn [app]. do 2 f_equal.
  destruct s. unfold init_world, log_all, set_trace, set_mutexes, set_next_id, set_lists. simpl.
  by rewrite <- !app_assoc.
Qed.

(** The other outcome: one of the two allocations failed. *)
Definition init_failed (s : io) : world :=
  let h := trace s in
  let s1 := if init_list h then set_lists (lists s + 1) (log_all [c_list_create] s)
            else log_all [c_list_create] s in
  let s2 := log_all [c_mutex_create false] s1 in
  World _ ∅ (if init_list h then Some (dmlist_empty ptr) else None)
    (if init_mutex h then Some (next_id s) else None)
    (if init_mutex h
     then set_mutexes (<[next_id s := false]> (mutexes s)) (set_next_id (Pos.succ (next_id s)) s2)
     else s2).

Lemma init_not_ok s :
  init_list (trace s) && init_mutex (trace s) = false →
  dmod_init (unloaded s) = Some (-1, init_failed s).
Proof.
  unfold dmod_init, dmdhcp_lease_table_init, unloaded, init_failed, init_list, init_mutex.
  unfold mbind, st_bind, wio, getw, setw, dmlist_create, dmosi_mutex_create, mbind, st_bind, ext.
  cbn. destruct (answer (trace s) c_list_create : bool); cbn;
    destruct (answer (trace s ++ [c_list_create]) (c_mutex_create false) : bool); cbn; done.
Qed.

Lemma init_success s w :
  dmod_init (unloaded s) = Some (0, w) →
  init_list (trace s) = true ∧ init_mutex (trace s) = true ∧ init_bind (trace s) = 0 ∧ w = init_world s.
Proof.
  destruct (init_list (trace s)) eqn:H1; [|rewrite init_not_ok by (by rewrite H1); by intros [= ?]].
  destruct (init_mutex (trace s)) eqn:H2; [|rewrite init_not_ok by (by rewrite H1, H2); by intros [= ?]].
  rewrite init_ok by done. destruct (Z.eqb_spec (init_bind (trace s)) 0); [|by intros [= ?]].
  by intros [= <-].
Qed.

Lemma init_inv s : empty_io s → Inv ∅ ∅ (init_world s) ∧ running (w_io (init_world s)) = None.
Proof.
  intros []. split; [|done]. split; unfold init_world; simpl.
  - exists (dmlist_empty positive). split; [done|]. rewrite elems_empty. split; [constructor|].
    intros p. rewrite lookup_empty, elem_of_nil. split; [done|]. by intros [[? ?] _].
  - exists (next_id s). split; [done|]. rewrite lookup_insert_eq. split; [eauto|]. by intros p l ?%lookup_empty_Some.
  - by intros p l ?%lookup_empty_Some.
  - by intros p l p' l' ?%lookup_empty_Some.
  - by intros p l p' l' ?%lookup_empty_Some.
  - intros m b. rewrite ei_mutexes0, insert_empty, lookup_singleton_Some. intros [-> <-]. split; [done|by left].
  - intros t. by rewrite ei_timers0, elem_of_empty.
  - split_and!.
    + intros p. rewrite lookup_empty. by intros [? ?].
    + intros m. rewrite ei_mutexes0, insert_empty. intros [b [<- _]%lookup_singleton_Some]. lia.
    + intros t. by rewrite ei_timers0, elem_of_empty.
  - by rewrite ei_running0.
  - by rewrite ei_blocks0.
  - rewrite ei_lists0, map_size_empty. done.
Qed.

(** ** Unloading *)

(** The front of the table taken out of it *)
Lemma Inv_popped w t t' p ps :
  Inv ∅ ∅ w → g_leases w = Some t → dmlist_elems t = p :: ps → dmlist_elems t' = ps →
  Inv ∅ {[p]} (set_g_leases (Some t') w).
Proof.
  intros HI Ht Hel Htl. destruct (inv_table _ _ _ HI) as (t0 & Ht0 & Hnd & Hmem).
  assert (t0 = t) as -> by congruence. rewrite Hel in Hnd. apply list.NoDup_cons in Hnd as [Hnp Hnd].
  apply Inv_members with ∅; [done|by rewrite Htl|..].
  - intros q. rewrite Htl. specialize (Hmem q). rewrite Hel, elem_of_cons in Hmem. rewrite elem_of_singleton.
    pose proof (not_elem_of_empty (C:=gset positive) q).
    split; [intros Hq; split; [apply Hmem; by right|intros ->; done]|].
    intros [Hq Hne]. destruct (proj2 Hmem) as [?|?]; tauto.
  - intros q lq q' lq' Hq Hq' _ _. by apply (inv_ifaces _ _ _ HI); try apply not_elem_of_empty.
Qed.

(** One lease of [dmdhcp_lease_table_deinit] *)
Lemma deinit_step w t p ps :
  Inv ∅ ∅ w → g_leases w = Some t → dmlist_elems t = p :: ps → running (w_io w) = None →
  ∃ w', (∀ (B : Type) (k : M B), (t ← the_leases;
      let '(entry, t) := dmlist_pop_front t in
      setw (set_g_leases (Some t));;
      p ← st_opt entry;
      lock_lease p;;
      l ← load p;
      (if iface_configured l then with_lease p dmdhcp_lifecycle_unapply else mret tt);;
      unlock_lease p;;
      dmdhcp_lease_table_destroy (Some p);; k) w = k w') ∧
    Inv ∅ ∅ w' ∧ running (w_io w') = None ∧ g_leases_mutex w' = g_leases_mutex w ∧
    ∃ t', g_leases w' = Some t' ∧ dmlist_elems t' = ps.
Proof.
  intros HI Ht Hel Hr. destruct (inv_table _ _ _ HI) as (t0 & Ht0 & Hnd & Hmem).
  assert (t0 = t) as -> by congruence. clear Ht0.
  destruct (elems_pop positive t) as [Hh Htl]. rewrite Hel in Hh, Htl. simpl in Hh, Htl.
  destruct (proj1 (Hmem p)) as [[l Hl] _]; [rewrite Hel; by left|].
  destruct (inv_leases _ _ _ HI p l Hl) as [_ Hty (m & Hm & [b Hb]) Htlv _].
  assert (Hfree : mutexes (w_io w) !! m = Some false) by (by rewrite Hb; destruct (inv_mutexes _ _ _ HI _ _ Hb) as [-> _]).
  destruct (dmlist_pop_front t) as [entry t'] eqn:Hpop. simpl in Hh, Htl. subst entry.
  set (w1 := set_g_leases (Some t') w).
  assert (HI1 : Inv ∅ {[p]} w1) by (by apply (Inv_popped w t t' p ps)).
  set (s := w_io w). set (l' := unapplied l). set (s' := log_all (unapply_calls l) (grab m s)).
  assert (Hst : lease_step l (grab m s) l' s').
  { destruct (unapply_safe l (grab m s) Hty) as (? & ? & ? & Hrun & Hst); [by destruct Htlv; split|].
    rewrite unapply_run in Hrun. by simplify_eq. }
  assert (Hw1 : put p l s w1 = w1) by (by apply (put_id p l w1)).
  assert (HI2 : Inv ∅ {[p]} (put p l' (release m s') w1)).
  { apply (Inv_section ∅ {[p]} w1 p l s m); [by rewrite Hw1|apply not_elem_of_empty|done|done]. }
  assert (Hcl : closable l' (release m s')).
  { apply (closable_live _ _ _ p l' HI2 (heap_put _ _ _ _)).
    - rewrite elements_empty. apply not_elem_of_nil.
    - intros u _. change (running s' ≠ Some u). rewrite (if_running _ _ (ls_io _ _ _ _ Hst)). change (running (w_io w) ≠ Some u). by rewrite Hr. }
  exists (gone p (freed l' (release m s')) w1). split; [|split; [|split; [|split; [done|by exists t']]]].
  - intros B k. rewrite (w_bind _ _ _ _ _ (the_leases_run t w Ht)). rewrite Hpop.
    erewrite w_bind by reflexivity. fold w1. rewrite w_opt_bind. rewrite <- Hw1 at 1.
    rewrite (lock_put _ _ _ _ m) by done.
    transitivity (((l ← load p; if iface_configured l then with_lease p dmdhcp_lifecycle_unapply else mret tt);;
      unlock_lease p;; dmdhcp_lease_table_destroy (Some p);; k) (put p l (grab m s) w1)).
    { by rewrite w_assoc. }
    rewrite (w_bind _ _ _ _ _ (load_then_unapply p l (grab m s) w1)). fold l' s'.
    rewrite (unlock_put _ _ _ _ m).
    2:{ by rewrite (lf_lock _ _ (ls_frame _ _ _ _ Hst)). }
    2:{ by rewrite (if_mutexes _ _ (ls_io _ _ _ _ Hst)), mutexes_grab. }
    unfold dmdhcp_lease_table_destroy, dmdhcp_lease_table_destroy_with_context.
    by rewrite (w_bind _ _ _ _ _ (destroy_run p l' _ w1 Hcl)).
  - pose proof (Inv_gone _ p l' HI2 (heap_put _ _ _ _)) as HI3.
    assert (gone p (freed l' (w_io (put p l' (release m s') w1))) (put p l' (release m s') w1)
      = gone p (freed l' (release m s')) w1) as Heq.
    { unfold gone, put, set_w_io, set_heap. simpl. by rewrite delete_insert_eq. }
    by rewrite Heq in HI3.
  - simpl. destruct (freed_io l' (release m s')) as (_ & _ & _ & _ & _ & ->).
    change (running s' = None). rewrite (if_running _ _ (ls_io _ _ _ _ Hst)). exact Hr.
Qed.

Lemma deinit_loop_run n w t :
  Inv ∅ ∅ w → g_leases w = Some t → length (dmlist_elems t) = n → running (w_io w) = None →
  ∃ w' t', deinit_loop n w = Some (tt, w') ∧ Inv ∅ ∅ w' ∧ running (w_io w') = None ∧
    g_leases w' = Some t' ∧ dmlist_elems t' = [].
Proof.
  revert w t. induction n as [|n IH]; intros w t HI Ht Hn Hr.
  { exists w, t. split_and!; try done. by apply nil_length_inv. }
  destruct (dmlist_elems t) as [|p ps] eqn:Hel; [done|]. simpl in Hn.
  destruct (deinit_step w t p ps HI Ht Hel Hr) as (w' & Hrun & HI' & Hr' & Hg & t' & Ht' & Hel').
  destruct (IH w' t' HI' Ht') as (w2 & t2 & Hrun2 & HI2 & Hr2 & Ht2 & Hel2); [by rewrite Hel'; lia|done|].
  exists w2, t2. split; [|by split_and!]. cbn [deinit_loop]. rewrite Hrun. exact Hrun2.
Qed.

(** The world [dmod_deinit] leaves *)
Lemma deinit_run w :
  Inv ∅ ∅ w → running (w_io w) = None →
  ∃ s, dmod_deinit w = Some (0, unloaded s) ∧ empty_io s.
Proof.
  intros HI Hr. set (w1 := set_w_io (log_all [c_udp_unbind DMDHCP_CLIENT_PORT] (w_io w)) w).
  assert (HI1 : Inv ∅ ∅ w1) by (by apply Inv_log).
  destruct (inv_table _ _ _ HI1) as (t & Ht & _).
  destruct (deinit_loop_run _ w1 t HI1 Ht eq_refl Hr) as (w2 & t2 & Hrun & HI2 & Hr2 & Ht2 & Hel2).
  destruct (table_mutex _ _ HI2) as (gm & Hg & Hm).
  assert (Hheap : heap w2 = ∅).
  { destruct (inv_table _ _ _ HI2) as (t3 & Ht3 & _ & Hmem).
    assert (t3 = t2) as -> by congruence. apply map_eq. intros p.
    rewrite lookup_empty. destruct (heap w2 !! p) as [l|] eqn:Hl; [|done]. exfalso.
    assert (Hin : p ∈ dmlist_elems t2) by (apply Hmem; split; [eauto|apply not_elem_of_empty]).
    rewrite Hel2 in Hin. by apply elem_of_nil in Hin. }
  set (s3 := set_lists (lists (w_io w2) - 1) (log_all [c_list_destroy] (w_io w2))).
  exists (log (c_mutex_destroy gm) (set_mutexes (delete gm (mutexes s3)) s3)). split.
  - unfold dmod_deinit. erewrite w_bind by reflexivity.
    change (set_w_io _ w) with w1. unfold dmdhcp_lease_table_deinit.
    rewrite w_assoc. rewrite (w_bind _ _ _ _ _ (the_leases_run t w1 Ht)).
    rewrite elems_size, w_assoc, (w_bind _ _ _ _ _ Hrun).
    rewrite w_assoc. erewrite w_bind by reflexivity.
    rewrite w_assoc. erewrite w_bind by reflexivity.
    rewrite w_assoc. erewrite w_bind by reflexivity. cbn [g_leases_mutex set_g_leases set_w_io].
    rewrite Hg, w_assoc. erewrite w_bind.
    2:{ apply wio_run. unfold dmosi_mutex_destroy. cbn. rewrite Hm. reflexivity. }
    erewrite w_bind by reflexivity. unfold mret, st_ret, unloaded. do 2 f_equal.
    unfold set_w_io, set_g_leases, set_g_leases_mutex. simpl. by rewrite Hheap.
  - assert (Hno : ∀ p l, heap w2 !! p = Some l → False) by (intros p l; rewrite Hheap; by intros ?%lookup_empty_Some).
    split; simpl.
    + apply map_eq. intros m. rewrite lookup_empty. destruct (decide (m = gm)) as [->|]; [by rewrite lookup_delete_eq|].
      rewrite lookup_delete_ne by done. destruct (mutexes (w_io w2) !! m) as [b|] eqn:Hb; [|done].
      destruct (inv_mutexes _ _ _ HI2 _ _ Hb) as [_ [?|(p & l & Hp & _)]]; [congruence|by edestruct Hno].
    + apply leibniz_equiv. intros u. rewrite elem_of_empty. split; [|done].
      intros (p & l & Hp & _)%(inv_timers _ _ _ HI2). by eapply Hno.
    + done.
    + by rewrite (inv_blocks _ _ _ HI2), Hheap.
    + rewrite (inv_lists _ _ _ HI2), Hheap, map_size_empty. done.
Qed.

(** ** Properties *)

(** C39: the outcome of [dmod_init] on every branch.  It is 0 exactly when
    the list and the mutex were created and port 68 was bound, and the
    invariant holds then.  It is -1 otherwise - and then whatever was created
    before the failure stays allocated: [dmod_init] undoes nothing. *)
Theorem init_outcome s :
  empty_io s →
  let h := trace s in
  let ok := init_list h && init_mutex h && (init_bind h =? 0) in
  ∃ w, dmod_init (unloaded s) = Some (if ok then 0 else -1, w) ∧ heap w = ∅ ∧
    (ok = true → Inv ∅ ∅ w) ∧
    lists (w_io w) = (if init_list h then 1 else 0) ∧
    size (mutexes (w_io w)) = (if init_mutex h then 1 else 0)%nat.
Proof.
  intros Hs h ok. pose proof (init_inv s Hs) as [HI _].
  destruct (init_list h && init_mutex h) eqn:Ha.
  - apply andb_true_iff in Ha as [H1 H2]. subst ok h. rewrite H1, H2, init_ok by done. simpl.
    exists (init_world s). split; [done|]. destruct Hs as [Hsm _ _ _ Hsl]. split; [done|]. split; [done|]. simpl.
    rewrite Hsl, Hsm. split; [done|]. by rewrite insert_empty, map_size_singleton.
  - subst ok h. rewrite init_not_ok by done. cbn [andb].
    exists (init_failed s). destruct Hs as [Hsm _ _ _ Hsl]. split; [done|]. split; [done|]. split; [done|].
    unfold init_failed. simpl. destruct (init_list (trace s)), (init_mutex (trace s)); simpl;
      rewrite ?Hsl, ?Hsm, ?insert_empty, ?map_size_singleton, ?map_size_empty; done.
Qed.
End Module.
