(* ===== verification/Events.v ===== *)
(** The module as a state machine over its whole state: the events that drive
    it - calls of the public API, received datagrams, timer callbacks,
    discovery queries - and the worlds they can reach. *)
From S2P Require Import Prelude Types Wire Options Platform Lease Output Lifecycle World Invariant LeaseTable TableFacts Queries Timers Input Api System.

Section Events.
Context `{E : Env} `{D : DmList} `{C : !Client}.

(** The accessors of [include/dmdhcp.h] *)
Inductive accessor : Type :=
  | get_state | get_iface | get_user_data | get_xid | get_lease_info
  | get_dns_server_count | get_dns_server (index : nat)
  | get_ntp_server_count | get_ntp_server (index : nat).

Definition run_accessor (a : accessor) (h : option ptr) : M unit :=
  match a with
  | get_state => dmdhcp_get_state h;; mret tt
  | get_iface => dmdhcp_get_iface h;; mret tt
  | get_user_data => dmdhcp_get_user_data h;; mret tt
  | get_xid => dmdhcp_get_xid h;; mret tt
  | get_lease_info =>
      dmdhcp_get_lease_info h (Some (LeaseInfo addr_none addr_none addr_none addr_none 0 0 0));; mret tt
  | get_dns_server_count => dmdhcp_get_dns_server_count h;; mret tt
  | get_dns_server i => dmdhcp_get_dns_server h i (Some addr_none);; mret tt
  | get_ntp_server_count => dmdhcp_get_ntp_server_count h;; mret tt
  | get_ntp_server i => dmdhcp_get_ntp_server h i (Some addr_none);; mret tt
  end.

Inductive event : Type :=
  | ev_start (i : iface_t) (cbs : option dmdhcp_callbacks_t) (ud : Z) (options : option dmdhcp_options_t)
  | ev_renew (h : option ptr)
  | ev_release (h : option ptr)
  | ev_stop (h : option ptr)
  | ev_set_callbacks (h : option ptr) (cbs : option dmdhcp_callbacks_t) (ud : Z)
  | ev_access (a : accessor) (h : option ptr)
  | ev_ntp_servers (out : option (list dmroute_addr_t)) (max_count : nat)
  | ev_provide_dns (add : option Z) (ctx : Z)
  | ev_provide_ntp (add : option Z) (ctx : Z)
  | ev_datagram (i : iface_t) (payload : list Z)
  | ev_retransmit_timer (p : ptr)
  | ev_lease_timer (p : ptr).

(** A timer callback runs on the timer's own thread: [running] says so, for as
    long as it runs. *)
Definition on_timer (timer : lease → option handle) (callback : option ptr → M unit) (p : ptr) : M unit :=
  l ← load p;
  setw (λ w, set_w_io (set_running (timer l) (w_io w)) w);;
  callback (Some p);;
  setw (λ w, set_w_io (set_running None (w_io w)) w).

Definition run_event (e : event) : M unit :=
  match e with
  | ev_start i cbs ud options => dmdhcp_start i cbs ud options;; mret tt
  | ev_renew h => dmdhcp_renew h;; mret tt
  | ev_release h => dmdhcp_release h;; mret tt
  | ev_stop h => dmdhcp_stop h
  | ev_set_callbacks h cbs ud => dmdhcp_set_callbacks h cbs ud;; mret tt
  | ev_access a h => run_accessor a h
  | ev_ntp_servers out max_count => dmdhcp_get_ntp_servers out max_count;; mret tt
  | ev_provide_dns add ctx => dmdhcp_dmdns_provide_servers add ctx
  | ev_provide_ntp add ctx => dmdhcp_dmntp_provide_servers add ctx
  | ev_datagram i payload => dmdhcp_handle_datagram i payload
  | ev_retransmit_timer p => on_timer retransmit_timer retransmit_timer_callback p
  | ev_lease_timer p => on_timer lease_timer lease_timer_callback p
  end.

(** What the caller owes: a handle is NULL or was not given back yet, an
    address is typed, an array is as long as it is said to be; a timer fires
    for a lease that still owns it. *)
Definition handle_ok (w : world) (h : option ptr) : Prop :=
  from_option (λ p, is_Some (heap w !! p)) True h.

Definition enabled (e : event) (w : world) : Prop :=
  match e with
  | ev_start _ _ _ options =>
      from_option bytes_ok True (start_hostname options) ∧ addr_arg_ok (start_requested_ip options)
  | ev_renew h | ev_release h | ev_stop h | ev_set_callbacks h _ _ | ev_access _ h => handle_ok w h
  | ev_ntp_servers out max_count => from_option (λ a, max_count ≤ length a)%nat True out
  | ev_provide_dns _ _ | ev_provide_ntp _ _ => True
  | ev_datagram _ payload => bytes_ok payload
  | ev_retransmit_timer p | ev_lease_timer p => is_Some (heap w !! p)
  end.

(** The step relation, and the worlds between loading and unloading *)
Inductive step (w w' : world) : Prop :=
  | step_event e : enabled e w → run_event e w = Some (tt, w') → step w w'.

Inductive loaded : world → Prop :=
  | loaded_init s w : empty_io s → dmod_init (unloaded s) = Some (0, w) → loaded w
  | loaded_step w w' : loaded w → step w w' → loaded w'.

Fixpoint run_events (es : list event) : M unit :=
  match es with
  | [] => mret tt
  | e :: es => run_event e;; run_events es
  end.

(** [enabled], decided; and a run of events that checks it at every step *)
Definition addr_argb (a : option dmroute_addr_t) : bool :=
  match a with
  | Some a => (length (v4 a) =? DMROUTE_IPV4_ADDR_LEN)%nat && bytes_okb (v4 a)
      && negb (bool_decide (family a = dmroute_family_v6))
  | None => true
  end.

Definition handle_okb (w : world) (h : option ptr) : bool :=
  match h with Some p => bool_decide (is_Some (heap w !! p)) | None => true end.

Definition enabledb (e : event) (w : world) : bool :=
  match e with
  | ev_start _ _ _ options =>
      match start_hostname options with Some h => bytes_okb h | None => true end
      && addr_argb (start_requested_ip options)
  | ev_renew h | ev_release h | ev_stop h | ev_set_callbacks h _ _ | ev_access _ h => handle_okb w h
  | ev_ntp_servers out max_count =>
      match out with Some a => (max_count <=? length a)%nat | None => true end
  | ev_provide_dns _ _ | ev_provide_ntp _ _ => true
  | ev_datagram _ payload => bytes_okb payload
  | ev_retransmit_timer p | ev_lease_timer p => bool_decide (is_Some (heap w !! p))
  end.

Fixpoint run_checked (es : list event) (w : world) : option world :=
  match es with
  | [] => Some w
  | e :: es =>
      if enabledb e w then
        match run_event e w with Some (_, w') => run_checked es w' | None => None end
      else None
  end.
End Events.

Section Checked.
Context `{E : Env} `{D : DmList} `{C : !Client}.

Lemma enabledb_ok e w : enabledb e w = true → enabled e w.
Proof.
  assert (Hh : ∀ h, handle_okb w h = true → handle_ok w h).
  { intros [p|]; [|done]. by intros ?%bool_decide_eq_true. }
  destruct e; simpl; try done; try apply Hh; try apply bytes_okb_ok; try apply bool_decide_eq_true.
  - intros [H1 H2]%andb_true_iff. split.
    + destruct (start_hostname options); [by apply bytes_okb_ok|done].
    + destruct (start_requested_ip options) as [a|]; [|done].
      apply andb_true_iff in H2 as [[H2%Nat.eqb_eq H3%bytes_okb_ok]%andb_true_iff H4%negb_true_iff].
      split; [done|]. by apply bool_decide_eq_false in H4.
  - destruct out; [apply Nat.leb_le|done].
Qed.

Lemma loaded_run es w : loaded w → loaded (default w (run_checked es w)).
Proof.
  intros Hw. destruct (run_checked es w) as [w'|] eqn:Hrun; [|done]. simpl. revert w Hw Hrun.
  induction es as [|e es IH]; intros w Hw; simpl; [by intros [= <-]|].
  destruct (enabledb e w) eqn:He; [|done].
  destruct (run_event e w) as [[[] w1]|] eqn:Hr; [|done]. apply IH. apply (loaded_step w); [done|].
  apply step_event with e; [by apply enabledb_ok|done].
Qed.
End Checked.

(** ** Safety *)
Section EventsSafe.
Context `{E : Env} {EO : EnvOk E} `{D : DmList} {DL : DmListLaws D} `{C : !Client} {CO : ClientOk C}.

Definition idle (w : world) : Prop := Inv ∅ ∅ w ∧ running (w_io w) = None.

Lemma idle_at w p : idle w → is_Some (heap w !! p) → ∃ m, At None p m ∅ ∅ w.
Proof.
  intros [HI Hr] [l Hp]. destruct (inv_leases _ _ _ HI p l Hp) as [_ _ (m & Hm & _) _ _].
  exists m. split; [done|]. split; [done|]. by exists l.
Qed.

Lemma at_idle p m w : At None p m ∅ ∅ w → idle w.
Proof. by intros (? & ? & _). Qed.

Lemma idle_logged cs w : idle w → idle (logged cs w).
Proof. intros [HI Hr]. split; [by apply Inv_log|done]. Qed.

Lemma wp_drop {A} (m : M A) (Q : world → Prop) w : wp m (λ _, Q) w → wp (m;; mret tt) (λ _, Q) w.
Proof. intros Hm. apply wp_bind. eapply wp_mono; [|exact Hm]. done. Qed.

Lemma renew_safe r p m w :
  At r p m ∅ ∅ w → wp (dmdhcp_renew (Some p)) (λ _, At r p m ∅ ∅) w.
Proof.
  intros HA. unfold dmdhcp_renew. do 3 at_step.
  eapply wp_seq with (R := λ _, At r p m {[m]} ∅); [case_match; by at_run|].
  clear HA. intros ? ? HA. at_step. exact HA.
Qed.

Lemma set_callbacks_api_safe r p m w cbs ud :
  At r p m ∅ ∅ w → wp (dmdhcp_set_callbacks (Some p) cbs ud) (λ _, At r p m ∅ ∅) w.
Proof. intros HA. unfold dmdhcp_set_callbacks. do 5 at_step. exact HA. Qed.

Lemma locked_read_safe {A} r p m w (bad : A) (f : lease → A) :
  At r p m ∅ ∅ w →
  wp (locked_read (Some p) bad f) (λ a w', At r p m ∅ ∅ w' ∧ heap w' = heap w ∧
    ∃ l, heap w !! p = Some l ∧ a = f l) w.
Proof.
  intros (HI & Hr & l & Hp & Hl). unfold wp. rewrite (locked_read_run w p l m bad f) by done.
  split; [split; [by apply Inv_log|split; [done|by exists l]]|]. split; [done|]. by exists l.
Qed.

(** A server list of a live lease is never NULL. *)
Lemma at_servers r p m w l :
  At r p m ∅ ∅ w → heap w !! p = Some l →
  is_Some (dns_servers l) ∧ is_Some (ntp_servers l).
Proof.
  intros (HI & _) Hp. destruct (ll_typed _ _ (inv_leases _ _ _ HI p l Hp)) as [].
  destruct lt_dns as (d & -> & _), lt_ntp as (n & -> & _). eauto.
Qed.

Lemma accessor_safe r p m w a :
  At r p m ∅ ∅ w →
  wp (run_accessor a (Some p)) (λ _ w', At r p m ∅ ∅ w' ∧ heap w' = heap w) w.
Proof.
  intros HA. unfold run_accessor.
  assert (Hread : ∀ (A : Type) (bad : A) (f : lease → A),
    wp (locked_read (Some p) bad f;; mret tt) (λ _ w', At r p m ∅ ∅ w' ∧ heap w' = heap w) w).
  { intros A bad f. apply wp_bind. eapply wp_mono; [|by apply (locked_read_safe r p m w bad f)].
    by intros ? ? (? & ? & _). }
  assert (Hopt : ∀ (A : Type) (bad : option A) (f : lease → option A),
    (∀ l, heap w !! p = Some l → is_Some (f l)) →
    wp ((x ← locked_read (Some p) bad f; st_opt x);; mret tt)
      (λ _ w', At r p m ∅ ∅ w' ∧ heap w' = heap w) w).
  { intros A bad f Hf. apply wp_assoc, wp_bind.
    eapply wp_mono; [|by apply (locked_read_safe r p m w bad f)].
    intros ? ? (? & ? & l & Hl & ->). destruct (Hf l Hl) as [b ->]. done. }
  assert (Hs := at_servers r p m w).
  destruct a; try apply Hread; try (apply Hopt; intros l Hl; destruct (Hs l HA Hl) as [[d Hd] [n Hn]];
    rewrite ?Hd, ?Hn; unfold get_server; simpl; eauto).
  unfold dmdhcp_get_iface. at_step. at_step. done.
Qed.

Lemma Inv_set_running busy off w r :
  Inv busy off w → (∀ t, r = Some t → (t < next_id (w_io w))%positive) →
  Inv busy off (set_w_io (set_running r (w_io w)) w).
Proof.
  intros HI Hr. split; simpl; try apply HI; try done.
  intros p l Hp. destruct (inv_leases _ _ _ HI p l Hp) as [? ? ? [] ?]. split; [done..|by split|done].
Qed.

Lemma running_torn_down p m l' s' t w : running (w_io (torn_down p m l' s' t w)) = running s'.
Proof. destruct (freed_io l' (release m s')) as (_ & _ & _ & _ & _ & Hr). exact Hr. Qed.

Lemma on_timer_safe timer callback p w :
  idle w → is_Some (heap w !! p) → (∀ l t, timer l = Some t → own_timer l t) →
  (∀ r m w', At r p m ∅ ∅ w' → wp (callback (Some p)) (λ _, At r p m ∅ ∅) w') →
  wp (on_timer timer callback p) (λ _, idle) w.
Proof.
  intros Hw Hp Hown Hcb. destruct (idle_at w p Hw Hp) as [m HA].
  unfold on_timer. at_step. rename a into l.
  set (w1 := set_w_io (set_running (timer l) (w_io w)) w).
  assert (HA1 : At (timer l) p m ∅ ∅ w1).
  { split; [|split; [done|by exists l]]. apply Inv_set_running; [apply Hw|]. intros t Ht.
    destruct (inv_fresh _ _ _ (proj1 Hw)) as (_ & _ & Hf). apply Hf.
    destruct H1 as [_ _ _ [(t1 & Ht1 & ?) (t2 & Ht2 & ?)] _].
    destruct (Hown l t Ht) as [Ho|Ho]; congruence. }
  eapply wp_seq with (R := λ _ w', w' = w1); [done|]. intros ? ? ->.
  eapply wp_seq; [exact (Hcb (timer l) m w1 HA1)|]. intros ? w2 (HI2 & _ & _).
  split; [|done]. by apply Inv_set_running.
Qed.

Lemma wp_null {A} (a : A) (k : M A) w (Q : A → world → Prop) :
  Q a w → wp (b ← bad_handle None; (λ _ : bool, mret a : M A) b) Q w.
Proof. done. Qed.

(** Every event keeps the invariant. *)
Lemma event_safe e w : idle w → enabled e w → wp (run_event e) (λ _, idle) w.
Proof.
  intros Hw He. pose proof Hw as [HI Hr]. destruct e; cbn [run_event enabled] in *; try apply wp_drop.
  - (* start *) destruct He as [Hh Hreq]. destruct (Z.eq_dec i 0) as [->|Hi]; [done|].
    destruct (start_run i cbs ud options w HI Hi Hh Hreq) as (r & w' & Hrun & HI' & Hr' & _).
    unfold wp. rewrite Hrun. split; [done|congruence].
  - (* renew *) destruct h as [p|]; [|done]. destruct (idle_at w p Hw He) as [m HA].
    eapply wp_mono; [|by apply renew_safe]. intros ? ?; apply at_idle.
  - (* release *) destruct h as [p|]; [|done].
    destruct (idle_at w p Hw He) as (m & _ & _ & l & Hp & Hl).
    destruct (release_run w p l m HI Hp Hl) as (gm & t & _ & _ & Hrun & HI'); [by rewrite Hr|].
    unfold wp. rewrite Hrun. split; [done|]. by rewrite running_torn_down.
  - (* stop *) destruct h as [p|]; [|done].
    destruct (idle_at w p Hw He) as (m & _ & _ & l & Hp & Hl).
    destruct (stop_run w p l m HI Hp Hl) as (gm & t & _ & _ & Hrun & HI'); [by rewrite Hr|].
    unfold wp. rewrite Hrun. split; [done|]. by rewrite running_torn_down.
  - (* set_callbacks *) destruct h as [p|]; [|done]. destruct (idle_at w p Hw He) as [m HA].
    eapply wp_mono; [|by apply set_callbacks_api_safe]. intros ? ?; apply at_idle.
  - (* accessors *) destruct h as [p|]; [|by destruct a]. destruct (idle_at w p Hw He) as [m HA].
    eapply wp_mono; [|by apply accessor_safe]. intros ? ? [? _]; by eapply at_idle.
  - (* NTP snapshot *) destruct out as [out|]; [|done].
    destruct (inv_table _ _ _ HI) as (t & Ht & _). simpl in He.
    destruct (get_ntp_servers_run w t out max_count HI Ht He) as (cs & Hrun).
    unfold wp. rewrite Hrun. destruct (_ =? 0)%nat; [done|by apply idle_logged].
  - (* DNS discovery *) destruct add as [f|]; [|done].
    destruct (inv_table _ _ _ HI) as (t & Ht & _). destruct (table_mutex _ _ HI) as (gm & Hg & _).
    unfold wp. rewrite (provide_dns_run w t gm f ctx) by done. by apply idle_logged.
  - (* NTP discovery *) destruct add as [f|]; [|done].
    destruct (inv_table _ _ _ HI) as (t & Ht & _). destruct (table_mutex _ _ HI) as (gm & Hg & _).
    unfold wp. rewrite (provide_ntp_run w t gm f ctx) by done. by apply idle_logged.
  - (* datagram *) eapply wp_mono; [|by apply datagram_safe]. intros ? ? [? ?]. split; [done|congruence].
  - (* timers *) apply on_timer_safe; [done|done|by left|]. intros; by apply retransmit_timer_callback_safe.
  - apply on_timer_safe; [done|done|by right|]. intros; by apply lease_timer_callback_safe.
Qed.

Lemma loaded_idle w : loaded w → idle w.
Proof.
  induction 1 as [s w Hs Hinit|w w' _ IH [e He Hrun]].
  - apply init_success in Hinit as (_ & _ & _ & ->). by apply init_inv.
  - pose proof (event_safe e w IH He) as Hsafe. unfold wp in Hsafe. by rewrite Hrun in Hsafe.
Qed.

(** ** Properties *)

(** C1: no undefined behaviour, ever.  From any world the loaded module can
    reach, every call of the public API on a live or NULL handle, every
    received datagram whatever its octets, every timer callback and every
    discovery query runs to its end - no access outside a buffer or through a
    dangling pointer, no mutex locked twice or left held, no timer or mutex
    destroyed while in use - and leads to a world the module can reach, where
    the invariant holds: the table lists exactly the live leases, at most one
    per interface, each owning its mutex and two timers; every mutex is free;
    and exactly the blocks, lists, mutexes and timers of those leases (and of
    the table) are allocated. *)
Theorem module_never_fails e w :
  loaded w → enabled e w →
  ∃ w', run_event e w = Some (tt, w') ∧ loaded w' ∧ Inv ∅ ∅ w' ∧ running (w_io w') = None.
Proof.
  intros Hw He. pose proof (event_safe e w (loaded_idle w Hw) He) as Hsafe.
  apply wp_run in Hsafe as ([] & w' & Hrun & HI & Hr). exists w'. split; [done|]. split; [|done].
  apply (loaded_step w); [done|]. by apply step_event with e.
Qed.

(** C7: unloading frees everything.  From any world the loaded module can
    reach, with any number of leases in any state, [dmod_deinit] returns 0 and
    leaves nothing behind: no lease, no table, no mutex, no timer, no heap
    block and no list. *)
Theorem unload_frees_everything w :
  loaded w → ∃ s, dmod_deinit w = Some (0, unloaded s) ∧ empty_io s.
Proof. intros [HI Hr]%loaded_idle. by apply deinit_run. Qed.
End EventsSafe.

(** ** An application that calls the library back

    What a real application does from its callbacks: it reads the lease it is
    told about, and asks for a renewal.  The obligation [ClientOk] allows it,
    so every theorem over [ClientOk] holds with calls nested in callbacks. *)
Definition reentrant_client `{E : Env} `{D : DmList} : Client := λ c,
  match c with
  | c_on_bound _ p _ _ =>
      run_accessor get_lease_info (Some p);; run_accessor (get_dns_server 0) (Some p);;
      dmdhcp_renew (Some p);; mret tt
  | c_on_expired _ p _ => dmdhcp_set_callbacks (Some p) None 0;; run_accessor get_state (Some p)
  | c_on_error _ p _ _ => dmdhcp_renew (Some p);; run_accessor get_ntp_server_count (Some p)
  | _ => mret tt
  end.

#[export] Instance reentrant_client_ok `{E : Env} {EO : EnvOk E} `{D : DmList} {DL : DmListLaws D} :
  ClientOk reentrant_client.
Proof.
  assert (Hread : ∀ a r p m w, At r p m ∅ ∅ w → wp (run_accessor a (Some p)) (λ _, At r p m ∅ ∅) w).
  { intros a r p m w HA. eapply wp_mono; [|by apply accessor_safe]. by intros ? ? [? _]. }
  intros c r p m w Hc HA. destruct c; try exact HA; simpl in Hc; subst; unfold client, reentrant_client.
  all: repeat (eapply wp_seq with (R := λ _, At r p m ∅ ∅);
      [first [by apply Hread|by apply renew_safe|by apply set_callbacks_api_safe]|clear HA; intros ? ? HA]).
  all: first [by apply Hread|exact HA].
Qed.
