(* ===== verification/Contracts.v ===== *)
(** What the public operations promise: the handles they accept, what the
    accessors report, what starting and ending a lease does to the platform,
    which lease a datagram reaches. *)
From S2P Require Import Prelude Types Wire Options Platform Lease Output Lifecycle World Invariant LeaseTable TableFacts Queries Timers Input Api Handlers System Events.

Section Contracts.
Context `{E : Env} {EO : EnvOk E} `{D : DmList} {DL : DmListLaws D} `{C : !Client}.

(** ** Handles *)

(** Not the handle of a live lease: NULL, or a lease whose magic is gone *)
Definition rejected (h : option ptr) (w : world) : Prop :=
  match h with
  | None => True
  | Some p => ∃ l, heap w !! p = Some l ∧ magic l ≠ DMDHCP_LEASE_MAGIC
  end.

Lemma rejected_run h w : rejected h w → bad_handle h w = Some (true, w).
Proof.
  destruct h as [p|]; [|done]. intros (l & Hp & Hm). unfold bad_handle.
  rewrite (load_read p l) by done. by rewrite (proj2 (Z.eqb_neq _ _) Hm).
Qed.

Lemma rejected_bind {A} (a : A) (k : ptr → bool → M A) h w :
  rejected h w → (∀ p w, k p true w = Some (a, w)) →
  (b ← bad_handle h; match h with Some p => k p b | None => mret a end) w = Some (a, w).
Proof.
  intros Hr Hk. rewrite (w_bind _ _ _ _ _ (rejected_run h w Hr)). destruct h; [apply Hk|done].
Qed.

(** A NULL handle, or one whose magic number is gone, is refused by every
    function of the API: each returns its error value at once - [-EINVAL], a
    failed state, no interface, no user data, no xid, no servers - takes no
    lock, makes no call and changes nothing, the caller's output parameter
    included; the two timer callbacks return.  A NULL output parameter is
    refused the same way. *)
Theorem bad_handles_refused h w :
  rejected h w →
  dmdhcp_renew h w = Some (- EINVAL, w) ∧ dmdhcp_release h w = Some (- EINVAL, w) ∧
  dmdhcp_stop h w = Some (tt, w) ∧
  (∀ cbs ud, dmdhcp_set_callbacks h cbs ud w = Some (- EINVAL, w)) ∧
  dmdhcp_get_state h w = Some (dmdhcp_state_failed, w) ∧ dmdhcp_get_iface h w = Some (0, w) ∧
  dmdhcp_get_user_data h w = Some (0, w) ∧ dmdhcp_get_xid h w = Some (0, w) ∧
  (∀ out, dmdhcp_get_lease_info h out w = Some ((- EINVAL, out), w)) ∧
  dmdhcp_get_dns_server_count h w = Some (0%nat, w) ∧ dmdhcp_get_ntp_server_count h w = Some (0%nat, w) ∧
  (∀ i out, dmdhcp_get_dns_server h i out w = Some ((- EINVAL, out), w)) ∧
  (∀ i out, dmdhcp_get_ntp_server h i out w = Some ((- EINVAL, out), w)) ∧
  retransmit_timer_callback h w = Some (tt, w) ∧ lease_timer_callback h w = Some (tt, w).
Proof.
  intros Hr. assert (Hread : ∀ A (bad : A) f, locked_read h bad f w = Some (bad, w)).
  { intros A bad f. unfold locked_read. rewrite (w_bind _ _ _ _ _ (rejected_run h w Hr)). by destruct h. }
  assert (Hopt : ∀ A (bad : A) f, (r ← locked_read h (Some bad) f; st_opt r) w = Some (bad, w)).
  { intros A bad f. by rewrite (w_bind _ _ _ _ _ (Hread _ _ f)). }
  unfold dmdhcp_renew, dmdhcp_release, dmdhcp_stop, dmdhcp_set_callbacks, dmdhcp_get_state, dmdhcp_get_iface,
    dmdhcp_get_user_data, dmdhcp_get_xid, dmdhcp_get_lease_info, dmdhcp_get_dns_server_count,
    dmdhcp_get_ntp_server_count, dmdhcp_get_dns_server, dmdhcp_get_ntp_server, retransmit_timer_callback,
    lease_timer_callback.
  split_and!; intros; try (destruct out; [|by rewrite (w_bind _ _ _ _ _ (rejected_run h w Hr))]);
    first [apply Hread | apply Hopt | rewrite (w_bind _ _ _ _ _ (rejected_run h w Hr)); by destruct h].
Qed.

(** ** Accessors *)

(** C38: the accessors of a live lease report its fields as they are at the
    moment they hold its lock, which they take once and give back, and change
    nothing: the state, xid, user data and interface (the last without the
    lock); the seven fields of the lease information exactly when the lease is
    valid, [-EINVAL] and the caller's structure untouched otherwise; the
    servers in order and their number, an index past the end answered by
    [-EINVAL].  [dmdhcp_set_callbacks] replaces the callbacks and user data,
    NULL meaning none, and nothing else. *)
Theorem accessors_report w p l m rt lt :
  owner w p l m rt lt →
  let w1 := logged [c_mutex_lock m; c_mutex_unlock m] w in
  let servers f := from_option dmlist_elems [] (f l) in
  let at_index (xs : list dmroute_addr_t) i out :=
    match xs !! i with Some a => (0, Some a) | None => (- EINVAL, Some out) end in
  dmdhcp_get_state (Some p) w = Some (state l, w1) ∧ dmdhcp_get_xid (Some p) w = Some (xid l, w1) ∧
  dmdhcp_get_user_data (Some p) w = Some (user_data l, w1) ∧ dmdhcp_get_iface (Some p) w = Some (iface l, w) ∧
  (∀ out, dmdhcp_get_lease_info (Some p) (Some out) w = Some
    (if holds_valid_lease l
     then (0, Some (LeaseInfo (offered_ip l) (netmask l) (gateway l) (server_id l)
                      (lease_time_sec l) (t1_sec l) (t2_sec l)))
     else (- EINVAL, Some out), w1)) ∧
  dmdhcp_get_dns_server_count (Some p) w = Some (length (servers dns_servers), w1) ∧
  dmdhcp_get_ntp_server_count (Some p) w = Some (length (servers ntp_servers), w1) ∧
  (∀ i out, dmdhcp_get_dns_server (Some p) i (Some out) w = Some (at_index (servers dns_servers) i out, w1)) ∧
  (∀ i out, dmdhcp_get_ntp_server (Some p) i (Some out) w = Some (at_index (servers ntp_servers) i out, w1)) ∧
  (∀ cbs ud, dmdhcp_set_callbacks (Some p) cbs ud w = Some (0, sectioned p m [] l
    (set_user_data ud (set_callbacks (default callbacks_zero cbs) l)) w)).
Proof.
  intros Ho w1 servers at_index. pose proof Ho as [HI Hp Hl _ _].
  pose proof (owner_live _ _ _ _ _ _ Ho) as [Hmag [] _ _ _].
  destruct lt_dns as (d & Hd & _), lt_ntp as (n & Hn & _).
  assert (Hread : ∀ A (bad : A) f, locked_read (Some p) bad f w = Some (f l, w1))
    by (intros; by apply locked_read_run).
  assert (Hopt : ∀ A (bad : option A) f b, f l = Some b → (r ← locked_read (Some p) bad f; st_opt r) w = Some (b, w1)).
  { intros A bad f b Hb. by rewrite (w_bind _ _ _ _ _ (Hread _ _ f)), Hb. }
  unfold servers. rewrite Hd, Hn. split_and!; intros; try apply Hread.
  - unfold dmdhcp_get_iface. rewrite (handle_read _ l) by done. by rewrite (load_read _ l).
  - apply Hopt. rewrite Hd. simpl. by rewrite elems_size.
  - apply Hopt. rewrite Hn. simpl. by rewrite elems_size.
  - apply Hopt. unfold get_server. rewrite Hd. simpl. by rewrite elems_get.
  - apply Hopt. unfold get_server. rewrite Hn. simpl. by rewrite elems_get.
  - unfold dmdhcp_set_callbacks. rewrite (handle_read _ l) by done. erewrite section_start by done.
    do 2 set_field. rewrite <- (log_all_nil (grab m (w_io w))). by erewrite section_end_owned.
Qed.

(** ** Which lease a datagram reaches *)

(** The message types each state answers to: OFFER, ACK and NAK *)
Definition awaits (s : dmdhcp_state_t) (t : Z) : bool :=
  match s with
  | dmdhcp_state_selecting => t =? 2
  | dmdhcp_state_requesting | dmdhcp_state_rebooting | dmdhcp_state_renewing
  | dmdhcp_state_rebinding => (t =? 5) || (t =? 6)
  | _ => false
  end.

Lemma datagram_reaches payload w gm msg t p l :
  Inv ∅ ∅ w → g_leases_mutex w = Some gm → bytes_ok payload → reply_of payload = Some msg →
  type_of payload = Some t → heap w !! p = Some l → xid l = msg_xid msg →
  dmdhcp_handle_datagram (iface l) payload w
  = dispatch_message p msg (drop 240 payload) t (logged [c_mutex_lock gm; c_mutex_unlock gm] w).
Proof.
  intros HI Hg Hok Hmsg Ht Hp Hx. rewrite datagram_run, Hmsg, Ht by done.
  destruct (find_by_xid_run w (iface l) (msg_xid msg) HI) as (gm' & r & Hg' & Hwait & ->).
  assert (gm' = gm) as -> by congruence. destruct r as [q|]; [|by destruct (Hwait p l Hp)].
  destruct Hwait as (lq & Hq & Hi & _).
  assert (q = p) as ->; [|done]. by apply (inv_ifaces _ _ _ HI q lq p l); try apply not_elem_of_empty.
Qed.

(** C22: a received datagram is dropped without a trace unless it parses as a
    BOOTREPLY; it is dropped after one look at the table when no lease has its
    interface and its xid or it has no one-octet message type; otherwise it
    reaches exactly the lease with that interface and xid - of all the leases
    of the program there is one - with the options that follow the cookie, and
    nothing happens there when the lease is not waiting for that type.  The
    length of the payload is not limited: DMDHCP_MAX_MESSAGE_LEN, in
    dmdhcp_internal.h the largest message built or accepted, bounds only the
    messages that are built. *)
Theorem datagram_routing i payload w gm :
  Inv ∅ ∅ w → g_leases_mutex w = Some gm → bytes_ok payload →
  let looked := logged [c_mutex_lock gm; c_mutex_unlock gm] w in
  (reply_of payload = None → dmdhcp_handle_datagram i payload w = Some (tt, w)) ∧
  (∀ msg, reply_of payload = Some msg →
    (type_of payload = None ∨ ∀ p l, heap w !! p = Some l → ¬ (iface l = i ∧ xid l = msg_xid msg)) →
    dmdhcp_handle_datagram i payload w = Some (tt, looked)) ∧
  (∀ msg t p l m rt lt, reply_of payload = Some msg → type_of payload = Some t →
    owner w p l m rt lt → iface l = i → xid l = msg_xid msg →
    dmdhcp_handle_datagram i payload w = dispatch_message p msg (drop 240 payload) t looked ∧
    (awaits (state l) t = false →
     dmdhcp_handle_datagram i payload w = Some (tt, logged (section_calls m []) looked))).
Proof.
  intros HI Hg Hok looked. split; [by rewrite datagram_run by done; intros ->|]. split.
  - intros msg Hmsg Hno. rewrite datagram_run, Hmsg by done.
    destruct (find_by_xid_run w i (msg_xid msg) HI) as (gm' & r & Hg' & Hr & ->).
    assert (gm' = gm) as -> by congruence. destruct r as [p|]; [|done].
    destruct Hr as (l & Hp & Hi & Hx). destruct Hno as [->|Hno]; [done|]. by destruct (Hno p l Hp).
  - intros msg t p l m rt lt Hmsg Ht Ho <- Hx. pose proof Ho as [_ Hp _ _ _].
    rewrite (datagram_reaches payload w gm msg t p l) by done. fold looked.
    split; [done|]. intros Haw.
    assert (Ho1 : owner looked p l m rt lt) by (by apply owner_logged).
    etransitivity; [|exact (relocked _ _ _ _ _ _ Ho1)].
    unfold dispatch_message. erewrite !section_start by done. rewrite load_put. cbv zeta. type_codes.
    unfold awaits in Haw. destruct (state l); decide_states;
      rewrite ?andb_false_r, ?andb_true_r; cbn [orb andb]; try done; try (by rewrite Haw);
      apply orb_false_iff in Haw as [-> ->]; done.
Qed.

(** ** Ending a lease *)

(** The calls that give the resources of a lease back *)
Definition closing_calls (m rt lt : handle) : list call :=
  [c_timer_stop rt; c_timer_destroy rt; c_timer_stop lt; c_timer_destroy lt;
   c_list_destroy; c_list_destroy; c_mutex_destroy m].

Lemma freed_trace l s m rt lt :
  lease_typed l → lock l = Some m → retransmit_timer l = Some rt → lease_timer l = Some lt →
  trace (freed l s) = trace s ++ closing_calls m rt lt.
Proof.
  intros [] Hlk Hrt Hlt. destruct lt_dns as (d & Hd & _), lt_ntp as (n & Hn & _).
  unfold freed. rewrite Hlk, Hrt, Hlt, Hd, Hn. destruct (hostname l); simpl; by rewrite <- !app_assoc.
Qed.

Lemma torn_down_facts w p l m rt lt l' s' t :
  owner w p l m rt lt → same_owned l l' → lease_typed l' →
  let w' := torn_down p m l' s' t w in
  heap w' = delete p (heap w) ∧
  trace (w_io w') = trace s' ++ [c_mutex_unlock m] ++ closing_calls m rt lt.
Proof.
  intros [] [[] _] Hl'. split; [done|]. simpl.
  rewrite (freed_trace l' (release m s') m rt lt) by (done || congruence). simpl. by rewrite <- app_assoc.
Qed.

Lemma unapplied_owned l : same_owned l (unapplied l).
Proof. unfold unapplied. case_match; by repeat split. Qed.

(** C24: ending a lease.  [dmdhcp_stop] and [dmdhcp_release] first take the
    lease out of the table, then - under its lock - undo what it applied, then
    stop and destroy both timers, both server lists and the mutex, and free it:
    no other lease changes, and its handle is dead.  The only difference is
    that [dmdhcp_release] sends one RELEASE before undoing, exactly when both
    the address and the server are known. *)
Theorem ending_a_lease w p l m rt lt gm :
  owner w p l m rt lt → running (w_io w) = None → g_leases_mutex w = Some gm →
  let enter := [c_mutex_lock gm; c_mutex_unlock gm; c_mutex_lock m] in
  let leave := unapply_calls l ++ [c_mutex_unlock m] ++ closing_calls m rt lt in
  let farewell := if is_v4 (offered_ip l) && is_v4 (server_id l)
    then sender_calls (trace (w_io w) ++ enter) l S_release else [] in
  let ends {A} (r : option (A * world)) (a : A) cs := ∃ w', r = Some (a, w') ∧ Inv ∅ ∅ w' ∧
    heap w' = delete p (heap w) ∧ trace (w_io w') = trace (w_io w) ++ cs in
  ends (dmdhcp_stop (Some p) w) tt (enter ++ leave) ∧
  ends (dmdhcp_release (Some p) w) 0 (enter ++ farewell ++ leave).
Proof.
  intros Ho Hr Hg enter leave farewell ends.
  pose proof Ho as [HI Hp Hm _ _]. pose proof (owner_typed _ _ _ _ _ _ Ho) as Hl.
  assert (Hrun : ∀ t, own_timer l t → running (w_io w) ≠ Some t) by (by intros t _; rewrite Hr).
  assert (Hfacts := λ s' t, torn_down_facts w p l m rt lt (unapplied l) s' t Ho
    (unapplied_owned l) (unapplied_typed l Hl)). cbn zeta in Hfacts. split.
  - destruct (stop_run w p l m HI Hp Hm Hrun) as (gm' & t & Hg' & Ht & Hstop & HI').
    assert (gm' = gm) as -> by congruence. eexists. split; [exact Hstop|]. split; [exact HI'|].
    destruct (Hfacts (log_all (unapply_calls l) (grab m (unlinked gm (w_io w)))) t) as [-> ->].
    split; [done|]. simpl. by rewrite <- !app_assoc.
  - destruct (release_run w p l m HI Hp Hm Hrun) as (gm' & t & Hg' & Ht & Hrel & HI').
    assert (gm' = gm) as -> by congruence. eexists. split; [exact Hrel|]. split; [exact HI'|].
    destruct (Hfacts (log_all (release_calls (trace (grab m (unlinked gm (w_io w)))) l ++ unapply_calls l)
      (grab m (unlinked gm (w_io w)))) t) as [-> ->].
    split; [done|].
    assert (Hf : release_calls (trace (grab m (unlinked gm (w_io w)))) l = farewell).
    { unfold release_calls, releases, farewell. destruct (is_v4 _ && is_v4 _); [|done].
      simpl. by rewrite <- app_assoc. }
    rewrite Hf. simpl. by rewrite <- !app_assoc.
Qed.

(** ** Starting a lease *)

(** C23: [dmdhcp_start] on every outcome.  It fails - nothing but NULL to show
    for it: the leases, the table and every resource are as before - without
    an interface, when the interface already has a lease, and otherwise only
    when an allocation made during the call was not granted.  When it succeeds there is exactly one more lease, the
    only one of its interface: with the callbacks and user data of the
    caller, the hostname copied (or none if the copy failed), not applied, its
    counters zero, rebooting with the requested address when that is IPv4 and
    selecting otherwise. *)
Theorem start_outcome i cbs ud options w :
  Inv ∅ ∅ w → running (w_io w) = None →
  from_option bytes_ok True (start_hostname options) → addr_arg_ok (start_requested_ip options) →
  ∃ r w', dmdhcp_start i cbs ud options w = Some (r, w') ∧ Inv ∅ ∅ w' ∧
    match r with
    | None => heap w' = heap w ∧ g_leases w' = g_leases w ∧ blocks (w_io w') = blocks (w_io w) ∧
        lists (w_io w') = lists (w_io w)
    | Some p => i ≠ 0 ∧ heap w !! p = None ∧ ∃ l, heap w' = <[p := l]> (heap w) ∧
        iface l = i ∧ callbacks l = default callbacks_zero cbs ∧ user_data l = ud ∧
        (hostname l = start_hostname options ∨ hostname l = None) ∧
        state l = (if start_requested_ip options is Some _ then dmdhcp_state_rebooting else dmdhcp_state_selecting) ∧
        offered_ip l = default addr_none (start_requested_ip options) ∧
        retransmit_interval_ms l = 4000 ∧ retransmit_count l = 0 ∧ decline_retry_count l = 0 ∧
        iface_configured l = false
    end ∧
    (is_Some r → ∀ q lq, heap w !! q = Some lq → iface lq ≠ i) ∧
    (i ≠ 0 → granted (trace (w_io w)) (trace (w_io w')) → (∀ q lq, heap w !! q = Some lq → iface lq ≠ i) → is_Some r).
Proof.
  intros HI Hr Hh Hreq. destruct (Z.eq_dec i 0) as [->|Hi].
  { exists None, w. split_and!; try done. }
  destruct (start_run i cbs ud options w HI Hi Hh Hreq) as (r & w' & Hrun & HI' & _ & Hres & Hok).
  exists r, w'. split; [done|]. split; [done|]. destruct r as [p|].
  - destruct Hres as (Hfree & Hp & l & Hheap & [] & Hhn). split; [|split; [by intros _|done]].
    split; [done|]. split; [done|]. exists l. by split_and!.
  - destruct Hres as [Hheap Htab]. split; [|split; [by intros [? ?]|by intros _]].
    split; [done|]. split; [done|]. rewrite (inv_blocks _ _ _ HI'), (inv_blocks _ _ _ HI).
    rewrite (inv_lists _ _ _ HI'), (inv_lists _ _ _ HI). by rewrite Hheap.
Qed.
End Contracts.
