(* ===== verification/Specification.v ===== *)
(** The specification of the whole module: a system of agents, one per lease,
    and what each event makes of it.  It is open on one side: when an agent
    notifies the application, the application reacts, by calls of the public
    API, before the event goes on. *)
From S2P Require Import Prelude Types Wire Options Platform Lease Output Lifecycle World Invariant LeaseTable TableFacts Queries Timers Input Api Machine System Events.

Abbreviation system := (gmap ptr agent).

Section Specification.
Context `{E : Env} `{D : DmList}.

(** The agents of a world *)
Definition agents (w : world) : system := agent_of <$> heap w.

(** ** Calls of the public API *)
Definition new_agent (x : Z) (i : iface_t) (cbs : option dmdhcp_callbacks_t) (ud : Z)
    (req : option dmroute_addr_t) : agent :=
  Agent i x (default addr_none req)
    (if req is Some _ then dmdhcp_state_rebooting else dmdhcp_state_selecting) 0 0
    (default callbacks_zero cbs) ud.

Definition spec_set_callbacks (cbs : option dmdhcp_callbacks_t) (ud : Z) (a : agent) : agent :=
  redata ud (recalled (default callbacks_zero cbs) a).

(** Events that touch no lease *)
Definition passive (e : event) : bool :=
  match e with
  | ev_access _ _ | ev_ntp_servers _ _ | ev_provide_dns _ _ | ev_provide_ntp _ _ => true
  | ev_renew h | ev_release h | ev_stop h | ev_set_callbacks h _ _ => if h is None then true else false
  | _ => false
  end.

(** A call between the points [h] and [h'] of the trace.  A start is refused
    without an interface, on one that has a lease, or when an allocation made
    in the call was not granted - and for no other reason. *)
Inductive api_step (h h' : list call) (σ : system) : event → system → Prop :=
  | as_passive e : passive e = true → api_step h h' σ e σ
  | as_refused i cbs ud options :
      i = 0 ∨ (∃ q a, σ !! q = Some a ∧ a_iface a = i) ∨ ¬ granted h h' →
      api_step h h' σ (ev_start i cbs ud options) σ
  | as_start i cbs ud options p x :
      i ≠ 0 → σ !! p = None → (∀ q a, σ !! q = Some a → a_iface a ≠ i) →
      api_step h h' σ (ev_start i cbs ud options)
        (<[p := new_agent x i cbs ud (start_requested_ip options)]> σ)
  | as_renew p a x : σ !! p = Some a → api_step h h' σ (ev_renew (Some p)) (<[p := spec_renew x a]> σ)
  | as_release p : is_Some (σ !! p) → api_step h h' σ (ev_release (Some p)) (delete p σ)
  | as_stop p : is_Some (σ !! p) → api_step h h' σ (ev_stop (Some p)) (delete p σ)
  | as_set_callbacks p a cbs ud : σ !! p = Some a →
      api_step h h' σ (ev_set_callbacks (Some p) cbs ud) (<[p := spec_set_callbacks cbs ud a]> σ).

(** ** The application's reaction

    Any sequence of such calls, short of ending the lease it was told about *)
Definition ends (p : ptr) (e : event) : bool :=
  match e with ev_release h | ev_stop h => bool_decide (h = Some p) | _ => false end.

Definition reaction (p : ptr) (s s' : list call * system) : Prop :=
  ∃ e, ends p e = false ∧ s.1 `prefix_of` s'.1 ∧ api_step s.1 s'.1 s.2 e s'.2.

Definition reacts (p : ptr) : list call * system → list call * system → Prop := rtc (reaction p).

(** Only an application that was told something reacts. *)
Definition reacted (p : ptr) (ns : list call) (s s' : list call * system) : Prop :=
  match ns with [] => s' = s | _ => reacts p s s' end.

(** ** An outcome, in the system: the agent [p] changes, the application
    reacts, the event ends *)
Definition plays (p : ptr) (o : outcome) (s s' : list call * system) : Prop :=
  ∃ h1 s2, s.1 `prefix_of` h1 ∧ reacted p (o_notes o) (h1, <[p := o_agent o]> s.2) s2 ∧
    s2.1 `prefix_of` s'.1 ∧ s'.2 = alter (o_after o) p s2.2.

(** What the probe of agent [a] hears, asked after the calls [h] *)
Definition in_use (h : list call) (a : agent) : bool :=
  (answer h (c_arp_resolve (a_iface a) (a_address a) DMDHCP_ARP_PROBE_TIMEOUT_MS) : Z) =? 0.

(** The agent a datagram is for *)
Definition addressed (σ : system) (i : iface_t) (payload : list Z) (p : ptr) (a : agent)
    (m : dmdhcp_message_t) (t : Z) : Prop :=
  reply_of payload = Some m ∧ type_of payload = Some t ∧
  σ !! p = Some a ∧ a_iface a = i ∧ a_xid a = msg_xid m.

(** ** One event, from the calls [h] to the calls [h'], with the notifications
    it makes.  A datagram is dropped only when it is for no agent; the probe is
    the first thing asked under the lock of the lease. *)
Inductive spec_step (h h' : list call) (σ : system) : event → system → list call → Prop :=
  | ss_api e σ' : api_step h h' σ e σ' → spec_step h h' σ e σ' []
  | ss_dropped i payload :
      (∀ p a m t, ¬ addressed σ i payload p a m t) → spec_step h h' σ (ev_datagram i payload) σ []
  | ss_datagram i payload p a m t x σ' :
      addressed σ i payload p a m t →
      plays p (spec_datagram x p t (yiaddr m) a) (h, σ) (h', σ') →
      spec_step h h' σ (ev_datagram i payload) σ' (o_notes (spec_datagram x p t (yiaddr m) a))
  | ss_retransmit p a x m σ' :
      σ !! p = Some a →
      plays p (spec_retransmit x (in_use (h ++ [c_mutex_lock m]) a) p a) (h, σ) (h', σ') →
      spec_step h h' σ (ev_retransmit_timer p) σ'
        (o_notes (spec_retransmit x (in_use (h ++ [c_mutex_lock m]) a) p a))
  | ss_lease_timer p a x σ' :
      σ !! p = Some a → plays p (spec_lease_timer x p a) (h, σ) (h', σ') →
      spec_step h h' σ (ev_lease_timer p) σ' (o_notes (spec_lease_timer x p a)).

(** ** What every system reached satisfies *)
#[local] Ltac agent_tac :=
  repeat match goal with
  | H : agent_ok _ |- _ => destruct H as [[? ?] ? ? ? ?]
  | |- agent_ok _ => split
  end; simpl in *; intuition (congruence || lia).

Abbreviation all_ok := (map_Forall (λ _ : ptr, agent_ok)).

Lemma api_step_ok h h' σ e σ' : api_step h h' σ e σ' → all_ok σ → all_ok σ'.
Proof.
  intros Hstep Hσ. destruct Hstep; try done; try (by apply map_Forall_delete);
    (apply map_Forall_insert_2; [|done]);
    try match goal with H : σ !! _ = Some _ |- _ => apply Hσ in H end.
  - destruct (start_requested_ip options); agent_tac.
  - unfold spec_renew. case_bool_decide; [agent_tac|done].
  - agent_tac.
Qed.

(** The application cannot end the agent it was told about, nor change its
    count of conflicts. *)
Lemma api_step_keeps h h' σ e σ' p a :
  api_step h h' σ e σ' → ends p e = false → σ !! p = Some a →
  ∃ b, σ' !! p = Some b ∧ a_declines b = a_declines a.
Proof.
  intros Hstep He Hp. destruct Hstep as [| | |q b x Hq|q _|q _|q b cbs ud Hq]; try (by exists a).
  - exists a. rewrite lookup_insert_ne by congruence. done.
  - destruct (decide (q = p)) as [->|]; [|exists a; by rewrite lookup_insert_ne].
    eexists. split; [apply lookup_insert_eq|]. unfold spec_renew. simplify_eq. by case_bool_decide.
  - apply bool_decide_eq_false in He. exists a. rewrite lookup_delete_ne by congruence. done.
  - apply bool_decide_eq_false in He. exists a. rewrite lookup_delete_ne by congruence. done.
  - destruct (decide (q = p)) as [->|]; [|exists a; by rewrite lookup_insert_ne].
    eexists. split; [apply lookup_insert_eq|]. by simplify_eq.
Qed.

Lemma reacts_ok p s s' a :
  reacts p s s' → all_ok s.2 → s.2 !! p = Some a →
  all_ok s'.2 ∧ ∃ b, s'.2 !! p = Some b ∧ a_declines b = a_declines a.
Proof.
  intros Hr. revert a. induction Hr as [s|s1 s2 s3 (e & He & _ & Hstep) _ IH]; intros a Hok Hp; [by eauto|].
  destruct (api_step_keeps _ _ _ _ _ _ _ Hstep He Hp) as (b & Hb & Hd).
  destruct (IH b) as [? (b' & ? & ?)]; [by eapply api_step_ok|done|]. split; [done|]. exists b'. split; congruence.
Qed.

Definition outcome_ok (o : outcome) : Prop :=
  agent_ok (o_agent o) ∧
  ∀ b, agent_ok b → a_declines b = a_declines (o_agent o) → agent_ok (o_after o b).

Lemma plays_ok p o s s' : plays p o s s' → outcome_ok o → all_ok s.2 → all_ok s'.2.
Proof.
  intros (h1 & s2 & _ & Hr & _ & ->) [Ha Hafter] Hok.
  assert (Hok1 : all_ok (<[p := o_agent o]> s.2)) by (by apply map_Forall_insert_2).
  assert (H2 : all_ok s2.2 ∧ ∃ b, s2.2 !! p = Some b ∧ a_declines b = a_declines (o_agent o)).
  { unfold reacted in Hr. destruct (o_notes o).
    - rewrite Hr. split; [done|]. eexists. split; [apply lookup_insert_eq|done].
    - eapply reacts_ok; [exact Hr|done|apply lookup_insert_eq]. }
  destruct H2 as [Hok2 (b & Hb & Hd)]. intros q a. rewrite lookup_alter_Some.
  intros [(-> & c & Hc & ->)|[_ Hq]]; [|by eapply Hok2].
  assert (c = b) as -> by congruence. apply Hafter; [by eapply Hok2|done].
Qed.

Lemma quietly_ok a : agent_ok a → outcome_ok (quietly a).
Proof. by split. Qed.

Lemma telling_ok ns a : agent_ok a → outcome_ok (telling ns a).
Proof. by split. Qed.

Lemma spec_conflict_ok p a :
  agent_ok a → a_state a ≠ dmdhcp_state_failed → outcome_ok (spec_conflict p a).
Proof.
  intros Ha Hs. assert (0 ≤ a_declines a ≤ 3).
  { destruct Ha as [_ _ ? [? ?] _]. destruct (Z.eq_dec (a_declines a) 4); [tauto|lia]. }
  unfold spec_conflict. simpl. rewrite u32_id by (unfold is_u32; lia).
  destruct (Z.ltb_spec 3 (a_declines a + 1)); [apply telling_ok|apply quietly_ok]; agent_tac.
Qed.

Lemma spec_retransmit_ok x conflict p a : agent_ok a → outcome_ok (spec_retransmit x conflict p a).
Proof.
  intros Ha. pose proof (spec_conflict_ok p a Ha) as Hc. pose proof (ao_retries a Ha) as Hr.
  unfold spec_retransmit. destruct (a_state a) eqn:Hs; try (by apply quietly_ok);
    try (apply quietly_ok; agent_tac; fail).
  all: try (destruct conflict; [by apply Hc|first [apply quietly_ok|apply telling_ok]; agent_tac; fail]).
  all: simpl; rewrite u32_id by (unfold is_u32; lia); apply quietly_ok;
    destruct (Z.ltb_spec 4 (a_retries a + 1)); agent_tac.
Qed.

(** The loss of a valid lease: discovery restarts on what the application left. *)
Lemma lost_ok x p a :
  agent_ok a → a_declines a = 0 → outcome_ok (Outcome a (note_lost p a) (restart x)).
Proof. intros Ha Hd. split; [done|]. intros b Hb Hbd. simpl in Hbd. agent_tac. Qed.

Lemma spec_lease_timer_ok x p a : agent_ok a → outcome_ok (spec_lease_timer x p a).
Proof.
  intros Ha. pose proof (ao_bound a Ha) as Hb.
  unfold spec_lease_timer. destruct (a_state a) eqn:Hs; try (by apply quietly_ok);
    try (apply quietly_ok; agent_tac; fail). apply lost_ok; tauto.
Qed.

Lemma spec_datagram_ok x p t y a : agent_ok a → outcome_ok (spec_datagram x p t y a).
Proof.
  intros Ha. pose proof (ao_bound a Ha) as Hb.
  unfold spec_datagram. destruct (a_state a) eqn:Hs; try (by apply quietly_ok);
    destruct (t =? 2), (t =? 5), (t =? 6); try (by apply quietly_ok);
    first [apply lost_ok; tauto|apply quietly_ok; agent_tac|apply telling_ok; agent_tac].
Qed.

Lemma spec_step_ok h h' σ e σ' ns : spec_step h h' σ e σ' ns → all_ok σ → all_ok σ'.
Proof.
  intros Hstep Hσ. destruct Hstep as [e σ' Ha| |i payload p a m t x σ' (_ & _ & Hp & _) Hpl|p a x m σ' Hp Hpl|p a x σ' Hp Hpl].
  - by eapply api_step_ok.
  - done.
  - exact (plays_ok _ _ _ _ Hpl (spec_datagram_ok _ _ _ _ _ (Hσ _ _ Hp)) Hσ).
  - exact (plays_ok _ _ _ _ Hpl (spec_retransmit_ok _ _ _ _ (Hσ _ _ Hp)) Hσ).
  - exact (plays_ok _ _ _ _ Hpl (spec_lease_timer_ok _ _ _ (Hσ _ _ Hp)) Hσ).
Qed.
End Specification.
