(* ===== verification/Refinement.v ===== *)
(** The handlers implement the state machine of Machine.v, for any application
    whose callbacks act on leases through the public API. *)
From S2P Require Import Prelude Types Wire Options Platform Lease Output Lifecycle World Invariant LeaseTable TableFacts Queries Timers Input Api Machine System Events Specification.

(** ** The application

    What the specification sees of a world *)
Definition snap `{E : Env} `{D : DmList} (w : world) : list call * system := (trace (w_io w), agents w).

(** A callback may make any call of the public API except ending the lease it
    is told about - on that lease, on others, starting new ones -: it is the
    reaction of the specification.  It keeps what the module needs of any
    application ([ClientOk]), and no call of the API notifies anybody. *)
Class ClientActs `{E : Env} `{D : DmList} (C : Client) : Prop :=
  client_acts c r p m w : about c p → At r p m ∅ ∅ w →
    wp (client c) (λ _ w', At r p m ∅ ∅ w' ∧ reacts p (snap w) (snap w') ∧
      notes (trace (w_io w')) = notes (trace (w_io w))) w.

#[export] Instance silent_client_acts `{E : Env} `{D : DmList} : ClientActs silent_client.
Proof. intros c r p m w _ HA. split; [done|]. split; [apply rtc_refl|done]. Qed.

#[export] Instance client_acts_ok `{E : Env} `{D : DmList} (C : Client) :
  ClientActs C → ClientOk C.
Proof.
  intros HC c r p m w Hc HA. eapply wp_mono; [|by apply (HC c r p m w)]. by intros ? ? [? _].
Qed.

Section Sim.
Context `{E : Env} {EO : EnvOk E} `{D : DmList} {DL : DmListLaws D}.

Lemma reacts_prefix p s s' : reacts p s s' → s.1 `prefix_of` s'.1.
Proof. induction 1 as [s|s1 s2 s3 (e & _ & H12 & _) _ IH]; [done|]. by etransitivity. Qed.

(** The system is [σ] with the agent [x] at [p], the calls since [h] follow
    it, and the notifications so far are [ns]. *)
Record Sim (r : option handle) (p : ptr) (m : handle) (busy : gset handle) (h : list call) (σ : system)
    (ns : list call) (x : agent) (w : world) : Prop := {
  sim_at : At r p m busy ∅ w;
  sim_past : h `prefix_of` trace (w_io w);
  sim_agents : agents w = <[p := x]> σ;
  sim_notes : notes (trace (w_io w)) = ns;
}.

Lemma agents_lookup w p l : heap w !! p = Some l → agents w !! p = Some (agent_of l).
Proof. intros Hp. unfold agents. by rewrite lookup_fmap, Hp. Qed.

Lemma agents_put p l s w : agents (put p l s w) = <[p := agent_of l]> (agents w).
Proof. unfold agents. simpl. by rewrite fmap_insert. Qed.

Lemma agents_same w w' : heap w' = heap w → agents w' = agents w.
Proof. unfold agents. by intros ->. Qed.

Lemma sim_start r p m w l :
  At r p m ∅ ∅ w → heap w !! p = Some l →
  Sim r p m ∅ (trace (w_io w)) (agents w) (notes (trace (w_io w))) (agent_of l) w.
Proof. intros HA Hp. split; try done. by rewrite insert_id by by apply agents_lookup. Qed.

Lemma sim_lease r p m busy h σ ns x w :
  Sim r p m busy h σ ns x w → ∃ l, heap w !! p = Some l ∧ agent_of l = x.
Proof.
  intros [_ _ Ha _]. assert (Hx : agents w !! p = Some x) by (by rewrite Ha, lookup_insert_eq).
  apply lookup_fmap_Some in Hx as (l & ? & ?). by exists l.
Qed.

(** A computation on the lease, after which the agent is [y] *)
Lemma sim_op {A} r p m busy h σ ns x w (op : lop A) (R : agent → Prop) :
  lop_safe op →
  (∀ c a c', op c = Some (a, c') → agent_of (self c) = x →
    R (agent_of (self c')) ∧ silently (trace (plat c)) (trace (plat c'))) →
  Sim r p m busy h σ ns x w →
  wp (with_lease p op) (λ _ w', ∃ y, R y ∧ Sim r p m busy h σ ns y w') w.
Proof.
  intros Hs Hd HS. destruct (sim_lease _ _ _ _ _ _ _ _ _ HS) as (l & Hp & Hx). destruct HS as [HA Hh Ha Hn].
  pose proof (wp_with_lease r p m busy ∅ w op Hs HA) as Hwp. unfold wp, with_lease in *. rewrite Hp in *.
  destruct (op (LCtx l (w_io w))) as [[a [l' s']]|] eqn:Hop; [|done].
  destruct (Hd _ _ _ Hop Hx) as [Hf Hq]. simpl in *. exists (agent_of l'). split; [done|].
  change (set_w_io s' (set_heap (<[p := l']> (heap w)) w)) with (put p l' s' w) in *. split; [done|..].
  - etransitivity; [exact Hh|]. by apply silently_prefix.
  - by rewrite agents_put, Ha, insert_insert_eq.
  - simpl. by rewrite (silently_notes _ _ Hq).
Qed.

Lemma sim_with_lease {A} r p m busy h σ ns x w (op : lop A) f :
  lop_safe op → lop_does op f → Sim r p m busy h σ ns x w →
  wp (with_lease p op) (λ _, Sim r p m busy h σ ns (f x)) w.
Proof.
  intros Hs Hd HS. eapply wp_mono; [|apply (sim_op r p m busy h σ ns x w op (λ y, y = f x) Hs); [|exact HS]].
  - by intros a w' (y & -> & HS').
  - intros c a c' Hop <-. by apply (Hd _ _ _ Hop).
Qed.

Lemma sim_draw {A} r p m busy h σ ns x w (op : lop A) f :
  lop_safe op → lop_draws op f → Sim r p m busy h σ ns x w →
  wp (with_lease p op) (λ _ w', ∃ z, Sim r p m busy h σ ns (f z x) w') w.
Proof.
  intros Hs Hd HS. eapply wp_mono; [|apply (sim_op r p m busy h σ ns x w op (λ y, ∃ z, y = f z x) Hs); [|exact HS]].
  - intros a w' (y & [z ->] & HS'). by exists z.
  - intros c a c' Hop <-. by apply (Hd _ _ _ Hop).
Qed.

Lemma sim_load r p m busy h σ ns x w :
  Sim r p m busy h σ ns x w → wp (load p) (λ l w', w' = w ∧ agent_of l = x) w.
Proof.
  intros HS. destruct (sim_lease _ _ _ _ _ _ _ _ _ HS) as (l & Hp & Hx). unfold wp, load. by rewrite Hp.
Qed.

(** Computations that only move the mutexes and add calls *)
Lemma sim_io {A} r p m busy busy' h σ ns x w (op : M A) :
  wp op (λ _, At r p m busy' ∅) w →
  (∀ a w', op w = Some (a, w') → heap w' = heap w ∧ silently (trace (w_io w)) (trace (w_io w'))) →
  Sim r p m busy h σ ns x w → wp op (λ _, Sim r p m busy' h σ ns x) w.
Proof.
  intros Hwp Hop [_ Hh Ha Hn]. unfold wp in *. destruct (op w) as [[a w']|]; [|done].
  destruct (Hop a w' eq_refl) as (Hh' & Hq). split; [done|..].
  - etransitivity; [exact Hh|]. by apply silently_prefix.
  - by rewrite (agents_same _ _ Hh').
  - by rewrite (silently_notes _ _ Hq).
Qed.

Lemma mutex_io_quiet (lk : option handle → st io unit) p w w' a :
  (∀ o, io_quiet (lk o)) → (l ← load p; wio (lk (lock l))) w = Some (a, w') →
  heap w' = heap w ∧ silently (trace (w_io w)) (trace (w_io w')).
Proof.
  intros Hlk. unfold mbind, st_bind, load. destruct (heap w !! p) as [l|]; [|done].
  unfold wio. destruct (lk (lock l) (w_io w)) as [[b s]|] eqn:Hr; [|done]. intros [= <- <-].
  split; [done|]. by apply (Hlk _ _ _ _ Hr).
Qed.

Lemma io_quiet_mutex_lock o : io_quiet (dmosi_mutex_lock o).
Proof.
  intros s a s'. unfold dmosi_mutex_lock. destruct o as [m|]; [|done].
  destruct (mutexes s !! m) as [[]|]; try done. intros [= _ <-]. by apply silently_call.
Qed.

Lemma io_quiet_mutex_unlock o : io_quiet (dmosi_mutex_unlock o).
Proof.
  intros s a s'. unfold dmosi_mutex_unlock. destruct o as [m|]; [|done].
  destruct (mutexes s !! m) as [[]|]; try done. intros [= _ <-]. by apply silently_call.
Qed.

Lemma sim_lock r p m h σ ns x w :
  Sim r p m ∅ h σ ns x w → wp (lock_lease p) (λ _, Sim r p m {[m]} h σ ns x) w.
Proof.
  intros HS. eapply sim_io; [apply wp_lock, HS| |exact HS].
  intros a w'. apply mutex_io_quiet, io_quiet_mutex_lock.
Qed.

(** The same, with the call it makes *)
Lemma sim_lock_call r p m h σ ns x w :
  Sim r p m ∅ h σ ns x w →
  wp (lock_lease p) (λ _ w', trace (w_io w') = trace (w_io w) ++ [c_mutex_lock m] ∧
    Sim r p m {[m]} h σ ns x w') w.
Proof.
  intros HS. pose proof (sim_lock _ _ _ _ _ _ _ _ HS) as Hwp. destruct HS as [(_ & _ & l & Hp & Hl) _ _ _].
  unfold wp in *. destruct (lock_lease p w) as [[[] w']|] eqn:Hrun; [|done]. split; [|done].
  unfold lock_lease, mbind, st_bind, load in Hrun. rewrite Hp, Hl in Hrun. unfold wio, dmosi_mutex_lock in Hrun.
  destruct (mutexes (w_io w) !! m) as [[]|]; try done. by injection Hrun as <-.
Qed.

Lemma sim_unlock r p m h σ ns x w :
  Sim r p m {[m]} h σ ns x w → wp (unlock_lease p) (λ _, Sim r p m ∅ h σ ns x) w.
Proof.
  intros HS. eapply sim_io; [apply wp_unlock, HS| |exact HS].
  intros a w'. apply mutex_io_quiet, io_quiet_mutex_unlock.
Qed.

Lemma sim_bad_handle r p m busy h σ ns x w :
  Sim r p m busy h σ ns x w → wp (bad_handle (Some p)) (λ b w', b = false ∧ w' = w) w.
Proof. intros HS. apply (wp_bad_handle r p m busy ∅), HS. Qed.

(** Telling the application, which reacts *)
Lemma sim_invoke `{C : !Client} {CA : ClientActs C} r p m h σ ns x w fn c :
  (∀ f, about (c f) p ∧ is_note (c f) = true) → Sim r p m ∅ h σ ns x w →
  let cs := from_option (λ f, [c f]) [] fn in
  wp (invoke fn c) (λ _ w', ∃ h1 h2 σ' y, h `prefix_of` h1 ∧
    reacted p cs (h1, <[p := x]> σ) (h2, <[p := y]> σ') ∧ Sim r p m ∅ h2 σ' (ns ++ cs) y w') w.
Proof.
  intros Hc HS cs. subst cs. destruct fn as [f|]; simpl.
  2:{ exists h, h, σ, x. by rewrite app_nil_r. }
  destruct (Hc f) as [Hab Hnote]. destruct HS as [HA Hh Ha Hn].
  set (w1 := logged [c f] w). assert (HA1 : At r p m ∅ ∅ w1).
  { destruct HA as (HI & Hr & Hl). split; [by apply Inv_log|]. by split. }
  eapply wp_seq with (R := λ _ w', w' = w1); [by unfold wp, wio; rewrite ext_run|]. intros ? ? ->.
  eapply wp_mono; [|by apply (client_acts (c f) r p m w1)].
  intros ? w2 (HA2 & Hre & Hnn). pose proof HA2 as (_ & _ & l2 & Hp2 & _).
  assert (Ha2 : agents w2 = <[p := agent_of l2]> (agents w2)) by (by rewrite insert_id by by apply agents_lookup).
  exists (trace (w_io w1)), (trace (w_io w2)), (agents w2), (agent_of l2). split; [|split].
  - simpl. by apply prefix_app_r.
  - rewrite <- Ha2, <- Ha. exact Hre.
  - split; [done|done|done|]. rewrite Hnn. simpl. rewrite notes_app, Hn. unfold notes. simpl. by rewrite Hnote.
Qed.

(** ** How an event ends: the outcome has played *)
Definition Ended (r : option handle) (p : ptr) (m : handle) (busy : gset handle) (h : list call) (σ : system)
    (ns : list call) (o : outcome) (w : world) : Prop :=
  ∃ h1 h2 σ' y, h `prefix_of` h1 ∧
    reacted p (o_notes o) (h1, <[p := o_agent o]> σ) (h2, <[p := y]> σ') ∧
    Sim r p m busy h2 σ' (ns ++ o_notes o) (o_after o y) w.

Lemma ended_quietly r p m busy h σ ns x w :
  Sim r p m busy h σ ns x w → Ended r p m busy h σ ns (quietly x) w.
Proof. intros HS. exists h, h, σ, x. simpl. by rewrite app_nil_r. Qed.

Lemma ended_plays r p m busy h σ ns o w :
  Ended r p m busy h σ ns o w →
  plays p o (h, σ) (snap w) ∧ notes (trace (w_io w)) = ns ++ o_notes o.
Proof.
  intros (h1 & h2 & σ' & y & Hh & Hre & [_ Hp Ha Hn]). split; [|done].
  exists h1, (h2, <[p := y]> σ'). split; [done|]. split; [done|]. split; [done|].
  simpl. by rewrite Ha, alter_insert_eq.
Qed.
End Sim.

Lemma agent_fields `{D : DmList} l x :
  agent_of l = x → iface l = a_iface x ∧ offered_ip l = a_address x ∧ state l = a_state x ∧
    retransmit_count l = a_retries x ∧ decline_retry_count l = a_declines x ∧ callbacks l = a_callbacks x ∧
    user_data l = a_user_data x.
Proof. by intros <-. Qed.

(** Reading the lease is reading its agent. *)
Ltac read_agent H :=
  let H1 := fresh in let H2 := fresh in let H3 := fresh in let H4 := fresh in
  let H5 := fresh in let H6 := fresh in let H7 := fresh in
  destruct (agent_fields _ _ H) as (H1 & H2 & H3 & H4 & H5 & H6 & H7);
  rewrite ?H1, ?H2, ?H3, ?H4, ?H5, ?H6, ?H7; clear H H1 H2 H3 H4 H5 H6 H7.

Ltac sim_rule HS :=
  lazymatch goal with
  | |- wp (with_lease _ _) _ _ =>
      first [ eapply sim_with_lease; [solve [eauto 10 with dhcp]|solve [eauto with agents]|exact HS]
            | eapply sim_draw; [solve [eauto 10 with dhcp]|solve [eauto with agents]|exact HS] ]
  | |- wp (lock_lease _) _ _ => eapply sim_lock; exact HS
  | |- wp (unlock_lease _) _ _ => eapply sim_unlock; exact HS
  | |- wp (invoke _ _) _ _ => eapply sim_invoke; [done|exact HS]
  end.

(** Open the existentials a rule leaves in front of its [Sim] fact. *)
Ltac sim_open HS :=
  lazymatch type of HS with
  | ex _ => destruct HS as [? HS]; sim_open HS
  | _ ∧ _ => destruct HS as [? HS]; sim_open HS
  | _ => idtac
  end.

(** One step of a handler, keeping a [Sim] fact about the current world *)
Ltac sim_step :=
  lazymatch goal with
  | |- wp ((_ ≫= _) ≫= _) _ _ => apply wp_assoc; cbv beta; sim_step
  | HS : Sim _ ?p _ _ _ _ _ _ ?w |- wp (load ?p ≫= _) _ ?w =>
      eapply wp_seq; [exact (sim_load _ _ _ _ _ _ _ _ _ HS)|]; let H := fresh in intros ? ? (-> & H); cbv beta zeta; read_agent H
  | HS : Sim _ ?p _ _ _ _ _ _ ?w |- wp (bad_handle (Some ?p) ≫= _) _ ?w =>
      eapply wp_seq; [exact (sim_bad_handle _ _ _ _ _ _ _ _ _ HS)|]; intros ? ? (-> & ->); cbv beta
  | HS : Sim _ _ _ _ _ _ _ _ ?w |- wp (_ ≫= _) _ ?w =>
      eapply wp_seq; [sim_rule HS|]; clear HS; intros ? ? HS; cbv beta in HS |- *; sim_open HS
  | HS : Sim _ _ _ _ _ _ _ _ ?w |- wp _ _ ?w =>
      eapply wp_mono; [|sim_rule HS]; clear HS; intros ? ? HS; cbv beta in HS |- *; sim_open HS
  end.

(** The handler has ended, without a notification or after one *)
Ltac sim_end :=
  lazymatch goal with
  | |- wp (mret _) _ _ => apply wp_ret; sim_end
  | |- ∃ _, ?P => exists 0; sim_end
  | |- ∃ _, Ended _ _ _ _ _ _ _ _ _ => eexists; sim_end
  | |- Ended _ _ _ _ _ _ _ (quietly _) _ => apply ended_quietly; eassumption
  | |- Ended _ _ _ _ _ _ _ _ _ => do 4 eexists; split; [eassumption|]; split; [eassumption|]; eassumption
  end.

(** ** The handlers *)
Section Handlers.
Context `{E : Env} {EO : EnvOk E} `{D : DmList} {DL : DmListLaws D} `{C : !Client} {CA : ClientActs C}.

Lemma handle_conflict_sim r p m h σ ns x w :
  Sim r p m {[m]} h σ ns x w →
  wp (handle_conflict p) (λ _, Ended r p m {[m]} h σ ns (spec_conflict p x)) w.
Proof.
  intros HS. unfold handle_conflict, spec_conflict. do 4 sim_step. cbn [a_declines declined].
  unfold DMDHCP_MAX_DECLINE_RETRIES. destruct (3 <? _).
  - do 5 sim_step. sim_end.
  - do 2 sim_step. sim_end.
Qed.

(** The probe of an address, which [dmarp_resolve] is asked about first *)
Lemma run_conflict_probe_sim r p m h σ ns x w :
  a_state x = dmdhcp_state_checking_offer ∨ a_state x = dmdhcp_state_checking_ack →
  Sim r p m {[m]} h σ ns x w →
  wp (run_conflict_probe p) (λ _ w', ∀ z,
    Ended r p m {[m]} h σ ns (spec_retransmit z (in_use (trace (w_io w)) x) p x) w') w.
Proof.
  intros Hx HS. unfold run_conflict_probe, spec_retransmit. sim_step.
  set (c := c_arp_resolve (a_iface x) (a_address x) DMDHCP_ARP_PROBE_TIMEOUT_MS).
  set (w1 := logged [c] w).
  assert (HS1 : Sim r p m {[m]} h σ ns x w1).
  { destruct HS as [(HI & Hr & Hl) Hh Ha Hn]. split; try done.
    - split; [by apply Inv_log|]. by split.
    - simpl. by apply prefix_app_r.
    - simpl. rewrite notes_app, Hn. by rewrite app_nil_r. }
  eapply wp_seq with (R := λ rc w', rc = answer (trace (w_io w)) c ∧ w' = w1).
  { unfold wp, wio, dmarp_resolve. by rewrite ext_run. }
  intros rc w' [-> ->]. clear HS. rename HS1 into HS. unfold in_use. fold c.
  destruct ((answer (trace (w_io w)) c : Z) =? 0).
  { eapply wp_mono; [|by apply handle_conflict_sim]. intros ? ? HS' z. by destruct Hx as [-> | ->]. }
  sim_step. destruct Hx as [Hx|Hx]; rewrite Hx.
  - rewrite bool_decide_true by done. do 5 sim_step. intros z. sim_end.
  - rewrite bool_decide_false by done. do 8 sim_step. intros z. sim_end.
Qed.

Lemma retransmit_timer_sim r p m h σ ns x w :
  Sim r p m ∅ h σ ns x w →
  wp (retransmit_timer_callback (Some p)) (λ _ w', ∃ z,
    Ended r p m ∅ h σ ns (spec_retransmit z (in_use (trace (w_io w) ++ [c_mutex_lock m]) x) p x) w') w.
Proof.
  intros HS. unfold retransmit_timer_callback. sim_step.
  eapply wp_seq; [exact (sim_lock_call _ _ _ _ _ _ _ _ HS)|]. clear HS. intros ? w1 [<- HS]. cbv beta. sim_step.
  eapply wp_seq with (R := λ _ w', ∃ z,
    Ended r p m {[m]} h σ ns (spec_retransmit z (in_use (trace (w_io w1)) x) p x) w').
  2:{ intros ? ? (z & h1 & h2 & σ' & y & Hh & Hre & HS'). eapply wp_mono; [|by apply sim_unlock].
      intros ? ? ?. exists z. by do 4 eexists. }
  destruct (a_state x) eqn:Hx;
    try (eapply wp_mono; [|apply run_conflict_probe_sim; [by rewrite Hx; auto|exact HS]];
         intros ? ? Hz; exists 0; apply Hz);
    unfold spec_retransmit; rewrite Hx.
  all: try (by sim_end).
  all: try (do 2 sim_step; by sim_end).
  all: try (sim_step; by sim_end).
  all: do 2 sim_step; cbn [a_retries retried a_state]; unfold DMDHCP_MAX_REQUEST_RETRANSMITS; rewrite Hx;
    destruct (4 <? _); [sim_step; by sim_end|].
  - rewrite bool_decide_true by done. do 2 sim_step. by sim_end.
  - rewrite bool_decide_false by done. do 2 sim_step. by sim_end.
Qed.

Lemma handle_lost_sim r p m h σ ns x w :
  Sim r p m ∅ h σ ns x w →
  wp (dmdhcp_lifecycle_handle_lost p) (λ _ w', ∃ z,
    Ended r p m ∅ h σ ns (Outcome x (note_lost p x) (restart z)) w') w.
Proof. intros HS. unfold dmdhcp_lifecycle_handle_lost. do 9 sim_step. sim_end. Qed.

Lemma lease_timer_sim r p m h σ ns x w :
  Sim r p m ∅ h σ ns x w →
  wp (lease_timer_callback (Some p)) (λ _ w', ∃ z,
    Ended r p m ∅ h σ ns (spec_lease_timer z p x) w') w.
Proof.
  intros HS. unfold lease_timer_callback, spec_lease_timer. do 3 sim_step.
  destruct (a_state x); try (sim_step; by sim_end); try (do 3 sim_step; by sim_end).
  sim_step. by apply handle_lost_sim.
Qed.

Lemma dispatch_sim r p m h σ ns x w msg options t :
  bytes_ok options → addr_v4_or_none (yiaddr msg) → Sim r p m ∅ h σ ns x w →
  wp (dispatch_message p msg options t) (λ _ w', ∃ z,
    Ended r p m ∅ h σ ns (spec_datagram z p t (yiaddr msg) x) w') w.
Proof.
  intros Hok Hy HS. pose proof (populate_safe msg options Hok Hy) as Hpop.
  pose proof (arm_retransmit_safe DMDHCP_PROBE_HANDOFF_MS) as Harm.
  change (arm_retransmit DMDHCP_PROBE_HANDOFF_MS) with arm_probe in Harm.
  pose proof (keeps_arm_retransmit DMDHCP_PROBE_HANDOFF_MS) as Hkeep.
  change (arm_retransmit DMDHCP_PROBE_HANDOFF_MS) with arm_probe in Hkeep.
  unfold dispatch_message, spec_datagram. do 2 sim_step.
  change (u8 (msg_type_val dmdhcp_msg_offer)) with 2. change (u8 (msg_type_val dmdhcp_msg_ack)) with 5.
  change (u8 (msg_type_val dmdhcp_msg_nak)) with 6.
  destruct (decide (t = 2)) as [->|H2]; [|destruct (decide (t = 5)) as [->|H5];
    [|destruct (decide (t = 6)) as [->|H6]]]; cbn [Z.eqb Pos.eqb];
    rewrite ?(proj2 (Z.eqb_neq t 2) H2), ?(proj2 (Z.eqb_neq t 5) H5), ?(proj2 (Z.eqb_neq t 6) H6).
  all: destruct (a_state x); decide_states; cbn [orb andb];
    try (sim_step; by sim_end); try (do 2 sim_step; by sim_end); try (do 4 sim_step; by sim_end);
    try (do 8 sim_step; by sim_end).
  all: sim_step; by apply handle_lost_sim.
Qed.

Lemma renew_sim r p m h σ ns x w :
  Sim r p m ∅ h σ ns x w →
  wp (dmdhcp_renew (Some p)) (λ _ w', ∃ z, Sim r p m ∅ h σ ns (spec_renew z x) w') w.
Proof.
  intros HS. unfold dmdhcp_renew, spec_renew. do 3 sim_step.
  case_bool_decide; [do 2 sim_step; by eexists|].
  eapply wp_seq with (R := λ _, Sim r p m {[m]} h σ ns x); [done|]. intros ? ? HS'. sim_step. by exists 0.
Qed.

Lemma set_callbacks_sim r p m h σ ns x w cbs ud :
  Sim r p m ∅ h σ ns x w →
  wp (dmdhcp_set_callbacks (Some p) cbs ud) (λ _, Sim r p m ∅ h σ ns (spec_set_callbacks cbs ud x)) w.
Proof. intros HS. unfold dmdhcp_set_callbacks. do 5 sim_step. exact HS. Qed.
End Handlers.
