(* ===== verification/Simulation.v ===== *)
(** Every event of Events.v does to the leases of the program what the
    specification says, and notifies the application of exactly that. *)
From S2P Require Import Prelude Types Wire Options Platform Lease Output Lifecycle World Invariant LeaseTable TableFacts Queries Timers Input Api Machine System Events Specification Refinement.

(** ** Computations that notify nobody *)
Section Quiet.
Context `{E : Env} `{D : DmList}.

Definition m_quiet {A} (m : M A) : Prop := ∀ w a w',
  m w = Some (a, w') → silently (trace (w_io w)) (trace (w_io w')).

Lemma m_quiet_bind {A B} (m : M A) (k : A → M B) : m_quiet m → (∀ a, m_quiet (k a)) → m_quiet (m ≫= k).
Proof.
  intros Hm Hk w b w'. unfold mbind, st_bind. destruct (m w) as [[a w1]|] eqn:Hr; [|done].
  intros Hr'. etransitivity; [by eapply Hm|by eapply Hk].
Qed.

Lemma m_quiet_ret {A} (a : A) : m_quiet (mret a).
Proof. by intros w b w' [= -> ->]. Qed.

Lemma m_quiet_ub {A} : m_quiet (ub : M A).
Proof. by intros w b w'. Qed.

Lemma m_quiet_opt {A} (o : option A) : m_quiet (st_opt o).
Proof. intros w a w'. destruct o; simpl; intros; by simplify_eq. Qed.

Lemma m_quiet_load p : m_quiet (load p).
Proof. intros w a w'. unfold load. destruct (heap w !! p); intros; by simplify_eq. Qed.

Lemma m_quiet_getw {A} (f : world → A) : m_quiet (getw f).
Proof. by intros w a w' [= _ ->]. Qed.

Lemma m_quiet_setw f : (∀ w, w_io (f w) = w_io w) → m_quiet (setw f).
Proof. by intros Hf w a w' [= _ <-]; rewrite Hf. Qed.

Lemma m_quiet_wio {A} (m : st io A) : io_quiet m → m_quiet (wio m).
Proof.
  intros Hm w a w'. unfold wio. destruct (m (w_io w)) as [[b s]|] eqn:Hr; [|done].
  intros [= <- <-]. by apply (Hm _ _ _ Hr).
Qed.

Lemma m_quiet_lease {A} p (m : lop A) f : lop_does m f → m_quiet (with_lease p m).
Proof.
  intros Hm w a w'. unfold with_lease. destruct (heap w !! p) as [l|]; [|done].
  destruct (m (LCtx l (w_io w))) as [[b c]|] eqn:Hr; [|done]. intros [= <- <-].
  by apply (Hm _ _ _ Hr).
Qed.

Lemma m_quiet_draws {A} p (m : lop A) f : lop_draws m f → m_quiet (with_lease p m).
Proof.
  intros Hm w a w'. unfold with_lease. destruct (heap w !! p) as [l|]; [|done].
  destruct (m (LCtx l (w_io w))) as [[b c]|] eqn:Hr; [|done]. intros [= <- <-].
  by apply (Hm _ _ _ Hr).
Qed.

Lemma m_quiet_setl p f : m_quiet (with_lease p (setl f)).
Proof.
  intros w a w'. unfold with_lease. destruct (heap w !! p) as [l|]; [|done]. by intros [= <- <-].
Qed.
End Quiet.

Create HintDb mquiet.
#[export] Hint Resolve m_quiet_ret m_quiet_ub m_quiet_opt m_quiet_load m_quiet_getw m_quiet_setl : mquiet.
#[export] Hint Resolve io_quiet_mutex_lock io_quiet_mutex_unlock : agents.

Ltac mquiet := repeat first
  [ lazymatch goal with |- m_quiet (_ ≫= _) => apply m_quiet_bind; [|intros ?] end
  | solve [auto with mquiet]
  | apply m_quiet_setw; reflexivity
  | eapply m_quiet_lease; solve [eauto with agents]
  | eapply m_quiet_draws; solve [eauto with agents]
  | apply m_quiet_wio; solve [quiet]
  | match goal with |- context [match ?x with _ => _ end] => destruct x end
  | progress cbv beta zeta ].

Section QuietCalls.
Context `{E : Env} `{D : DmList}.

Lemma io_quiet_mutex_create b : io_quiet (dmosi_mutex_create b).
Proof.
  unfold dmosi_mutex_create. apply io_quiet_bind; [quiet|]. intros []; quiet. by intros ? ? ? [= _ <-].
Qed.

Lemma io_quiet_mutex_destroy o : io_quiet (dmosi_mutex_destroy o).
Proof.
  intros s a s'. unfold dmosi_mutex_destroy. destruct o as [m|]; [|done].
  destruct (mutexes s !! m) as [[]|]; try done. intros [= _ <-]. by apply silently_call.
Qed.

Lemma io_quiet_timer_create k p ms b : io_quiet (dmosi_timer_create k p ms b).
Proof.
  unfold dmosi_timer_create. apply io_quiet_bind; [quiet|]. intros []; quiet. by intros ? ? ? [= _ <-].
Qed.

Lemma io_quiet_timer_destroy o : io_quiet (dmosi_timer_destroy o).
Proof.
  intros s a s'. unfold dmosi_timer_destroy. destruct o as [t|]; [|done]. case_decide; [|done].
  intros [= _ <-]. by apply silently_call.
Qed.

Lemma io_quiet_list_create A : io_quiet (dmlist_create A).
Proof. unfold dmlist_create. quiet. Qed.

Lemma io_quiet_list_destroy : io_quiet dmlist_destroy.
Proof. unfold dmlist_destroy. quiet. Qed.

Lemma io_quiet_strdup h : io_quiet (Dmod_StrDup h).
Proof. unfold Dmod_StrDup. quiet. Qed.

#[local] Hint Resolve io_quiet_mutex_create io_quiet_mutex_destroy io_quiet_timer_create
  io_quiet_timer_destroy io_quiet_list_create io_quiet_list_destroy io_quiet_strdup
  io_quiet_free io_quiet_try_push : agents.

Lemma m_quiet_lock p : m_quiet (lock_lease p).
Proof. unfold lock_lease. mquiet. Qed.

Lemma m_quiet_unlock p : m_quiet (unlock_lease p).
Proof. unfold unlock_lease. mquiet. Qed.

Lemma m_quiet_handle h : m_quiet (bad_handle h).
Proof. unfold bad_handle. mquiet. Qed.

Lemma m_quiet_lock_table : m_quiet lock_table.
Proof. unfold lock_table. mquiet. Qed.

Lemma m_quiet_unlock_table : m_quiet unlock_table.
Proof. unfold unlock_table. mquiet. Qed.

Lemma m_quiet_the_leases : m_quiet the_leases.
Proof. unfold the_leases. mquiet. Qed.

#[local] Hint Resolve m_quiet_lock m_quiet_unlock m_quiet_handle m_quiet_lock_table
  m_quiet_unlock_table m_quiet_the_leases : mquiet.

Lemma m_quiet_find f : m_quiet (find_lease f).
Proof. unfold find_lease. mquiet. Qed.

Lemma m_quiet_when_some {A} (h : option A) m : io_quiet m → m_quiet (when_some h m).
Proof. intros Hm. unfold when_some. destruct h; [by apply m_quiet_wio|mquiet]. Qed.

Lemma m_quiet_destroy p c : m_quiet (destroy_with_context p c).
Proof.
  unfold destroy_with_context.
  repeat (apply m_quiet_bind; [first [apply m_quiet_when_some; unfold dmosi_timer_stop; quiet|mquiet]|intros ?]).
  mquiet.
Qed.

#[local] Hint Resolve m_quiet_find m_quiet_destroy : mquiet.

Lemma m_quiet_table_destroy h : m_quiet (dmdhcp_lease_table_destroy h).
Proof. unfold dmdhcp_lease_table_destroy, dmdhcp_lease_table_destroy_with_context. mquiet. Qed.

#[local] Hint Resolve m_quiet_table_destroy : mquiet.

Lemma m_quiet_new_lease : m_quiet new_lease.
Proof. unfold new_lease. mquiet. by intros ? ? ? [= _ <-]. Qed.

#[local] Hint Resolve m_quiet_new_lease : mquiet.

Lemma m_quiet_create i : m_quiet (dmdhcp_lease_table_create i).
Proof.
  unfold dmdhcp_lease_table_create, dmdhcp_output_create_retransmit_timer,
    dmdhcp_lifecycle_create_lease_timer. mquiet.
Qed.

Lemma m_quiet_insert p : m_quiet (dmdhcp_lease_table_insert p).
Proof. unfold dmdhcp_lease_table_insert. mquiet. Qed.

Lemma m_quiet_remove p : m_quiet (dmdhcp_lease_table_remove p).
Proof. unfold dmdhcp_lease_table_remove. mquiet. Qed.

#[local] Hint Resolve m_quiet_create m_quiet_insert m_quiet_remove : mquiet.

Lemma m_quiet_start i cbs ud options : m_quiet (dmdhcp_start i cbs ud options).
Proof. unfold dmdhcp_start. mquiet. Qed.

Lemma m_quiet_release h : m_quiet (dmdhcp_release h).
Proof.
  assert (Hs : keeps dmdhcp_output_send_release) by apply (keeps_sender S_release).
  unfold dmdhcp_release. mquiet.
Qed.

Lemma m_quiet_stop h : m_quiet (dmdhcp_stop h).
Proof. unfold dmdhcp_stop. mquiet. Qed.

Lemma m_quiet_set_callbacks h cbs ud : m_quiet (dmdhcp_set_callbacks h cbs ud).
Proof. unfold dmdhcp_set_callbacks. mquiet. Qed.

Lemma m_quiet_locked_read {A} h (bad : A) f : m_quiet (locked_read h bad f).
Proof. unfold locked_read. mquiet. Qed.

#[local] Hint Resolve m_quiet_locked_read : mquiet.

Lemma m_quiet_accessor a h : m_quiet (run_accessor a h).
Proof.
  destruct a; cbn [run_accessor]; unfold dmdhcp_get_state, dmdhcp_get_iface, dmdhcp_get_user_data,
    dmdhcp_get_xid, dmdhcp_get_lease_info, dmdhcp_get_dns_server_count, dmdhcp_get_dns_server,
    dmdhcp_get_ntp_server_count, dmdhcp_get_ntp_server; mquiet.
Qed.

Lemma m_quiet_find_by_xid i x : m_quiet (dmdhcp_lease_table_find_by_xid i x).
Proof. unfold dmdhcp_lease_table_find_by_xid. mquiet. Qed.

(** The loops over the table *)
Lemma m_quiet_ntp_servers out max : m_quiet (dmdhcp_get_ntp_servers out max).
Proof.
  assert (Hloop : ∀ n i out written, m_quiet (ntp_servers_loop n i out written max)).
  { induction n as [|n IH]; intros; cbn [ntp_servers_loop]; mquiet. }
  unfold dmdhcp_get_ntp_servers. mquiet.
Qed.

Lemma m_quiet_provide_dns add ctx : m_quiet (dmdhcp_dmdns_provide_servers add ctx).
Proof.
  assert (Hinner : ∀ n j l f, m_quiet (visit_dns_loop n j l f ctx)).
  { induction n as [|n IH]; intros; cbn [visit_dns_loop]; mquiet. }
  assert (Hloop : ∀ n i f, m_quiet (visit_dns_leases n i f ctx)).
  { induction n as [|n IH]; intros; cbn [visit_dns_leases]; unfold visit_lease_dns_servers; mquiet. }
  unfold dmdhcp_dmdns_provide_servers, dmdhcp_lease_table_visit_dns_servers. mquiet.
Qed.

Lemma m_quiet_provide_ntp add ctx : m_quiet (dmdhcp_dmntp_provide_servers add ctx).
Proof.
  assert (Hinner : ∀ n j l f, m_quiet (visit_ntp_loop n j l f ctx)).
  { induction n as [|n IH]; intros; cbn [visit_ntp_loop]; mquiet. }
  assert (Hloop : ∀ n i f, m_quiet (visit_ntp_leases n i f ctx)).
  { induction n as [|n IH]; intros; cbn [visit_ntp_leases]; mquiet. }
  unfold dmdhcp_dmntp_provide_servers, dmdhcp_lease_table_visit_ntp_servers. mquiet.
Qed.
End QuietCalls.

Section Simulation.
Context `{E : Env} {EO : EnvOk E} `{D : DmList} {DL : DmListLaws D} `{C : !Client} {CA : ClientActs C}.

(** What an event comes to: a step of the specification *)
Definition implemented (e : event) (w w' : world) : Prop :=
  ∃ ns, spec_step (trace (w_io w)) (trace (w_io w')) (agents w) e (agents w') ns ∧
    notes (trace (w_io w')) = notes (trace (w_io w)) ++ ns.

Lemma idle_sim w p l :
  idle w → heap w !! p = Some l →
  ∃ m, Sim None p m ∅ (trace (w_io w)) (agents w) (notes (trace (w_io w))) (agent_of l) w.
Proof.
  intros Hw Hp. destruct (idle_at w p Hw) as [m HA]; [eauto|]. exists m. by apply sim_start.
Qed.

Lemma run_drop {A} (op : M A) w w' :
  (op;; mret tt) w = Some (tt, w') → ∃ a, op w = Some (a, w').
Proof. unfold mbind, st_bind. destruct (op w) as [[a w1]|]; [|done]. intros [= <-]. by exists a. Qed.

(** *** Each event *)
Lemma implemented_passive e w : passive e = true → implemented e w w.
Proof. intros He. exists []. split; [by apply ss_api, as_passive|by rewrite app_nil_r]. Qed.

(** An operation that tells the application nothing *)
Lemma implemented_quiet {A} (op : M A) e w a w' :
  m_quiet op → op w = Some (a, w') →
  spec_step (trace (w_io w)) (trace (w_io w')) (agents w) e (agents w') [] → implemented e w w'.
Proof.
  intros Hq Hrun Hs. exists []. split; [done|].
  by rewrite app_nil_r, (silently_notes _ _ (Hq _ _ _ Hrun)).
Qed.

(** An operation of the API on one live lease *)
Lemma implemented_on {A} (op : M A) (f : Z → agent → agent) e w p r w' :
  idle w → is_Some (heap w !! p) →
  (∀ r m h σ ns x w, Sim r p m ∅ h σ ns x w → wp op (λ _ w', ∃ z, Sim r p m ∅ h σ ns (f z x) w') w) →
  (∀ h h' z a, agents w !! p = Some a → api_step h h' (agents w) e (<[p := f z a]> (agents w))) →
  op w = Some (r, w') → implemented e w w'.
Proof.
  intros Hw [l Hp] Hop Hs Hrun. destruct (idle_sim w p l Hw Hp) as [m HS].
  pose proof (Hop _ _ _ _ _ _ _ HS) as Hwp. unfold wp in Hwp. rewrite Hrun in Hwp.
  destruct Hwp as [z [_ _ Ha Hn]]. exists []. rewrite app_nil_r. split; [|done].
  rewrite Ha. by apply ss_api, Hs, agents_lookup.
Qed.

Lemma start_implemented i cbs ud options w r w' :
  idle w → enabled (ev_start i cbs ud options) w →
  dmdhcp_start i cbs ud options w = Some (r, w') → implemented (ev_start i cbs ud options) w w'.
Proof.
  intros [HI Hr] [Hcbs Hopt] Hrun. eapply implemented_quiet; [apply m_quiet_start|exact Hrun|]. apply ss_api.
  destruct (Z.eq_dec i 0) as [->|Hi].
  { unfold dmdhcp_start in Hrun. simpl in Hrun. injection Hrun as <- <-. apply as_refused. by left. }
  destruct (start_run i cbs ud options w HI Hi) as (r' & w2 & Hrun' & _ & _ & Hres & Hok); [done|done|].
  rewrite Hrun in Hrun'. injection Hrun' as <- <-. destruct r as [p|].
  - destruct Hres as (Hfree & Hp & l & Hh & Hst & _). unfold agents at 2. rewrite Hh, fmap_insert.
    replace (agent_of l) with (new_agent (xid l) i cbs ud (start_requested_ip options)).
    2:{ unfold agent_of, new_agent. destruct Hst. congruence. }
    apply as_start; [done|unfold agents; by rewrite lookup_fmap, Hp|].
    intros q a. unfold agents. rewrite lookup_fmap.
    destruct (heap w !! q) as [lq|] eqn:Hq; [|done]. intros [= <-]. by apply (Hfree q).
  - rewrite (agents_same _ _ (proj1 Hres)). apply as_refused. right.
    destruct (decide (map_Exists (λ _ a, a_iface a = i) (agents w))) as [(q & a & ? & ?)|Hfree]; [left; eauto|].
    right. intros HG. destruct (Hok HG) as [? ?]; [|done]. intros q lq Hq Hi'. apply Hfree.
    exists q, (agent_of lq). split; [by apply agents_lookup|done].
Qed.

Lemma end_implemented e p w w' :
  idle w → enabled e w → e = ev_release (Some p) ∨ e = ev_stop (Some p) →
  run_event e w = Some (tt, w') → implemented e w w'.
Proof.
  intros Hw He Hor. pose proof Hw as [HI Hr].
  assert (Hlive : is_Some (heap w !! p)) by (by destruct Hor as [-> | ->]).
  destruct (idle_at w p Hw Hlive) as (m & _ & _ & l & Hp & Hl).
  assert (Hgone : ∀ h h' w2, heap w2 = delete p (heap w) → spec_step h h' (agents w) e (agents w2) []).
  { intros h h' w2 Hh. assert (Ha : is_Some (agents w !! p)) by (eexists; by apply agents_lookup).
    replace (agents w2) with (delete p (agents w)) by (unfold agents; by rewrite Hh, fmap_delete).
    apply ss_api. destruct Hor as [-> | ->]; [by apply as_release|by apply as_stop]. }
  destruct Hor as [-> | ->]; cbn [run_event].
  - intros [r Hrun]%run_drop. destruct (release_run w p l m HI Hp Hl) as (gm & t & _ & _ & Hrun' & _);
      [by rewrite Hr|]. rewrite Hrun in Hrun'. injection Hrun' as _ ->.
    eapply implemented_quiet; [apply m_quiet_release|exact Hrun|by apply Hgone].
  - intros Hrun. destruct (stop_run w p l m HI Hp Hl) as (gm & t & _ & _ & Hrun' & _);
      [by rewrite Hr|]. rewrite Hrun in Hrun'. injection Hrun' as ->.
    eapply implemented_quiet; [apply m_quiet_stop|exact Hrun|by apply Hgone].
Qed.

(** A query that leaves the leases *)
Lemma implemented_query {A} (op : M A) e w a w' :
  m_quiet op → op w = Some (a, w') → heap w' = heap w → passive e = true → implemented e w w'.
Proof.
  intros Hq Hrun Hh He. eapply implemented_quiet; [exact Hq|exact Hrun|].
  rewrite (agents_same _ _ Hh). by apply ss_api, as_passive.
Qed.

Lemma access_implemented a h w w' :
  idle w → handle_ok w h → run_event (ev_access a h) w = Some (tt, w') → implemented (ev_access a h) w w'.
Proof.
  intros Hw He Hrun. eapply implemented_query; [apply (m_quiet_accessor a h)|exact Hrun| |done].
  destruct h as [p|]; [|destruct a; by injection Hrun as <-].
  destruct (idle_at w p Hw He) as [m HA]. pose proof (accessor_safe _ _ _ _ a HA) as Hwp.
  unfold wp in Hwp. cbn [run_event] in Hrun. rewrite Hrun in Hwp. apply Hwp.
Qed.

Definition queries (e : event) : Prop :=
  match e with ev_ntp_servers _ _ | ev_provide_dns _ _ | ev_provide_ntp _ _ => True | _ => False end.

Lemma query_implemented e w w' :
  idle w → enabled e w → queries e → run_event e w = Some (tt, w') → implemented e w w'.
Proof.
  intros [HI Hr] He Hq. destruct (inv_table _ _ _ HI) as (t & Ht & _). destruct (table_mutex _ _ HI) as (gm & Hg & _).
  destruct e; try done; cbn [run_event enabled] in *.
  - intros [r Hrun]%run_drop. eapply implemented_query; [apply m_quiet_ntp_servers|exact Hrun| |done].
    destruct out as [out|]; [|by injection Hrun as <- <-].
    destruct (get_ntp_servers_run w t out max_count HI Ht He) as (cs & Hrun'). rewrite Hrun in Hrun'.
    destruct (_ =? 0)%nat; by injection Hrun' as _ ->.
  - intros Hrun. eapply implemented_query; [apply m_quiet_provide_dns|exact Hrun| |done].
    destruct add as [f|]; [|by injection Hrun as <-].
    rewrite (provide_dns_run w t gm f ctx) in Hrun by done. by injection Hrun as <-.
  - intros Hrun. eapply implemented_query; [apply m_quiet_provide_ntp|exact Hrun| |done].
    destruct add as [f|]; [|by injection Hrun as <-].
    rewrite (provide_ntp_run w t gm f ctx) in Hrun by done. by injection Hrun as <-.
Qed.

(** A datagram for no agent *)
Lemma dropped_implemented i payload w w' :
  (∀ p a m t, ¬ addressed (agents w) i payload p a m t) → heap w' = heap w →
  notes (trace (w_io w')) = notes (trace (w_io w)) → implemented (ev_datagram i payload) w w'.
Proof.
  intros Hno Hh Hn. exists []. rewrite app_nil_r. split; [|done].
  rewrite (agents_same _ _ Hh). by apply ss_dropped.
Qed.

Lemma datagram_implemented i payload w w' :
  idle w → bytes_ok payload →
  dmdhcp_handle_datagram i payload w = Some (tt, w') → implemented (ev_datagram i payload) w w'.
Proof.
  intros Hw He Hrun. pose proof Hw as [HI Hr]. rewrite datagram_run in Hrun by done.
  destruct (reply_of payload) as [msg|] eqn:Hm.
  2:{ injection Hrun as <-. apply dropped_implemented; [|done|done]. intros p a m t (Hm' & _). congruence. }
  destruct (find_by_xid_run w i (msg_xid msg) HI) as (gm & o & Hg & Ho & Hfind).
  pose proof (m_quiet_find_by_xid _ _ _ _ _ Hfind) as Hq. rewrite Hfind in Hrun.
  set (w1 := set_w_io _ w) in *.
  destruct o as [p|].
  2:{ injection Hrun as <-. apply dropped_implemented; [|done|by apply silently_notes].
      intros q a m t (Hm' & _ & Ha & Hi & Hx). apply lookup_fmap_Some in Ha as (l & <- & Hl).
      simpl in Hi, Hx. apply (Ho q l Hl); split; congruence. }
  destruct (type_of payload) as [t|] eqn:Ht.
  2:{ injection Hrun as <-. apply dropped_implemented; [|done|by apply silently_notes].
      intros q a m t (_ & Ht' & _). congruence. }
  destruct Ho as (l & Hp & Hi & Hx). assert (Hw1 : idle w1) by (by apply idle_logged).
  destruct (idle_sim w1 p l Hw1 Hp) as [m HS]. destruct (reply_of_typed payload msg He Hm) as [_ Hy].
  pose proof (dispatch_sim _ _ _ _ _ _ _ _ msg (drop 240 payload) t (Forall_drop _ _ _ He) Hy HS) as Hwp.
  unfold wp in Hwp. rewrite Hrun in Hwp. destruct Hwp as [z [Hpl Hn]%ended_plays].
  destruct Hpl as (h1 & s2 & Hh1 & Hpl). eexists. split.
  - apply (ss_datagram _ _ _ i payload p (agent_of l) msg t z).
    + split_and!; try done. by apply agents_lookup.
    + exists h1, s2. split; [|exact Hpl]. etransitivity; [by apply silently_prefix|exact Hh1].
  - by rewrite Hn, (silently_notes _ _ Hq).
Qed.

(** A timer callback, from the run of the timer's thread *)
Lemma on_timer_sim timer callback p (R : handle → Z → agent → outcome) w l w' :
  idle w → heap w !! p = Some l → (∀ l t, timer l = Some t → own_timer l t) →
  (∀ r m w1, Sim r p m ∅ (trace (w_io w)) (agents w) (notes (trace (w_io w))) (agent_of l) w1 →
    trace (w_io w1) = trace (w_io w) →
    wp (callback (Some p)) (λ _ w', ∃ z, Ended r p m ∅ (trace (w_io w)) (agents w) (notes (trace (w_io w)))
      (R m z (agent_of l)) w') w1) →
  on_timer timer callback p w = Some (tt, w') →
  ∃ m z, plays p (R m z (agent_of l)) (snap w) (snap w') ∧
    notes (trace (w_io w')) = notes (trace (w_io w)) ++ o_notes (R m z (agent_of l)).
Proof.
  intros Hw Hp Hown Hcb. destruct (idle_at w p Hw) as (m & HA); [by eauto|].
  unfold on_timer. rewrite (load_read _ l) by done.
  set (w1 := set_w_io (set_running (timer l) (w_io w)) w).
  assert (Hset : setw (λ w, set_w_io (set_running (timer l) (w_io w)) w) w = Some (tt, w1)) by done.
  rewrite (w_bind _ _ _ _ _ Hset).
  assert (HS1 : Sim (timer l) p m ∅ (trace (w_io w)) (agents w) (notes (trace (w_io w))) (agent_of l) w1).
  { apply (sim_start (timer l) p m w1 l); [|done]. destruct HA as (HI & _ & Hl).
    split; [|by split]. apply Inv_set_running; [done|]. intros t Ht.
    destruct (inv_leases _ _ _ HI p l Hp) as [_ _ _ [(t1 & Ht1 & ?) (t2 & Ht2 & ?)] _].
    apply (inv_fresh _ _ _ HI). destruct (Hown l t Ht) as [Ho|Ho]; congruence. }
  pose proof (Hcb _ _ _ HS1 eq_refl) as Hwp. apply wp_run in Hwp as ([] & w2 & Hrun & z & Hend).
  rewrite (w_bind _ _ _ _ _ Hrun). intros [= <-]. exists m, z.
  by apply ended_plays in Hend as [Hpl Hn].
Qed.

Lemma timer_implemented e p w w' :
  idle w → is_Some (heap w !! p) → e = ev_retransmit_timer p ∨ e = ev_lease_timer p →
  run_event e w = Some (tt, w') → implemented e w w'.
Proof.
  intros Hw [l Hp] [-> | ->] Hrun; cbn [run_event] in Hrun.
  - destruct (on_timer_sim retransmit_timer retransmit_timer_callback p
      (λ m z a, spec_retransmit z (in_use (trace (w_io w) ++ [c_mutex_lock m]) a) p a) w l w' Hw Hp)
      as (m & z & Hpl & Hn); [by left| |done|].
    { intros r m w1 HS Htr. pose proof (retransmit_timer_sim _ _ _ _ _ _ _ _ HS) as Hwp.
      rewrite Htr in Hwp. exact Hwp. }
    eexists. split; [|exact Hn]. eapply ss_retransmit; [by apply agents_lookup|exact Hpl].
  - destruct (on_timer_sim lease_timer lease_timer_callback p (λ _ z a, spec_lease_timer z p a) w l w' Hw Hp)
      as (m & z & Hpl & Hn); [by right| |done|].
    { intros r m w1 HS _. by apply lease_timer_sim. }
    eexists. split; [|exact Hn]. eapply ss_lease_timer; [by apply agents_lookup|exact Hpl].
Qed.

Lemma event_implemented e w w' :
  idle w → enabled e w → run_event e w = Some (tt, w') → implemented e w w'.
Proof.
  intros Hw He. destruct e; cbn [enabled handle_ok from_option] in *.
  - intros [r Hrun]%run_drop. by eapply start_implemented.
  - intros [r Hrun]%run_drop. destruct h as [p|]; [|injection Hrun as _ <-; by apply implemented_passive].
    eapply implemented_on; [done|exact He| |intros; by apply as_renew|exact Hrun]. intros. by apply renew_sim.
  - destruct h as [p|]; [by apply (end_implemented _ p); [| |left]|].
    intros [r Hrun]%run_drop. injection Hrun as _ <-. by apply implemented_passive.
  - destruct h as [p|]; [by apply (end_implemented _ p); [| |right]|].
    intros Hrun. injection Hrun as <-. by apply implemented_passive.
  - intros [r Hrun]%run_drop. destruct h as [p|]; [|injection Hrun as _ <-; by apply implemented_passive].
    eapply (implemented_on _ (λ _, spec_set_callbacks cbs ud)); [done|exact He| |intros; by apply as_set_callbacks|exact Hrun].
    intros. eapply wp_mono; [|by apply set_callbacks_sim]. by exists 0.
  - by apply access_implemented.
  - by apply query_implemented.
  - by apply query_implemented.
  - by apply query_implemented.
  - by apply datagram_implemented.
  - by apply (timer_implemented _ p); [| |left].
  - by apply (timer_implemented _ p); [| |right].
Qed.

(** ** Properties *)

(** C2: the module implements the state machine.  Whatever the world the
    loaded module has reached, each event - API call, datagram, timer - takes
    its leases, seen as agents, where the specification [spec_step] says, and
    notifies the application of exactly what it says, in order.  The
    specification leaves open the address of a new lease, the transaction ids
    drawn, and how the application reacts when it is notified; nothing else: a
    start is refused only for the three reasons of [as_refused], a datagram is
    dropped only when it is for no lease, and a probe finds a conflict exactly
    when ARP answers for the address.  The application is any whose callbacks
    act on leases through the public API alone and do not end the lease they
    are told about ([ClientActs]); they may renew it, replace its callbacks,
    query, start and end others. *)
Theorem module_implements_state_machine e w w' :
  loaded w → enabled e w → run_event e w = Some (tt, w') →
  ∃ ns, spec_step (trace (w_io w)) (trace (w_io w')) (agents w) e (agents w') ns ∧
    notes (trace (w_io w')) = notes (trace (w_io w)) ++ ns.
Proof. intros Hw%loaded_idle He Hrun. by apply event_implemented. Qed.

(** What the counters and the state of a lease always satisfy *)
Record sane_lease (l : lease) : Prop := {
  sl_state : state l ≠ dmdhcp_state_init ∧ state l ≠ dmdhcp_state_init_reboot;
  sl_retries : 0 ≤ retransmit_count l ≤ 4;
  sl_declines : 0 ≤ decline_retry_count l ≤ 4;
  sl_failed : state l = dmdhcp_state_failed ↔ decline_retry_count l = 4;
  sl_valid : holds_valid_lease l = true → decline_retry_count l = 0;
}.

(** C6: what holds of every lease at any time.  It is never in
    [dmdhcp_state_init] or [dmdhcp_state_init_reboot]; its REQUEST retries and
    its declines are at most 4, so neither [uint32_t] counter ever wraps; it
    is in [dmdhcp_state_failed] exactly after the fourth conflict in a row;
    and a bound, renewing or rebinding lease has no conflict on record.  At any
    time, that is between events, for any application whose callbacks act on
    leases through the public API alone and do not end the lease they are told
    about ([ClientActs]): one that writes into a lease behind the API can break
    all of it. *)
Theorem every_lease_is_sane w p l :
  loaded w → heap w !! p = Some l →
  sane_lease l.
Proof.
  intros Hw Hp. assert (Hok : map_Forall (λ _, agent_ok) (agents w)).
  { clear p l Hp. induction Hw as [s w Hs Hi|w w' Hw IH [e He Hrun]].
    - apply init_success in Hi as (_ & _ & _ & ->). intros q a Hq. by apply lookup_fmap_Some in Hq as (? & _ & Hq).
    - destruct (event_implemented e w w' (loaded_idle w Hw) He Hrun) as (ns & Hst & _).
      by apply (spec_step_ok _ _ _ _ _ _ Hst). }
  destruct (Hok p _ (agents_lookup _ _ _ Hp)) as [[? ?] ? ? ? Hb]. simpl in *. split; try done; try lia.
  unfold holds_valid_lease. rewrite !orb_true_iff, !bool_decide_eq_true. tauto.
Qed.
End Simulation.

(** ** An application that calls back

    What a callback of a [ClientActs] application does, call by call *)
Section Reentrant.
Context `{E : Env} {EO : EnvOk E} `{D : DmList} {DL : DmListLaws D}.

Definition acts {A} (p : ptr) (op : M A) : Prop := ∀ r m w, At r p m ∅ ∅ w →
  wp op (λ _ w', At r p m ∅ ∅ w' ∧ reacts p (snap w) (snap w') ∧
    notes (trace (w_io w')) = notes (trace (w_io w))) w.

Lemma acts_ret {A} p (a : A) : acts p (mret a).
Proof. intros r m w HA. split; [done|]. split; [apply rtc_refl|done]. Qed.

Lemma acts_bind {A B} p (op : M A) (k : A → M B) : acts p op → (∀ a, acts p (k a)) → acts p (op ≫= k).
Proof.
  intros Hop Hk r m w HA. eapply wp_seq; [by apply Hop|]. intros a w1 (HA1 & Hr1 & Hn1).
  eapply wp_mono; [|by apply Hk]. intros b w2 (HA2 & Hr2 & Hn2).
  split; [done|]. split; [by etransitivity|congruence].
Qed.

(** A call of the API on the lease it is told about *)
Lemma acts_call {A} p (op : M A) (f : Z → agent → agent) e :
  (∀ r m h σ ns x w, Sim r p m ∅ h σ ns x w → wp op (λ _ w', ∃ z, Sim r p m ∅ h σ ns (f z x) w') w) →
  ends p e = false →
  (∀ h h' σ z a, σ !! p = Some a → api_step h h' σ e (<[p := f z a]> σ)) → acts p op.
Proof.
  intros Hop He Hs r m w HA. pose proof HA as (_ & _ & l & Hp & _).
  eapply wp_mono; [|apply (Hop _ _ _ _ _ _ _ (sim_start r p m w l HA Hp))].
  intros a w' [z [HA' Hpast Ha Hn]]. split; [done|]. split; [|done]. apply rtc_once. exists e.
  split; [done|]. split; [done|]. simpl. rewrite Ha. by apply Hs, agents_lookup.
Qed.

Lemma acts_renew p : acts p (dmdhcp_renew (Some p)).
Proof.
  apply (acts_call p _ spec_renew (ev_renew (Some p))); [|done|].
  - intros r m h σ ns x w. by apply renew_sim.
  - intros h h' σ z a. by apply as_renew.
Qed.

Lemma acts_set_callbacks p cbs ud : acts p (dmdhcp_set_callbacks (Some p) cbs ud).
Proof.
  apply (acts_call p _ (λ _, spec_set_callbacks cbs ud) (ev_set_callbacks (Some p) cbs ud)); [|done|].
  - intros r m h σ ns x w HS. eapply wp_mono; [|by apply set_callbacks_sim]. by exists 0.
  - intros h h' σ z a. by apply as_set_callbacks.
Qed.

Lemma acts_access p a : acts p (run_accessor a (Some p)).
Proof.
  intros r m w HA. pose proof (accessor_safe _ _ _ _ a HA) as Hwp. unfold wp in *.
  destruct (run_accessor a (Some p) w) as [[[] w']|] eqn:Hrun; [|done]. destruct Hwp as [HA' Hh].
  pose proof (m_quiet_accessor a (Some p) _ _ _ Hrun) as Hq.
  split; [done|]. split; [|by apply silently_notes]. apply rtc_once. exists (ev_access a (Some p)).
  split; [done|]. split; [by apply silently_prefix|]. simpl. rewrite (agents_same _ _ Hh). by apply as_passive.
Qed.

#[export] Instance reentrant_client_acts : ClientActs reentrant_client.
Proof.
  intros c r p m w Hc HA. revert r m w HA. change (acts p (reentrant_client c)).
  destruct c; try apply acts_ret; simpl in Hc; subst; unfold reentrant_client;
    repeat first [apply acts_ret|apply acts_renew|apply acts_set_callbacks|apply acts_access
                 |apply acts_bind; [|intros ?]].
Qed.
End Reentrant.
