(* ===== verification/Scenarios.v ===== *)
(** The handlers composed: an address obtained from scratch, and a lease ended
    from its own callback. *)
From S2P Require Import Prelude Types Wire Options Platform Lease Output Lifecycle World Invariant LeaseTable TableFacts Queries Timers Input Api Handlers Machine System Events Contracts Specification Refinement Simulation.

(** ** A lease ended from its own callback *)
Section Misuse.
Context `{E : Env} {EO : EnvOk E} `{D : DmList} {DL : DmListLaws D} `{C : !Client}.

(** Destroying a lease from the callback of its lease timer: the retransmit
    timer goes, then [dmosi_timer_destroy] would join its own thread. *)
Lemma destroy_own_lease_timer w p l s rt lt :
  retransmit_timer l = Some rt → lease_timer l = Some lt → rt ≠ lt →
  rt ∈ timers s → lt ∈ timers s → running s = Some lt →
  destroy_with_context p dmdhcp_teardown_context_normal (put p l s w) = None.
Proof.
  intros Hrt Hlt Hne Hin Hin' Hr. unfold destroy_with_context. set_field. rewrite load_put.
  cbn [retransmit_timer lease_timer set_magic]. rewrite Hrt, Hlt. decide_states.
  rewrite when_some_timer by (by intros t [= <-]; split; [|congruence]).
  unfold when_some, mbind at 1, st_bind at 1, wio, dmosi_timer_stop, mbind at 1, st_bind at 1.
  cbn [w_io put set_w_io]. rewrite timer_call_run.
  2:{ simpl. apply elem_of_difference. by rewrite elem_of_singleton. }
  unfold dmosi_timer_destroy. rewrite decide_False; [done|]. intros [_ Hno]. apply Hno. simpl. by rewrite Hr.
Qed.

Lemma stop_own_lease_timer w p l m rt lt :
  owner w p l m rt lt → rt ≠ lt → running (w_io w) = Some lt → dmdhcp_stop (Some p) w = None.
Proof.
  intros Ho Hne Hr. pose proof Ho as [HI Hp Hm Hrt Hlt].
  unfold dmdhcp_stop. rewrite (handle_read _ l) by (done || eapply ll_magic, owner_live, Ho).
  destruct (remove_run w p HI) as (gm & t & Hg & Ht & Hrem & _); [eauto|].
  rewrite (w_bind _ _ _ _ _ Hrem).
  set (w1 := set_g_leases _ _). assert (Hw1 : heap w1 !! p = Some l) by done.
  rewrite <- (put_id p l w1) by done.
  rewrite (lock_put _ _ _ _ m) by (done || exact (owner_free _ _ _ _ _ _ Ho)).
  assert (Hgo : ((l ← load p; if iface_configured l then with_lease p dmdhcp_lifecycle_unapply else mret tt);;
    unlock_lease p;; dmdhcp_lease_table_destroy (Some p)) (put p l (grab m (w_io w1)) w1) = None).
  { rewrite (w_bind _ _ _ _ _ (load_then_unapply p l (grab m (w_io w1)) w1)).
    destruct (unapplied_owned l) as [[] _].
    rewrite (unlock_put _ _ _ _ m) by (try apply mutexes_grab; congruence).
    apply destroy_own_lease_timer with rt lt; try congruence;
      [exact (owner_rt _ _ _ _ _ _ Ho)|exact (owner_lt _ _ _ _ _ _ Ho)|exact Hr]. }
  rewrite w_assoc in Hgo. exact Hgo.
Qed.

(** C40: an application must not end a lease from that lease's
    [on_expired_or_lost].  When the lease expires - its lease timer fires while
    rebinding - and the callback calls [dmdhcp_stop] on it, the timer whose
    callback is running is destroyed: [dmosi_timer_destroy] joins its own
    thread.  No call of the API threads a teardown context that would prevent
    it. *)
Theorem stop_from_callback_undefined w p l m rt lt f :
  owner w p l m rt lt → state l = dmdhcp_state_rebinding → on_expired_or_lost (callbacks l) = Some f →
  (∀ w, client (c_on_expired f p (user_data l)) w = dmdhcp_stop (Some p) w) →
  run_event (ev_lease_timer p) w = None.
Proof.
  intros Ho Hs Hcb Hclient. pose proof Ho as [HI Hp Hm Hrt Hlt].
  assert (Hne : rt ≠ lt).
  { pose proof (ll_distinct _ _ (owner_live _ _ _ _ _ _ Ho)). congruence. }
  cbn [run_event]. unfold on_timer. rewrite (load_read p l) by done. rewrite Hlt.
  erewrite w_bind by reflexivity. set (w1 := set_w_io _ w).
  assert (Ho1 : owner w1 p l m rt lt).
  { split; try done. apply Inv_set_running; [done|]. intros t [= <-].
    apply (inv_fresh _ _ _ HI), (owner_lt _ _ _ _ _ _ Ho). }
  set (w2 := logged (section_calls m []) w1). destruct (section_idle _ _ _ _ _ _ Ho1) as [Ho2 Hidle].
  pose proof (given_up_step l (grab m (w_io w2)) (owner_typed _ _ _ _ _ _ Ho)) as Hst.
  pose proof (sectioned_owner _ _ _ _ _ _ _ _ _ Ho2 Hst) as Ho3.
  set (w3 := sectioned p m (unapply_calls l) l (given_up l) w2) in *.
  assert (Hcallback : invoke (on_expired_or_lost (callbacks l)) (λ f, c_on_expired f p (user_data l)) w3 = None).
  { rewrite Hcb. simpl. erewrite w_bind by (apply wio_run; reflexivity). rewrite Hclient.
    set (w4 := set_w_io _ w3). apply stop_own_lease_timer with (given_up l) m rt lt; [|done|done].
    exact (owner_logged [_] _ _ _ _ _ _ Ho3). }
  apply w_bind_none.
  unfold lease_timer_callback. rewrite (handle_read _ l) by (done || eapply ll_magic, owner_live, Ho).
  erewrite section_start by done. rewrite load_put, Hs.
  transitivity (dmdhcp_lifecycle_handle_lost p w2).
  { unfold w2. rewrite <- (Hidle unit (λ _, dmdhcp_lifecycle_handle_lost p)). by erewrite section_start by done. }
  etransitivity; [exact (handle_lost_callback _ _ _ _ _ _ Ho2)|]. by apply w_bind_none.
Qed.
End Misuse.

(** ** An address from scratch *)
Section Scenarios.
Context `{E : Env} {EO : EnvOk E} `{D : DmList} {DL : DmListLaws D} `{C : !Client} {CO : ClientOk C}.

(** One event of a loaded module *)
Lemma loaded_event w e w' : loaded w → enabled e w → run_event e w = Some (tt, w') → loaded w'.
Proof. intros. apply (loaded_step w); [done|]. by apply step_event with e. Qed.

Lemma loaded_owner w p l : loaded w → heap w !! p = Some l → ∃ m rt lt, owner w p l m rt lt.
Proof. intros [HI _]%loaded_idle Hp. by apply live_owner. Qed.

(** A reply that is probed, as an event *)
Lemma reply_event w p l payload msg t s' :
  loaded w → heap w !! p = Some l → bytes_ok payload → reply_of payload = Some msg →
  msg_xid msg = xid l → type_of payload = Some t → probed_as t (state l) = Some s' →
  ∃ w' dns ntp, run_event (ev_datagram (iface l) payload) w = Some (tt, w') ∧ loaded w' ∧
    heap w' !! p = Some (set_state s' (learned msg (drop 240 payload) dns ntp l)) ∧
    notes (trace (w_io w')) = notes (trace (w_io w)).
Proof.
  intros Hw Hp Hok Hmsg Hx Ht Hs. destruct (loaded_owner w p l Hw Hp) as (m & rt & lt & Ho).
  pose proof (loaded_idle w Hw) as [HI Hr]. destruct (table_mutex _ _ HI) as (gm & Hg & _).
  pose proof (datagram_reaches payload w gm msg t p l HI Hg Hok Hmsg Ht Hp (eq_sym Hx)) as Hroute.
  set (w1 := logged _ w) in *.
  assert (Ho1 : owner w1 p l m rt lt) by (by apply owner_logged).
  assert (Hopt : bytes_ok (drop 240 payload)) by (by apply Forall_drop).
  destruct (probe_handoff w1 p l m rt lt msg (drop 240 payload) t s' Ho1 Hopt Hs) as (dns & ntp & cs & Hal & _ & _ & Hrun).
  rewrite <- Hroute in Hrun. eexists _, dns, ntp. split; [exact Hrun|].
  split; [exact (loaded_event w (ev_datagram (iface l) payload) _ Hw Hok Hrun)|].
  split; [apply heap_put|]. simpl. rewrite !notes_app. simpl. rewrite !notes_app. simpl. rewrite !app_nil_r.
  unfold notes at 2. replace (List.filter is_note cs) with (@nil call); [by rewrite !app_nil_r|].
  clear -Hal. induction Hal as [|c cs Hc _ IH]; [done|]. by destruct c.
Qed.

(** The callback of a timer, as an event *)
Lemma timer_event timer callback p w l w' :
  loaded w → heap w !! p = Some l →
  callback (Some p) (set_w_io (set_running (timer l) (w_io w)) w) = Some (tt, w') →
  on_timer timer callback p w = Some (tt, set_w_io (set_running None (w_io w')) w').
Proof.
  intros Hw Hp Hrun. unfold on_timer. rewrite (load_read p l) by done.
  erewrite w_bind by reflexivity. by rewrite (w_bind _ _ _ _ _ Hrun).
Qed.

Lemma running_owner w p l m rt lt :
  owner w p l m rt lt → owner (set_w_io (set_running (Some rt) (w_io w)) w) p l m rt lt.
Proof.
  intros Ho. pose proof Ho as [HI ? ? ? ?]. split; try done. apply Inv_set_running; [done|].
  intros t [= <-]. apply (inv_fresh _ _ _ HI), (owner_rt _ _ _ _ _ _ Ho).
Qed.

(** No address is in use, and interfaces take what they are given. *)
Definition clean_network (i : iface_t) : Prop :=
  (∀ h a t, (answer h (c_arp_resolve i a t) : Z) ≠ 0) ∧
  (∀ h a, (answer h (c_set_netmask i a) : Z) = 0) ∧ (∀ h a, (answer h (c_set_ip_address i a) : Z) = 0).

(** Sending, arming and applying notify nobody. *)
Lemma notes_sender h l k : notes (sender_calls h l k) = [].
Proof. unfold sender_calls, send_calls, udp_call. by repeat case_match. Qed.

Lemma notes_apply h l : notes (apply_made h l) = [].
Proof. unfold apply_made, apply_calls, configure_calls, route_call. by repeat case_match. Qed.

Lemma notes_sectioned p m cs l l' w :
  notes cs = [] → notes (trace (w_io (sectioned p m cs l l' w))) = notes (trace (w_io w)).
Proof.
  intros Hc. simpl. rewrite notes_app. unfold section_calls.
  change (c_mutex_lock m :: cs ++ [c_mutex_unlock m]) with ([c_mutex_lock m] ++ cs ++ [c_mutex_unlock m]).
  by rewrite !notes_app, Hc, app_nil_r.
Qed.

(** The two clean probes, as events *)
Lemma clean_offer_event w p l :
  loaded w → heap w !! p = Some l → state l = dmdhcp_state_checking_offer → clean_network (iface l) →
  ∃ w', run_event (ev_retransmit_timer p) w = Some (tt, w') ∧ loaded w' ∧
    heap w' !! p = Some (set_retransmit_interval_ms DMDHCP_RETRANSMIT_INITIAL_MS
        (set_retransmit_count 0 (set_state dmdhcp_state_requesting l))) ∧
    notes (trace (w_io w')) = notes (trace (w_io w)).
Proof.
  intros Hw Hp Hs (Harp & _ & _). destruct (loaded_owner w p l Hw Hp) as (m & rt & lt & Ho).
  pose proof (running_owner _ _ _ _ _ _ Ho) as Ho1.
  pose proof (clean_offer_run _ _ _ _ _ _ Ho1 Hs (Harp _ _ _)) as Hrun.
  rewrite <- (ow_retransmit _ _ _ _ _ _ Ho) in Hrun.
  assert (Hev : run_event (ev_retransmit_timer p) w = _) by exact (timer_event _ _ p w l _ Hw Hp Hrun).
  eexists. split; [exact Hev|].
  split; [by eapply (loaded_event w (ev_retransmit_timer p)); [|eexists|]|].
  split; [apply heap_put|].
  refine (notes_sectioned p m _ l _ (set_w_io (set_running (retransmit_timer l) (w_io w)) w) _).
  by rewrite !notes_app, notes_sender.
Qed.

(** The clean probe of an ACK, as an event: the world [w1] in which the
    application is told, the world [w2] it leaves, and the end *)
Lemma clean_ack_event w p l :
  loaded w → heap w !! p = Some l → state l = dmdhcp_state_checking_ack → clean_network (iface l) →
  ∃ w1 w2 w' h m, Inv ∅ ∅ w1 ∧
    heap w1 !! p = Some (set_decline_retry_count 0 (set_state dmdhcp_state_bound (applied h l))) ∧
    lock (set_decline_retry_count 0 (set_state dmdhcp_state_bound (applied h l))) = Some m ∧
    notes (trace (w_io w1)) = notes (trace (w_io w)) ∧
    invoke (on_bound (callbacks l)) (λ f, c_on_bound f p false (user_data l)) w1 = Some (tt, w2) ∧
    run_event (ev_retransmit_timer p) w = Some (tt, w') ∧ loaded w' ∧
    heap w' = heap w2 ∧ trace (w_io w') = trace (w_io w2) ++ section_calls m [].
Proof.
  intros Hw Hp Hs (Harp & Hmask & Hip). destruct (loaded_owner w p l Hw Hp) as (m & rt & lt & Ho).
  pose proof (running_owner _ _ _ _ _ _ Ho) as Ho1. set (w0 := set_w_io _ w) in *.
  set (h := entered m w0 ++ [probe_call l]).
  destruct (clean_ack_run _ _ _ _ _ _ Ho1 Hs (Harp _ _ _)) as [Ho2 Hrun]. fold h in Ho2, Hrun.
  set (w1 := sectioned _ _ _ _ _ w0) in *.
  assert (HA1 : At (Some rt) p m ∅ ∅ w1) by (destruct Ho2; split; [done|]; split; [done|]; eauto).
  pose proof (wp_invoke (Some rt) p m w1 (on_bound (callbacks l)) (λ f, c_on_bound f p false (user_data l))
    (λ f, eq_refl) HA1) as Hwp.
  apply wp_run in Hwp as ([] & w2 & Hcb & HI2 & _ & l2 & Hp2 & Hl2).
  destruct (live_owner w2 p l2 HI2 Hp2) as (m2 & rt2 & lt2 & Ho3).
  assert (m2 = m) as -> by (destruct Ho3; congruence).
  rewrite (w_bind _ _ _ _ _ Hcb), (relocked _ _ _ _ _ _ Ho3) in Hrun.
  unfold w0 in Hrun. rewrite <- (ow_retransmit _ _ _ _ _ _ Ho) in Hrun.
  assert (Hev : run_event (ev_retransmit_timer p) w = _) by exact (timer_event _ _ p w l _ Hw Hp Hrun).
  exists w1, w2. eexists. exists h, m. split; [apply Ho2|]. split; [|split; [apply Ho|split; [|split; [exact Hcb|]]]].
  - rewrite (ow_lease _ _ _ _ _ _ Ho2). unfold bound_as, apply_lease, netmask_rc, address_rc. by rewrite Hmask, Hip.
  - unfold w1. rewrite notes_sectioned; [done|]. unfold binding_calls. by rewrite !notes_app, notes_apply.
  - split; [exact Hev|]. split; [by eapply (loaded_event w (ev_retransmit_timer p)); [|eexists|]|]. by split.
Qed.

(** C5: a client that is answered gets its address.  In every world the module
    can reach, take a lease that is selecting; on a network where nobody uses
    the address and whose interface accepts it, whatever the allocations, the
    random numbers and the answers of the other calls, the four events -
    any well-formed OFFER with its xid, the retransmit timer, any ACK with the
    same xid, the retransmit timer - all run to their end.  In the course of
    the last, nobody having been told anything before, the lease is bound to
    the address of the ACK, applied to the interface, with the times, netmask
    and gateway of the ACK and no decline on record, every mutex is free and
    the invariant true: in that world [w1] the application's [on_bound], if it
    has one, is called, once, and not as of a renewal.  Whatever it does then
    ([w2]: any application that keeps its obligations, [ClientOk]) is what the
    events leave, up to one more look at the mutex of the lease: the lease of
    an application that does nothing there is still the bound one. *)
Theorem answered_client_binds w p l offer offer_msg ack ack_msg :
  loaded w → heap w !! p = Some l → state l = dmdhcp_state_selecting → clean_network (iface l) →
  bytes_ok offer → reply_of offer = Some offer_msg → msg_xid offer_msg = xid l → type_of offer = Some 2 →
  bytes_ok ack → reply_of ack = Some ack_msg → msg_xid ack_msg = xid l → type_of ack = Some 5 →
  ∃ w1 l1 m w2 w',
    (* the application is told *)
    Inv ∅ ∅ w1 ∧ heap w1 !! p = Some l1 ∧ lock l1 = Some m ∧ state l1 = dmdhcp_state_bound ∧
    offered_ip l1 = yiaddr ack_msg ∧ iface_configured l1 = true ∧
    gateway l1 = learned_gateway (drop 240 ack) ∧ lease_time_sec l1 = learned_lease_time (drop 240 ack) ∧
    t1_sec l1 = learned_t1 (drop 240 ack) ∧ t2_sec l1 = learned_t2 (drop 240 ack) ∧
    decline_retry_count l1 = 0 ∧ notes (trace (w_io w1)) = notes (trace (w_io w)) ∧
    invoke (on_bound (callbacks l)) (λ f, c_on_bound f p false (user_data l)) w1 = Some (tt, w2) ∧
    (* the end *)
    run_events [ev_datagram (iface l) offer; ev_retransmit_timer p;
                ev_datagram (iface l) ack; ev_retransmit_timer p] w = Some (tt, w') ∧
    loaded w' ∧ heap w' = heap w2 ∧ trace (w_io w') = trace (w_io w2) ++ section_calls m [].
Proof.
  intros Hw Hp Hs Hclean Hok1 Hm1 Hx1 Ht1 Hok2 Hm2 Hx2 Ht2.
  destruct (reply_event w p l offer offer_msg 2 dmdhcp_state_checking_offer)
    as (w3 & dns1 & ntp1 & H1 & Hw3 & Hp3 & Hn3); try done; [by rewrite Hs|].
  destruct (clean_offer_event w3 p _ Hw3 Hp3 eq_refl Hclean) as (w4 & H2 & Hw4 & Hp4 & Hn4).
  edestruct (reply_event w4 p _ ack ack_msg 5 dmdhcp_state_checking_ack Hw4 Hp4)
    as (w5 & dns3 & ntp3 & H3 & Hw5 & Hp5 & Hn5); try done.
  destruct (clean_ack_event w5 p _ Hw5 Hp5 eq_refl Hclean)
    as (w1 & w2 & w' & h & m & HI1 & Hp1 & Hm & Hn1 & Hcb & H4 & Hw' & Hh & Htr).
  exists w1. eexists. exists m, w2, w'. split; [exact HI1|]. split; [exact Hp1|]. split; [exact Hm|].
  do 8 (split; [done|]). split; [by rewrite Hn1, Hn5, Hn4, Hn3|]. split; [exact Hcb|]. split; [|done].
  cbn [run_events]. rewrite (w_bind _ _ _ _ _ H1), (w_bind _ _ _ _ _ H2), (w_bind _ _ _ _ _ H3).
  by rewrite (w_bind _ _ _ _ _ H4).
Qed.
End Scenarios.
