(* ===== verification/Threads.v ===== *)
(** Threads: programs as trees of atomic actions and mutex operations, pools of
    threads that step in any order, and the run of a program with no other
    thread.

    The module is entered from several threads - the application's, the
    receiver's, the timers' - and its own mutexes are all that orders them. *)
From S2P Require Import Prelude Types Platform Lease World LeaseTable.

(** ** Programs *)

(** The mutexes of the module: [g_leases_mutex], and the [lock] of a lease *)
Inductive mutex_name : Type := table_mutex | lease_mutex (p : ptr).

#[global] Instance mutex_name_eq_dec : EqDecision mutex_name.
Proof. solve_decision. Defined.

Section Prog.
Context `{E : Env} `{D : DmList}.

(** [act m k]: the action [m], which no other thread interrupts, then [k] *)
Inductive prog (A : Type) : Type :=
  | ret (a : A)
  | act {B : Type} (m : M B) (k : B → prog A)
  | acquire (x : mutex_name) (k : prog A)
  | unlock (x : mutex_name) (k : prog A).
#[global] Arguments ret {A}.
#[global] Arguments act {A B}.
#[global] Arguments acquire {A}.
#[global] Arguments unlock {A}.

#[global] Instance prog_ret : MRet prog := @ret.

#[global] Instance prog_bind : MBind prog := λ A B f,
  fix go t :=
    match t with
    | ret a => f a
    | act m k => act m (λ b, go (k b))
    | acquire x k => acquire x (go k)
    | unlock x k => unlock x (go k)
    end.

Definition lift {B} (m : M B) : prog B := act m ret.
Definition acq (x : mutex_name) : prog unit := acquire x (ret tt).
Definition rel (x : mutex_name) : prog unit := unlock x (ret tt).

(** The handle a name stands for: reading [lease->lock] dereferences the
    lease. *)
Definition handle_of (x : mutex_name) (w : world) : option handle :=
  match x with
  | table_mutex => g_leases_mutex w
  | lease_mutex p => l ← heap w !! p; lock l
  end.

(** One step of a thread.  [waiting]: the mutex is held by some thread, this
    one included.  [fault]: undefined behaviour. *)
Inductive outcome (A : Type) : Type :=
  | finished (a : A)
  | stepped (t : prog A) (w : world)
  | waiting
  | fault.
#[global] Arguments finished {A}.
#[global] Arguments stepped {A}.
#[global] Arguments waiting {A}.
#[global] Arguments fault {A}.

Definition thread_step {A} (t : prog A) (w : world) : outcome A :=
  match t with
  | ret a => finished a
  | act m k => match m w with Some (b, w') => stepped (k b) w' | None => fault end
  | acquire x k =>
      match handle_of x w with
      | None => fault
      | Some m =>
          match mutexes (w_io w) !! m with
          | Some false => stepped k (set_w_io (grab m (w_io w)) w)
          | Some true => waiting
          | None => fault
          end
      end
  | unlock x k =>
      match handle_of x w with
      | None => fault
      | Some m =>
          match mutexes (w_io w) !! m with
          | Some true => stepped k (set_w_io (release m (w_io w)) w)
          | _ => fault
          end
      end
  end.

(** A pool of threads, stepping in any order *)
Definition config : Type := list (prog unit) * world.

Inductive pool_step : config → config → Prop :=
  | pool_step_at i ts t t' w w' :
      ts !! i = Some t → thread_step t w = stepped t' w' →
      pool_step (ts, w) (<[i := t']> ts, w').

(** With no other thread *)
Definition lock_named (x : mutex_name) : M unit :=
  match x with table_mutex => lock_table | lease_mutex p => lock_lease p end.
Definition unlock_named (x : mutex_name) : M unit :=
  match x with table_mutex => unlock_table | lease_mutex p => unlock_lease p end.

Fixpoint alone {A} (t : prog A) : M A :=
  match t with
  | ret a => mret a
  | act m k => b ← m; alone (k b)
  | acquire x k => lock_named x;; alone k
  | unlock x k => unlock_named x;; alone k
  end.
End Prog.

(** ** The application, as a program *)
Class App `{E : Env} `{D : DmList} := app : call → prog unit.

(** The same application, called from the operations of the other files *)
Definition app_client `{E : Env} `{D : DmList} (P : App) : Client := λ c, alone (P c).

(** ** Equal runs

    Two computations with the same run from every world; a congruence for the
    sequence of computations. *)
Section SameRun.
Context `{E : Env} `{D : DmList}.

Definition same_run {A} (m m' : M A) : Prop := ∀ w, m w = m' w.

#[export] Instance same_run_equivalence A : Equivalence (@same_run A).
Proof.
  split; [by intros m w|by intros m m' H w|]. intros m1 m2 m3 H1 H2 w. by rewrite H1.
Qed.

#[export] Instance bind_same_run A B :
  Proper (pointwise_relation A (@same_run B) ==> @same_run A ==> @same_run B) (mbind (M := M)).
Proof.
  intros k k' Hk m m' Hm w. unfold mbind, st_bind. rewrite Hm.
  destruct (m' w) as [[a w']|]; [apply Hk|done].
Qed.

Lemma bind_same {A B} (m m' : M A) (k k' : A → M B) :
  same_run m m' → (∀ a, same_run (k a) (k' a)) → same_run (m ≫= k) (m' ≫= k').
Proof. intros Hm Hk. by apply bind_same_run. Qed.

Lemma bind_assoc {A B C} (m : M A) (k : A → M B) (k' : B → M C) :
  same_run ((m ≫= k) ≫= k') (m ≫= λ a, k a ≫= k').
Proof. intros w. apply w_assoc. Qed.

Lemma bind_ret {A} (m : M A) : same_run (m ≫= mret) m.
Proof. intros w. apply bind_ret_r. Qed.

Lemma alone_bind {A B} (t : prog A) (k : A → prog B) :
  same_run (alone (t ≫= k)) (alone t ≫= λ a, alone (k a)).
Proof.
  induction t as [a|C m k1 IH|x t IH|x t IH]; [done|..]; simpl; rewrite bind_assoc;
    by apply bind_same; [done|intros; apply IH].
Qed.

Lemma alone_lift {A} (m : M A) : same_run (alone (lift m)) m.
Proof. apply bind_ret. Qed.

Lemma alone_acq x : same_run (alone (acq x)) (lock_named x).
Proof. simpl. rewrite <- (bind_ret (lock_named x)) at 2. by apply bind_same; [|intros []]. Qed.

Lemma alone_rel x : same_run (alone (rel x)) (unlock_named x).
Proof. simpl. rewrite <- (bind_ret (unlock_named x)) at 2. by apply bind_same; [|intros []]. Qed.
End SameRun.

(** Compare a program statement by statement with the operation it cuts. *)
Ltac alone_step :=
  lazymatch goal with
  | |- same_run ?m ?m => reflexivity
  | |- same_run (alone (lift _)) _ => apply alone_lift
  | |- same_run (alone (acq ?x)) _ => exact (alone_acq x)
  | |- same_run (alone (rel ?x)) _ => exact (alone_rel x)
  | |- same_run (alone (mret _)) _ => reflexivity
  | |- same_run (alone (_ ≫= _)) _ =>
      etransitivity; [apply alone_bind|]; apply bind_same; [|intros ?]; cbv beta zeta
  | |- same_run (alone _) _ => case_match
  end.

Ltac same_alone := repeat first [solve [auto with threads] | alone_step].
