(* ===== verification/ThreadOps.v ===== *)
(** The operations of the module as threads: an operation [f] of the other
    files is here [f_t], statement for statement, cut at every point where
    another thread may run.  [thread_alone] shows that with no other thread it
    is the operation [f]. *)
From S2P Require Import Prelude Types Wire Options Platform Lease Output Lifecycle World Invariant LeaseTable Timers Input Api System Events Threads.

Section Ops.
Context `{E : Env} `{D : DmList}.

(** ** [src/dmdhcp_lease_table.c] *)
Definition dmdhcp_lease_table_find_by_xid_t (i : iface_t) (x : Z) : prog (option ptr) :=
  acq table_mutex;;
  r ← lift (find_lease (λ h, compare_by_xid h i x));
  rel table_mutex;;
  mret r.

(** [dmlist_push_back(g_leases, lease)] *)
Definition push_lease (p : ptr) : M Z :=
  t ← the_leases;
  r ← wio (dmlist_try_push t p);
  match r with
  | Some t => setw (set_g_leases (Some t));; mret 0
  | None => mret (- ENOMEM)
  end.

Definition dmdhcp_lease_table_insert_t (p : ptr) : prog Z :=
  acq table_mutex;;
  l ← lift (load p);
  found ← lift (find_lease (λ h, compare_by_iface h (iface l)));
  result ← match found with
           | Some _ => mret (- EEXIST)
           | None => lift (push_lease p)
           end;
  rel table_mutex;;
  mret result.

(** [dmlist_remove(g_leases, lease, compare_pointer)] *)
Definition unlink_lease (p : ptr) : M unit :=
  t ← the_leases;
  setw (set_g_leases (Some (dmlist_remove t (compare_pointer p)))).

Definition dmdhcp_lease_table_remove_t (p : ptr) : prog unit :=
  acq table_mutex;;
  lift (unlink_lease p);;
  rel table_mutex.

Definition locked_read_t {A} (h : option ptr) (bad : A) (f : lease → A) : prog A :=
  b ← lift (bad_handle h);
  match h with
  | Some p =>
      if b : bool then mret bad else
      acq (lease_mutex p);;
      l ← lift (load p);
      rel (lease_mutex p);;
      mret (f l)
  | None => mret bad
  end.

Definition dmdhcp_set_callbacks_t (h : option ptr) (cbs : option dmdhcp_callbacks_t) (ud : Z) : prog Z :=
  b ← lift (bad_handle h);
  match h with
  | Some p =>
      if b : bool then mret (- EINVAL) else
      acq (lease_mutex p);;
      lift (with_lease p (setl (set_callbacks (default callbacks_zero cbs))));;
      lift (with_lease p (setl (set_user_data ud)));;
      rel (lease_mutex p);;
      mret 0
  | None => mret (- EINVAL)
  end.

Definition dmdhcp_get_iface_t (h : option ptr) : prog iface_t :=
  b ← lift (bad_handle h);
  match h with
  | Some p => if b : bool then mret 0 else l ← lift (load p); mret (iface l)
  | None => mret 0
  end.

Fixpoint ntp_servers_loop_t (fuel i : nat) (out : list dmroute_addr_t) (written max_count : nat)
    : prog (list dmroute_addr_t * nat) :=
  match fuel with
  | O => lift ub
  | S fuel =>
      t ← lift the_leases;
      if (i <? dmlist_size t)%nat && (written <? max_count)%nat then
        match dmlist_get t i with
        | None => ntp_servers_loop_t fuel (S i) out written max_count
        | Some p =>
            l ← lift (load p);
            if negb (magic l =? DMDHCP_LEASE_MAGIC)
            then ntp_servers_loop_t fuel (S i) out written max_count else
            acq (lease_mutex p);;
            l ← lift (load p);
            r ← (if holds_valid_lease l then
                   servers ← lift (st_opt (ntp_servers l));
                   lift (st_opt (copy_servers (dmlist_size servers) 0 servers out written max_count))
                 else mret (out, written));
            rel (lease_mutex p);;
            ntp_servers_loop_t fuel (S i) r.1 r.2 max_count
        end
      else mret (out, written)
  end.

Definition dmdhcp_get_ntp_servers_t (out : option (list dmroute_addr_t)) (max_count : nat)
    : prog (Z * option (list dmroute_addr_t)) :=
  match out with
  | None => mret (- EINVAL, out)
  | Some a =>
      if (max_count =? 0)%nat then mret (- EINVAL, out) else
      acq table_mutex;;
      t ← lift the_leases;
      r ← ntp_servers_loop_t (S (dmlist_size t)) 0 a 0 max_count;
      rel table_mutex;;
      mret (i32 (Z.of_nat r.2), Some r.1)
  end.

Fixpoint visit_dns_leases_t (n i : nat) (visit ctx : Z) : prog unit :=
  match n with
  | O => mret tt
  | S n =>
      t ← lift the_leases;
      match dmlist_get t i with
      | None => visit_dns_leases_t n (S i) visit ctx
      | Some p =>
          l ← lift (load p);
          if negb (magic l =? DMDHCP_LEASE_MAGIC) then visit_dns_leases_t n (S i) visit ctx else
          acq (lease_mutex p);;
          lift (visit_lease_dns_servers p visit ctx);;
          rel (lease_mutex p);;
          visit_dns_leases_t n (S i) visit ctx
      end
  end.

Definition dmdhcp_lease_table_visit_dns_servers_t (visit : option Z) (ctx : Z) : prog unit :=
  m ← lift (getw g_leases_mutex);
  match visit, m with
  | Some f, Some _ =>
      acq table_mutex;;
      t ← lift the_leases;
      visit_dns_leases_t (dmlist_size t) 0 f ctx;;
      rel table_mutex
  | _, _ => mret tt
  end.

(** The servers of one lease, its mutex held *)
Definition visit_lease_ntp_servers (p : ptr) (visit ctx : Z) : M unit :=
  l ← load p;
  if holds_valid_lease l then
    servers ← st_opt (ntp_servers l);
    visit_ntp_loop (dmlist_size servers) 0 servers visit ctx
  else mret tt.

Fixpoint visit_ntp_leases_t (n i : nat) (visit ctx : Z) : prog unit :=
  match n with
  | O => mret tt
  | S n =>
      t ← lift the_leases;
      match dmlist_get t i with
      | None => visit_ntp_leases_t n (S i) visit ctx
      | Some p =>
          l ← lift (load p);
          if negb (magic l =? DMDHCP_LEASE_MAGIC) then visit_ntp_leases_t n (S i) visit ctx else
          acq (lease_mutex p);;
          lift (visit_lease_ntp_servers p visit ctx);;
          rel (lease_mutex p);;
          visit_ntp_leases_t n (S i) visit ctx
      end
  end.

Definition dmdhcp_lease_table_visit_ntp_servers_t (visit : option Z) (ctx : Z) : prog unit :=
  match visit with
  | None => mret tt
  | Some f =>
      acq table_mutex;;
      t ← lift the_leases;
      visit_ntp_leases_t (dmlist_size t) 0 f ctx;;
      rel table_mutex
  end.

(** ** The accessors, as a thread calls them *)
Definition run_accessor_t (a : accessor) (h : option ptr) : prog unit :=
  match a with
  | get_state => locked_read_t h dmdhcp_state_failed state;; mret tt
  | get_iface => dmdhcp_get_iface_t h;; mret tt
  | get_user_data => locked_read_t h 0 user_data;; mret tt
  | get_xid => locked_read_t h 0 xid;; mret tt
  | get_lease_info =>
      let out := LeaseInfo addr_none addr_none addr_none addr_none 0 0 0 in
      locked_read_t h (- EINVAL, Some out) (λ l,
        if holds_valid_lease l then (0, Some (lease_info l)) else (- EINVAL, Some out));; mret tt
  | get_dns_server_count =>
      r ← locked_read_t h (Some 0%nat) (λ l, dmlist_size <$> dns_servers l); lift (st_opt r);; mret tt
  | get_dns_server i =>
      r ← locked_read_t h (Some (- EINVAL, Some addr_none))
            (λ l, get_server i (Some addr_none) (dns_servers l)); lift (st_opt r);; mret tt
  | get_ntp_server_count =>
      r ← locked_read_t h (Some 0%nat) (λ l, dmlist_size <$> ntp_servers l); lift (st_opt r);; mret tt
  | get_ntp_server i =>
      r ← locked_read_t h (Some (- EINVAL, Some addr_none))
            (λ l, get_server i (Some addr_none) (ntp_servers l)); lift (st_opt r);; mret tt
  end.
End Ops.

Section Handlers.
Context `{E : Env} `{D : DmList} `{P : !App}.

Definition invoke_t (fn : option Z) (c : Z → call) : prog unit :=
  match fn with
  | Some f => lift (wio (ext (c f)));; app (c f)
  | None => mret tt
  end.

(** ** [src/dmdhcp_output.c] *)
Definition handle_conflict_t (p : ptr) : prog unit :=
  lift (with_lease p send_decline);;
  l ← lift (load p);
  lift (with_lease p (setl (set_decline_retry_count (u32 (decline_retry_count l + 1)))));;
  l ← lift (load p);
  if DMDHCP_MAX_DECLINE_RETRIES <? decline_retry_count l then
    lift (with_lease p (setl (set_state dmdhcp_state_failed)));;
    l ← lift (load p);
    let fn := on_error (callbacks l) in
    let ud := user_data l in
    rel (lease_mutex p);;
    invoke_t fn (λ f, c_on_error f p (- EADDRINUSE) ud);;
    acq (lease_mutex p)
  else
    lift (with_lease p (setl (set_state dmdhcp_state_declining)));;
    lift (with_lease p (arm_retransmit DMDHCP_DECLINE_PAUSE_MS)).

Definition run_conflict_probe_t (p : ptr) : prog unit :=
  l ← lift (load p);
  r ← lift (wio (dmarp_resolve (iface l) (offered_ip l) DMDHCP_ARP_PROBE_TIMEOUT_MS));
  if r =? 0 then handle_conflict_t p else
  l ← lift (load p);
  if bool_decide (state l = dmdhcp_state_checking_offer) then
    lift (with_lease p send_request_selecting);;
    lift (with_lease p (setl (set_state dmdhcp_state_requesting)));;
    lift (with_lease p (setl (set_retransmit_count 0)));;
    lift (with_lease p (setl (set_retransmit_interval_ms DMDHCP_RETRANSMIT_INITIAL_MS)));;
    lift (with_lease p (ms ← getl retransmit_interval_ms; arm_retransmit ms))
  else
    lift (with_lease p dmdhcp_lifecycle_apply);;
    lift (with_lease p (setl (set_state dmdhcp_state_bound)));;
    lift (with_lease p (setl (set_decline_retry_count 0)));;
    lift (with_lease p dmdhcp_lifecycle_arm_t1);;
    l ← lift (load p);
    let fn := on_bound (callbacks l) in
    let ud := user_data l in
    rel (lease_mutex p);;
    invoke_t fn (λ f, c_on_bound f p false ud);;
    acq (lease_mutex p).

Definition retransmit_timer_callback_t (h : option ptr) : prog unit :=
  b ← lift (bad_handle h);
  match h with
  | None => mret tt
  | Some p =>
      if b : bool then mret tt else
      acq (lease_mutex p);;
      l ← lift (load p);
      match state l with
      | dmdhcp_state_selecting =>
          lift (with_lease p (discard send_discover));;
          lift (with_lease p rearm_backoff)
      | dmdhcp_state_requesting | dmdhcp_state_rebooting =>
          lift (with_lease p (setl (set_retransmit_count (u32 (retransmit_count l + 1)))));;
          l ← lift (load p);
          if DMDHCP_MAX_REQUEST_RETRANSMITS <? retransmit_count l then
            lift (with_lease p dmdhcp_output_start_discovery)
          else
            (if bool_decide (state l = dmdhcp_state_requesting)
             then lift (with_lease p (discard send_request_selecting))
             else lift (with_lease p (discard send_request_reboot)));;
            lift (with_lease p rearm_backoff)
      | dmdhcp_state_renewing =>
          lift (with_lease p (discard send_request_renew));;
          lift (with_lease p rearm_backoff)
      | dmdhcp_state_rebinding =>
          lift (with_lease p (discard send_request_rebind));;
          lift (with_lease p rearm_backoff)
      | dmdhcp_state_checking_offer | dmdhcp_state_checking_ack => run_conflict_probe_t p
      | dmdhcp_state_declining => lift (with_lease p dmdhcp_output_start_discovery)
      | _ => mret tt
      end;;
      rel (lease_mutex p)
  end.

(** ** [src/dmdhcp_lifecycle.c] *)
Definition dmdhcp_lifecycle_handle_lost_t (p : ptr) : prog unit :=
  acq (lease_mutex p);;
  lift (with_lease p dmdhcp_lifecycle_unapply);;
  lift (with_lease p dmdhcp_lease_table_clear_ntp_servers);;
  l ← lift (load p);
  let fn := on_expired_or_lost (callbacks l) in
  let ud := user_data l in
  rel (lease_mutex p);;
  invoke_t fn (λ f, c_on_expired f p ud);;
  acq (lease_mutex p);;
  lift (with_lease p dmdhcp_output_start_discovery);;
  rel (lease_mutex p).

Definition lease_timer_callback_t (h : option ptr) : prog unit :=
  b ← lift (bad_handle h);
  match h with
  | None => mret tt
  | Some p =>
      if b : bool then mret tt else
      acq (lease_mutex p);;
      l ← lift (load p);
      match state l with
      | dmdhcp_state_bound =>
          lift (with_lease p dmdhcp_output_start_renew);;
          lift (with_lease p dmdhcp_lifecycle_arm_t2);;
          rel (lease_mutex p)
      | dmdhcp_state_renewing =>
          lift (with_lease p dmdhcp_output_start_rebind);;
          lift (with_lease p dmdhcp_lifecycle_arm_expiry);;
          rel (lease_mutex p)
      | dmdhcp_state_rebinding =>
          rel (lease_mutex p);;
          dmdhcp_lifecycle_handle_lost_t p
      | _ => rel (lease_mutex p)
      end
  end.

(** ** [src/dmdhcp_input.c] *)
Definition dispatch_message_t (p : ptr) (msg : dmdhcp_message_t) (options : list Z) (msg_type : Z)
    : prog unit :=
  acq (lease_mutex p);;
  l ← lift (load p);
  let s := state l in
  if (msg_type =? u8 (msg_type_val dmdhcp_msg_offer)) && bool_decide (s = dmdhcp_state_selecting)
  then
    lift (with_lease p (populate_lease_from_options msg options));;
    lift (with_lease p (setl (set_state dmdhcp_state_checking_offer)));;
    lift (with_lease p arm_probe);;
    rel (lease_mutex p)
  else if (msg_type =? u8 (msg_type_val dmdhcp_msg_ack))
    && (bool_decide (s = dmdhcp_state_requesting) || bool_decide (s = dmdhcp_state_rebooting))
  then
    lift (with_lease p (populate_lease_from_options msg options));;
    lift (with_lease p (setl (set_state dmdhcp_state_checking_ack)));;
    lift (with_lease p arm_probe);;
    rel (lease_mutex p)
  else if (msg_type =? u8 (msg_type_val dmdhcp_msg_nak))
    && (bool_decide (s = dmdhcp_state_requesting) || bool_decide (s = dmdhcp_state_rebooting))
  then
    lift (with_lease p dmdhcp_output_start_discovery);;
    rel (lease_mutex p)
  else if (msg_type =? u8 (msg_type_val dmdhcp_msg_ack))
    && (bool_decide (s = dmdhcp_state_renewing) || bool_decide (s = dmdhcp_state_rebinding))
  then
    lift (with_lease p (populate_lease_from_options msg options));;
    lift (with_lease p dmdhcp_lifecycle_apply);;
    lift (with_lease p (setl (set_state dmdhcp_state_bound)));;
    lift (with_lease p (setl (set_decline_retry_count 0)));;
    lift (with_lease p dmdhcp_lifecycle_arm_t1);;
    l ← lift (load p);
    let fn := on_bound (callbacks l) in
    let ud := user_data l in
    rel (lease_mutex p);;
    invoke_t fn (λ f, c_on_bound f p true ud)
  else if (msg_type =? u8 (msg_type_val dmdhcp_msg_nak))
    && (bool_decide (s = dmdhcp_state_renewing) || bool_decide (s = dmdhcp_state_rebinding))
  then
    rel (lease_mutex p);;
    dmdhcp_lifecycle_handle_lost_t p
  else rel (lease_mutex p).

Definition dmdhcp_handle_datagram_t (i : iface_t) (payload : list Z) : prog unit :=
  r ← lift (st_opt (dmdhcp_parse_message (Some payload) (length payload) (Some msg_uninit) (Some 0%nat)));
  let '(rc, msg, options_offset) := r in
  if negb (rc =? 0) then mret tt else
  msg ← lift (st_opt msg);
  options_offset ← lift (st_opt options_offset);
  if negb (op msg =? dmdhcp_op_bootreply) then mret tt else
  found ← dmdhcp_lease_table_find_by_xid_t i (msg_xid msg);
  match found with
  | None => mret tt
  | Some p =>
      let options := drop options_offset payload in
      r ← lift (st_opt (dmdhcp_options_find (Some options) (length options) DMDHCP_OPT_MSG_TYPE
                    (Some (DhcpOption 0 0 None))));
      let '(rc, opt) := r in
      type_opt ← lift (st_opt opt);
      if negb (rc =? 0) || negb (len type_opt =? 1) then mret tt else
      msg_type ← lift (st_opt (option_byte type_opt));
      dispatch_message_t p msg options msg_type
  end.
End Handlers.

(** ** [src/dmdhcp.c] *)
Section ApiOps.
Context `{E : Env} `{D : DmList}.

(** [lease->hostname = Dmod_StrDup(options->hostname);] *)
Definition store_hostname (p : ptr) (h : list Z) : M unit :=
  h ← wio (Dmod_StrDup h);
  with_lease p (setl (set_hostname h)).

Definition dmdhcp_start_t (i : iface_t) (cbs : option dmdhcp_callbacks_t) (ud : Z)
    (options : option dmdhcp_options_t) : prog (option ptr) :=
  if i =? 0 then mret None else
  r ← lift (dmdhcp_lease_table_create i);
  match r with
  | None => mret None
  | Some p =>
      match cbs with
      | Some c => lift (with_lease p (setl (set_callbacks c)))
      | None => mret tt
      end;;
      lift (with_lease p (setl (set_user_data ud)));;
      match start_hostname options with
      | Some h => lift (store_hostname p h)
      | None => mret tt
      end;;
      rc ← dmdhcp_lease_table_insert_t p;
      if negb (rc =? 0) then
        lift (dmdhcp_lease_table_destroy (Some p));;
        mret None
      else
        acq (lease_mutex p);;
        match start_requested_ip options with
        | Some a =>
            lift (with_lease p (setl (set_offered_ip a)));;
            lift (with_lease p dmdhcp_output_start_reboot)
        | None => lift (with_lease p dmdhcp_output_start_discovery)
        end;;
        rel (lease_mutex p);;
        mret (Some p)
  end.

Definition dmdhcp_renew_t (h : option ptr) : prog Z :=
  b ← lift (bad_handle h);
  match h with
  | Some p =>
      if b : bool then mret (- EINVAL) else
      acq (lease_mutex p);;
      l ← lift (load p);
      (if bool_decide (state l = dmdhcp_state_bound)
       then lift (with_lease p dmdhcp_output_start_renew) else mret tt);;
      rel (lease_mutex p);;
      mret 0
  | None => mret (- EINVAL)
  end.

Definition dmdhcp_release_t (h : option ptr) : prog Z :=
  b ← lift (bad_handle h);
  match h with
  | Some p =>
      if b : bool then mret (- EINVAL) else
      dmdhcp_lease_table_remove_t p;;
      acq (lease_mutex p);;
      l ← lift (load p);
      (if is_v4 (offered_ip l) && is_v4 (server_id l)
       then lift (with_lease p dmdhcp_output_send_release);; mret tt else mret tt);;
      l ← lift (load p);
      (if iface_configured l then lift (with_lease p dmdhcp_lifecycle_unapply) else mret tt);;
      rel (lease_mutex p);;
      lift (dmdhcp_lease_table_destroy (Some p));;
      mret 0
  | None => mret (- EINVAL)
  end.

(** Everything but its last statement, the destruction of the lease *)
Definition dmdhcp_stop_with (destroy : ptr → prog unit) (h : option ptr) : prog unit :=
  b ← lift (bad_handle h);
  match h with
  | Some p =>
      if b : bool then mret tt else
      dmdhcp_lease_table_remove_t p;;
      acq (lease_mutex p);;
      l ← lift (load p);
      (if iface_configured l then lift (with_lease p dmdhcp_lifecycle_unapply) else mret tt);;
      rel (lease_mutex p);;
      destroy p
  | None => mret tt
  end.

Definition dmdhcp_stop_t : option ptr → prog unit :=
  dmdhcp_stop_with (λ p, lift (dmdhcp_lease_table_destroy (Some p))).

(** The same with the destruction cut into its statements too: threads that
    know the lease may still run between them. *)
Definition close_timer_t (timer : option handle) (self : bool) : prog unit :=
  match timer with
  | Some _ =>
      lift (wio (dmosi_timer_stop timer));;
      if self then mret tt else lift (wio (dmosi_timer_destroy timer))
  | None => mret tt
  end.

Definition when_some_t {A} (h : option A) (m : st io unit) : prog unit :=
  match h with Some _ => lift (wio m) | None => mret tt end.

Definition destroy_with_context_t (p : ptr) (context : dmdhcp_teardown_context_t) : prog unit :=
  lift (with_lease p (setl (set_magic 0)));;
  l ← lift (load p);
  close_timer_t (retransmit_timer l) (bool_decide (context = dmdhcp_teardown_context_retransmit_timer));;
  close_timer_t (lease_timer l) (bool_decide (context = dmdhcp_teardown_context_lease_timer));;
  lift (with_lease p dmdhcp_lease_table_clear_dns_servers);;
  when_some_t (dns_servers l) dmlist_destroy;;
  lift (with_lease p dmdhcp_lease_table_clear_ntp_servers);;
  when_some_t (ntp_servers l) dmlist_destroy;;
  when_some_t (hostname l) Dmod_Free;;
  when_some_t (lock l) (dmosi_mutex_destroy (lock l));;
  lift (setw (λ w, set_heap (delete p (heap w)) w)).

Definition dmdhcp_stop_cut : option ptr → prog unit :=
  dmdhcp_stop_with (λ p, destroy_with_context_t p dmdhcp_teardown_context_normal).
End ApiOps.

(** ** One thread per event *)
Section ThreadOf.
Context `{E : Env} `{D : DmList} `{P : !App}.

Definition thread_of (e : event) : prog unit :=
  match e with
  | ev_start i cbs ud options => dmdhcp_start_t i cbs ud options;; mret tt
  | ev_renew h => dmdhcp_renew_t h;; mret tt
  | ev_release h => dmdhcp_release_t h;; mret tt
  | ev_stop h => dmdhcp_stop_t h
  | ev_set_callbacks h cbs ud => dmdhcp_set_callbacks_t h cbs ud;; mret tt
  | ev_access a h => run_accessor_t a h
  | ev_ntp_servers out max_count => dmdhcp_get_ntp_servers_t out max_count;; mret tt
  | ev_provide_dns add ctx =>
      match add with
      | Some _ => dmdhcp_lease_table_visit_dns_servers_t add ctx
      | None => mret tt
      end
  | ev_provide_ntp add ctx => dmdhcp_lease_table_visit_ntp_servers_t add ctx
  | ev_datagram i payload => dmdhcp_handle_datagram_t i payload
  | ev_retransmit_timer p => retransmit_timer_callback_t (Some p)
  | ev_lease_timer p => lease_timer_callback_t (Some p)
  end.

(** The operation of an event: a timer callback here is not given the timer it
    runs on, which only the destruction of that timer looks at. *)
Definition operation (e : event) : M unit :=
  let C := app_client P in
  match e with
  | ev_retransmit_timer p => retransmit_timer_callback (Some p)
  | ev_lease_timer p => lease_timer_callback (Some p)
  | _ => run_event e
  end.
End ThreadOf.

(** ** With no other thread, the operation *)

(** Both sides in right-nested sequences *)
Ltac flatten_right :=
  lazymatch goal with
  | |- same_run _ ((_ ≫= _) ≫= _) => etransitivity; [|symmetry; apply bind_assoc]
  end.

Section Alone.
Context `{E : Env} `{D : DmList}.

Lemma alone_locked_read {A} h (bad : A) f : same_run (alone (locked_read_t h bad f)) (locked_read h bad f).
Proof. unfold locked_read_t, locked_read. same_alone. Qed.

Lemma alone_find_by_xid i x :
  same_run (alone (dmdhcp_lease_table_find_by_xid_t i x)) (dmdhcp_lease_table_find_by_xid i x).
Proof. unfold dmdhcp_lease_table_find_by_xid_t, dmdhcp_lease_table_find_by_xid. same_alone. Qed.

Lemma alone_insert p : same_run (alone (dmdhcp_lease_table_insert_t p)) (dmdhcp_lease_table_insert p).
Proof. unfold dmdhcp_lease_table_insert_t, dmdhcp_lease_table_insert. same_alone. Qed.

Lemma alone_remove p : same_run (alone (dmdhcp_lease_table_remove_t p)) (dmdhcp_lease_table_remove p).
Proof.
  unfold dmdhcp_lease_table_remove_t, dmdhcp_lease_table_remove. alone_step; [alone_step|].
  transitivity (unlink_lease p;; unlock_table); [same_alone|].
  unfold unlink_lease. by rewrite bind_assoc.
Qed.

Lemma alone_set_callbacks h cbs ud :
  same_run (alone (dmdhcp_set_callbacks_t h cbs ud)) (dmdhcp_set_callbacks h cbs ud).
Proof. unfold dmdhcp_set_callbacks_t, dmdhcp_set_callbacks. same_alone. Qed.

Lemma alone_get_iface h : same_run (alone (dmdhcp_get_iface_t h)) (dmdhcp_get_iface h).
Proof. unfold dmdhcp_get_iface_t, dmdhcp_get_iface. same_alone. Qed.

Lemma alone_ntp_servers_loop fuel i out written max :
  same_run (alone (ntp_servers_loop_t fuel i out written max)) (ntp_servers_loop fuel i out written max).
Proof.
  revert i out written. induction fuel as [|n IH]; intros; [apply alone_lift|].
  cbn [ntp_servers_loop_t ntp_servers_loop]. repeat first [apply IH | alone_step].
Qed.

Lemma alone_visit_dns_leases n i visit ctx :
  same_run (alone (visit_dns_leases_t n i visit ctx)) (visit_dns_leases n i visit ctx).
Proof.
  revert i. induction n as [|n IH]; intros; [done|].
  cbn [visit_dns_leases_t visit_dns_leases]. repeat first [apply IH | alone_step].
Qed.

Lemma alone_visit_ntp_leases n i visit ctx :
  same_run (alone (visit_ntp_leases_t n i visit ctx)) (visit_ntp_leases n i visit ctx).
Proof.
  revert i. induction n as [|n IH]; intros i; [done|].
  cbn [visit_ntp_leases_t visit_ntp_leases].
  alone_step; [alone_step|]. case_match; [|apply IH]. alone_step; [alone_step|].
  case_match; [apply IH|]. alone_step; [alone_step|].
  etransitivity; [|apply bind_assoc].
  repeat first [apply IH | alone_step].
Qed.
End Alone.

#[export] Hint Resolve alone_locked_read alone_find_by_xid alone_insert alone_remove alone_set_callbacks
  alone_get_iface alone_ntp_servers_loop alone_visit_dns_leases alone_visit_ntp_leases : threads.

Section AloneOps.
Context `{E : Env} `{D : DmList} `{P : !App}.
#[local] Instance the_client : Client := app_client P.

Lemma alone_accessor a h : same_run (alone (run_accessor_t a h)) (run_accessor a h).
Proof.
  destruct a; unfold run_accessor_t, run_accessor, dmdhcp_get_state, dmdhcp_get_user_data, dmdhcp_get_xid, dmdhcp_get_lease_info,
    dmdhcp_get_dns_server_count, dmdhcp_get_dns_server, dmdhcp_get_ntp_server_count, dmdhcp_get_ntp_server;
    try flatten_right; same_alone.
Qed.

Lemma alone_get_ntp_servers out max :
  same_run (alone (dmdhcp_get_ntp_servers_t out max)) (dmdhcp_get_ntp_servers out max).
Proof. unfold dmdhcp_get_ntp_servers_t, dmdhcp_get_ntp_servers. same_alone. Qed.

Lemma alone_invoke fn c : same_run (alone (invoke_t fn c)) (invoke fn c).
Proof. destruct fn as [f|]; [|done]. unfold invoke_t, invoke. alone_step; [alone_step|done]. Qed.

Lemma alone_visit_dns visit ctx :
  same_run (alone (dmdhcp_lease_table_visit_dns_servers_t visit ctx))
    (dmdhcp_lease_table_visit_dns_servers visit ctx).
Proof.
  unfold dmdhcp_lease_table_visit_dns_servers_t, dmdhcp_lease_table_visit_dns_servers. same_alone.
Qed.

Lemma alone_visit_ntp visit ctx :
  same_run (alone (dmdhcp_lease_table_visit_ntp_servers_t visit ctx))
    (dmdhcp_lease_table_visit_ntp_servers visit ctx).
Proof.
  unfold dmdhcp_lease_table_visit_ntp_servers_t, dmdhcp_lease_table_visit_ntp_servers. same_alone.
Qed.

Hint Resolve alone_accessor alone_get_ntp_servers alone_invoke alone_visit_dns alone_visit_ntp : threads.

Lemma alone_handle_conflict p : same_run (alone (handle_conflict_t p)) (handle_conflict p).
Proof. unfold handle_conflict_t, handle_conflict. same_alone. Qed.
Hint Resolve alone_handle_conflict : threads.

Lemma alone_run_conflict_probe p : same_run (alone (run_conflict_probe_t p)) (run_conflict_probe p).
Proof. unfold run_conflict_probe_t, run_conflict_probe. same_alone. Qed.
Hint Resolve alone_run_conflict_probe : threads.

Lemma alone_retransmit_timer_callback h :
  same_run (alone (retransmit_timer_callback_t h)) (retransmit_timer_callback h).
Proof. unfold retransmit_timer_callback_t, retransmit_timer_callback. same_alone. Qed.

Lemma alone_handle_lost p :
  same_run (alone (dmdhcp_lifecycle_handle_lost_t p)) (dmdhcp_lifecycle_handle_lost p).
Proof. unfold dmdhcp_lifecycle_handle_lost_t, dmdhcp_lifecycle_handle_lost. same_alone. Qed.
Hint Resolve alone_handle_lost : threads.

Lemma alone_lease_timer_callback h : same_run (alone (lease_timer_callback_t h)) (lease_timer_callback h).
Proof. unfold lease_timer_callback_t, lease_timer_callback. same_alone. Qed.

Lemma alone_dispatch_message p msg options t :
  same_run (alone (dispatch_message_t p msg options t)) (dispatch_message p msg options t).
Proof. unfold dispatch_message_t, dispatch_message. same_alone. Qed.
Hint Resolve alone_dispatch_message : threads.

Lemma alone_handle_datagram i payload :
  same_run (alone (dmdhcp_handle_datagram_t i payload)) (dmdhcp_handle_datagram i payload).
Proof. unfold dmdhcp_handle_datagram_t, dmdhcp_handle_datagram. same_alone. Qed.

Lemma alone_start i cbs ud options :
  same_run (alone (dmdhcp_start_t i cbs ud options)) (dmdhcp_start i cbs ud options).
Proof. unfold dmdhcp_start_t, dmdhcp_start. same_alone. Qed.

Lemma alone_renew h : same_run (alone (dmdhcp_renew_t h)) (dmdhcp_renew h).
Proof. unfold dmdhcp_renew_t, dmdhcp_renew. same_alone. Qed.

Lemma alone_release h : same_run (alone (dmdhcp_release_t h)) (dmdhcp_release h).
Proof. unfold dmdhcp_release_t, dmdhcp_release. same_alone. Qed.

Lemma alone_stop_with destroy h :
  (∀ p, same_run (alone (destroy p)) (dmdhcp_lease_table_destroy (Some p))) →
  same_run (alone (dmdhcp_stop_with destroy h)) (dmdhcp_stop h).
Proof. intros Hd. unfold dmdhcp_stop_with, dmdhcp_stop. same_alone. Qed.

Lemma alone_stop h : same_run (alone (dmdhcp_stop_t h)) (dmdhcp_stop h).
Proof. apply alone_stop_with. intros p. apply alone_lift. Qed.

Lemma wio_bind {A B} (m : st io A) (k : A → st io B) : same_run (wio (m ≫= k)) (wio m ≫= λ a, wio (k a)).
Proof. intros w. unfold wio, mbind, st_bind. by destruct (m (w_io w)) as [[a s]|]. Qed.

Lemma alone_close_timer timer self :
  same_run (alone (close_timer_t timer self))
    (when_some timer (dmosi_timer_stop timer;; if self : bool then mret tt else dmosi_timer_destroy timer)).
Proof.
  destruct timer as [t|]; [|done]. unfold close_timer_t, when_some. rewrite wio_bind.
  alone_step; [alone_step|]. destruct self; [|alone_step]. intros w. by destruct w.
Qed.

Lemma alone_when_some {A} (h : option A) m : same_run (alone (when_some_t h m)) (when_some h m).
Proof. destruct h; [apply alone_lift|done]. Qed.
Hint Resolve alone_close_timer alone_when_some : threads.

Lemma alone_destroy p context :
  same_run (alone (destroy_with_context_t p context)) (destroy_with_context p context).
Proof. unfold destroy_with_context_t, destroy_with_context. same_alone. Qed.

Lemma alone_stop_cut h : same_run (alone (dmdhcp_stop_cut h)) (dmdhcp_stop h).
Proof. apply alone_stop_with. intros p. apply alone_destroy. Qed.

Hint Resolve alone_retransmit_timer_callback alone_lease_timer_callback alone_handle_datagram alone_start
  alone_renew alone_release alone_stop : threads.

(** A thread with no other thread is the operation.  For every event of
    the module - every call of the API, datagram, timer callback and discovery
    query - running its thread alone gives, from every world, exactly the
    result, the state and the calls of the operation the other files define,
    undefined behaviour included; and so does [dmdhcp_stop] with the
    destruction of the lease cut into its statements too. *)
Theorem thread_alone :
  (∀ e, same_run (alone (thread_of e)) (operation e)) ∧
  ∀ h, same_run (alone (dmdhcp_stop_cut h)) (dmdhcp_stop h).
Proof.
  split; [|apply alone_stop_cut]. intros e.
  destruct e; cbn [thread_of operation run_event]; try (unfold dmdhcp_dmdns_provide_servers; case_match); same_alone.
Qed.
End AloneOps.
