(* ===== verification/ThreadLogic.v ===== *)
(** Reasoning about one thread among others.

    A thread holds some mutexes, builds some leases nobody else knows, and may
    be the one that ends some leases of the table.  [rely] is what the other
    threads leave it, [guar] what it leaves them, and [okay] says that a
    program, whatever the others do between its steps, is never undefined,
    keeps the invariant of the module and its guarantee, takes its mutexes in
    the order the module promises - the table's before a lease's, never two
    leases' - and gives them back in reverse. *)
From S2P Require Import Prelude Types Wire Options Platform Lease Output Lifecycle World Invariant LeaseTable TableFacts Threads.

(** The leases the threads of a pool are to end, and, of these, the ones of
    this thread *)
Class Claim := Claims { ending : gset ptr; mine : gset ptr }.

(** A thread that ends no lease *)
Class Bystander (C : Claim) : Prop := ends_none : mine = ∅.

#[export] Instance bystander lost : Bystander (Claims lost ∅).
Proof. done. Qed.

Section Logic.
Context `{E : Env} {EO : EnvOk E} `{D : DmList} {DL : DmListLaws D}.

(** The module while some threads hold the mutexes [busy] - the table's, or
    those of leases - and [off] are the leases some thread owns alone: being
    built, or taken out of the table to be ended *)
Record Shared (busy : gset handle) (off : gset ptr) (w : world) : Prop := {
  sh_inv : Inv busy off w;
  sh_off : ∀ p, p ∈ off → is_Some (heap w !! p);
  sh_held : ∀ m, m ∈ busy → g_leases_mutex w = Some m ∨
    ∃ p l, heap w !! p = Some l ∧ lock l = Some m;
  sh_running : running (w_io w) = None;
}.

(** Nobody else holds the mutex of a lease this thread owns. *)
Definition locks_own (held : list mutex_name) (own : gset ptr) (busy : gset handle) (w : world) : Prop :=
  ∀ p l m, p ∈ own → heap w !! p = Some l → lock l = Some m → m ∈ busy → lease_mutex p ∈ held.

(** The locking order of the module *)
Definition may_lock (x : mutex_name) (held : list mutex_name) : Prop :=
  match x with
  | table_mutex => held = []
  | lease_mutex _ => held = [] ∨ held = [table_mutex]
  end.

(** What becomes of the address of a lease that was ended: nothing. *)
Definition ended (p : ptr) (w : world) : Prop :=
  heap w !! p = None ∧ (p < next_id (w_io w))%positive.

(** Time goes on: addresses are not given twice, and a lease keeps its
    interface. *)
Record later (w w' : world) : Prop := {
  la_old : ∀ p l', (p < next_id (w_io w))%positive → heap w' !! p = Some l' →
    ∃ l, heap w !! p = Some l ∧ iface l' = iface l;
  la_next : (next_id (w_io w) ≤ next_id (w_io w'))%positive;
}.

#[export] Instance later_preorder : PreOrder later.
Proof.
  split; [by intros w; split; [eauto|]|]. intros w1 w2 w3 [O1 N1] [O2 N2]. split; [|lia].
  intros p l3 Hp (l2 & (l1 & ? & ?)%O1 & ?)%O2; [|lia|lia]. exists l1. split; [done|congruence].
Qed.

Lemma ended_later p w w' : later w w' → ended p w → ended p w'.
Proof.
  intros [O N] [Hp Hn]. split; [|lia]. destruct (heap w' !! p) as [l'|] eqn:Hp'; [|done].
  destruct (O p l' Hn Hp') as (l & ? & _). congruence.
Qed.

Context `{C : Claim}.

(** Nobody ends [p] while this thread holds [held]: it is not to be ended, or
    this thread is to end it, or it holds the table's mutex, under which leases
    leave the table. *)
Definition secure (held : list mutex_name) (p : ptr) : Prop :=
  p ∉ ending ∨ p ∈ mine ∨ table_mutex ∈ held.

(** A lease of the table that will not go away *)
Definition seen (held : list mutex_name) (p : ptr) (off : gset ptr) (w : world) : Prop :=
  is_Some (heap w !! p) ∧ (p ∉ off) ∧ secure held p.

Definition known (x : mutex_name) (held : list mutex_name) (own off : gset ptr) (w : world) : Prop :=
  match x with
  | table_mutex => True
  | lease_mutex p => is_Some (heap w !! p) ∧ (p ∈ own ∨ (p ∉ off) ∧ secure held p)
  end.

Record rely (held : list mutex_name) (own off : gset ptr) (w : world) (off' : gset ptr) (w' : world)
    : Prop := {
  rl_mutex : g_leases_mutex w' = g_leases_mutex w;
  rl_table : table_mutex ∈ held → g_leases w' = g_leases w;
  rl_public : ∀ p l, heap w !! p = Some l → p ∉ off → secure held p →
    (p ∉ off') ∧ ∃ l', heap w' !! p = Some l' ∧ lease_frame l l';
  rl_own : ∀ p, p ∈ own → p ∈ off' ∧ heap w' !! p = heap w !! p;
  rl_later : later w w';
}.

(** A thread takes no lease out of the table but those it is to end, the
    table's mutex alone in its hands, and leaves alone what others own. *)
Record guar (held : list mutex_name) (own off : gset ptr) (w : world) (own' : gset ptr) (w' : world)
    : Prop := {
  gr_mutex : g_leases_mutex w' = g_leases_mutex w;
  gr_table : table_mutex ∉ held → g_leases w' = g_leases w;
  gr_public : ∀ p l, heap w !! p = Some l → p ∉ off → (p ∉ mine) ∨ held ≠ [table_mutex] →
    (p ∉ own') ∧ ∃ l', heap w' !! p = Some l' ∧ lease_frame l l';
  gr_others : ∀ p, p ∈ off ∖ own → (p ∉ own') ∧ heap w' !! p = heap w !! p;
  gr_locked : ∀ p l, p ∈ own → heap w !! p = Some l → lease_mutex p ∈ held →
    p ∈ own' ∧ ∃ l', heap w' !! p = Some l' ∧ lock l' = lock l;
  gr_later : later w w';
}.

(** What the pool owns once a thread that owned [own] owns [own'] *)
Definition off_after (off own own' : gset ptr) : gset ptr := (off ∖ own) ∪ own'.

Definition post (A : Type) : Type := A → list mutex_name → gset ptr → gset ptr → world → Prop.

Fixpoint okay {A} (t : prog A) (held : list mutex_name) (own : gset ptr) (Q : post A)
    (off : gset ptr) (w : world) : Prop :=
  match t with
  | ret a => ∀ off' w', rely held own off w off' w' → Q a held own off' w'
  | act m k => ∀ busy off' w',
      rely held own off w off' w' → Shared busy off' w' → locks_own held own busy w' →
      wp m (λ b w2, ∃ own', Shared busy (off_after off' own own') w2 ∧
        guar held own off' w' own' w2 ∧ okay (k b) held own' Q (off_after off' own own') w2) w'
  | acquire x k => may_lock x held ∧ known x held own off w ∧
      ∀ off' w', rely held own off w off' w' → okay k (x :: held) own Q off' w'
  | unlock x k => ∃ held', held = x :: held' ∧
      ∀ off' w', rely held own off w off' w' → okay k held' own Q off' w'
  end.

(** ** The order on worlds *)
Lemma elem_off_after p off own own' : p ∈ off_after off own own' ↔ (p ∈ off ∧ p ∉ own) ∨ p ∈ own'.
Proof. unfold off_after. by rewrite elem_of_union, elem_of_difference. Qed.

Lemma off_after_same own off : own ⊆ off → off_after off own own = off.
Proof.
  intros Hown. apply set_eq. intros p. rewrite elem_off_after. specialize (Hown p).
  destruct (decide (p ∈ own)); tauto.
Qed.

Lemma later_same w w' :
  heap w' = heap w → (next_id (w_io w) ≤ next_id (w_io w'))%positive → later w w'.
Proof. intros Hh Hn. split; [|done]. intros p l _. rewrite Hh. by exists l. Qed.

Lemma rely_same held own off w w' :
  own ⊆ off → heap w' = heap w → g_leases w' = g_leases w → g_leases_mutex w' = g_leases_mutex w →
  (next_id (w_io w) ≤ next_id (w_io w'))%positive →
  rely held own off w off w'.
Proof.
  intros Ho Hh Ht Hm Hn. split; [done|done|..|by apply later_same]; intros p; rewrite Hh; [|by auto].
  intros l Hp ? _. split; [done|]. by exists l.
Qed.

Lemma rely_refl held own off w : own ⊆ off → rely held own off w off w.
Proof. intros. by apply rely_same. Qed.

Lemma rely_trans held own off1 w1 off2 w2 off3 w3 :
  rely held own off1 w1 off2 w2 → rely held own off2 w2 off3 w3 → rely held own off1 w1 off3 w3.
Proof.
  intros [M1 T1 P1 O1 L1] [M2 T2 P2 O2 L2]. split.
  - congruence.
  - intros Hx. by rewrite T2, T1.
  - intros p l Hp Hn Hs. destruct (P1 p l Hp Hn Hs) as (Hn2 & l2 & Hp2 & Hf2).
    destruct (P2 p l2 Hp2 Hn2 Hs) as (Hn3 & l3 & Hp3 & Hf3). split; [done|]. exists l3.
    split; [done|]. by etransitivity.
  - intros p Hp. destruct (O1 p Hp) as [? <-]. by apply O2.
  - by etransitivity.
Qed.

Lemma rely_own held own off w off' w' : rely held own off w off' w' → own ⊆ off'.
Proof. intros HR p Hp. by apply (rl_own _ _ _ _ _ _ HR). Qed.

Lemma secure_mono held held' p :
  (table_mutex ∈ held → table_mutex ∈ held') → secure held p → secure held' p.
Proof. unfold secure. tauto. Qed.

Lemma seen_mono held held' p off w :
  (table_mutex ∈ held → table_mutex ∈ held') → seen held p off w → seen held' p off w.
Proof. intros Hh (? & ? & ?). split; [done|]. split; [done|]. by eapply secure_mono. Qed.

Lemma seen_known held p own off w : seen held p off w → known (lease_mutex p) held own off w.
Proof. intros (? & ? & ?). split; [done|]. by right. Qed.

Lemma seen_rely h held own p off w off' w' :
  (table_mutex ∈ h → table_mutex ∈ held) → rely held own off w off' w' → seen h p off w → seen h p off' w'.
Proof.
  intros Hh HR ([l Hp] & Hn & Hs). destruct (rl_public _ _ _ _ _ _ HR p l Hp Hn) as (Hn' & l' & Hp' & _).
  - by eapply secure_mono.
  - split; [by exists l'|done].
Qed.

Lemma known_rely held own x off w off' w' :
  rely held own off w off' w' → known x held own off w → known x held own off' w'.
Proof.
  intros HR Hx. destruct x as [|p]; [done|]. destruct Hx as [[l Hp] [Ho|[Hn Hs]]].
  - destruct (rl_own _ _ _ _ _ _ HR p Ho) as [_ Heq]. split; [rewrite Heq; by exists l|by left].
  - destruct (rl_public _ _ _ _ _ _ HR p l Hp Hn Hs) as (Hn' & l' & Hp' & _).
    split; [by exists l'|by right].
Qed.

Lemma handle_rely held own x off w off' w' :
  rely held own off w off' w' → known x held own off w → handle_of x w' = handle_of x w.
Proof.
  intros HR Hx. destruct x as [|p]; simpl; [apply HR|]. destruct Hx as [[l Hp] [Ho|[Hn Hs]]].
  - by destruct (rl_own _ _ _ _ _ _ HR p Ho) as [_ ->].
  - destruct (rl_public _ _ _ _ _ _ HR p l Hp Hn Hs) as (_ & l' & Hp' & Hf).
    rewrite Hp, Hp'. apply Hf.
Qed.

(** ** Structural rules *)
Lemma okay_rely {A} (t : prog A) held own Q off w off' w' :
  okay t held own Q off w → rely held own off w off' w' → okay t held own Q off' w'.
Proof.
  intros Ht HR. destruct t; simpl in *.
  - intros off2 w2 HR2. apply Ht. by eapply rely_trans.
  - intros busy off2 w2 HR2. apply Ht. by eapply rely_trans.
  - destruct Ht as (Hm & Hk & Ht). split; [done|]. split; [by eapply known_rely|].
    intros off2 w2 HR2. apply Ht. by eapply rely_trans.
  - destruct Ht as (held' & -> & Ht). exists held'. split; [done|].
    intros off2 w2 HR2. apply Ht. by eapply rely_trans.
Qed.

Lemma okay_bind {A B} (t : prog A) (k : A → prog B) held own Q off w :
  okay t held own (λ a held' own' off' w', okay (k a) held' own' Q off' w') off w → own ⊆ off →
  okay (t ≫= k) held own Q off w.
Proof.
  revert held own off w.
  induction t as [a|X m k1 IH|x t IH|x t IH]; intros held own off w Ht Hown; simpl in *.
  - apply Ht. by apply rely_refl.
  - intros busy off' w' HR HS HL. eapply wp_mono; [|by apply (Ht busy)].
    intros b w2 (own' & ? & ? & Hk). exists own'. split; [done|]. split; [done|].
    apply IH; [done|]. apply union_subseteq_r.
  - destruct Ht as (? & ? & Ht). split; [done|]. split; [done|]. intros off' w' HR.
    apply IH; [by apply Ht|]. by eapply rely_own.
  - destruct Ht as (held' & -> & Ht). exists held'. split; [done|]. intros off' w' HR.
    apply IH; [by apply Ht|]. by eapply rely_own.
Qed.

Lemma okay_mono {A} (t : prog A) held own (Q Q' : post A) off w :
  okay t held own Q off w → (∀ a held' own' off' w', Q a held' own' off' w' → Q' a held' own' off' w') →
  okay t held own Q' off w.
Proof.
  intros Ht HQ. revert held own off w Ht.
  induction t as [a|X m k1 IH|x t IH|x t IH]; intros held own off w Ht; simpl in *; [by auto|..].
  - intros busy off' w' HR HS HL. eapply wp_mono; [|by apply (Ht busy)].
    intros b w2 (own' & ? & ? & Hk). exists own'. by auto.
  - destruct Ht as (? & ? & Ht). by auto.
  - destruct Ht as (held' & -> & Ht). exists held'. by auto.
Qed.

(** A statement at the end of a program *)
Lemma okay_tail {A} (t : prog A) held own Q off w :
  okay (t ≫= mret) held own Q off w → okay t held own Q off w.
Proof.
  revert held own off w.
  induction t as [a|X m k1 IH|x t IH|x t IH]; intros held own off w Ht; simpl in *; [done|..].
  - intros busy off' w' HR HS HL. eapply wp_mono; [|by apply (Ht busy)].
    intros b w2 (own' & ? & ? & Hk). exists own'. by auto.
  - destruct Ht as (? & ? & Ht). by auto.
  - destruct Ht as (held' & -> & Ht). exists held'. by auto.
Qed.

Lemma okay_ret {A} (a : A) held own (Q : post A) off w :
  (∀ off' w', rely held own off w off' w' → Q a held own off' w') → okay (mret a) held own Q off w.
Proof. done. Qed.
End Logic.

(** A lease that will not go away, whatever this thread holds *)
Abbreviation public := (seen []).

(** What a thread guarantees is what another, that ends other leases, relies
    on. *)
Lemma guar_rely `{E : Env} `{D : DmList} (lost mine_i mine_j : gset ptr) held own held_j own_j off w own' w' :
  guar (C := Claims lost mine_i) held own off w own' w' →
  mine_i ⊆ lost → (∀ p, p ∈ mine_j → p ∉ mine_i) →
  own_j ⊆ off ∖ own → (table_mutex ∈ held_j → table_mutex ∉ held) →
  rely (C := Claims lost mine_j) held_j own_j off w (off_after off own own') w'.
Proof.
  intros [Hm Ht Hp Ho _ HL] Hlost Hmine Hj Hd. split; [done|auto|..|done].
  - intros p l Hl Hn Hs. destruct (Hp p l Hl Hn) as (Hn' & Hl').
    { destruct Hs as [Hs|[Hs%Hmine|Hs%Hd]]; [left; intros ?%Hlost; by destruct Hs|by left|right; by intros ->; destruct Hs; left]. }
    split; [|done]. rewrite elem_off_after. tauto.
  - intros p Hpj. pose proof (Hj p Hpj) as Hpo. destruct (Ho p Hpo) as [_ Heq].
    split; [|done]. apply elem_off_after. left. by apply elem_of_difference in Hpo.
Qed.

(** ** Rules for the statements of an operation *)
Section Rules.
Context `{E : Env} {EO : EnvOk E} `{D : DmList} {DL : DmListLaws D} `{C : Claim}.

Lemma sh_busy busy off w m : Shared busy off w → m ∈ busy → is_Some (mutexes (w_io w) !! m).
Proof.
  intros [HI _ Hh _] [Hg|(p & l & Hp & Hl)]%Hh.
  - destruct (inv_table_mutex _ _ _ HI) as (gm & Hg' & ? & _). by simplify_eq.
  - destruct (ll_lock _ _ (inv_leases _ _ _ HI p l Hp)) as (m' & Hl' & ?). by simplify_eq.
Qed.

Lemma Shared_log busy off w cs : Shared busy off w → Shared busy off (set_w_io (log_all cs (w_io w)) w).
Proof. intros []. split; [by apply Inv_log|done..]. Qed.

Lemma Shared_step busy off w p l l' s' :
  Shared busy off w → heap w !! p = Some l → lease_step l (w_io w) l' s' → Shared busy off (put p l' s' w).
Proof.
  intros [HI Ho Hh Hr] Hp Hst. pose proof (ls_io _ _ _ _ Hst) as Hio. split.
  - by apply (Inv_step _ _ _ p l).
  - intros q Hq%Ho. by apply is_Some_put; [eauto|].
  - intros m Hm. destruct (Hh m Hm) as [?|(q & lq & Hq & Hl)]; [by left|right].
    destruct (decide (q = p)) as [->|Hne].
    + simplify_eq. exists p, l'. split; [apply heap_put|].
      by rewrite (lf_lock _ _ (ls_frame _ _ _ _ Hst)).
    + exists q, lq. simpl. by rewrite lookup_insert_ne.
  - simpl. by rewrite (if_running _ _ Hio).
Qed.

Lemma guar_same held own off w w' :
  own ⊆ off → heap w' = heap w → g_leases w' = g_leases w → g_leases_mutex w' = g_leases_mutex w →
  (next_id (w_io w) ≤ next_id (w_io w'))%positive →
  guar held own off w own w'.
Proof.
  intros Ho Hh Ht Hm Hn. split; [done|done|..|by apply later_same]; intros p; rewrite Hh.
  - intros l Hp ? _. split; [by intros ?%Ho|]. by exists l.
  - rewrite elem_of_difference. tauto.
  - intros l Hp Hl _. split; [done|]. by exists l.
Qed.

(** A step on one lease *)
Lemma put_other p l s w q : q ≠ p → heap (put p l s w) !! q = heap w !! q.
Proof. intros. simpl. by rewrite lookup_insert_ne. Qed.

Lemma later_put p l l' s' w :
  heap w !! p = Some l → lease_step l (w_io w) l' s' → later w (put p l' s' w).
Proof.
  intros Hp Hst. split; [|simpl; by rewrite (if_next_id _ _ (ls_io _ _ _ _ Hst))].
  intros q lq _ [[-> ->]|[_ Hq]]%lookup_put; [|by exists lq]. exists l. split; [done|].
  apply (ls_frame _ _ _ _ Hst).
Qed.

Lemma guar_put p l l' s' held own off w :
  own ⊆ off → heap w !! p = Some l → lease_step l (w_io w) l' s' → p ∈ own ∨ p ∉ off →
  guar held own off w own (put p l' s' w).
Proof.
  intros Hown Hp Hst Hpo. assert (Hkeep : ∀ q lq, heap w !! q = Some lq →
    ∃ lq', heap (put p l' s' w) !! q = Some lq' ∧ lease_frame lq lq').
  { intros q lq Hq. destruct (decide (q = p)) as [->|Hne].
    - simplify_eq. exists l'. split; [apply heap_put|apply Hst].
    - exists lq. by rewrite put_other. }
  split; [done|done|..|by eapply later_put].
  - intros q lq Hq Hn _. split; [by intros ?%Hown|]. by apply Hkeep.
  - intros q [Hq Hn]%elem_of_difference. split; [done|]. apply put_other. intros ->. by destruct Hpo.
  - intros q lq Hq Hlq _. split; [done|]. destruct (Hkeep q lq Hlq) as (lq' & ? & []). by exists lq'.
Qed.

Lemma rely_put p l l' s' held own off w :
  own ⊆ off → heap w !! p = Some l → lease_step l (w_io w) l' s' → p ∉ own →
  rely held own off w off (put p l' s' w).
Proof.
  intros Hown Hp Hst Hpo. split; [done|done|..|by eapply later_put].
  - intros q lq Hq Hn _. split; [done|]. destruct (decide (q = p)) as [->|Hne].
    + simplify_eq. exists l'. split; [apply heap_put|apply Hst].
    + exists lq. by rewrite put_other.
  - intros q Hq. split; [by apply Hown|]. apply put_other. by intros ->.
Qed.

(** A statement that only makes calls *)
Lemma okay_quiet {A B} (m : M A) (k : A → prog B) (R : A → gset ptr → world → Prop) held own Q off w :
  own ⊆ off →
  (∀ busy off' w', rely held own off w off' w' → Shared busy off' w' →
    ∃ a cs, m w' = Some (a, set_w_io (log_all cs (w_io w')) w') ∧ R a off' w') →
  (∀ a off' w', rely held own off w off' w' → R a off' w' → okay (k a) held own Q off' w') →
  okay (lift m ≫= k) held own Q off w.
Proof.
  intros Hown Hm Hk busy off' w' HR HS _. pose proof (rely_own _ _ _ _ _ _ HR) as Hown'.
  destruct (Hm busy off' w' HR HS) as (a & cs & Hrun & Ha).
  unfold wp. rewrite Hrun. exists own. rewrite off_after_same by done.
  split; [by apply Shared_log|]. split; [by apply guar_same|].
  eapply okay_rely; [by apply Hk|]. by apply rely_same.
Qed.

Lemma okay_read {A B} (m : M A) (k : A → prog B) (R : A → gset ptr → world → Prop) held own Q off w :
  own ⊆ off →
  (∀ busy off' w', rely held own off w off' w' → Shared busy off' w' →
    ∃ a, m w' = Some (a, w') ∧ R a off' w') →
  (∀ a off' w', rely held own off w off' w' → R a off' w' → okay (k a) held own Q off' w') →
  okay (lift m ≫= k) held own Q off w.
Proof.
  intros Hown Hm. apply okay_quiet; [done|]. intros busy off' w' HR HS.
  destruct (Hm busy off' w' HR HS) as (a & Hrun & Ha). exists a, []. split; [|done].
  rewrite Hrun, log_all_nil. by destruct w'.
Qed.

Lemma okay_load {B} p (k : lease → prog B) held own Q off w :
  own ⊆ off → seen held p off w →
  (∀ l off' w', rely held own off w off' w' → heap w' !! p = Some l → lease_live (w_io w') l →
    okay (k l) held own Q off' w') →
  okay (lift (load p) ≫= k) held own Q off w.
Proof.
  intros Hown Hp Hk. apply okay_read with (R := λ l _ w', heap w' !! p = Some l ∧ lease_live (w_io w') l).
  - done.
  - intros busy off' w' HR HS. destruct (seen_rely held _ _ _ _ _ _ _ id HR Hp) as [[l Hl] _].
    exists l. unfold load. rewrite Hl. split; [done|]. split; [done|]. by apply (inv_leases _ _ _ (sh_inv _ _ _ HS) p).
  - intros l off' w' HR [? ?]. by apply Hk.
Qed.

Lemma okay_bad_handle {B} p (k : bool → prog B) held own Q off w :
  own ⊆ off → seen held p off w →
  (∀ off' w', rely held own off w off' w' → okay (k false) held own Q off' w') →
  okay (lift (bad_handle (Some p)) ≫= k) held own Q off w.
Proof.
  intros Hown Hp Hk. apply okay_read with (R := λ b _ _, b = false).
  - done.
  - intros busy off' w' HR HS. destruct (seen_rely held _ _ _ _ _ _ _ id HR Hp) as [[l Hl] _].
    exists false. split; [|done]. rewrite <- (put_id p l w') by done. apply bad_handle_put.
    by apply (inv_leases _ _ _ (sh_inv _ _ _ HS) p).
  - intros b off' w' HR ->. by apply Hk.
Qed.

Lemma okay_ext {B} (c : call) (k : answer_of c → prog B) held own Q off w :
  own ⊆ off →
  (∀ a off' w', rely held own off w off' w' → okay (k a) held own Q off' w') →
  okay (lift (wio (ext c)) ≫= k) held own Q off w.
Proof.
  intros Hown Hk. apply okay_quiet with (R := λ _ _ _, True); [done| |by auto].
  intros busy off' w' _ _. do 2 eexists. split; [|done]. unfold wio. by rewrite ext_run.
Qed.

Lemma okay_opt {A B} (o : option A) (k : A → prog B) held own Q off w :
  own ⊆ off → is_Some o →
  (∀ a off' w', rely held own off w off' w' → o = Some a → okay (k a) held own Q off' w') →
  okay (lift (st_opt o) ≫= k) held own Q off w.
Proof.
  intros Hown [a ->] Hk. apply okay_read with (R := λ b _ _, b = a); [done| |].
  - intros busy off' w' _ _. by exists a.
  - intros b off' w' HR ->. by apply Hk.
Qed.

(** A computation on a lease of the table *)
Lemma okay_with_lease {A B} p (op : lop A) (k : A → prog B) held own Q off w :
  lop_safe op → own ⊆ off → seen held p off w →
  (∀ a off' w', rely held own off w off' w' → okay (k a) held own Q off' w') →
  okay (lift (with_lease p op) ≫= k) held own Q off w.
Proof.
  intros Hop Hown Hp Hk busy off' w' HR HS _. pose proof (rely_own _ _ _ _ _ _ HR) as Hown'.
  destruct (seen_rely held _ _ _ _ _ _ _ id HR Hp) as ([l Hl] & Hn & _).
  pose proof (inv_leases _ _ _ (sh_inv _ _ _ HS) p l Hl) as Hlive.
  destruct (Hop l (w_io w') (ll_typed _ _ Hlive) (ll_timers _ _ Hlive)) as (a & l' & s' & Hr & Hst).
  unfold wp. rewrite <- (put_id p l w') by done. erewrite with_lease_run by done. rewrite put_id by done.
  exists own. rewrite off_after_same by done. split; [by apply (Shared_step _ _ _ p l)|].
  split; [apply (guar_put p l); auto|]. apply Hk. eapply rely_trans; [exact HR|].
  apply (rely_put p l); [done|done|done|]. by intros ?%Hown'.
Qed.

(** Taking and giving back a mutex *)
Lemma okay_acq {B} x (k : unit → prog B) held own Q off w :
  may_lock x held → known x held own off w →
  (∀ off' w', rely held own off w off' w' → okay (k tt) (x :: held) own Q off' w') →
  okay (acq x ≫= k) held own Q off w.
Proof. intros ? ? Hk. split; [done|]. split; [done|exact Hk]. Qed.

Lemma okay_rel {B} x (k : unit → prog B) held own Q off w :
  (∀ off' w', rely (x :: held) own off w off' w' → okay (k tt) held own Q off' w') →
  okay (rel x ≫= k) (x :: held) own Q off w.
Proof. intros Hk. exists held. by split. Qed.

(** The table, and its leases while its mutex is held *)
Lemma okay_the_leases {B} (k : dmlist ptr → prog B) held own Q off w :
  own ⊆ off →
  (∀ t off' w', rely held own off w off' w' → g_leases w' = Some t →
    (∀ p, p ∈ dmlist_elems t → seen [table_mutex] p off' w') → okay (k t) held own Q off' w') →
  okay (lift the_leases ≫= k) held own Q off w.
Proof.
  intros Hown Hk. apply okay_read with (R := λ t off' w', g_leases w' = Some t ∧
    ∀ p, p ∈ dmlist_elems t → seen [table_mutex] p off' w').
  - done.
  - intros busy off' w' _ HS. destruct (inv_table _ _ _ (sh_inv _ _ _ HS)) as (t & Ht & _ & Hel).
    exists t. split; [by apply the_leases_run|]. split; [done|]. intros p [? ?]%Hel.
    split; [done|]. split; [done|]. right. right. by left.
  - intros t off' w' HR [? ?]. by apply Hk.
Qed.

Lemma okay_find_lease {B} f (k : option ptr → prog B) held own Q off w :
  own ⊆ off →
  (∀ r off' w', rely held own off w off' w' →
    (∃ t, g_leases w' = Some t ∧ r = List.find (f (heap w')) (dmlist_elems t) ∧
      ∀ p, p ∈ dmlist_elems t ↔ is_Some (heap w' !! p) ∧ p ∉ off') → okay (k r) held own Q off' w') →
  okay (lift (find_lease f) ≫= k) held own Q off w.
Proof.
  intros Hown Hk. apply okay_read with (R := λ r off' w', ∃ t, g_leases w' = Some t ∧
    r = List.find (f (heap w')) (dmlist_elems t) ∧
    ∀ p, p ∈ dmlist_elems t ↔ is_Some (heap w' !! p) ∧ p ∉ off'); [done| |by auto].
  intros busy off' w' _ HS. destruct (inv_table _ _ _ (sh_inv _ _ _ HS)) as (t & Ht & _ & Hel).
  eexists. split; [by eapply find_lease_run; [apply HS|]|]. by exists t.
Qed.
End Rules.
