(* ===== verification/ThreadSafety.v ===== *)
(** Every operation of the module, among other threads: the outline of each
    thread of ThreadOps.v in the sense of ThreadLogic.v. *)
From S2P Require Import Prelude Types Wire Options Platform Lease Output Lifecycle World Invariant LeaseTable TableFacts Queries Timers Input Api System Events Threads ThreadOps ThreadLogic.

Section Calls.
Context `{E : Env} {EO : EnvOk E} `{D : DmList} {DL : DmListLaws D} `{C : Claim}.

(** A program that ends holding [held] and building [own] *)
Definition leaves {A} (held : list mutex_name) (own : gset ptr) : post A := λ _ h o _ _, h = held ∧ o = own.

(** No program takes away a lease that is not to be ended. *)
Lemma okay_public {A} (t : prog A) held own (Q : post A) off w p :
  okay t held own Q off w → p ∉ mine → public p off w →
  okay t held own (λ a h o off' w', Q a h o off' w' ∧ public p off' w') off w.
Proof.
  assert (Hpub : ∀ held own off w off' w', rely held own off w off' w' → public p off w → public p off' w').
  { intros h o off1 w1 off2 w2. apply seen_rely. by intros ?%not_elem_of_nil. }
  intros Ht Hm. revert held own off w Ht.
  induction t as [a|X m k IH|x t IH|x t IH]; intros held own off w Ht Hp; simpl in *.
  - intros off' w' HR. split; [by apply Ht|exact (Hpub _ _ _ _ _ _ HR Hp)].
  - intros busy off' w' HR HS HL. eapply wp_mono; [|by apply (Ht busy)].
    intros b w2 (own' & HS' & HG & Hk). exists own'. split; [done|]. split; [done|]. apply IH; [done|].
    destruct (Hpub _ _ _ _ _ _ HR Hp) as ([l Hl] & Hn & Hsec).
    destruct (gr_public _ _ _ _ _ _ HG p l Hl Hn (or_introl Hm)) as (Hn' & l' & Hl' & _).
    split; [by exists l'|]. split; [|done]. by intros [[? _]|?]%elem_off_after.
  - destruct Ht as (? & ? & Ht). split; [done|]. split; [done|]. intros off' w' HR.
    apply IH; [by apply Ht|exact (Hpub _ _ _ _ _ _ HR Hp)].
  - destruct Ht as (held' & -> & Ht). exists held'. split; [done|]. intros off' w' HR.
    apply IH; [by apply Ht|exact (Hpub _ _ _ _ _ _ HR Hp)].
Qed.

Lemma okay_assoc {A B X} (t : prog A) (k : A → prog B) (k' : B → prog X) held own Q off w :
  okay (t ≫= λ a, k a ≫= k') held own Q off w → okay ((t ≫= k) ≫= k') held own Q off w.
Proof.
  revert held own off w. induction t as [a|Y m k1 IH|x t IH|x t IH]; intros held own off w Ht; simpl in *; [done|..].
  - intros busy off' w' HR HS HL. eapply wp_mono; [|by apply (Ht busy)].
    intros b w2 (own' & ? & ? & Hk). exists own'. split; [done|]. split; [done|]. by apply IH.
  - destruct Ht as (? & ? & Ht). split; [done|]. split; [done|]. intros. by apply IH, Ht.
  - destruct Ht as (held' & -> & Ht). exists held'. split; [done|]. intros. by apply IH, Ht.
Qed.

(** Calling another operation, about a lease of the table *)
Lemma okay_call {BY : Bystander C} {A B} (t : prog A) (k : A → prog B) held held' Q off w p :
  okay t held ∅ (leaves held' ∅) off w → public p off w →
  (∀ a off' w', public p off' w' → okay (k a) held' ∅ Q off' w') →
  okay (t ≫= k) held ∅ Q off w.
Proof.
  intros Ht Hp Hk. apply okay_bind; [|apply empty_subseteq].
  eapply okay_mono; [apply okay_public; [done| |done]; rewrite ends_none; apply not_elem_of_empty|]. intros a h o off' w' [[-> ->] Hp']. by apply Hk.
Qed.

Lemma okay_ret_bind {A B} (a : A) (k : A → prog B) held own Q off w :
  okay (k a) held own Q off w → okay (mret a ≫= k) held own Q off w.
Proof. done. Qed.

Lemma okay_leaves {A} (a : A) held own off w : okay (mret a) held own (leaves held own) off w.
Proof. by apply okay_ret. Qed.
End Calls.

(** [ok_step] runs the next statement of a program about the lease of the table
    a hypothesis [public p off w], or [seen held p off w], names. *)
Ltac ok_held :=
  let H := fresh in intros H; first [by apply not_elem_of_nil in H | solve [repeat first [by left | right]]].
Ltac ok_public HP HR :=
  lazymatch type of HP with
  | seen ?h _ _ _ =>
      lazymatch type of HR with
      | rely ?held _ _ _ _ _ =>
          apply (seen_rely h held _ _ _ _ _ _ ltac:(ok_held) HR) in HP; clear HR
      end
  end.
Ltac ok_seen HP := refine (seen_mono _ _ _ _ _ _ HP); ok_held.

Ltac ok_step :=
  lazymatch goal with
  | |- okay ((_ ≫= _) ≫= _) _ _ _ _ _ => apply okay_assoc; cbv beta
  | |- okay (mret _ ≫= _) _ _ _ _ _ => apply okay_ret_bind; cbv beta
  | HP : seen _ ?p ?off ?w |- okay (lift (with_lease ?p _) ≫= _) _ _ _ ?off ?w =>
      let HR := fresh "HR" in
      eapply okay_with_lease; [solve [eauto 10 with dhcp]|apply empty_subseteq|ok_seen HP|];
      intros ? ? ? HR; cbv beta; ok_public HP HR
  | HP : seen _ ?p ?off ?w |- okay (lift (load ?p) ≫= _) _ _ _ ?off ?w =>
      let HR := fresh "HR" in
      eapply okay_load; [apply empty_subseteq|ok_seen HP|]; intros ? ? ? HR ? ?; cbv beta; ok_public HP HR
  | HP : seen _ ?p ?off ?w |- okay (lift (bad_handle (Some ?p)) ≫= _) _ _ _ ?off ?w =>
      let HR := fresh "HR" in
      eapply okay_bad_handle; [apply empty_subseteq|ok_seen HP|]; intros ? ? HR; cbv beta iota; ok_public HP HR
  | HP : seen _ ?p ?off ?w |- okay (acq (lease_mutex ?p) ≫= _) _ _ _ ?off ?w =>
      let HR := fresh "HR" in
      apply okay_acq; [solve [simpl; auto]|apply seen_known; ok_seen HP|]; intros ? ? HR; cbv beta; ok_public HP HR
  | HP : seen _ _ ?off ?w |- okay (rel _ ≫= _) _ _ _ ?off ?w =>
      let HR := fresh "HR" in
      apply okay_rel; intros ? ? HR; cbv beta; ok_public HP HR
  | |- okay (mret _) _ _ (leaves _ _) _ _ => apply okay_leaves
  | |- okay (lift _) _ _ _ _ _ => apply okay_tail
  | |- okay (acq _) _ _ _ _ _ => apply okay_tail
  | |- okay (rel _) _ _ _ _ _ => apply okay_tail
  end.

Ltac ok_run := repeat first [ok_step | case_match | solve [eauto with threads]].

(** ** The application

    What it owes, called among other threads with no mutex held: to leave no
    mutex held. *)
Class AppOk `{E : Env} {EO : EnvOk E} `{D : DmList} (P : App) : Prop :=
  app_ok (C : Claim) (BY : Bystander C) c p off w : about c p → public p off w → okay (app c) [] ∅ (leaves [] ∅) off w.

Section Handlers.
Context `{E : Env} {EO : EnvOk E} `{D : DmList} {DL : DmListLaws D} `{P : !App} {PO : AppOk P}.
Context `{C : Claim} {BY : Bystander C}.

Lemma invoke_okay fn c p off w :
  (∀ f, about (c f) p) → public p off w → okay (invoke_t fn c) [] ∅ (leaves [] ∅) off w.
Proof.
  intros Hc Hp. destruct fn as [f|]; [|apply okay_leaves]. unfold invoke_t.
  apply okay_ext; [apply empty_subseteq|]. intros _ off' w' HR. apply (app_ok _ _ _ p); [done|].
  by ok_public Hp HR.
Qed.

Lemma handle_conflict_okay p off w :
  public p off w → okay (handle_conflict_t p) [lease_mutex p] ∅ (leaves [lease_mutex p] ∅) off w.
Proof.
  intros Hp. unfold handle_conflict_t. do 4 ok_step. case_match; [|by ok_run].
  do 3 ok_step. eapply okay_call; [by eapply invoke_okay|done|]. clear -EO DL BY. intros [] off w Hp. ok_run.
Qed.

Lemma run_conflict_probe_okay p off w :
  public p off w → okay (run_conflict_probe_t p) [lease_mutex p] ∅ (leaves [lease_mutex p] ∅) off w.
Proof.
  intros Hp. unfold run_conflict_probe_t. ok_step.
  apply okay_ext; [apply empty_subseteq|]. intros r off1 w1 HR. ok_public Hp HR.
  case_match; [by apply handle_conflict_okay|]. ok_step. case_match; [by ok_run|].
  do 6 ok_step. eapply okay_call; [by eapply invoke_okay|done|]. clear -EO DL BY. intros [] off w Hp. ok_run.
Qed.

Lemma retransmit_timer_callback_okay p off w :
  public p off w → okay (retransmit_timer_callback_t (Some p)) [] ∅ (leaves [] ∅) off w.
Proof.
  intros Hp. unfold retransmit_timer_callback_t. do 3 ok_step.
  eapply okay_call with (held' := [lease_mutex p]); [|done|intros [] ? ? ?; by ok_run].
  destruct (state l); try by ok_run; by apply run_conflict_probe_okay.
Qed.

Lemma handle_lost_okay p off w :
  public p off w → okay (dmdhcp_lifecycle_handle_lost_t p) [] ∅ (leaves [] ∅) off w.
Proof.
  intros Hp. unfold dmdhcp_lifecycle_handle_lost_t. do 5 ok_step.
  eapply okay_call; [by eapply invoke_okay|done|]. clear -EO DL BY. intros [] off w Hp. ok_run.
Qed.

Lemma lease_timer_callback_okay p off w :
  public p off w → okay (lease_timer_callback_t (Some p)) [] ∅ (leaves [] ∅) off w.
Proof.
  intros Hp. unfold lease_timer_callback_t. do 3 ok_step.
  destruct (state l); try by ok_run. ok_step. by apply handle_lost_okay.
Qed.
End Handlers.

(** ** Datagrams *)
Section Datagrams.
Context `{E : Env} {EO : EnvOk E} `{D : DmList} {DL : DmListLaws D} `{P : !App} {PO : AppOk P}.
Context `{C : Claim} {BY : Bystander C}.

Lemma okay_some {A B} (a : A) (k : A → prog B) held Q off w :
  (∀ off' w', rely held ∅ off w off' w' → okay (k a) held ∅ Q off' w') →
  okay (lift (st_opt (Some a)) ≫= k) held ∅ Q off w.
Proof. intros Hk. apply okay_opt; [apply empty_subseteq|done|]. intros b off' w' HR [= <-]. by apply Hk. Qed.

(** No lease of the interface [i] is to be ended. *)
Definition spared (i : iface_t) (w : world) : Prop :=
  ∀ p, p ∈ ending → (p < next_id (w_io w))%positive ∧ ∀ l, heap w !! p = Some l → iface l ≠ i.

Lemma spared_rely held own i off w off' w' :
  rely held own off w off' w' → spared i w → spared i w'.
Proof.
  intros HR Hs p Hp. destruct (Hs p Hp) as [Hn Hi]. pose proof (rl_later _ _ _ _ _ _ HR) as HL.
  split; [pose proof (la_next _ _ HL); lia|]. intros l' Hl'.
  destruct (la_old _ _ HL p l' Hn Hl') as (l & Hl & ->). by apply Hi.
Qed.

Lemma find_by_xid_okay {B} i x (k : option ptr → prog B) Q off w :
  spared i w →
  (∀ r off' w', (∀ p, r = Some p → public p off' w') → okay (k r) [] ∅ Q off' w') →
  okay (dmdhcp_lease_table_find_by_xid_t i x ≫= k) [] ∅ Q off w.
Proof.
  intros Hs Hk. unfold dmdhcp_lease_table_find_by_xid_t. apply okay_assoc.
  apply okay_acq; [done|done|]. intros off1 w1 HR. apply (spared_rely _ _ _ _ _ _ _ HR) in Hs. apply okay_assoc.
  apply okay_find_lease; [apply empty_subseteq|]. intros r off2 w2 HR' (t & _ & -> & Hel).
  apply (spared_rely _ _ _ _ _ _ _ HR') in Hs. apply okay_assoc, okay_rel. intros off' w' HR2. apply okay_ret_bind, Hk.
  intros p [Hp Hx]%find_some. apply list_elem_of_In, Hel in Hp as [Hl Hn].
  assert (public p off2 w2) as Hpub.
  { split; [done|]. split; [done|]. left. intros Hp. destruct (Hs p Hp) as [_ Hi].
    unfold compare_by_xid in Hx. destruct (heap w2 !! p) as [l|]; [|done]. apply (Hi l); [done|].
    apply andb_true_iff in Hx as [Hx _]. by apply Z.eqb_eq in Hx. }
  by ok_public Hpub HR2.
Qed.

Lemma dispatch_okay p msg options t off w :
  bytes_ok options → addr_v4_or_none (yiaddr msg) → public p off w →
  okay (dispatch_message_t p msg options t) [] ∅ (leaves [] ∅) off w.
Proof.
  intros Hok Hy Hp. pose proof (populate_safe msg options Hok Hy) as Hpop.
  pose proof (arm_retransmit_safe DMDHCP_PROBE_HANDOFF_MS) as Harm.
  change (arm_retransmit DMDHCP_PROBE_HANDOFF_MS) with arm_probe in Harm.
  unfold dispatch_message_t. do 2 ok_step. cbv zeta.
  do 3 (case_match; [by ok_run|]). case_match.
  { do 7 ok_step. by eapply invoke_okay. }
  case_match; [|by ok_run]. ok_step. by apply handle_lost_okay.
Qed.

Lemma datagram_okay i payload off w :
  bytes_ok payload → spared i w → okay (dmdhcp_handle_datagram_t i payload) [] ∅ (leaves [] ∅) off w.
Proof.
  intros Hok Hs. unfold dmdhcp_handle_datagram_t. pose proof (reply_of_typed payload) as Hty. unfold reply_of in Hty.
  destruct (parse_cases payload msg_uninit 0 Hok) as [(rc & Hrc & Hp)|(m & Hl & _ & _ & Hp)];
    rewrite Hp in Hty |- *; apply okay_some; intros off1 w1 HR;
    apply (spared_rely _ _ _ _ _ _ _ HR) in Hs.
  { rewrite (proj2 (Z.eqb_neq rc 0) Hrc). apply okay_leaves. }
  cbn [negb Z.eqb]. clear HR.
  do 2 (apply okay_some; intros ? ? HR; apply (spared_rely _ _ _ _ _ _ _ HR) in Hs; clear HR).
  destruct (op m =? dmdhcp_op_bootreply); [|apply okay_leaves]. cbn [negb].
  apply find_by_xid_okay; [done|]. intros [p|] off2 w2 Hpub; [|apply okay_leaves]. specialize (Hpub p eq_refl).
  assert (Hopt : bytes_ok (drop 240 payload)) by (by apply Forall_drop).
  pose proof (option_found_spec (drop 240 payload) DMDHCP_OPT_MSG_TYPE Hopt) as Hf.
  destruct (option_found (drop 240 payload) DMDHCP_OPT_MSG_TYPE) as [d|].
  - destruct Hf as (after & -> & _). apply okay_some; intros off3 w3 HR. ok_public Hpub HR.
    cbv beta iota. apply okay_some; intros off4 w4 HR. ok_public Hpub HR. cbn [negb Z.eqb orb len].
    destruct d as [|b [|b' d]]; [apply okay_leaves| |].
    + change (Z.of_nat (length [b]) =? 1) with true. cbn [negb].
      change (option_byte _) with (Some b). apply okay_some; intros off5 w5 HR. ok_public Hpub HR.
      apply dispatch_okay; [done|by apply (Hty m)|done].
    + rewrite (proj2 (Z.eqb_neq (Z.of_nat (length (b :: b' :: d))) 1)) by (simpl; lia). apply okay_leaves.
  - destruct Hf as (rc & Hrc & ->). do 2 (apply okay_some; intros ? ? _).
    rewrite (proj2 (Z.eqb_neq rc 0) Hrc). apply okay_leaves.
Qed.
End Datagrams.

(** ** Accessors and queries *)
Section Readers.
Context `{E : Env} {EO : EnvOk E} `{D : DmList} {DL : DmListLaws D} `{C : Claim}.

(** NULL, or a lease of the table *)
Definition handle_public (h : option ptr) (off : gset ptr) (w : world) : Prop :=
  from_option (λ p, public p off w) True h.

Lemma okay_null {B} (k : bool → prog B) held Q off w :
  (∀ off' w', rely held ∅ off w off' w' → okay (k true) held ∅ Q off' w') →
  okay (lift (bad_handle None) ≫= k) held ∅ Q off w.
Proof.
  intros Hk. apply okay_read with (R := λ b _ _, b = true); [apply empty_subseteq| |].
  - intros busy off' w' _ _. by exists true.
  - intros b off' w' HR ->. by apply Hk.
Qed.

Lemma locked_read_okay {A B} h bad (f : lease → A) (k : A → prog B) Q off w :
  handle_public h off w →
  (∀ a off' w', a = bad ∨ (∃ l, lease_typed l ∧ a = f l) → okay (k a) [] ∅ Q off' w') →
  okay (locked_read_t h bad f ≫= k) [] ∅ Q off w.
Proof.
  intros Hh Hk. unfold locked_read_t. destruct h as [p|]; simpl in Hh.
  - repeat ok_step. apply Hk. right. exists l. split; [|done].
    by match goal with H : lease_live _ l |- _ => apply H end.
  - apply okay_assoc, okay_null. intros off' w' _. apply okay_ret_bind, Hk. by left.
Qed.

Lemma accessor_okay a h off w :
  handle_public h off w → okay (run_accessor_t a h) [] ∅ (leaves [] ∅) off w.
Proof.
  intros Hh. destruct a; unfold run_accessor_t;
    try (apply locked_read_okay; [done|]; intros; apply okay_leaves).
  2-5: apply locked_read_okay; [done|]; intros r off1 w1 Hr; apply okay_opt; [apply empty_subseteq| |];
    [destruct Hr as [->|(l & Hty & ->)]; [done|];
     destruct (lt_dns _ Hty) as (d & Hd & _), (lt_ntp _ Hty) as (n & Hn & _);
     rewrite ?Hd, ?Hn; unfold get_server; simpl; eauto
    |intros; apply okay_leaves].
  unfold dmdhcp_get_iface_t. destruct h as [p|]; simpl in Hh.
  - by repeat ok_step.
  - apply okay_assoc, okay_null. intros. apply okay_leaves.
Qed.

Lemma set_callbacks_okay h cbs ud off w :
  handle_public h off w → okay (dmdhcp_set_callbacks_t h cbs ud) [] ∅ (leaves [] ∅) off w.
Proof.
  intros Hh. unfold dmdhcp_set_callbacks_t. destruct h as [p|]; simpl in Hh; [by ok_run|].
  apply okay_null. intros. apply okay_leaves.
Qed.

Lemma renew_okay h off w :
  handle_public h off w → okay (dmdhcp_renew_t h) [] ∅ (leaves [] ∅) off w.
Proof.
  intros Hh. unfold dmdhcp_renew_t. destruct h as [p|]; simpl in Hh.
  - do 3 ok_step. case_match; by ok_run.
  - apply okay_null. intros. apply okay_leaves.
Qed.

(** A step on the servers of a lease of the table, its mutex held *)
Lemma okay_visit {B} (m : M unit) p (k : unit → prog B) held Q off w :
  seen held p off w →
  (∀ busy off' w' l, Shared busy off' w' → heap w' !! p = Some l → lease_typed l →
    ∃ cs, m w' = Some (tt, logged cs w')) →
  (∀ off' w', rely held ∅ off w off' w' → okay (k tt) held ∅ Q off' w') →
  okay (lift m ≫= k) held ∅ Q off w.
Proof.
  intros Hp Hm Hk. apply okay_quiet with (R := λ _ _ _, True); [apply empty_subseteq| |].
  - intros busy off' w' HR HS. destruct (seen_rely held _ _ _ _ _ _ _ id HR Hp) as [[l Hl] _].
    destruct (Hm busy off' w' l HS Hl) as [cs Hrun]; [by apply (inv_leases _ _ _ (sh_inv _ _ _ HS) p)|].
    exists tt, cs. by split.
  - intros [] off' w' HR _. by apply Hk.
Qed.

Lemma visit_dns_leases_okay n i f ctx off w :
  okay (visit_dns_leases_t n i f ctx) [table_mutex] ∅ (leaves [table_mutex] ∅) off w.
Proof.
  revert i off w. induction n as [|n IH]; intros i off w; cbn [visit_dns_leases_t]; [apply okay_leaves|].
  apply okay_the_leases; [apply empty_subseteq|]. intros t off1 w1 _ _ Hel. rewrite elems_get.
  destruct (dmlist_elems t !! i) as [p|] eqn:Hi; [|apply IH].
  assert (Hp : seen [table_mutex] p off1 w1) by (by apply Hel; eapply list_elem_of_lookup_2).
  ok_step. case_match; [apply IH|]. ok_step. apply (okay_visit _ p); [ok_seen Hp|..].
  { intros busy off2 w2 l2 _ Hl2 Hty. eexists. by eapply visit_lease_dns_run. }
  intros off2 w2 HR. ok_public Hp HR. ok_step. apply IH.
Qed.

Lemma visit_lease_ntp_run w p l f ctx :
  heap w !! p = Some l → lease_typed l → ∃ cs, visit_lease_ntp_servers p f ctx w = Some (tt, logged cs w).
Proof.
  intros Hl Hty. unfold visit_lease_ntp_servers. rewrite (load_read _ l) by done.
  destruct (holds_valid_lease l); [|exists []; by rewrite logged_nil].
  destruct (lt_ntp _ Hty) as (d & -> & _). rewrite w_opt_bind, elems_size. eexists.
  by rewrite visit_ntp_loop_run by done.
Qed.

Lemma visit_ntp_leases_okay n i f ctx off w :
  okay (visit_ntp_leases_t n i f ctx) [table_mutex] ∅ (leaves [table_mutex] ∅) off w.
Proof.
  revert i off w. induction n as [|n IH]; intros i off w; cbn [visit_ntp_leases_t]; [apply okay_leaves|].
  apply okay_the_leases; [apply empty_subseteq|]. intros t off1 w1 _ _ Hel. rewrite elems_get.
  destruct (dmlist_elems t !! i) as [p|] eqn:Hi; [|apply IH].
  assert (Hp : seen [table_mutex] p off1 w1) by (by apply Hel; eapply list_elem_of_lookup_2).
  ok_step. case_match; [apply IH|]. ok_step. apply (okay_visit _ p); [ok_seen Hp|..].
  { intros busy off2 w2 l2 _ Hl2 Hty. by eapply visit_lease_ntp_run. }
  intros off2 w2 HR. ok_public Hp HR. ok_step. apply IH.
Qed.

(** A whole loop under the table mutex *)
Lemma under_table_okay (t : prog unit) off w :
  (∀ off' w', okay t [table_mutex] ∅ (leaves [table_mutex] ∅) off' w') →
  okay (t;; rel table_mutex) [table_mutex] ∅ (leaves [] ∅) off w.
Proof.
  intros Ht. apply okay_bind; [|apply empty_subseteq]. eapply okay_mono; [apply Ht|].
  intros [] h o off' w' [-> ->]. apply okay_tail, okay_rel. intros. apply okay_leaves.
Qed.

Lemma visit_dns_okay visit ctx off w :
  okay (dmdhcp_lease_table_visit_dns_servers_t visit ctx) [] ∅ (leaves [] ∅) off w.
Proof.
  unfold dmdhcp_lease_table_visit_dns_servers_t.
  apply okay_read with (R := λ _ _ _, True); [apply empty_subseteq|by intros; eexists|].
  intros m off1 w1 _ _. destruct visit as [f|]; [|apply okay_leaves]. destruct m as [m|]; [|apply okay_leaves].
  apply okay_acq; [done|done|]. intros off2 w2 _. apply okay_the_leases; [apply empty_subseteq|].
  intros t off3 w3 _ _ _. apply under_table_okay. intros. apply visit_dns_leases_okay.
Qed.

Lemma visit_ntp_okay visit ctx off w :
  okay (dmdhcp_lease_table_visit_ntp_servers_t visit ctx) [] ∅ (leaves [] ∅) off w.
Proof.
  unfold dmdhcp_lease_table_visit_ntp_servers_t. destruct visit as [f|]; [|apply okay_leaves].
  apply okay_acq; [done|done|]. intros off2 w2 _. apply okay_the_leases; [apply empty_subseteq|].
  intros t off3 w3 _ _ _. apply under_table_okay. intros. apply visit_ntp_leases_okay.
Qed.

(** The NTP snapshot: the fuel is enough because the table does not change
    while its mutex is held, and the array is long enough. *)
Lemma copy_servers_ok (l : dmlist dmroute_addr_t) out n max :
  (n ≤ max ≤ length out)%nat →
  ∃ out' n', copy_servers (dmlist_size l) 0 l out n max = Some (out', n') ∧
    (n' ≤ max)%nat ∧ length out' = length out.
Proof.
  intros Hn. rewrite <- (take_drop n out).
  pose proof (copy_servers_run l max (dmlist_size l) 0 (take n out) (drop n out)) as Hrun. cbn zeta in Hrun.
  rewrite length_take, Nat.min_l in Hrun by lia. rewrite Hrun by (rewrite ?elems_size, ?take_drop; lia).
  set (xs := take (max - n) (drop 0 (dmlist_elems l))).
  assert (length xs ≤ max - n)%nat by (unfold xs; rewrite length_take; lia).
  do 2 eexists. split; [done|]. split; [lia|].
  rewrite !length_app, !length_drop, length_take. lia.
Qed.

Lemma ntp_servers_loop_okay fuel i out n max t off w :
  g_leases w = Some t → (i ≤ dmlist_size t < fuel + i)%nat → (n ≤ max ≤ length out)%nat →
  okay (ntp_servers_loop_t fuel i out n max) [table_mutex] ∅ (leaves [table_mutex] ∅) off w.
Proof.
  revert i out n off w. induction fuel as [|fuel IH]; intros i out n off w Ht Hf Hn; [lia|].
  cbn [ntp_servers_loop_t].
  assert (Hkeep : ∀ held off1 w1 off2 w2, table_mutex ∈ held → rely held ∅ off1 w1 off2 w2 →
    g_leases w1 = Some t → g_leases w2 = Some t).
  { intros held off1 w1 off2 w2 Hh HR <-. by apply (rl_table _ _ _ _ _ _ HR). }
  apply okay_the_leases; [apply empty_subseteq|]. intros t1 off1 w1 HR Ht1 Hel.
  assert (t1 = t) as -> by (apply (Hkeep _ _ _ _ _ ltac:(by left) HR) in Ht; congruence). clear HR.
  destruct (Nat.ltb_spec i (dmlist_size t)) as [Hi|]; cbn [andb]; [|apply okay_leaves].
  destruct (n <? max)%nat; [|apply okay_leaves]. rewrite elems_get.
  destruct (dmlist_elems t !! i) as [p|] eqn:Hp; [|by apply IH; [|lia|]].
  assert (Hpub : seen [table_mutex] p off1 w1) by (by apply Hel; eapply list_elem_of_lookup_2). clear Hel.
  apply okay_load; [apply empty_subseteq|done|]. intros l off2 w2 HR _ Hlive.
  apply (Hkeep _ _ _ _ _ ltac:(by left) HR) in Ht1. ok_public Hpub HR.
  case_match; [by apply IH; [|lia|]|].
  apply okay_acq; [simpl; auto|by apply seen_known|]. intros off3 w3 HR.
  apply (Hkeep _ _ _ _ _ ltac:(by left) HR) in Ht1. ok_public Hpub HR.
  apply okay_load; [apply empty_subseteq|ok_seen Hpub|]. clear l Hlive H. intros l off4 w4 HR _ Hlive.
  apply (Hkeep _ _ _ _ _ ltac:(by right; left) HR) in Ht1. ok_public Hpub HR.
  assert (Hrest : ∀ out' n' off5 w5, g_leases w5 = Some t → (n' ≤ max ≤ length out')%nat →
    okay (rel (lease_mutex p);; ntp_servers_loop_t fuel (S i) out' n' max)
      [lease_mutex p; table_mutex] ∅ (leaves [table_mutex] ∅) off5 w5).
  { intros out' n' off5 w5 Ht5 Hn'. apply okay_rel. intros off6 w6 HR.
    apply IH; [|lia|done]. by apply (Hkeep _ _ _ _ _ ltac:(by right; left) HR). }
  destruct (holds_valid_lease l); [|by apply okay_ret_bind, Hrest].
  destruct (lt_ntp _ (ll_typed _ _ Hlive)) as (d & -> & _). apply okay_assoc, okay_some. intros off5 w5 HR.
  apply (Hkeep _ _ _ _ _ ltac:(by right; left) HR) in Ht1. ok_public Hpub HR.
  destruct (copy_servers_ok d out n max Hn) as (out' & n' & -> & Hn' & Hlen).
  apply okay_some. intros off6 w6 HR. apply Hrest; [|simpl; lia].
  by apply (Hkeep _ _ _ _ _ ltac:(by right; left) HR).
Qed.

Lemma get_ntp_servers_okay out max off w :
  from_option (λ a, max ≤ length a)%nat True out →
  okay (dmdhcp_get_ntp_servers_t out max) [] ∅ (leaves [] ∅) off w.
Proof.
  intros Hout. unfold dmdhcp_get_ntp_servers_t. destruct out as [a|]; simpl in Hout; [|apply okay_leaves].
  case_match; [apply okay_leaves|]. apply okay_acq; [done|done|]. intros off1 w1 _.
  apply okay_the_leases; [apply empty_subseteq|]. intros t off2 w2 _ Ht _.
  apply okay_bind; [|apply empty_subseteq].
  eapply okay_mono; [apply (ntp_servers_loop_okay _ _ _ _ _ t); [done|lia|lia]|].
  intros r h o off3 w3 [-> ->]. apply okay_rel. intros. apply okay_leaves.
Qed.
End Readers.
