(* ===== verification/ThreadStart.v ===== *)
(** [dmdhcp_start] among other threads: building a lease nobody knows, putting
    it in the table or giving it back, and starting it. *)
From S2P Require Import Prelude Types Wire Options Platform Lease Output Lifecycle World Invariant LeaseTable TableFacts Queries Timers Input Api System Events Threads ThreadOps ThreadLogic ThreadSafety.

Section Start.
Context `{E : Env} {EO : EnvOk E} `{D : DmList} {DL : DmListLaws D} `{C : Claim}.

(** A statement on the lease the thread builds *)
Lemma okay_private {A B} p l (m : M A) (k : A → prog B) (R : A → lease → Prop) held Q off w :
  heap w !! p = Some l → p ∈ off →
  (∀ w', heap w' !! p = Some l → lease_live (w_io w') l → ∃ a l' s',
    m w' = Some (a, put p l' s' w') ∧ lease_step l (w_io w') l' s' ∧ R a l') →
  (∀ a l' off' w', heap w' !! p = Some l' → p ∈ off' → R a l' → okay (k a) held {[p]} Q off' w') →
  okay (lift m ≫= k) held {[p]} Q off w.
Proof.
  intros Hp Hoff Hm Hk busy off' w' HR HS _.
  destruct (rl_own _ _ _ _ _ _ HR p) as [Hoff' Hp']; [by apply elem_of_singleton|]. rewrite Hp in Hp'.
  destruct (Hm w' Hp') as (a & l' & s' & Hrun & Hst & HRa); [by apply (inv_leases _ _ _ (sh_inv _ _ _ HS) p)|].
  assert (Hown : ({[p]} : gset ptr) ⊆ off') by (by apply singleton_subseteq_l).
  unfold wp. rewrite Hrun. exists {[p]}. rewrite off_after_same by done.
  split; [by apply (Shared_step _ _ _ p l)|]. split; [|by apply (Hk a l'); [apply heap_put|..]].
  apply (guar_put p l); [done|done|done|]. left. by apply elem_of_singleton.
Qed.

Lemma private_setl p l f w :
  lease_typed l → (∀ l, lease_typed l → lease_typed (f l) ∧ same_owned l (f l)) →
  heap w !! p = Some l →
  with_lease p (setl f) w = Some (tt, put p (f l) (w_io w) w) ∧
  lease_step l (w_io w) (f l) (w_io w).
Proof.
  intros Hty Hf Hp. destruct (Hf l Hty) as [Hty' Hs]. split.
  - rewrite <- (put_id p l w) at 1 by done. erewrite with_lease_run by reflexivity. done.
  - split; [done|apply Hs|done|]. by rewrite (lease_blocks_same _ _ Hs).
Qed.

(** [lease->hostname = Dmod_StrDup(...)] on a lease without a hostname *)
Lemma store_hostname_run p l h w :
  bytes_ok h → heap w !! p = Some l → lease_typed l → hostname l = None →
  ∃ l' s', store_hostname p h w = Some (tt, put p l' s' w) ∧ lease_step l (w_io w) l' s'.
Proof.
  intros Hh Hp Hty Hn. pose proof (configured_step None (user_data l) (Some h) l (w_io w) Hty Hn Hh) as Hst.
  do 2 eexists. split; [|exact Hst]. rewrite <- (put_id p l w) at 1 by done.
  assert (Hud : set_user_data (user_data l) l = l) by by destruct l.
  unfold store_hostname, copied_hostname, copy_hostname, configured, Dmod_StrDup. cbn [from_option]. rewrite Hud.
  destruct (answer (trace (w_io w)) (c_strdup h) : bool) eqn:Ha.
  - erewrite wio_put; [by erewrite with_lease_run by reflexivity|].
    unfold mbind, st_bind. rewrite ext_run, Ha. reflexivity.
  - erewrite wio_put; [by erewrite with_lease_run by reflexivity|].
    unfold mbind, st_bind. rewrite ext_run, Ha. reflexivity.
Qed.

(** The leases to be ended are older than any lease still to be built. *)
Definition ending_old (w : world) : Prop := ∀ p, p ∈ ending → (p < next_id (w_io w))%positive.

(** The lease built so far: in the heap, and not in the table *)
Lemma create_okay {B} i (k : option ptr → prog B) Q off w :
  ending_old w →
  (∀ off' w', okay (k None) [] ∅ Q off' w') →
  (∀ p l off' w', p ∉ ending → heap w' !! p = Some l → p ∈ off' → hostname l = None →
    okay (k (Some p)) [] {[p]} Q off' w') →
  okay (lift (dmdhcp_lease_table_create i) ≫= k) [] ∅ Q off w.
Proof.
  intros Hold Hnone Hsome busy off' w' HR HS _.
  destruct (create_anywhere busy off' i w' (sh_inv _ _ _ HS) (λ m, sh_busy _ _ _ m HS)) as (r & w2 & Hrun & Hr & _).
  unfold wp. rewrite Hrun. destruct r as [p|].
  - destruct Hr as (m & d & n & rt & lt & s & Hp & Hfresh & -> & HI & Hrn & _). set (l := created i _) in *.
    exists {[p]}. unfold off_after. rewrite difference_empty_L, (union_comm_L off').
    assert (Hne : ∀ q, is_Some (heap w' !! q) → q ≠ p) by (intros q [lq Hq] ->; congruence).
    split; [|split; [split|]]; try done.
    + split; [done| | |by simpl; rewrite Hrn, (sh_running _ _ _ HS)].
      * intros q [->%elem_of_singleton|Hq%(sh_off _ _ _ HS)]%elem_of_union; [by rewrite heap_put|].
        rewrite put_other by auto. done.
      * intros m' [?|(q & lq & Hq & Hl)]%(sh_held _ _ _ HS); [by left|right]. exists q, lq.
        by rewrite put_other by eauto.
    + intros q lq Hq Hn _. split; [apply not_elem_of_singleton; eauto|]. exists lq. by rewrite put_other by eauto.
    + intros q [Hq%(sh_off _ _ _ HS) _]%elem_of_difference. split; [by apply not_elem_of_singleton; auto|].
      apply put_other. auto.
    + split; [|simpl; lia]. intros q lq Hq [[-> _]|[_ Hlq]]%lookup_put; [lia|by exists lq].
    + apply (Hsome p l); [|apply heap_put|apply elem_of_union_l, elem_of_singleton; done|done].
      intros Hend%Hold. pose proof (la_next _ _ (rl_later _ _ _ _ _ _ HR)). lia.
  - destruct Hr as (s & -> & Hs). exists ∅. rewrite off_after_same by apply empty_subseteq.
    split; [|split; [apply guar_same; [apply empty_subseteq|done..|apply (sr_next _ _ Hs)]|apply Hnone]].
    destruct HS as [HI Ho Hh Hrn]. split; [by apply Inv_resources|done|done|].
    simpl. by rewrite (sr_running _ _ Hs).
Qed.

(** Giving back a lease nobody knows *)
Lemma destroy_okay {B} p (k : unit → prog B) Q off w :
  p ∈ off → (∀ off' w', ended p w' → okay (k tt) [] ∅ Q off' w') →
  okay (lift (dmdhcp_lease_table_destroy (Some p)) ≫= k) [] {[p]} Q off w.
Proof.
  intros Hoff Hk busy off' w' HR HS HL.
  destruct (rl_own _ _ _ _ _ _ HR p) as [Hoff' _]; [by apply elem_of_singleton|].
  destruct (sh_off _ _ _ HS p Hoff') as [l Hl]. pose proof HS as [HI Ho Hh Hrn].
  assert (Hfree : ∀ m, m ∈ busy → lock l ≠ Some m).
  { intros m Hm Hlm. destruct (not_elem_of_nil (lease_mutex p)).
    apply (HL p l m); [by apply elem_of_singleton|done..]. }
  assert (Hcl : closable l (w_io w')).
  { apply (closable_live busy off' w' p); [done|done| |by intros t _; rewrite Hrn].
    intros (m & Hm & Hin%elem_of_elements)%list_elem_of_fmap. by apply (Hfree m). }
  unfold wp, dmdhcp_lease_table_destroy, dmdhcp_lease_table_destroy_with_context.
  rewrite <- (put_id p l w') by done. rewrite destroy_run by done. rewrite put_id by done.
  assert (Hdel : ∀ q, q ≠ p → heap (gone p (freed l (w_io w')) w') !! q = heap w' !! q)
    by (intros q Hq; simpl; by rewrite lookup_delete_ne).
  destruct (freed_io l (w_io w')) as (_ & _ & _ & _ & Hnext & Hrun).
  assert (Hlater : later w' (gone p (freed l (w_io w')) w')).
  { split; [|simpl; by rewrite Hnext]. intros q lq _. simpl. intros [_ Hq]%lookup_delete_Some. by exists lq. }
  exists ∅. unfold off_after. rewrite union_empty_r_L.
  split; [|split; [|apply Hk; split; [apply lookup_delete_eq|]]].
  - split; [by apply Inv_destroyed|..].
    + intros q [Hq Hne%not_elem_of_singleton]%elem_of_difference. rewrite Hdel by done. by apply Ho.
    + intros m Hm. destruct (Hh m Hm) as [?|(q & lq & Hq & Hlq)]; [by left|right].
      exists q, lq. rewrite Hdel; [done|]. intros ->. simplify_eq. by apply (Hfree m).
    + simpl. by rewrite Hrun.
  - split; try done.
    + intros q lq Hq Hn _. split; [apply not_elem_of_empty|]. exists lq. by rewrite Hdel by by intros ->.
    + intros q [Hq Hne%not_elem_of_singleton]%elem_of_difference. split; [apply not_elem_of_empty|]. by apply Hdel.
    + by intros q lq _ _ ?%elem_of_nil.
  - simpl. rewrite Hnext. apply (proj1 (inv_fresh _ _ _ HI)). by exists l.
Qed.

(** Putting it in the table: the search and the push are one critical section,
    so no other thread can add a lease of the same interface between them. *)
Definition inserted (p : ptr) : post Z := λ rc h o off w,
  h = [] ∧ if rc =? 0 then o = ∅ ∧ public p off w else o = {[p]} ∧ p ∈ off.

Lemma push_okay {B} p l t off0 w0 (k : Z → prog B) Q off w :
  heap w !! p = Some l → p ∈ off → p ∉ ending → g_leases w = Some t →
  rely [table_mutex] {[p]} off0 w0 off w →
  (∀ q, q ∈ dmlist_elems t ↔ is_Some (heap w0 !! q) ∧ q ∉ off0) →
  (∀ q lq, q ∈ dmlist_elems t → heap w0 !! q = Some lq → iface lq ≠ iface l) →
  (∀ off' w', public p off' w' → okay (k 0) [table_mutex] ∅ Q off' w') →
  (∀ off' w', p ∈ off' → okay (k (- ENOMEM)) [table_mutex] {[p]} Q off' w') →
  okay (lift (push_lease p) ≫= k) [table_mutex] {[p]} Q off w.
Proof.
  intros Hp Hoff Hend Ht HR0 Hel Hfree Hok Hno busy off' w' HR HS _.
  destruct (rl_own _ _ _ _ _ _ HR p) as [Hoff' Hp']; [by apply elem_of_singleton|]. rewrite Hp in Hp'.
  pose proof (rl_table _ _ _ _ _ _ HR ltac:(by left)) as Ht'. rewrite Ht in Ht'.
  pose proof (rely_trans _ _ _ _ _ _ _ _ HR0 HR) as HR1.
  unfold wp, push_lease. rewrite (w_bind _ _ _ _ _ (the_leases_run t w' Ht')).
  unfold dmlist_try_push, mbind, st_bind, wio. rewrite ext_run. unfold mret, st_ret, setw.
  set (w1 := set_w_io (log_all [c_list_push] (w_io w')) w').
  assert (HS1 : Shared busy off' w1) by (by apply Shared_log).
  destruct (answer (trace (w_io w')) c_list_push).
  - exists ∅. unfold off_after. rewrite union_empty_r_L. pose proof HS1 as [HI Ho Hh Hrn].
    assert (HI2 : Inv busy (off' ∖ {[p]}) (set_g_leases (Some (dmlist_push_back t p)) w1)).
    { apply (Inv_publish _ _ _ _ _ l); [done|done|done|done|]. intros q lq Hq Hn Hif.
      destruct (inv_table _ _ _ HI) as (t' & Ht1 & _ & Hel'). change (g_leases w1) with (g_leases w') in Ht1.
      simplify_eq. assert (Hin : q ∈ dmlist_elems t) by (apply Hel'; split; [by exists lq|done]).
      pose proof (proj1 (Hel q) Hin) as [[lq0 Hq0] Hn0].
      destruct (rl_public _ _ _ _ _ _ HR1 q lq0 Hq0 Hn0) as (_ & lq' & Hq' & Hf); [by right; right; left|].
      change (heap w1) with (heap w') in Hq. simplify_eq. apply (Hfree q lq0 Hin Hq0).
      by rewrite <- (lf_iface _ _ Hf). }
    split; [|split; [|apply Hok]]; split; try done.
    + intros q [Hq _]%elem_of_difference. by apply Ho.
    + by intros Hx; destruct Hx; left.
    + intros q lq Hq Hn _. split; [apply not_elem_of_empty|]. by exists lq.
    + by intros q lq _ _ [? | ?%elem_of_nil]%elem_of_cons.
    + by apply later_same.
    + split; [|by left]. rewrite elem_of_difference, elem_of_singleton. tauto.
  - exists {[p]}. rewrite off_after_same by by apply singleton_subseteq_l.
    split; [done|]. split; [by apply guar_same; [apply singleton_subseteq_l|..]|by apply Hno].
Qed.

Lemma insert_okay p off w :
  is_Some (heap w !! p) → p ∈ off → p ∉ ending →
  okay (dmdhcp_lease_table_insert_t p) [] {[p]} (inserted p) off w.
Proof.
  intros Hl Hoff Hend. unfold dmdhcp_lease_table_insert_t. apply okay_acq; [done|done|]. intros off1 w1 HR1.
  destruct (rl_own _ _ _ _ _ _ HR1 p) as [Hoff1 Hp1]; [by apply elem_of_singleton|].
  destruct Hl as [l Hl]. rewrite Hl in Hp1. clear HR1 Hoff Hl w off.
  assert (Hown : ∀ off, p ∈ off → ({[p]} : gset ptr) ⊆ off) by (by intros; apply singleton_subseteq_l).
  assert (Hret : ∀ rc o off w, (if rc =? 0 then o = ∅ ∧ public p off w else o = {[p]} ∧ p ∈ off) →
    okay (rel table_mutex;; mret rc : prog Z) [table_mutex] o (inserted p) off w).
  { intros rc o off w Ho. apply okay_rel. intros off2 w2 HR2 off3 w3 HR3. split; [done|].
    destruct (rc =? 0); destruct Ho as [-> Ho]; (split; [done|]).
    - ok_public Ho HR2. by ok_public Ho HR3.
    - by apply (rl_own _ _ _ _ _ _ HR3), elem_of_singleton. }
  apply okay_read with (R := λ a off' w', a = l ∧ heap w' !! p = Some l ∧ p ∈ off').
  { by apply Hown. }
  { intros busy off2 w2 HR2 _. destruct (rl_own _ _ _ _ _ _ HR2 p) as [Ho Hp]; [by apply elem_of_singleton|].
    exists l. unfold load. by rewrite Hp, Hp1. }
  intros ? off2 w2 _ (-> & Hp2 & Hoff2).
  apply okay_find_lease; [by apply Hown|]. intros r off3 w3 HR3 (t & Ht & -> & Hel).
  destruct (rl_own _ _ _ _ _ _ HR3 p) as [Hoff3 Hp3]; [by apply elem_of_singleton|]. rewrite Hp2 in Hp3.
  destruct (List.find _ _) eqn:Hf; [by apply okay_ret_bind, Hret|].
  apply (push_okay p l t off3 w3); try done.
  - by apply rely_refl, Hown.
  - intros q lq Hq Hlq Hif. apply list_elem_of_In in Hq. pose proof (find_none _ _ Hf q Hq) as Hc.
    unfold compare_by_iface in Hc. rewrite Hlq in Hc. by apply Z.eqb_neq in Hc.
  - intros. by apply Hret.
  - intros. by apply Hret.
Qed.

(** An assignment to a member of the lease being built *)
Lemma private_setl_okay {B} p l f (k : unit → prog B) Q off w :
  (∀ l, lease_typed l → lease_typed (f l) ∧ same_owned l (f l)) →
  heap w !! p = Some l → p ∈ off → hostname l = None →
  (∀ l' off' w', heap w' !! p = Some l' → p ∈ off' → hostname l' = None → okay (k tt) [] {[p]} Q off' w') →
  okay (lift (with_lease p (setl f)) ≫= k) [] {[p]} Q off w.
Proof.
  intros Hf Hp Hoff Hn Hk. apply (okay_private p l) with (R := λ _ l', hostname l' = None); [done|done|..].
  - intros w' Hp' Hlive. destruct (private_setl p l f w') as [Hrun Hst]; [apply Hlive|done|done|].
    exists tt, (f l), (w_io w'). split; [done|]. split; [done|].
    by destruct (Hf l (ll_typed _ _ Hlive)) as (_ & _ & _ & _ & ->).
  - intros [] l' off' w' Hp' Hoff' Hn'. by apply (Hk l').
Qed.

(** The end of [dmdhcp_start]: the lease is started, or given back. *)
Definition start_tail_t (p : ptr) (req : option dmroute_addr_t) (rc : Z) : prog (option ptr) :=
  if negb (rc =? 0) then
    lift (dmdhcp_lease_table_destroy (Some p));;
    mret None
  else
    acq (lease_mutex p);;
    match req with
    | Some a =>
        lift (with_lease p (setl (set_offered_ip a)));;
        lift (with_lease p dmdhcp_output_start_reboot)
    | None => lift (with_lease p dmdhcp_output_start_discovery)
    end;;
    rel (lease_mutex p);;
    mret (Some p).

Lemma start_tail_okay p req off w :
  addr_arg_ok req → is_Some (heap w !! p) → p ∈ off → p ∉ ending →
  okay (rc ← dmdhcp_lease_table_insert_t p; start_tail_t p req rc) [] {[p]} (leaves [] ∅) off w.
Proof.
  intros Hreq Hl Hoff Hend. apply okay_bind; [|by apply singleton_subseteq_l].
  eapply okay_mono; [by apply insert_okay|]. intros rc h o off1 w1 [-> Ho]. unfold start_tail_t.
  destruct (rc =? 0); destruct Ho as [-> Hp]; cbn [negb].
  - ok_step. destruct req as [a|].
    + pose proof (set_offered_ip_safe a Hreq). ok_run.
    + ok_run.
  - apply destroy_okay; [done|]. intros. apply okay_leaves.
Qed.

Lemma start_okay i cbs ud options off w :
  from_option bytes_ok True (start_hostname options) → addr_arg_ok (start_requested_ip options) →
  ending_old w → okay (dmdhcp_start_t i cbs ud options) [] ∅ (leaves [] ∅) off w.
Proof.
  intros Hhn Hreq Hold. unfold dmdhcp_start_t. case_match; [apply okay_leaves|].
  apply create_okay; [done|intros; apply okay_leaves|]. clear Hold off w. intros p l off w Hend Hp Hoff Hn.
  assert (Htail : ∀ off w, is_Some (heap w !! p) → p ∈ off →
    okay (rc ← dmdhcp_lease_table_insert_t p; start_tail_t p (start_requested_ip options) rc)
      [] {[p]} (leaves [] ∅) off w) by (intros; by apply start_tail_okay).
  assert (Hud : ∀ l off w, heap w !! p = Some l → p ∈ off → hostname l = None →
    okay (lift (with_lease p (setl (set_user_data ud)));;
      match start_hostname options with
      | Some h => lift (store_hostname p h)
      | None => mret tt
      end;;
      rc ← dmdhcp_lease_table_insert_t p; start_tail_t p (start_requested_ip options) rc)
      [] {[p]} (leaves [] ∅) off w).
  { clear l off w Hp Hoff Hn. intros l off w Hp Hoff Hn.
    apply (private_setl_okay p l); [|done|done|done|]; [by intros ? []; split; split|].
    clear l off w Hp Hoff Hn. intros l off w Hp Hoff Hn.
    destruct (start_hostname options) as [h|]; [|by apply okay_ret_bind, Htail; eauto].
    apply (okay_private p l) with (R := λ _ _, True); [done|done|..].
    - intros w' Hp' Hlive. destruct (store_hostname_run p l h w' Hhn Hp' (ll_typed _ _ Hlive) Hn)
        as (l' & s' & Hrun & Hst). by exists tt, l', s'.
    - intros [] l' off' w' Hp' Hoff' _. apply Htail; eauto. }
  destruct cbs as [c|]; [|by apply okay_ret_bind, (Hud l)].
  apply (private_setl_okay p l); [|done|done|done|apply Hud]. by intros ? []; split; split.
Qed.
End Start.
