(* ===== verification/ThreadEnd.v ===== *)
(** [dmdhcp_release] and [dmdhcp_stop] among other threads: taking a lease out
    of the table makes it the thread's own, as one being built; then nobody
    else can be about to lock it, and it is given back. *)
From S2P Require Import Prelude Types Wire Options Platform Lease Output Lifecycle World Invariant LeaseTable TableFacts Queries Timers Input Api System Events Threads ThreadOps ThreadLogic ThreadSafety ThreadStart.

Section End_.
Context `{E : Env} {EO : EnvOk E} `{D : DmList} {DL : DmListLaws D} `{C : Claim}.

(** A thread that has ended the leases it was to end *)
Definition ends_mine {A} : post A := λ _ h o _ w, h = [] ∧ o = ∅ ∧ ∀ p, p ∈ mine → ended p w.

(** ** A lease out of the table *)
Definition owned (p : ptr) (off : gset ptr) (w : world) : Prop := is_Some (heap w !! p) ∧ p ∈ off.

Lemma owned_rely held p off w off' w' : rely held {[p]} off w off' w' → owned p off w → owned p off' w'.
Proof.
  intros HR [[l Hp] _]. destruct (rl_own _ _ _ _ _ _ HR p) as [? Heq]; [by apply elem_of_singleton|].
  split; [|done]. rewrite Heq. by exists l.
Qed.

Lemma owned_subseteq p off w : owned p off w → ({[p]} : gset ptr) ⊆ off.
Proof. intros [_ ?]. by apply singleton_subseteq_l. Qed.

Lemma owned_known p held off w : owned p off w → known (lease_mutex p) held {[p]} off w.
Proof. intros [? _]. split; [done|left]. by apply elem_of_singleton. Qed.

Lemma own_acq {B} p (k : unit → prog B) Q off w :
  owned p off w → (∀ off' w', owned p off' w' → okay (k tt) [lease_mutex p] {[p]} Q off' w') →
  okay (acq (lease_mutex p) ≫= k) [] {[p]} Q off w.
Proof.
  intros Hp Hk. apply okay_acq; [by left|by apply owned_known|]. intros off' w' HR.
  apply Hk. by eapply owned_rely.
Qed.

Lemma own_rel {B} x held p (k : unit → prog B) Q off w :
  owned p off w → (∀ off' w', owned p off' w' → okay (k tt) held {[p]} Q off' w') →
  okay (rel x ≫= k) (x :: held) {[p]} Q off w.
Proof. intros Hp Hk. apply okay_rel. intros off' w' HR. apply Hk. by eapply owned_rely. Qed.

Lemma own_load {B} p (k : lease → prog B) held Q off w :
  owned p off w → (∀ l off' w', owned p off' w' → okay (k l) held {[p]} Q off' w') →
  okay (lift (load p) ≫= k) held {[p]} Q off w.
Proof.
  intros Hp Hk. apply okay_read with (R := λ _ off' w', owned p off' w'); [by eapply owned_subseteq| |].
  - intros busy off' w' HR _. destruct (owned_rely _ _ _ _ _ _ HR Hp) as [[l Hl] Ho].
    exists l. unfold load. rewrite Hl. split; [done|]. split; [by exists l|done].
  - intros l off' w' _ ?. by apply Hk.
Qed.

Lemma own_with_lease {A B} p (op : lop A) (k : A → prog B) held Q off w :
  lop_safe op → owned p off w →
  (∀ a off' w', owned p off' w' → okay (k a) held {[p]} Q off' w') →
  okay (lift (with_lease p op) ≫= k) held {[p]} Q off w.
Proof.
  intros Hop [[l Hp] Hoff] Hk. apply (okay_private p l) with (R := λ _ _, True); [done|done|..].
  - intros w' Hp' Hlive.
    destruct (Hop l (w_io w') (ll_typed _ _ Hlive) (ll_timers _ _ Hlive)) as (a & l' & s' & Hr & Hst).
    exists a, l', s'. split; [|done]. rewrite <- (put_id p l w') at 1 by done. by apply with_lease_run.
  - intros a l' off' w' Hp' Hoff' _. apply Hk. split; [by exists l'|done].
Qed.

(** ** Taking a lease out of the table *)
Lemma unlink_okay {B} p (k : unit → prog B) Q off w :
  p ∈ mine → public p off w →
  (∀ off' w', owned p off' w' → okay (k tt) [table_mutex] {[p]} Q off' w') →
  okay (lift (unlink_lease p) ≫= k) [table_mutex] ∅ Q off w.
Proof.
  intros Hm Hp Hk busy off' w' HR HS _. ok_public Hp HR. destruct Hp as ([l Hl] & Hn & _).
  pose proof HS as [HI Ho Hh Hrn]. destruct (inv_table _ _ _ HI) as (t & Ht & _).
  unfold wp, unlink_lease. rewrite (w_bind _ _ _ _ _ (the_leases_run t w' Ht)). unfold setw.
  exists {[p]}. unfold off_after. rewrite difference_empty_L, (union_comm_L off').
  split; [|split; [|apply Hk]]; split; try done.
  - by apply Inv_unlink.
  - intros q [->%elem_of_singleton|Hq]%elem_of_union; [by exists l|by apply Ho].
  - by intros Hx; destruct Hx; left.
  - intros q lq Hq Hnq [Hmq|]; [|done]. split; [|by exists lq]. by intros ->%elem_of_singleton.
  - intros q [Hq _]%elem_of_difference. split; [|done]. by intros ->%elem_of_singleton.
  - by apply later_same.
  - by apply elem_of_union_l, elem_of_singleton.
Qed.

Lemma remove_okay {B} p (k : unit → prog B) Q off w :
  p ∈ mine → public p off w → (∀ off' w', owned p off' w' → okay (k tt) [] {[p]} Q off' w') →
  okay (dmdhcp_lease_table_remove_t p ≫= k) [] ∅ Q off w.
Proof.
  intros Hm Hp Hk. unfold dmdhcp_lease_table_remove_t. apply okay_assoc, okay_acq; [done|done|].
  intros off1 w1 HR. ok_public Hp HR. apply okay_assoc, unlink_okay; [done|done|].
  intros off2 w2 Ho. by apply own_rel.
Qed.
End End_.

(** [own_step] runs the next statement of a program about the lease the thread
    owns. *)
Ltac own_step :=
  lazymatch goal with
  | |- okay ((_ ≫= _) ≫= _) _ _ _ _ _ => apply okay_assoc; cbv beta
  | |- okay (mret _ ≫= _) _ _ _ _ _ => apply okay_ret_bind; cbv beta
  | H : owned ?p ?off ?w |- okay (_ ≫= _) _ {[?p]} _ ?off ?w =>
      first
        [ apply own_acq; [exact H|]; clear H; intros ? ? H
        | apply own_rel; [exact H|]; clear H; intros ? ? H
        | apply own_load; [exact H|]; clear H; intros ? ? ? H
        | apply own_with_lease; [solve [eauto with dhcp]|exact H|]; clear H; intros ? ? ? H ]; cbv beta
  end.

(** ** The two calls *)
Section Calls.
Context `{E : Env} {EO : EnvOk E} `{D : DmList} {DL : DmListLaws D} `{C : Claim}.

(** The last statement *)
Lemma destroy_ends {A} p (k : unit → prog A) a off w :
  mine = {[p]} → owned p off w → k tt = mret a →
  okay (lift (dmdhcp_lease_table_destroy (Some p)) ≫= k) [] {[p]} ends_mine off w.
Proof.
  intros Hm [_ Hoff] Hk. apply destroy_okay; [done|]. rewrite Hk. intros off1 w1 Hgone off2 w2 HR.
  split; [done|]. split; [done|]. intros q. rewrite Hm. intros ->%elem_of_singleton.
  eapply ended_later; [apply HR|done].
Qed.

Lemma release_okay p off w :
  mine = {[p]} → public p off w → okay (dmdhcp_release_t (Some p)) [] ∅ ends_mine off w.
Proof.
  intros Hm Hp. unfold dmdhcp_release_t. ok_step. apply remove_okay; [rewrite Hm; by apply elem_of_singleton|done|].
  clear Hp off w. intros off w Ho. do 2 own_step.
  destruct (is_v4 _ && is_v4 _); repeat own_step; case_match; repeat own_step; by eapply destroy_ends.
Qed.

Lemma stop_okay p off w :
  mine = {[p]} → public p off w → okay (dmdhcp_stop_t (Some p)) [] ∅ ends_mine off w.
Proof.
  intros Hm Hp. unfold dmdhcp_stop_t, dmdhcp_stop_with. ok_step. apply remove_okay; [rewrite Hm; by apply elem_of_singleton|done|].
  clear Hp off w. intros off w Ho. do 2 own_step.
  case_match; repeat own_step; apply okay_tail; by eapply destroy_ends.
Qed.
End Calls.
