(* ===== verification/Pool.v ===== *)
(** Pools of threads: the operations of the module called at once from any
    number of threads, stepping in any order. *)
From S2P Require Import Prelude Types Wire Options Platform Lease Output Lifecycle World Invariant LeaseTable TableFacts Queries Timers Input Api System Events Threads ThreadOps ThreadLogic ThreadSafety ThreadStart ThreadEnd.

(** The mutexes a thread holds, the leases it owns, and those it is to end *)
Record view : Type := View { holds : list mutex_name; owns : gset ptr; ends : gset ptr }.

(** ** The invariant of a pool

    whose threads are to end the leases [lost] *)
Section Pool.
Context `{E : Env} {EO : EnvOk E} `{D : DmList} {DL : DmListLaws D} (lost : gset ptr).

Definition claim (v : view) : Claim := Claims lost (ends v).

(** The mutexes a thread can hold at once: at most the table's and one lease's *)
Definition in_order (held : list mutex_name) : Prop :=
  held = [] ∨ held = [table_mutex] ∨
  ∃ p, held = [lease_mutex p] ∨ held = [lease_mutex p; table_mutex].

Lemma in_order_tail x held :
  in_order (x :: held) → (x ∉ held) ∧ in_order held ∧ (x = table_mutex → held = []).
Proof.
  intros [?|[?|(q & [?|?])]]; simplify_eq.
  - split; [apply not_elem_of_nil|by split; [left|]].
  - split; [apply not_elem_of_nil|by split; [left|]].
  - split; [by rewrite list_elem_of_singleton|by split; [right; left|]].
Qed.

(** Any two threads *)
Definition pairwise (R : view → view → Prop) (vs : list view) : Prop :=
  ∀ i j v v', vs !! i = Some v → vs !! j = Some v' → i ≠ j → R v v'.

Lemma view_at (vs : list view) i v' j vj :
  <[i := v']> vs !! j = Some vj → (j = i ∧ vj = v') ∨ (j ≠ i ∧ vs !! j = Some vj).
Proof. intros [(-> & -> & _)|[? ?]]%list_lookup_insert_Some; auto. Qed.

Lemma pairwise_update R vs i v' :
  pairwise R vs → (∀ j vj, j ≠ i → vs !! j = Some vj → R v' vj ∧ R vj v') → pairwise R (<[i := v']> vs).
Proof.
  intros HR Hi j k vj vk [[-> ->]|[Hj Hvj]]%view_at [[-> ->]|[Hk Hvk]]%view_at Hjk; [done|..].
  - by apply (Hi k vk).
  - by apply (Hi j vj).
  - by apply (HR j k).
Qed.

Record PoolInv (ts : list (prog unit)) (vs : list view) (busy : gset handle) (off : gset ptr)
    (w : world) : Prop := {
  pi_shared : Shared busy off w;
  pi_threads : Forall2 (λ t v,
    okay (C := claim v) t (holds v) (owns v) (ends_mine (C := claim v)) off w) ts vs;
  pi_off : ∀ p, p ∈ off ↔ ∃ i v, vs !! i = Some v ∧ p ∈ owns v;
  pi_apart : pairwise (λ v v', ∀ p, p ∈ owns v → p ∉ owns v') vs;
  pi_busy : ∀ m, m ∈ busy ↔ ∃ i v x, vs !! i = Some v ∧ x ∈ holds v ∧ handle_of x w = Some m;
  pi_known : ∀ i v x, vs !! i = Some v → x ∈ holds v →
    known (C := claim v) x (holds v) (owns v) off w;
  pi_order : ∀ i v, vs !! i = Some v → in_order (holds v);
  pi_mutex : pairwise (λ v v', ∀ x, x ∈ holds v → x ∉ holds v') vs;
  pi_lost : ∀ p, p ∈ lost ↔ ∃ i v, vs !! i = Some v ∧ p ∈ ends v;
  pi_enders : pairwise (λ v v', ∀ p, p ∈ ends v → p ∉ ends v') vs;
}.

(** *** Mutex names and handles *)
Lemma known_handle `{C : Claim} busy off w x held own :
  Shared busy off w → known x held own off w →
  ∃ m, handle_of x w = Some m ∧ mutexes (w_io w) !! m = Some (bool_decide (m ∈ busy)).
Proof.
  intros HS Hx. assert (Hlive : ∃ m, handle_of x w = Some m ∧ is_Some (mutexes (w_io w) !! m)).
  { destruct x as [|p]; simpl.
    - destruct (inv_table_mutex _ _ _ (sh_inv _ _ _ HS)) as (gm & ? & ? & _). by exists gm.
    - destruct Hx as [[l Hl] _]. rewrite Hl. apply (inv_leases _ _ _ (sh_inv _ _ _ HS) p l Hl). }
  destruct Hlive as (m & Hm & [b Hb]). exists m. split; [done|]. rewrite Hb. f_equal.
  by destruct (inv_mutexes _ _ _ (sh_inv _ _ _ HS) m b Hb) as [-> _].
Qed.

Lemma handle_inj busy off w x y m :
  Shared busy off w → handle_of x w = Some m → handle_of y w = Some m → x = y.
Proof.
  intros HS. pose proof (sh_inv _ _ _ HS) as HI.
  destruct (inv_table_mutex _ _ _ HI) as (gm & Hg & _ & Hne).
  assert (Hl : ∀ p, handle_of (lease_mutex p) w = Some m → ∃ l, heap w !! p = Some l ∧ lock l = Some m).
  { intros p. simpl. destruct (heap w !! p) as [l|]; [|done]. by exists l. }
  assert (Ht : ∀ p, handle_of table_mutex w = Some m → handle_of (lease_mutex p) w = Some m → False).
  { intros p Hx (l & Hp & Hlk)%Hl. simpl in Hx. simplify_eq. by apply (Hne p l). }
  destruct x as [|p], y as [|q]; intros Hx Hy; [done|by destruct (Ht q)|by destruct (Ht p)|].
  apply Hl in Hx as (l & Hp & Hlk), Hy as (l' & Hq & Hlk'). f_equal.
  destruct (decide (p = q)) as [|Hpq]; [done|].
  destruct (inv_apart _ _ _ HI p l q l' Hp Hq Hpq) as [Hd _]. congruence.
Qed.

(** The mutexes a thread holds while it goes on *)
Lemma held_guar `{C : Claim} held own own' off w w' x :
  guar held own off w own' w' → x ∈ held → known x held own off w →
  known x held own' (off_after off own own') w' ∧ handle_of x w' = handle_of x w.
Proof.
  intros HG Hin Hx. destruct x as [|p]; simpl; [split; [done|apply HG]|]. destruct Hx as [[l Hp] [Ho|[Hn Hs]]].
  - destruct (gr_locked _ _ _ _ _ _ HG p l Ho Hp Hin) as (Ho' & l' & Hp' & Hl). rewrite Hp, Hp'.
    split; [|done]. split; [by exists l'|by left].
  - destruct (gr_public _ _ _ _ _ _ HG p l Hp Hn) as (Hn' & l' & Hp' & Hf).
    { right. intros ->. by apply list_elem_of_singleton in Hin. }
    rewrite Hp, Hp'. split; [|apply Hf]. split; [by exists l'|]. right. split; [|done].
    by intros [[? _]|?]%elem_off_after.
Qed.

Lemma known_mono `{C : Claim} x held held' own off w :
  (table_mutex ∈ held → table_mutex ∈ held') → known x held own off w → known x held' own off w.
Proof.
  intros Hh Hx. destruct x as [|p]; [done|]. destruct Hx as [? [?|[? Hs]]]; (split; [done|]); [by left|right].
  split; [done|]. by eapply secure_mono.
Qed.

(** *** One thread steps *)
Section Update.
Context (ts : list (prog unit)) (vs : list view) (busy : gset handle) (off : gset ptr) (w : world).
Context (HP : PoolInv ts vs busy off w) (i : nat) (v : view) (Hv : vs !! i = Some v).

Lemma own_off : owns v ⊆ off.
Proof. intros p Hp. apply (pi_off _ _ _ _ _ HP). eauto. Qed.

Lemma others_own j vj : vs !! j = Some vj → j ≠ i → owns vj ⊆ off ∖ owns v.
Proof.
  intros Hj Hne p Hp. apply elem_of_difference. split; [apply (pi_off _ _ _ _ _ HP); eauto|].
  by eapply (pi_apart _ _ _ _ _ HP j i).
Qed.

Lemma others_rely own' w' j vj :
  guar (C := claim v) (holds v) (owns v) off w own' w' → vs !! j = Some vj → j ≠ i →
  rely (C := claim vj) (holds vj) (owns vj) off w (off_after off (owns v) own') w'.
Proof.
  intros HG Hj Hne. eapply guar_rely; [exact HG|..|by eapply others_own|].
  - intros p Hp. apply (pi_lost _ _ _ _ _ HP). eauto.
  - intros p. by eapply (pi_enders _ _ _ _ _ HP j i).
  - intros Hx. by eapply (pi_mutex _ _ _ _ _ HP j i).
Qed.

Lemma others_handle own' w' j vj x :
  guar (C := claim v) (holds v) (owns v) off w own' w' → vs !! j = Some vj → j ≠ i → x ∈ holds vj →
  handle_of x w' = handle_of x w.
Proof.
  intros HG Hj Hne Hx. eapply handle_rely; [by eapply others_rely|]. by eapply (pi_known _ _ _ _ _ HP).
Qed.

(** The view of the thread that stepped changes, and nothing else. *)
Lemma PoolInv_update t' held' own' busy' w' :
  let v' := View held' own' (ends v) in
  Shared busy' (off_after off (owns v) own') w' →
  guar (C := claim v) (holds v) (owns v) off w own' w' →
  okay (C := claim v) t' held' own' (ends_mine (C := claim v)) (off_after off (owns v) own') w' →
  in_order held' →
  (∀ x, x ∈ held' → known (C := claim v) x held' own' (off_after off (owns v) own') w') →
  (∀ j vj x, j ≠ i → vs !! j = Some vj → x ∈ holds vj → x ∉ held') →
  (∀ m, m ∈ busy' ↔ (∃ x, x ∈ held' ∧ handle_of x w' = Some m) ∨
    ∃ j vj x, j ≠ i ∧ vs !! j = Some vj ∧ x ∈ holds vj ∧ handle_of x w = Some m) →
  PoolInv (<[i := t']> ts) (<[i := v']> vs) busy' (off_after off (owns v) own') w'.
Proof.
  intros v' HS HG Ht' Hord Hkn Hdis Hbusy.
  assert (Hin : <[i := v']> vs !! i = Some v').
  { apply list_lookup_insert_eq. by eapply lookup_lt_Some. }
  assert (Hout : ∀ j vj, j ≠ i → vs !! j = Some vj → <[i := v']> vs !! j = Some vj)
    by (intros; by rewrite list_lookup_insert_ne).
  split; [done|..].
  - apply Forall2_same_length_lookup. split; [rewrite !length_insert; by eapply Forall2_length, HP|].
    intros j t vj Ht [[-> ->]|[Hne Hj]]%view_at.
    + by apply list_lookup_insert_Some in Ht as [(_ & <- & _)|[? _]].
    + rewrite list_lookup_insert_ne in Ht by done. eapply okay_rely; [|by eapply others_rely].
      by eapply (Forall2_lookup_lr _ _ _ _ _ _ (pi_threads _ _ _ _ _ HP)).
  - intros p. rewrite elem_off_after. split.
    + intros [[Hp Hn]|Hp]; [|by exists i, v'].
      apply (pi_off _ _ _ _ _ HP) in Hp as (j & vj & Hj & Hp). exists j, vj.
      split; [|done]. apply Hout; [|done]. intros Heq. rewrite Heq, Hv in Hj. by injection Hj as <-.
    + intros (j & vj & [[-> ->]|[Hne Hj]]%view_at & Hp); [by right|left].
      pose proof (others_own j vj Hj Hne p Hp) as Ho. by apply elem_of_difference in Ho.
  - apply pairwise_update; [by eapply pi_apart|]. intros j vj Hne Hj.
    pose proof (λ p Hp, gr_others _ _ _ _ _ _ HG p (others_own j vj Hj Hne p Hp)) as Ho.
    split; intros p Hp; [intros Hpj; exact (proj1 (Ho p Hpj) Hp)|exact (proj1 (Ho p Hp))].
  - intros m. rewrite Hbusy. split.
    + intros [(x & Hx & Hm)|(j & vj & x & Hne & Hj & Hx & Hm)]; [by exists i, v', x|].
      exists j, vj, x. rewrite (others_handle own' w' j vj x) by done. by auto.
    + intros (j & vj & x & [[-> ->]|[Hne Hj]]%view_at & Hx & Hm); [left; by exists x|right].
      exists j, vj, x. by rewrite <- (others_handle own' w' j vj x).
  - intros j vj x [[-> ->]|[Hne Hj]]%view_at Hx; [by apply Hkn|].
    eapply known_rely; [by eapply others_rely|]. by eapply (pi_known _ _ _ _ _ HP).
  - intros j vj [[-> ->]|[Hne Hj]]%view_at; [done|]. by eapply (pi_order _ _ _ _ _ HP).
  - apply pairwise_update; [by eapply pi_mutex|]. intros j vj Hne Hj.
    split; intros x Hx; [intros Hxj; exact (Hdis j vj x Hne Hj Hxj Hx)|exact (Hdis j vj x Hne Hj Hx)].
  - intros p. rewrite (pi_lost _ _ _ _ _ HP). split.
    + intros (j & vj & Hj & Hp). destruct (decide (j = i)) as [->|Hne]; [|by exists j, vj; auto].
      simplify_eq. by exists i, v'.
    + intros (j & vj & [[-> ->]|[Hne Hj]]%view_at & Hp); [by exists i, v|by exists j, vj].
  - apply pairwise_update; [by eapply pi_enders|]. intros j vj Hne Hj.
    pose proof (pi_enders _ _ _ _ _ HP i j v vj Hv Hj (not_eq_sym Hne)).
    pose proof (pi_enders _ _ _ _ _ HP j i vj v Hj Hv Hne). done.
Qed.
End Update.

Lemma Shared_grab `{C : Claim} busy off w x held own m :
  Shared busy off w → known x held own off w → handle_of x w = Some m →
  Shared ({[m]} ∪ busy) off (set_w_io (grab m (w_io w)) w).
Proof.
  intros HS Hx Hm. destruct (known_handle _ _ _ _ _ _ HS Hx) as (m' & Hm' & Hmx). simplify_eq.
  destruct HS as [HI Ho Hh Hr]. split; [apply Inv_grab; eauto|done| |done].
  intros m' [->%elem_of_singleton|Hin]%elem_of_union; [|by apply Hh].
  destruct x as [|p]; simpl in Hm; [by left|right]. destruct Hx as [[l Hl] _]. rewrite Hl in Hm.
  by exists p, l.
Qed.

Lemma Shared_release `{C : Claim} busy off w x held own m :
  Shared busy off w → known x held own off w → handle_of x w = Some m →
  Shared (busy ∖ {[m]}) off (set_w_io (release m (w_io w)) w).
Proof.
  intros HS Hx Hm. destruct (known_handle _ _ _ _ _ _ HS Hx) as (m' & Hm' & Hmx). simplify_eq.
  destruct HS as [HI Ho Hh Hr]. split; [apply Inv_release; eauto|done| |done].
  intros m' [Hin _]%elem_of_difference. by apply Hh.
Qed.

(** Every thread of a pool that keeps the invariant steps, has finished, or
    waits for a mutex another thread holds; and a step keeps the invariant, and
    the leases [kept] in the table. *)
Definition stays (off : gset ptr) (w : world) (p : ptr) : Prop :=
  is_Some (heap w !! p) ∧ (p ∉ off) ∧ p ∉ lost.

Definition PoolOk (kept : gset ptr) (ts : list (prog unit)) (w : world) : Prop :=
  ∃ vs busy off, PoolInv ts vs busy off w ∧ ∀ p, p ∈ kept → stays off w p.

Section Steps.
Context (ts : list (prog unit)) (vs : list view) (busy : gset handle) (off : gset ptr) (w : world).
Context (HP : PoolInv ts vs busy off w).
Context (kept : gset ptr) (HK : ∀ p, p ∈ kept → stays off w p).

Lemma thread_view i t :
  ts !! i = Some t → ∃ v, vs !! i = Some v ∧
    okay (C := claim v) t (holds v) (owns v) (ends_mine (C := claim v)) off w ∧
    owns v ⊆ off ∧ rely (C := claim v) (holds v) (owns v) off w off w.
Proof.
  intros Ht. destruct (Forall2_lookup_l _ _ _ _ _ (pi_threads _ _ _ _ _ HP) Ht) as (v & Hv & Hok).
  exists v. split; [done|]. split; [done|]. pose proof (own_off _ _ _ _ _ HP _ _ Hv) as Ho.
  split; [done|]. by apply rely_refl.
Qed.

(** The mutex of a lease a thread owns is free, or in its own hands. *)
Lemma view_locks i v : vs !! i = Some v → locks_own (holds v) (owns v) busy w.
Proof.
  intros Hv p l m Hp Hl Hlk (j & vj & x & Hj & Hx & Hm)%(pi_busy _ _ _ _ _ HP).
  assert (x = lease_mutex p) as ->.
  { apply (handle_inj _ _ _ _ _ _ (pi_shared _ _ _ _ _ HP) Hm). simpl. by rewrite Hl. }
  destruct (decide (j = i)) as [->|Hne]; [by simplify_eq|].
  destruct (pi_known _ _ _ _ _ HP j vj _ Hj Hx) as [_ [Hpj|[Hn _]]].
  - by destruct (pi_apart _ _ _ _ _ HP j i vj v Hj Hv Hne p Hpj).
  - destruct Hn. apply (pi_off _ _ _ _ _ HP). by exists i, v.
Qed.

Lemma stays_guar `{C : Claim} held own own' w' p :
  guar held own off w own' w' → p ∉ mine → stays off w p → stays (off_after off own own') w' p.
Proof.
  intros HG Hm ([l Hp] & Hn & Hl). destruct (gr_public _ _ _ _ _ _ HG p l Hp Hn (or_introl Hm)) as (Hn' & l' & ? & _).
  split; [by exists l'|]. split; [|done]. by intros [[? _]|?]%elem_off_after.
Qed.

Lemma step_act i {B} (m : M B) k :
  ts !! i = Some (act m k) → ∃ b w', m w = Some (b, w') ∧ PoolOk kept (<[i := k b]> ts) w'.
Proof.
  intros Ht. destruct (thread_view _ _ Ht) as (v & Hv & Hok & Ho & HR).
  pose proof (Hok busy off w HR (pi_shared _ _ _ _ _ HP) (view_locks _ _ Hv)) as Hw.
  apply wp_run in Hw as (b & w' & Hrun & own' & HS & HG & Hk).
  exists b, w'. split; [done|]. eexists _, busy, (off_after off (owns v) own'). split.
  2:{ intros p Hp%HK. apply (stays_guar _ _ _ _ _ HG); [|done]. intros Hm.
      destruct Hp as (_ & _ & Hl). apply Hl, (pi_lost _ _ _ _ _ HP). by exists i, v. }
  assert (Hheld : ∀ x, x ∈ holds v →
    known (C := claim v) x (holds v) own' (off_after off (owns v) own') w' ∧ handle_of x w' = handle_of x w).
  { intros x Hx. eapply held_guar; [exact HG|done|]. by eapply (pi_known _ _ _ _ _ HP). }
  apply (PoolInv_update _ _ _ _ _ HP i v Hv (k b) (holds v) own' busy w'); try done.
  - by eapply (pi_order _ _ _ _ _ HP).
  - intros x Hx. by apply Hheld.
  - intros j vj x Hne Hj. by eapply (pi_mutex _ _ _ _ _ HP j i).
  - intros m'. rewrite (pi_busy _ _ _ _ _ HP). split.
    + intros (j & vj & x & Hj & Hx & Hm). destruct (decide (j = i)) as [->|Hne].
      * simplify_eq. left. exists x. split; [done|]. by destruct (Hheld x Hx) as [_ ->].
      * right. by exists j, vj, x.
    + intros [(x & Hx & Hm)|(j & vj & x & _ & Hj & Hx & Hm)]; [|by exists j, vj, x].
      exists i, v, x. split; [done|]. split; [done|]. by destruct (Hheld x Hx) as [_ <-].
Qed.

Lemma step_unlock i x k :
  ts !! i = Some (unlock x k) →
  ∃ w', thread_step (unlock x k) w = stepped k w' ∧ PoolOk kept (<[i := k]> ts) w'.
Proof.
  intros Ht. destruct (thread_view _ _ Ht) as (v & Hv & (held' & Hh & Hok) & Ho & HR).
  pose proof (pi_shared _ _ _ _ _ HP) as HS.
  assert (Hx : x ∈ holds v) by (rewrite Hh; by left).
  pose proof (pi_known _ _ _ _ _ HP i v x Hv Hx) as Hkn.
  destruct (known_handle _ _ _ _ _ _ HS Hkn) as (m & Hm & Hmx).
  rewrite bool_decide_true in Hmx by (apply (pi_busy _ _ _ _ _ HP); by exists i, v, x).
  eexists. split; [simpl; rewrite Hm, Hmx; reflexivity|].
  pose proof (pi_order _ _ _ _ _ HP i v Hv) as Hord.
  rewrite Hh in Hord. destruct (in_order_tail _ _ Hord) as (Hnot & Hord' & Htab).
  eexists _, (busy ∖ {[m]}), (off_after off (owns v) (owns v)). split; [|by rewrite off_after_same].
  apply (PoolInv_update _ _ _ _ _ HP i v Hv k held'); try done; rewrite ?off_after_same by done.
  - by eapply Shared_release.
  - by apply guar_same.
  - eapply okay_rely; [by apply Hok|]. by apply rely_same.
  - intros y Hy. apply (known_mono y (holds v)).
    + rewrite Hh. intros [<-|?]%elem_of_cons; [|done]. rewrite Htab in Hy by done. by apply elem_of_nil in Hy.
    + eapply (pi_known _ _ _ _ _ HP i v); [done|]. rewrite Hh. by right.
  - intros j vj y Hne Hj Hy Hyh. eapply (pi_mutex _ _ _ _ _ HP j i); [done|done|done|done|].
    rewrite Hh. by right.
  - intros m'. rewrite elem_of_difference, elem_of_singleton, (pi_busy _ _ _ _ _ HP). split.
    + intros [(j & vj & y & Hj & Hy & Hym) Hne]. destruct (decide (j = i)) as [->|Hji].
      * simplify_eq. left. exists y. split; [|done]. rewrite Hh in Hy.
        apply elem_of_cons in Hy as [->|?]; [congruence|done].
      * right. by exists j, vj, y.
    + intros [(y & Hy & Hym)|(j & vj & y & Hji & Hj & Hy & Hym)].
      * split; [exists i, v, y; rewrite Hh; split; [done|split; [by right|done]]|].
        intros ->. apply Hnot. by rewrite (handle_inj _ _ _ _ _ _ HS Hm Hym).
      * split; [by exists j, vj, y|]. intros ->.
        rewrite <- (handle_inj _ _ _ _ _ _ HS Hm Hym) in Hy.
        by apply (pi_mutex _ _ _ _ _ HP j i vj v Hj Hv Hji x).
Qed.

Lemma step_acquire i x k m :
  ts !! i = Some (acquire x k) → handle_of x w = Some m → m ∉ busy →
  ∃ w', thread_step (acquire x k) w = stepped k w' ∧ PoolOk kept (<[i := k]> ts) w'.
Proof.
  intros Ht Hm Hfree. destruct (thread_view _ _ Ht) as (v & Hv & (Hmay & Hkn & Hok) & Ho & HR).
  pose proof (pi_shared _ _ _ _ _ HP) as HS.
  destruct (known_handle _ _ _ _ _ _ HS Hkn) as (m' & Hm' & Hmx). simplify_eq.
  rewrite bool_decide_false in Hmx by done.
  eexists. split; [simpl; rewrite Hm, Hmx; reflexivity|].
  eexists _, ({[m]} ∪ busy), (off_after off (owns v) (owns v)). split; [|by rewrite off_after_same].
  apply (PoolInv_update _ _ _ _ _ HP i v Hv k (x :: holds v)); try done; rewrite ?off_after_same by done.
  - by eapply Shared_grab.
  - by apply guar_same.
  - eapply okay_rely; [by apply Hok|]. by apply rely_same.
  - destruct x as [|p]; simpl in Hmay; [rewrite Hmay; by right; left|].
    right. right. exists p. destruct Hmay as [->| ->]; auto.
  - intros y Hy. apply (known_mono y (holds v)); [by right|].
    apply elem_of_cons in Hy as [->|Hy]; [done|]. by eapply (pi_known _ _ _ _ _ HP i v).
  - intros j vj y Hne Hj Hy [->|Hyv]%elem_of_cons.
    + apply Hfree, (pi_busy _ _ _ _ _ HP). by exists j, vj, x.
    + by eapply (pi_mutex _ _ _ _ _ HP j i).
  - intros m'. rewrite elem_of_union, elem_of_singleton, (pi_busy _ _ _ _ _ HP). split.
    + intros [->|(j & vj & y & Hj & Hy & Hym)]; [left; exists x; split; [by left|done]|].
      destruct (decide (j = i)) as [->|Hji].
      * simplify_eq. left. exists y. split; [by right|done].
      * right. by exists j, vj, y.
    + intros [(y & [->|Hy]%elem_of_cons & Hym)|(j & vj & y & Hji & Hj & Hy & Hym)].
      * left. change (handle_of x w = Some m') in Hym. congruence.
      * right. by exists i, v, y.
      * right. by exists j, vj, y.
Qed.
End Steps.
End Pool.
