(* ===== verification/Interleaving.v ===== *)
(** What pools of threads do: no undefined behaviour, no deadlock, and an
    end. *)
From S2P Require Import Prelude Types Wire Options Platform Lease Output Lifecycle World Invariant LeaseTable TableFacts Queries Timers Input Api System Events Threads ThreadOps ThreadLogic ThreadSafety ThreadStart ThreadEnd Pool.

(** ** Progress *)
Section Progress.
Context `{E : Env} {EO : EnvOk E} `{D : DmList} {DL : DmListLaws D} (lost : gset ptr).

Definition has_finished {A} (t : prog A) : bool := match t with ret _ => true | _ => false end.

Section Blocked.
Context (ts : list (prog unit)) (vs : list view) (busy : gset handle) (off : gset ptr) (w : world).
Context (HP : PoolInv lost ts vs busy off w).
Context (kept : gset ptr) (HK : ∀ p, p ∈ kept → stays lost off w p).

Definition can_step : Prop := ∃ c, pool_step (ts, w) c.

Lemma finished_holds_nothing i v a :
  ts !! i = Some (ret a) → vs !! i = Some v → holds v = [] ∧ owns v = ∅ ∧ ∀ p, p ∈ ends v → ended p w.
Proof.
  intros Ht Hv. destruct (thread_view _ _ _ _ _ _ HP _ _ Ht) as (v' & Hv' & Hok & _ & HR). simplify_eq.
  exact (Hok off w HR).
Qed.

Lemma act_steps i {B} (m : M B) k : ts !! i = Some (act m k) → can_step.
Proof.
  intros Ht. destruct (step_act _ _ _ _ _ _ HP _ HK _ _ _ Ht) as (b & w' & Hm & _).
  eexists. eapply pool_step_at; [exact Ht|]. simpl. by rewrite Hm.
Qed.

Lemma unlock_steps i x k : ts !! i = Some (unlock x k) → can_step.
Proof.
  intros Ht. destruct (step_unlock _ _ _ _ _ _ HP _ HK _ _ _ Ht) as (w' & Hm & _).
  eexists. eapply pool_step_at; [exact Ht|exact Hm].
Qed.

(** A thread that waits waits for a thread that holds the mutex. *)
Lemma acquire_steps i x k :
  ts !! i = Some (acquire x k) →
  can_step ∨ ∃ j v t, ts !! j = Some t ∧ vs !! j = Some v ∧ x ∈ holds v.
Proof.
  intros Ht. destruct (thread_view _ _ _ _ _ _ HP _ _ Ht) as (v & Hv & (_ & Hkn & _) & _ & _).
  pose proof (pi_shared _ _ _ _ _ _ HP) as HS.
  destruct (known_handle _ _ _ _ _ _ HS Hkn) as (m & Hm & _).
  destruct (decide (m ∈ busy)) as [Hin|Hfree].
  - right. apply (pi_busy _ _ _ _ _ _ HP) in Hin as (j & vj & y & Hj & Hy & Hym).
    rewrite <- (handle_inj _ _ _ _ _ _ HS Hm Hym) in Hy.
    destruct (Forall2_lookup_r _ _ _ _ _ (pi_threads _ _ _ _ _ _ HP) Hj) as (t & Htj & _). eauto 10.
  - left. destruct (step_acquire _ _ _ _ _ _ HP _ HK _ _ _ _ Ht Hm Hfree) as (w' & Hst & _).
    eexists. eapply pool_step_at; [exact Ht|exact Hst].
Qed.

(** The holder of a lease's mutex waits for nothing. *)
Lemma lease_holder_steps j t v p :
  ts !! j = Some t → vs !! j = Some v → lease_mutex p ∈ holds v → can_step.
Proof.
  intros Ht Hv Hin. destruct t as [a|B m k|x k|x k].
  - destruct (finished_holds_nothing _ _ _ Ht Hv) as (Hnil & _). rewrite Hnil in Hin. by apply elem_of_nil in Hin.
  - by eapply act_steps.
  - destruct (thread_view _ _ _ _ _ _ HP _ _ Ht) as (v' & Hv' & (Hmay & _) & _). simplify_eq.
    destruct x as [|q]; simpl in Hmay; [rewrite Hmay in Hin; by apply elem_of_nil in Hin|].
    destruct Hmay as [Hm|Hm]; rewrite Hm in Hin; [by apply elem_of_nil in Hin|].
    by apply list_elem_of_singleton in Hin.
  - by eapply unlock_steps.
Qed.

(** The holder of the table's mutex waits at most for the holder of a
    lease's. *)
Lemma table_holder_steps j t v : ts !! j = Some t → vs !! j = Some v → table_mutex ∈ holds v → can_step.
Proof.
  intros Ht Hv Hin. destruct t as [a|B m k|x k|x k].
  - destruct (finished_holds_nothing _ _ _ Ht Hv) as (Hnil & _). rewrite Hnil in Hin. by apply elem_of_nil in Hin.
  - by eapply act_steps.
  - destruct (thread_view _ _ _ _ _ _ HP _ _ Ht) as (v' & Hv' & (Hmay & _) & _). simplify_eq.
    destruct x as [|q]; [simpl in Hmay; rewrite Hmay in Hin; by apply elem_of_nil in Hin|].
    destruct (acquire_steps _ _ _ Ht) as [?|(k' & vk & tk & Htk & Hvk & Hq)]; [done|].
    by eapply lease_holder_steps.
  - by eapply unlock_steps.
Qed.

Lemma pool_progress : Forall has_finished ts ∨ can_step.
Proof.
  destruct (decide (Forall has_finished ts)) as [|Hno]; [by left|right].
  apply not_Forall_Exists, Exists_exists in Hno; [|apply _].
  destruct Hno as (t & [i Ht]%list_elem_of_In%list_elem_of_lookup & Hfin). destruct t as [a|B m k|x k|x k]; [by destruct Hfin|..].
  - by eapply act_steps.
  - destruct (acquire_steps _ _ _ Ht) as [?|(j & v & t & Htj & Hv & Hin)]; [done|].
    destruct x; [by eapply table_holder_steps|by eapply lease_holder_steps].
  - by eapply unlock_steps.
Qed.
End Blocked.

(** A step of a pool that keeps the invariant keeps it. *)
Lemma pool_step_ok kept ts w ts' w' :
  PoolOk lost kept ts w → pool_step (ts, w) (ts', w') → PoolOk lost kept ts' w'.
Proof.
  intros (vs & busy & off & HP & HK) Hst. inversion Hst as [i ts1 t t' w1 w2 Ht Hstep]; subst.
  destruct t as [a|B m k|x k|x k].
  - done.
  - destruct (step_act _ _ _ _ _ _ HP _ HK _ _ _ Ht) as (b & w2 & Hm & Hok). simpl in Hstep. rewrite Hm in Hstep.
    by simplify_eq.
  - destruct (thread_view _ _ _ _ _ _ HP _ _ Ht) as (v & Hv & (_ & Hkn & _) & _).
    destruct (known_handle _ _ _ _ _ _ (pi_shared _ _ _ _ _ _ HP) Hkn) as (m & Hm & Hmx).
    destruct (decide (m ∈ busy)) as [Hin|Hfree].
    + simpl in Hstep. by rewrite Hm, Hmx, bool_decide_true in Hstep.
    + destruct (step_acquire _ _ _ _ _ _ HP _ HK _ _ _ _ Ht Hm Hfree) as (w2 & Hs & Hok).
      rewrite Hs in Hstep. by simplify_eq.
  - destruct (step_unlock _ _ _ _ _ _ HP _ HK _ _ _ Ht) as (w2 & Hs & Hok). rewrite Hs in Hstep. by simplify_eq.
Qed.

(** No thread of such a pool is about to do anything undefined. *)
Lemma pool_no_fault kept ts w t : PoolOk lost kept ts w → t ∈ ts → thread_step t w ≠ fault.
Proof.
  intros (vs & busy & off & HP & HK) [i Ht]%list_elem_of_lookup. destruct t as [a|B m k|x k|x k]; [done|..].
  - destruct (step_act _ _ _ _ _ _ HP _ HK _ _ _ Ht) as (b & w2 & Hm & _). simpl. by rewrite Hm.
  - destruct (thread_view _ _ _ _ _ _ HP _ _ Ht) as (v & Hv & (_ & Hkn & _) & _).
    destruct (known_handle _ _ _ _ _ _ (pi_shared _ _ _ _ _ _ HP) Hkn) as (m & Hm & Hmx).
    simpl. rewrite Hm, Hmx. by case_bool_decide.
  - destruct (step_unlock _ _ _ _ _ _ HP _ HK _ _ _ Ht) as (w2 & Hs & _). by rewrite Hs.
Qed.

(** Once every thread has finished the module is at rest, and the leases to be
    ended have been. *)
Lemma pool_at_rest kept ts w :
  PoolOk lost kept ts w → Forall has_finished ts → idle w ∧ ∀ p, p ∈ lost → ended p w.
Proof.
  intros (vs & busy & off & HP & HK) Hfin.
  assert (Hnil : ∀ i v, vs !! i = Some v → holds v = [] ∧ owns v = ∅ ∧ ∀ p, p ∈ ends v → ended p w).
  { intros i v Hv. destruct (Forall2_lookup_r _ _ _ _ _ (pi_threads _ _ _ _ _ _ HP) Hv) as (t & Ht & _).
    pose proof (Forall_lookup_1 _ _ _ _ Hfin Ht) as Hf. destruct t as [a| | |]; try done.
    by eapply finished_holds_nothing. }
  assert (busy = ∅) as ->.
  { apply set_eq. intros m. rewrite (pi_busy _ _ _ _ _ _ HP). split; [|by intros ?%not_elem_of_empty].
    intros (i & v & x & Hv & Hx & _). destruct (Hnil i v Hv) as (Hn & _). rewrite Hn in Hx.
    by apply elem_of_nil in Hx. }
  assert (off = ∅) as ->.
  { apply set_eq. intros p. rewrite (pi_off _ _ _ _ _ _ HP). split; [|by intros ?%not_elem_of_empty].
    intros (i & v & Hv & Hp). destruct (Hnil i v Hv) as (_ & Hn & _). by rewrite Hn in Hp. }
  split; [split; apply HP|]. intros p (i & v & Hv & Hp)%(pi_lost _ _ _ _ _ _ HP). by apply (Hnil i v).
Qed.
End Progress.

(** ** Schedules end *)

(** Whatever the schedule, a configuration that satisfies [P] is reached: some
    thread can always step until then, and no schedule is infinite. *)
Inductive inevitable `{E : Env} `{D : DmList} (P : config → Prop) (c : config) : Prop :=
  | inevitable_here : P c → inevitable P c
  | inevitable_next c1 :
      pool_step c c1 → (∀ c', pool_step c c' → inevitable P c') → inevitable P c.

Section Termination.
Context `{E : Env} `{D : DmList}.

Definition thread_next (t' t : prog unit) : Prop := ∃ w w', thread_step t w = stepped t' w'.

(** One thread of a list goes on. *)
Definition list_next (ts' ts : list (prog unit)) : Prop :=
  ∃ i t t', ts !! i = Some t ∧ thread_next t' t ∧ ts' = <[i := t']> ts.

Lemma thread_next_acc t : Acc thread_next t.
Proof.
  induction t as [a|B m k IH|x k IH|x k IH]; constructor; intros t' (w & w' & Hst); simpl in Hst.
  - done.
  - destruct (m w) as [[b w1]|]; [|done]. by injection Hst as <- _.
  - destruct (handle_of x w); [|done]. case_match; [|done]. case_match; [done|]. by injection Hst as <- _.
  - destruct (handle_of x w); [|done]. case_match; [|done]. case_match; [|done]. by injection Hst as <- _.
Qed.

Lemma list_next_cons t ts : Acc thread_next t → Acc list_next ts → Acc list_next (t :: ts).
Proof.
  intros Ht. revert ts. induction Ht as [t _ IHt]. intros ts Hts.
  induction Hts as [ts Hacc IHts]. constructor. intros ts' ([|i] & t1 & t' & Hl & Hn & ->); simpl in *.
  - injection Hl as <-. apply IHt; [done|by constructor].
  - apply IHts. by exists i, t1, t'.
Qed.

Lemma list_next_acc ts : Acc list_next ts.
Proof.
  induction ts as [|t ts IH]; [constructor; by intros ts' (i & t & t' & ? & _)|].
  apply list_next_cons; [apply thread_next_acc|done].
Qed.

Lemma pool_step_next ts w ts' w' : pool_step (ts, w) (ts', w') → list_next ts' ts.
Proof.
  intros Hst. inversion Hst as [i ts1 t t' w1 w2 Ht Hstep]; subst. exists i, t, t'. by split; [|split; [exists w, w'|]].
Qed.
End Termination.

Section Pools.
Context `{E : Env} {EO : EnvOk E} `{D : DmList} {DL : DmListLaws D} (lost : gset ptr).

Lemma pool_inevitable kept ts w :
  PoolOk lost kept ts w → inevitable (λ c, Forall has_finished c.1 ∧ PoolOk lost kept c.1 c.2) (ts, w).
Proof.
  revert w. induction (list_next_acc ts) as [ts _ IH]. intros w Hok. pose proof Hok as (vs & busy & off & HP & HK).
  destruct (pool_progress _ _ _ _ _ _ HP _ HK) as [Hfin|[c1 Hst]]; [by apply inevitable_here|].
  apply inevitable_next with c1; [done|]. intros [ts' w'] Hst'.
  apply IH; [by eapply pool_step_next|by eapply pool_step_ok].
Qed.

Lemma pool_steps_ok kept c c' : rtc pool_step c c' → PoolOk lost kept c.1 c.2 → PoolOk lost kept c'.1 c'.2.
Proof. induction 1 as [|[] [] ? Hst _ IH]; [done|]. intros Hok. by eapply IH, pool_step_ok. Qed.

Lemma inevitable_mono (P P' : config → Prop) c :
  (∀ c, P c → P' c) → inevitable P c → inevitable P' c.
Proof. intros HP. induction 1; [by apply inevitable_here, HP|by eapply inevitable_next]. Qed.
End Pools.

(** ** The operations of the module *)
Section Module.
Context `{E : Env} {EO : EnvOk E} `{D : DmList} {DL : DmListLaws D} `{P : !App} {PO : AppOk P}.

(** The lease a call is to end *)
Definition ends_of (e : event) : gset ptr :=
  match e with ev_release (Some p) | ev_stop (Some p) => {[p]} | _ => ∅ end.

(** The leases some calls are to end *)
Definition ends_all (es : list event) : gset ptr := ⋃ (ends_of <$> es).

Lemma elem_ends_all p es : p ∈ ends_all es ↔ ∃ i e, es !! i = Some e ∧ p ∈ ends_of e.
Proof.
  unfold ends_all. rewrite elem_of_union_list. split.
  - intros (X & (e & -> & [i He]%list_elem_of_lookup)%list_elem_of_fmap & Hp). eauto.
  - intros (i & e & He & Hp). exists (ends_of e). split; [|done]. apply list_elem_of_fmap.
    exists e. split; [done|]. by eapply list_elem_of_lookup_2.
Qed.

(** The lease an event is about: the handle it is given, the lease whose timer
    fires, or any lease of the interface a datagram is received on.  (A query
    visits every lease, and a start may meet one of its interface; the table's
    mutex protects both.) *)
Definition concerns (w : world) (e : event) (p : ptr) : Prop :=
  match e with
  | ev_renew h | ev_release h | ev_stop h | ev_set_callbacks h _ _ | ev_access _ h => h = Some p
  | ev_datagram i _ => ∃ l, heap w !! p = Some l ∧ iface l = i
  | ev_retransmit_timer q | ev_lease_timer q => q = p
  | _ => False
  end.

(** A lease that one call ends is nobody else's business. *)
Definition undisturbed (w : world) (es : list event) : Prop :=
  ∀ i j e e' p, es !! i = Some e → es !! j = Some e' → i ≠ j → p ∈ ends_of e → ¬ concerns w e' p.

Section Outlines.
Context (w : world) (HI : Inv ∅ ∅ w) (lost : gset ptr).
Context (Hlost : ∀ p, p ∈ lost → is_Some (heap w !! p)).

Lemma lost_old (C : Claim) : ending = lost → ending_old w.
Proof. intros HC p. rewrite HC. intros ?%Hlost. by apply (proj1 (inv_fresh _ _ _ HI)). Qed.

Lemma live_public (C : Claim) p :
  is_Some (heap w !! p) → p ∉ ending ∨ p ∈ mine → public p ∅ w.
Proof. intros Hp Hc. split; [done|]. split; [apply not_elem_of_empty|]. unfold secure. tauto. Qed.

(** A thread that ends nothing, among threads that end leases it has nothing
    to do with *)
Lemma bystander_okay e :
  enabled e w → (∀ p, p ∈ lost → ¬ concerns w e p) → ends_of e = ∅ →
  okay (C := Claims lost ∅) (thread_of e) [] ∅ (leaves [] ∅) ∅ w.
Proof.
  set (C := Claims lost ∅). intros He Hc Hend.
  assert (Hdrop : ∀ A (t : prog A), okay t [] ∅ (leaves [] ∅) ∅ w →
    okay (t;; mret tt) [] ∅ (leaves [] ∅) ∅ w).
  { intros A t Ht. apply okay_bind; [|apply empty_subseteq]. eapply okay_mono; [exact Ht|].
    intros a h o off' w' [-> ->]. apply okay_leaves. }
  assert (Hpub : ∀ p, is_Some (heap w !! p) → concerns w e p → public p ∅ w).
  { intros p Hp Hcp. apply live_public; [done|]. left. by intros ?%Hc. }
  assert (Hh : ∀ h, handle_ok w h → (∀ p, h = Some p → concerns w e p) → handle_public h ∅ w).
  { intros [p|] Hok Hp; [|done]. by apply Hpub, Hp. }
  destruct e; cbn [thread_of]; simpl in He.
  - apply Hdrop, start_okay; [apply He..|by apply lost_old].
  - by apply Hdrop, renew_okay, Hh.
  - destruct h as [p|]; [by destruct (non_empty_singleton_L (C := gset ptr) p Hend)|]. apply Hdrop, okay_null. intros. apply okay_leaves.
  - destruct h as [p|]; [by destruct (non_empty_singleton_L (C := gset ptr) p Hend)|]. apply okay_null. intros. apply okay_leaves.
  - by apply Hdrop, set_callbacks_okay, Hh.
  - by apply accessor_okay, Hh.
  - by apply Hdrop, get_ntp_servers_okay.
  - case_match; [apply visit_dns_okay|apply okay_leaves].
  - apply visit_ntp_okay.
  - apply datagram_okay; [done|]. intros p Hp. split; [by apply (lost_old C)|].
    intros l Hl Hi. apply (Hc p Hp). by exists l.
  - by apply retransmit_timer_callback_okay, Hpub.
  - by apply lease_timer_callback_okay, Hpub.
Qed.

Lemma thread_okay e :
  enabled e w → (∀ p, p ∈ lost → p ∉ ends_of e → ¬ concerns w e p) →
  okay (C := Claims lost (ends_of e)) (thread_of e) [] ∅ (ends_mine (C := Claims lost (ends_of e))) ∅ w.
Proof.
  intros He Hc. destruct (decide (ends_of e = ∅)) as [Hend|Hend].
  - rewrite Hend. eapply okay_mono.
    + apply bystander_okay; [done| |done]. intros p Hp. apply Hc; [done|]. rewrite Hend. apply not_elem_of_empty.
    + intros a h o off' w' [-> ->]. split; [done|]. split; [done|]. by intros p ?%not_elem_of_empty.
  - destruct e as [| |[p|]|[p|]| | | | | | | |]; try done; cbn [thread_of ends_of]; simpl in He.
    + apply okay_bind; [|apply empty_subseteq]. eapply okay_mono; [apply release_okay; [done|]|].
      * by apply live_public; [|right; cbn; apply elem_of_singleton].
      * intros rc h o off1 w1 (-> & -> & Hg) off2 w2 HR. split; [done|]. split; [done|].
        intros q Hq%Hg. eapply ended_later; [apply HR|done].
    + apply stop_okay; [done|]. by apply live_public; [|right; cbn; apply elem_of_singleton].
Qed.
End Outlines.

(** The threads of some events, from a module at rest *)
Definition threads_of (es : list event) : list (prog unit) := thread_of <$> es.

Definition first_view (e : event) : view := View [] ∅ (ends_of e).

Lemma ends_live es w p :
  Forall (λ e, enabled e w) es → p ∈ ends_all es → is_Some (heap w !! p).
Proof.
  intros Hes (i & e & He & Hp)%elem_ends_all. pose proof (Forall_lookup_1 _ _ _ _ Hes He) as Hen.
  destruct e as [| |[q|]|[q|]| | | | | | | |]; simpl in Hp; try by apply not_elem_of_empty in Hp.
  all: by apply elem_of_singleton in Hp as ->.
Qed.

Lemma ends_concern w e p : p ∈ ends_of e → concerns w e p.
Proof.
  destruct e as [| |[q|]|[q|]| | | | | | | |]; simpl; try by intros ?%not_elem_of_empty.
  all: by intros ->%elem_of_singleton.
Qed.

Lemma threads_ok es w :
  idle w → Forall (λ e, enabled e w) es → undisturbed w es →
  PoolOk (ends_all es) (dom (heap w) ∖ ends_all es) (threads_of es) w.
Proof.
  intros [HI Hr] Hes Hun. exists (first_view <$> es), ∅, ∅. split.
  2:{ intros p [Hp Hn]%elem_of_difference. split; [by apply elem_of_dom|].
      split; [apply not_elem_of_empty|done]. }
  assert (Hv : ∀ i v, (first_view <$> es) !! i = Some v → ∃ e, es !! i = Some e ∧ v = first_view e).
  { intros i v (e & -> & He)%list_lookup_fmap_Some. eauto. }
  split.
  - split; [done| | |done]; by intros ? ?%not_elem_of_empty.
  - apply Forall2_same_length_lookup. unfold threads_of. split; [by rewrite !length_fmap|].
    intros i t v (e & -> & He)%list_lookup_fmap_Some (e' & He' & ->)%Hv. simplify_eq.
    apply thread_okay; [done|by intros; eapply ends_live|exact (Forall_lookup_1 _ _ _ _ Hes He)|].
    intros p (j & e' & He' & Hp)%elem_ends_all Hn. apply (Hun j i e' e); [done..|by intros ->; simplify_eq|done].
  - intros p. split; [by intros ?%not_elem_of_empty|]. by intros (i & v & (e & _ & ->)%Hv & ?%not_elem_of_empty).
  - by intros i j v v' (e & _ & ->)%Hv _ _ p ?%not_elem_of_empty.
  - intros m. split; [by intros ?%not_elem_of_empty|].
    by intros (i & v & x & (e & _ & ->)%Hv & ?%elem_of_nil & _).
  - by intros i v x (e & _ & ->)%Hv ?%elem_of_nil.
  - intros i v (e & _ & ->)%Hv. by left.
  - by intros i j v v' (e & _ & ->)%Hv _ _ x ?%elem_of_nil.
  - intros p. rewrite elem_ends_all. split.
    + intros (i & e & He & Hp). exists i, (first_view e). split; [by rewrite list_lookup_fmap, He|done].
    + intros (i & v & (e & He & ->)%Hv & Hp). by exists i, e.
  - intros i j v v' (e & He & ->)%Hv (e' & He' & ->)%Hv Hne p Hp Hp'.
    apply (Hun i j e e' p); [done..|]. by apply ends_concern.
Qed.
End Module.

(** ** Applications

    One that does nothing, and one that calls the library back. *)
Definition silent_app `{E : Env} `{D : DmList} : App := λ _, mret tt.

#[export] Instance silent_app_ok `{E : Env} {EO : EnvOk E} `{D : DmList} : AppOk silent_app.
Proof. intros C BY c p off w _ _. apply okay_leaves. Qed.

Definition reentrant_app `{E : Env} `{D : DmList} : App := λ c,
  match c with
  | c_on_bound _ p _ _ => run_accessor_t get_lease_info (Some p);; dmdhcp_renew_t (Some p);; mret tt
  | c_on_expired _ p _ => dmdhcp_set_callbacks_t (Some p) None 0;; mret tt
  | c_on_error _ p _ _ => run_accessor_t get_state (Some p)
  | _ => mret tt
  end.

#[export] Instance reentrant_app_ok `{E : Env} {EO : EnvOk E} `{D : DmList} {DL : DmListLaws D} :
  AppOk reentrant_app.
Proof.
  intros C BY c p off w Hc Hp. destruct c; try apply okay_leaves; simpl in Hc; subst; unfold app, reentrant_app.
  - eapply okay_call; [by apply accessor_okay|done|]. intros [] off1 w1 Hp1.
    eapply okay_call; [by apply renew_okay|done|]. intros. apply okay_leaves.
  - eapply okay_call; [by apply set_callbacks_okay|done|]. intros. apply okay_leaves.
  - by apply accessor_okay.
Qed.

(** ** Properties *)
Section Properties.
Context `{E : Env} {EO : EnvOk E} `{D : DmList} {DL : DmListLaws D} `{P : !App} {PO : AppOk P}.

(** C3: thread safety.  Call any of the module's operations at once, each from
    a thread of its own - API calls on live or NULL handles, received
    datagrams, timer callbacks, discovery queries - and let the threads step in
    any order, interrupted between any two statements of theirs (a function
    called on the lease whose lock the thread holds is one statement).  A call
    may also end a lease, by [dmdhcp_stop] or [dmdhcp_release], provided no
    other call is given that lease, no timer of it is firing and no datagram
    arrives on its interface; queries, and starts on the very interface, may
    race with it.  In every configuration reached, no thread is about to do
    anything undefined; the module invariant holds; and every lease that was
    live and is not being ended still is. *)
Theorem threads_never_fail es w ts' w' :
  idle w → Forall (λ e, enabled e w) es → undisturbed w es →
  rtc pool_step (threads_of es, w) (ts', w') →
  (∀ t, t ∈ ts' → thread_step t w' ≠ fault) ∧ (∃ busy off, Inv busy off w') ∧
  ∀ p, is_Some (heap w !! p) → p ∉ ends_all es → is_Some (heap w' !! p).
Proof.
  intros Hw Hes Hun Hst. pose proof (pool_steps_ok _ _ _ _ Hst (threads_ok es w Hw Hes Hun)) as Hok. simpl in Hok.
  split; [intros t; by eapply pool_no_fault|]. destruct Hok as (vs & busy & off & HP & HK).
  split; [exists busy, off; apply HP|]. intros p Hp Hn. apply HK, elem_of_difference. by rewrite elem_of_dom.
Qed.

(** C4: no deadlock, and an end.  Whatever the schedule of such threads, some
    thread can always step until all have finished, no schedule is infinite,
    and once all have finished the module is at rest: every mutex free, the
    table listing exactly the live leases, at most one per interface - whatever
    calls of [dmdhcp_start] raced - and every resource accounted for; the
    leases to be ended are gone, and no other. *)
Theorem threads_finish es w :
  idle w → Forall (λ e, enabled e w) es → undisturbed w es →
  inevitable (λ c, Forall has_finished c.1 ∧ idle c.2 ∧
    (∀ p, p ∈ ends_all es → heap c.2 !! p = None) ∧
    ∀ p, is_Some (heap w !! p) → p ∉ ends_all es → is_Some (heap c.2 !! p)) (threads_of es, w).
Proof.
  intros Hw Hes Hun. eapply inevitable_mono; [|by eapply pool_inevitable, threads_ok].
  intros [ts' w'] [Hfin Hok]. simpl in *. destruct (pool_at_rest _ _ _ _ Hok Hfin) as [Hidle Hgone].
  split; [done|]. split; [done|]. split; [intros p ?; by apply Hgone|].
  destruct Hok as (vs & busy & off & HP & HK). intros p Hp Hn. apply HK, elem_of_difference. by rewrite elem_of_dom.
Qed.
End Properties.

(** ** Executable schedules

    The thread named by each number steps, if it can. *)
Section Schedules.
Context `{E : Env} `{D : DmList}.

Definition schedule_step (c : config) (i : nat) : config :=
  match c.1 !! i with
  | Some t =>
      match thread_step t c.2 with
      | stepped t' w' => (<[i := t']> c.1, w')
      | _ => c
      end
  | None => c
  end.

Definition run_schedule (order : list nat) (c : config) : config := fold_left schedule_step order c.

Lemma run_schedule_steps order c : rtc pool_step c (run_schedule order c).
Proof.
  revert c. induction order as [|i order IH]; intros [ts w]; simpl; [apply rtc_refl|].
  etransitivity; [|apply IH]. unfold schedule_step. simpl.
  destruct (ts !! i) as [t|] eqn:Ht; [|apply rtc_refl].
  destruct (thread_step t w) as [a|t' w'| |] eqn:Hst; try apply rtc_refl.
  by apply rtc_once, (pool_step_at i ts t).
Qed.
End Schedules.
