(* ===== verification/Races.v ===== *)
(** What the module's mutexes do not order: a lease ended while another thread
    already has it in hand - the receiver of a datagram, or a timer callback. *)
From S2P Require Import Prelude Types Wire Options Platform Lease Output Lifecycle World Invariant LeaseTable TableFacts Queries Timers Input Api Handlers System Events Contracts Scenarios Threads ThreadOps ThreadLogic ThreadSafety ThreadStart ThreadEnd Pool Interleaving.

(** ** Running a thread while the others wait *)
Section Runs.
Context `{E : Env} `{D : DmList}.

Lemma lock_named_step {A} x (k : prog A) w w' :
  lock_named x w = Some (tt, w') → thread_step (acquire x k) w = stepped k w'.
Proof.
  intros Hl. assert (Hm : ∀ o, wio (dmosi_mutex_lock o) w = Some (tt, w') → ∃ m, o = Some m ∧
    mutexes (w_io w) !! m = Some false ∧ w' = set_w_io (grab m (w_io w)) w).
  { intros [m|]; [|done]. unfold wio, dmosi_mutex_lock. destruct (mutexes (w_io w) !! m) as [[]|] eqn:Hm; [done| |done].
    intros [= <-]. by exists m. }
  destruct x as [|p]; simpl in *.
  - apply Hm in Hl as (m & -> & -> & ->). done.
  - unfold lock_lease, load, mbind, st_bind in Hl. destruct (heap w !! p) as [l|] eqn:Hp; [|done].
    apply Hm in Hl as (m & Hlk & Hmx & ->). unfold mbind, option_bind. by rewrite Hlk, Hmx.
Qed.

Lemma unlock_named_step {A} x (k : prog A) w w' :
  unlock_named x w = Some (tt, w') → thread_step (unlock x k) w = stepped k w'.
Proof.
  intros Hl. assert (Hm : ∀ o, wio (dmosi_mutex_unlock o) w = Some (tt, w') → ∃ m, o = Some m ∧
    mutexes (w_io w) !! m = Some true ∧ w' = set_w_io (release m (w_io w)) w).
  { intros [m|]; [|done]. unfold wio, dmosi_mutex_unlock. destruct (mutexes (w_io w) !! m) as [[]|] eqn:Hm; [|done|done].
    intros [= <-]. by exists m. }
  destruct x as [|p]; simpl in *.
  - apply Hm in Hl as (m & -> & -> & ->). done.
  - unfold unlock_lease, load, mbind, st_bind in Hl. destruct (heap w !! p) as [l|] eqn:Hp; [|done].
    apply Hm in Hl as (m & Hlk & Hmx & ->). unfold mbind, option_bind. by rewrite Hlk, Hmx.
Qed.

(** The thread at [i] of a pool steps. *)
Lemma thread_goes ts i t t' w w1 c :
  (i < length ts)%nat → thread_step t w = stepped t' w1 →
  rtc pool_step (<[i := t']> ts, w1) c → rtc pool_step (<[i := t]> ts, w) c.
Proof.
  intros Hi Hst Hr. eapply rtc_l; [|exact Hr].
  rewrite <- (list_insert_insert_eq ts i t' t). eapply pool_step_at; [by apply list_lookup_insert_eq|done].
Qed.

Lemma lift_goes {A} (m : M A) (k : A → prog unit) ts i w a w1 c :
  (i < length ts)%nat → m w = Some (a, w1) →
  rtc pool_step (<[i := k a]> ts, w1) c → rtc pool_step (<[i := lift m ≫= k]> ts, w) c.
Proof. intros Hi Hm. apply thread_goes; [done|]. simpl. by rewrite Hm. Qed.

(** A part of a program that runs alone from a world runs in a pool, the other
    threads waiting. *)
Lemma alone_goes {A} (q : prog A) (k : A → prog unit) ts i w a w1 c :
  (i < length ts)%nat → alone q w = Some (a, w1) →
  rtc pool_step (<[i := k a]> ts, w1) c → rtc pool_step (<[i := q ≫= k]> ts, w) c.
Proof.
  intros Hi Hr Hc. revert w Hr. induction q as [a'|B m k1 IH|x q IH|x q IH]; intros w Hr; simpl in *.
  - by injection Hr as -> ->.
  - unfold mbind at 1, st_bind in Hr. destruct (m w) as [[b w2]|] eqn:Hm; [|done].
    eapply thread_goes; [done|simpl; by rewrite Hm|]. by apply IH.
  - unfold mbind at 1, st_bind in Hr. destruct (lock_named x w) as [[[] w2]|] eqn:Hm; [|done].
    eapply thread_goes; [done|by apply lock_named_step|]. by apply IH.
  - unfold mbind at 1, st_bind in Hr. destruct (unlock_named x w) as [[[] w2]|] eqn:Hm; [|done].
    eapply thread_goes; [done|by apply unlock_named_step|]. by apply IH.
Qed.

Lemma alone_ends (q : prog unit) ts i w w1 :
  (i < length ts)%nat → alone q w = Some (tt, w1) →
  rtc pool_step (<[i := q]> ts, w) (<[i := mret tt]> ts, w1).
Proof.
  intros Hi. revert w. induction q as [[]|B m k1 IH|x q IH|x q IH]; intros w Hr; simpl in *.
  - by injection Hr as ->.
  - unfold mbind at 1, st_bind in Hr. destruct (m w) as [[b w2]|] eqn:Hm; [|done].
    eapply thread_goes; [done|simpl; by rewrite Hm|]. by apply IH.
  - unfold mbind at 1, st_bind in Hr. destruct (lock_named x w) as [[[] w2]|] eqn:Hm; [|done].
    eapply thread_goes; [done|by apply lock_named_step|]. by apply IH.
  - unfold mbind at 1, st_bind in Hr. destruct (unlock_named x w) as [[[] w2]|] eqn:Hm; [|done].
    eapply thread_goes; [done|by apply unlock_named_step|]. by apply IH.
Qed.
End Runs.

(** *** A thread that works on one lease *)
Section Stages.
Context `{E : Env} {EO : EnvOk E} `{D : DmList} {DL : DmListLaws D}.

Lemma acq_goes p l s w0 m (k : unit → prog unit) ts i c :
  (i < length ts)%nat → lock l = Some m → mutexes s !! m = Some false →
  rtc pool_step (<[i := k tt]> ts, put p l (grab m s) w0) c →
  rtc pool_step (<[i := acq (lease_mutex p) ≫= k]> ts, put p l s w0) c.
Proof.
  intros Hi Hl Hm. apply (alone_goes (acq (lease_mutex p)) k); [done|]. rewrite alone_acq.
  simpl. rewrite <- bind_ret_r. by erewrite lock_put.
Qed.

Lemma rel_goes p l s w0 m (k : unit → prog unit) ts i c :
  (i < length ts)%nat → lock l = Some m → mutexes s !! m = Some true →
  rtc pool_step (<[i := k tt]> ts, put p l (release m s) w0) c →
  rtc pool_step (<[i := rel (lease_mutex p) ≫= k]> ts, put p l s w0) c.
Proof.
  intros Hi Hl Hm. apply (alone_goes (rel (lease_mutex p)) k); [done|]. rewrite alone_rel.
  by apply unlock_put_last.
Qed.

Lemma load_goes p l s w0 (k : lease → prog unit) ts i c :
  (i < length ts)%nat → rtc pool_step (<[i := k l]> ts, put p l s w0) c →
  rtc pool_step (<[i := lift (load p) ≫= k]> ts, put p l s w0) c.
Proof. intros Hi. apply lift_goes; [done|]. unfold load. by rewrite heap_put. Qed.

Lemma handle_goes p l s w0 (k : bool → prog unit) ts i c :
  (i < length ts)%nat → magic l = DMDHCP_LEASE_MAGIC → rtc pool_step (<[i := k false]> ts, put p l s w0) c →
  rtc pool_step (<[i := lift (bad_handle (Some p)) ≫= k]> ts, put p l s w0) c.
Proof. intros Hi Hm. apply lift_goes; [done|]. by apply bad_handle_put. Qed.

Lemma op_goes {A} p (op : lop A) l s a l' s' w0 (k : A → prog unit) ts i c :
  (i < length ts)%nat → op (LCtx l s) = Some (a, LCtx l' s') →
  rtc pool_step (<[i := k a]> ts, put p l' s' w0) c →
  rtc pool_step (<[i := lift (with_lease p op) ≫= k]> ts, put p l s w0) c.
Proof. intros Hi Hop. apply lift_goes; [done|]. by apply with_lease_run. Qed.

Lemma op_faults {A} p (op : lop A) l s w0 (k : A → prog unit) :
  op (LCtx l s) = None → thread_step (lift (with_lease p op) ≫= k) (put p l s w0) = fault.
Proof.
  intros Hop. assert (Hn : with_lease p op (put p l s w0) = None).
  { unfold with_lease. rewrite heap_put. simpl. by rewrite Hop. }
  simpl. by rewrite Hn.
Qed.

(** The calls [dmdhcp_stop] makes before it destroys the lease *)
Definition stop_calls (gm m : handle) (l : lease) : list call :=
  [c_mutex_lock gm; c_mutex_unlock gm] ++ section_calls m (unapply_calls l).

(** [dmdhcp_stop] until it destroys the lease: out of the table, unapplied, and
    its mutex free *)
Lemma stop_goes destroy ts n w p l :
  idle w → heap w !! p = Some l → (n < length ts)%nat →
  ∃ gm m w0, lock l = Some m ∧ mutexes (w_io w) !! m = Some false ∧
    rtc pool_step (<[n := dmdhcp_stop_with destroy (Some p)]> ts, w)
      (<[n := destroy p]> ts, put p (unapplied l) (log_all (stop_calls gm m l) (w_io w)) w0).
Proof.
  intros [HI Hr] Hp Hn. destruct (inv_leases _ _ _ HI p l Hp) as [Hmag _ (m & Hm & [b Hb]) _ _].
  destruct (inv_mutexes _ _ _ HI m b Hb) as [-> _]. rewrite bool_decide_false in Hb by apply not_elem_of_empty.
  destruct (remove_run w p HI) as (gm & t & _ & _ & Hrun & _); [by exists l|].
  set (s1 := log_all [c_mutex_lock gm; c_mutex_unlock gm] (w_io w)) in *.
  set (w0 := set_g_leases (Some (dmlist_remove t (compare_pointer p))) (set_w_io s1 w)) in *.
  exists gm, m, w0. split; [done|]. split; [done|].
  unfold dmdhcp_stop_with. rewrite <- (put_id p l w) at 1 by done. eapply handle_goes; [done|done|]. rewrite put_id by done.
  eapply alone_goes; [done|rewrite alone_remove; exact Hrun|]. cbv beta iota.
  assert (Hw0 : w0 = put p l s1 w0) by (symmetry; by apply (put_id p l w0)). rewrite Hw0 at 1.
  eapply acq_goes; [done|done|done|]. eapply load_goes; [done|]. cbv beta.
  assert (Hrel : rtc pool_step
    (<[n := rel (lease_mutex p);; destroy p]> ts, put p (unapplied l) (log_all (unapply_calls l) (grab m s1)) w0)
    (<[n := destroy p]> ts, put p (unapplied l) (log_all (stop_calls gm m l) (w_io w)) w0)).
  { eapply (rel_goes _ _ _ _ m); [done| |exact (mutexes_grab m s1)|].
    - unfold unapplied. by case_match.
    - rewrite release_grab by done. subst s1. rewrite log_all_app. apply rtc_refl. }
  pose proof (load_then_unapply p l (grab m s1) w0) as Hun. rewrite load_put in Hun.
  destruct (iface_configured l).
  - eapply lift_goes; [done|exact Hun|exact Hrel].
  - assert (Heq : ∀ w1 w2 : world, Some (tt, w1) = Some (tt, w2) → w1 = w2) by congruence.
    apply Heq in Hun. rewrite Hun. exact Hrel.
Qed.
End Stages.

(** ** The race of [dmdhcp_stop] with a datagram *)
Section Race.
Context `{E : Env} {EO : EnvOk E} `{D : DmList} {DL : DmListLaws D} `{P : !App}.

(** The receiver has found the lease, and has not locked it yet. *)
Lemma datagram_finds i payload ts n w p l msg t :
  idle w → bytes_ok payload → reply_of payload = Some msg → type_of payload = Some t →
  heap w !! p = Some l → iface l = i → xid l = msg_xid msg → (n < length ts)%nat →
  ∃ cs, rtc pool_step (<[n := dmdhcp_handle_datagram_t i payload]> ts, w)
    (<[n := dispatch_message_t p msg (drop 240 payload) t]> ts, logged cs w).
Proof.
  intros [HI Hr] Hok Hm Ht Hp Hi Hx Hn.
  destruct (find_by_xid_run w i (msg_xid msg) HI) as (gm & r & Hg & Hw & Hrun).
  assert (r = Some p) as ->.
  { destruct r as [q|]; simpl in Hw; [|by destruct (Hw p l Hp)]. destruct Hw as (lq & Hq & Hiq & _).
    f_equal. by apply (inv_ifaces _ _ _ HI q lq p l); try apply not_elem_of_empty; congruence. }
  exists [c_mutex_lock gm; c_mutex_unlock gm]. unfold reply_of in Hm. unfold type_of in Ht.
  destruct (parse_cases payload msg_uninit 0 Hok) as [(rc & Hrc & Hpa)|(m & Hl & _ & _ & Hpa)]; rewrite Hpa in Hm.
  { by rewrite (proj2 (Z.eqb_neq rc 0) Hrc) in Hm. }
  cbn [andb Z.eqb] in Hm. destruct (op m =? dmdhcp_op_bootreply) eqn:Hop; [|done]. injection Hm as ->.
  pose proof (option_found_spec (drop 240 payload) DMDHCP_OPT_MSG_TYPE (Forall_drop _ _ _ Hok)) as Hf.
  destruct (option_found (drop 240 payload) DMDHCP_OPT_MSG_TYPE) as [[|t' [|]]|]; simplify_eq.
  destruct Hf as (after & Hf & _). unfold dmdhcp_handle_datagram_t. rewrite Hpa.
  eapply lift_goes; [done|reflexivity|]. cbv beta iota. cbn [negb Z.eqb].
  eapply lift_goes; [done|reflexivity|]. cbv beta.
  eapply lift_goes; [done|reflexivity|]. cbv beta. rewrite Hop. cbn [negb].
  eapply alone_goes; [done|rewrite alone_find_by_xid; exact Hrun|]. cbv beta iota zeta. rewrite Hf.
  eapply lift_goes; [done|reflexivity|]. cbv beta iota.
  eapply lift_goes; [done|reflexivity|]. cbv beta. cbn [negb orb Z.eqb].
  change (negb (Z.of_nat (length [t]) =? 1)) with false. cbv iota.
  eapply lift_goes; [done|reflexivity|]. apply rtc_refl.
Qed.

(** C10: a lease must not be ended while a datagram for it may arrive.  When a
    reply for a live lease and [dmdhcp_stop] of that lease come at once, a
    schedule lets the receiver find the lease in the table, then
    [dmdhcp_stop] unlink, lock, unlock and free it, and leaves the receiver
    about to lock a mutex through a dangling pointer. *)
Theorem stop_races_datagram i payload w p l msg t :
  idle w → bytes_ok payload → reply_of payload = Some msg → type_of payload = Some t →
  heap w !! p = Some l → iface l = i → xid l = msg_xid msg →
  ∃ t' w', rtc pool_step (threads_of [ev_datagram i payload; ev_stop (Some p)], w) ([t'; mret tt], w') ∧
    heap w' !! p = None ∧ thread_step t' w' = fault.
Proof.
  intros Hw Hok Hm Ht Hp Hi Hx. pose proof Hw as [HI Hr].
  destruct (datagram_finds i payload (threads_of [ev_datagram i payload; ev_stop (Some p)]) 0 w p l msg t)
    as (cs & Hrun); try done; [simpl; lia|]. set (w1 := logged cs w) in *.
  destruct (inv_leases _ _ _ HI p l Hp) as [_ _ (m & Hm' & _) _ _].
  assert (HI1 : Inv ∅ ∅ w1) by (by apply Inv_log).
  destruct (stop_run w1 p l m HI1 Hp Hm') as (gm & tb & _ & _ & Hstop & _); [intros tm _; simpl; by rewrite Hr|].
  set (w2 := torn_down _ _ _ _ _ _) in Hstop.
  assert (Hgone : heap w2 !! p = None) by apply lookup_delete_eq. clearbody w2.
  assert (Hstops : alone (dmdhcp_stop_t (Some p)) w1 = Some (tt, w2)) by (rewrite alone_stop; exact Hstop).
  exists (dispatch_message_t p msg (drop 240 payload) t), w2.
  assert (Hfault : thread_step (dispatch_message_t p msg (drop 240 payload) t) w2 = fault) by (simpl; by rewrite Hgone).
  split; [|done]. revert Hrun Hfault. generalize (dispatch_message_t p msg (drop 240 payload) t). intros d Hrun _.
  etransitivity; [exact Hrun|]. clear Hrun.
  assert (Heq : <[0%nat := d]> (threads_of [ev_datagram i payload; ev_stop (Some p)])
    = <[1%nat := dmdhcp_stop_t (Some p)]> [d; mret tt]) by done.
  rewrite Heq. exact (alone_ends (dmdhcp_stop_t (Some p)) [d; mret tt] 1 w1 w2 ltac:(simpl; lia) Hstops).
Qed.
End Race.

(** ** The race of [dmdhcp_stop] with the timers of the lease *)
Section Timers.
Context `{E : Env} {EO : EnvOk E} `{D : DmList} {DL : DmListLaws D} `{P : !App}.

Lemma unapplied_kept l :
  state (unapplied l) = state l ∧ lock (unapplied l) = lock l ∧ magic (unapplied l) = magic l ∧
  retransmit_timer (unapplied l) = retransmit_timer l ∧ lease_timer (unapplied l) = lease_timer l ∧
  callbacks (unapplied l) = callbacks l.
Proof. unfold unapplied. by case_match. Qed.

(** Stopping a timer and destroying it, when no callback of it runs *)
Lemma close_timer_goes t s l p w0 (k : unit → prog unit) ts i c :
  (i < length ts)%nat → t ∈ timers s → running s ≠ Some t →
  rtc pool_step (<[i := k tt]> ts, put p l (close_timer (Some t) s) w0) c →
  rtc pool_step (<[i := close_timer_t (Some t) false ≫= k]> ts, put p l s w0) c.
Proof.
  intros Hi Ht Hr Hc. apply (alone_goes (close_timer_t (Some t) false) k ts i _ tt (put p l (close_timer (Some t) s) w0));
    [done| |done].
  rewrite (alone_close_timer (Some t) false), <- bind_ret_r. rewrite when_some_timer; [done|].
  by intros t' [= <-].
Qed.

(** [dmdhcp_stop] until it has destroyed the retransmit timer *)
Lemma stop_closes_timer ts n w p l rt :
  idle w → heap w !! p = Some l → retransmit_timer l = Some rt → rt ∈ timers (w_io w) → (n < length ts)%nat →
  ∃ gm m w0 b', lock l = Some m ∧ mutexes (w_io w) !! m = Some false ∧
    rtc pool_step (<[n := dmdhcp_stop_cut (Some p)]> ts, w)
      (<[n := b']> ts, put p (set_magic 0 (unapplied l))
        (close_timer (Some rt) (log_all (stop_calls gm m l) (w_io w))) w0).
Proof.
  intros Hw Hp Hrt Hin Hn. destruct (unapplied_kept l) as (_ & _ & _ & Hrt' & _).
  destruct (stop_goes (λ p, destroy_with_context_t p dmdhcp_teardown_context_normal) ts n w p l Hw Hp Hn)
    as (gm & m & w0 & Hm & Hfree & Hstop).
  exists gm, m, w0. eexists. split; [done|]. split; [done|]. etransitivity; [exact Hstop|].
  refine (op_goes p _ _ _ tt (set_magic 0 (unapplied l)) _ _ _ ts n _ Hn eq_refl _).
  refine (load_goes p _ _ _ _ ts n _ Hn _). cbv beta.
  change (retransmit_timer (set_magic 0 (unapplied l))) with (retransmit_timer (unapplied l)). rewrite Hrt', Hrt.
  refine (close_timer_goes rt _ _ p _ _ ts n _ Hn _ _ _); [done|simpl; by rewrite (proj2 Hw)|]. apply rtc_refl.
Qed.

(** C11: [dmdhcp_stop] does not wait for the lease timer before it destroys
    what its callback uses.  When T1 or T2 of a lease fires while
    [dmdhcp_stop] ends it, a schedule lets the callback see the lease alive,
    then [dmdhcp_stop] unlink and unapply the lease, release its mutex and
    destroy its retransmit timer - the lease timer, whose destruction would
    wait for the callback, comes second -; the callback then takes the mutex of
    the lease, which is not freed yet, and is about to start the next phase by
    arming the timer that no longer exists. *)
Theorem stop_races_lease_timer w p l :
  idle w → heap w !! p = Some l → state l = dmdhcp_state_bound ∨ state l = dmdhcp_state_renewing →
  ∃ t' b' w' l' rt lt,
    rtc pool_step ([thread_of (ev_lease_timer p); dmdhcp_stop_cut (Some p)], w) ([t'; b'], w') ∧
    heap w' !! p = Some l' ∧ retransmit_timer l' = Some rt ∧ lease_timer l' = Some lt ∧
    (rt ∉ timers (w_io w')) ∧ lt ∈ timers (w_io w') ∧ thread_step t' w' = fault.
Proof.
  intros Hw Hp Hs. destruct (inv_leases _ _ _ (proj1 Hw) p l Hp) as [Hmag Hty _ Htl Hd].
  pose proof Htl as [(rt & Hrt & Hrin) (lt & Hlt & Hlin)].
  destruct (unapplied_kept l) as (Hs' & Hl' & _ & Hrt' & Hlt' & _).
  set (l1 := set_magic 0 (unapplied l)).
  assert (Hl1 : lease_typed l1) by (destruct (unapplied_typed l Hty); by split).
  assert (Hrt1 : retransmit_timer l1 = Some rt) by (by rewrite <- Hrt, <- Hrt').
  cbn [thread_of]. unfold lease_timer_callback_t.
  match goal with |- context [lift (bad_handle (Some p)) ≫= ?f] => set (k := f) end.
  set (A := k false). set (B := dmdhcp_stop_cut (Some p)).
  assert (Hstart : rtc pool_step ([lift (bad_handle (Some p)) ≫= k; B], w) ([A; B], w)).
  { rewrite <- (put_id p l w) by done. refine (handle_goes p l (w_io w) w k [A; B] 0 _ _ _ _);
      [simpl; lia|done|apply rtc_refl]. }
  destruct (stop_closes_timer [A; B] 1 w p l rt) as (gm & m & w0 & b' & Hm & Hfree & Hstop); [done..|simpl; lia|].
  fold l1 B in Hstop. set (s2 := close_timer _ _) in Hstop.
  do 2 eexists. exists (put p l1 (grab m s2) w0), l1, rt, lt. split.
  { etransitivity; [exact Hstart|]. etransitivity; [exact Hstop|].
    refine (acq_goes p l1 _ w0 m _ [A; b'] 0 _ _ _ _ _); [simpl; lia|by rewrite <- Hm|done|].
    refine (load_goes p l1 _ _ _ [A; b'] 0 _ _ _); [simpl; lia|]. apply rtc_refl. }
  assert (Hdead : rt ∉ timers s2).
  { unfold s2. rewrite timers_close_timer. simpl. rewrite elem_of_difference, elem_of_singleton. tauto. }
  split; [apply heap_put|]. split; [done|]. split; [by rewrite <- Hlt, <- Hlt'|]. split; [exact Hdead|]. split.
  { change (lt ∈ timers s2). unfold s2. rewrite timers_close_timer. simpl.
    rewrite elem_of_difference, elem_of_singleton. split; [done|congruence]. }
  cbv beta. change (state l1) with (state (unapplied l)). rewrite Hs'.
  destruct Hs as [-> | ->]; apply op_faults;
    [apply (start_renew_dead _ _ rt)|apply (start_rebind_dead _ _ rt)]; done.
Qed.

(** *** The probe of an ACK

    The exact run of the callback on a live lease, in the table or not, when
    nobody answers and the application is not to be told *)
Lemma quiet_probe_run `{C : !Client} p l s w0 m lt :
  lease_typed l → magic l = DMDHCP_LEASE_MAGIC → lock l = Some m → mutexes s !! m = Some false →
  lease_timer l = Some lt → lt ∈ timers s → state l = dmdhcp_state_checking_ack →
  on_bound (callbacks l) = None →
  let h := trace (grab m s) ++ [probe_call l] in
  (answer (trace (grab m s)) (probe_call l) : Z) ≠ 0 →
  retransmit_timer_callback (Some p) (put p l s w0) =
  Some (tt, put p (bound_as h l)
    (log_all (section_calls m ([probe_call l] ++ binding_calls h l lt) ++ section_calls m []) s) w0).
Proof.
  intros Hl Hmag Hm Hfree Hlt Hin Hs Hcb h Hr.
  destruct (bound_as_owned h l) as ([[] _] & Hcb' & _).
  unfold retransmit_timer_callback. rewrite handle_put by done. cbv iota.
  erewrite lock_put by done. rewrite load_put, Hs. unfold run_conflict_probe.
  rewrite w_assoc, load_put, w_assoc.
  erewrite wio_put by exact (ext_run (probe_call l) _). rewrite (proj2 (Z.eqb_neq _ 0) Hr).
  rewrite w_assoc, load_put, Hs. decide_states.
  transitivity ((with_lease p dmdhcp_lifecycle_apply;;
      with_lease p (setl (set_state dmdhcp_state_bound));;
      with_lease p (setl (set_decline_retry_count 0));;
      with_lease p dmdhcp_lifecycle_arm_t1;;
      l ← load p;
      unlock_lease p;;
      invoke (on_bound (callbacks l)) (λ f, c_on_bound f p false (user_data l));;
      lock_lease p;;
      unlock_lease p) (put p l (log_all [probe_call l] (grab m s)) w0)).
  { repeat (rewrite w_assoc; apply w_ext; intros ? ?). done. }
  rewrite (binding_run _ _ _ _ lt) by done. change (trace (log_all _ _)) with h.
  rewrite load_put, log_all_app.
  assert (Hlk : lock (bound_as h l) = Some m) by congruence.
  erewrite unlock_put by (done || exact (mutexes_grab m s)).
  rewrite Hcb', Hcb, release_grab by done. cbn [invoke]. rewrite w_ret_bind.
  erewrite lock_put by done.
  erewrite unlock_put_last by (done || exact (mutexes_grab m _)).
  rewrite <- (log_all_nil (grab m _)), release_grab by done. by rewrite log_all_app.
Qed.

(** What takes an address or a route off an interface *)
Definition unconfigures (c : call) : Prop :=
  match c with c_set_ip_address _ _ | c_route_remove _ => True | _ => False end.

Lemma apply_calls_unapplied h l : apply_calls h (unapplied l) = apply_calls h l.
Proof. unfold unapplied. by case_match. Qed.

Lemma probe_unapplied l : probe_call (unapplied l) = probe_call l.
Proof. unfold unapplied. by case_match. Qed.

Lemma quiet_apply h l : clean_network (iface l) → apply_made h l = apply_calls h l.
Proof.
  intros (_ & Hn & Ha). unfold apply_made, netmask_rc, address_rc. by rewrite Hn, Ha.
Qed.

(** What a probe that was waiting for the mutex does to a lease that is out of
    the table: it applies it, and the destruction that follows leaves that. *)
Lemma late_probe p l s w0 m rt lt :
  lease_typed l → magic l = DMDHCP_LEASE_MAGIC → lock l = Some m → mutexes s !! m = Some false →
  retransmit_timer l = Some rt → lease_timer l = Some lt → rt ≠ lt →
  rt ∈ timers s → lt ∈ timers s → running s = None →
  state l = dmdhcp_state_checking_ack → clean_network (iface l) → on_bound (callbacks l) = None →
  ∃ l' s' before rest,
    retransmit_timer_callback (C := app_client P) (Some p) (put p l s w0) = Some (tt, put p l' s' w0) ∧
    dmdhcp_lease_table_destroy (Some p) (put p l' s' w0) = Some (tt, gone p (freed l' s') w0) ∧
    trace (freed l' s') = before ++ apply_calls before l ++ rest ∧ Forall (λ c, ¬ unconfigures c) rest.
Proof.
  intros Hl Hmag Hm Hfree Hrt Hlt Hd Hrin Hlin Hrun Hs Hnet Hcb.
  pose proof (quiet_probe_run (C := app_client P) p l s w0 m lt Hl Hmag Hm Hfree Hlt Hlin Hs Hcb) as Hprobe.
  cbv zeta in Hprobe. specialize (Hprobe (proj1 Hnet _ _ _)). set (h := trace (grab m s) ++ [probe_call l]) in *.
  pose proof (ls_typed _ _ _ _ (binding_step l (log_all [probe_call l] (grab m s)) lt Hl)) as Hl2.
  change (trace (log_all _ (grab m s))) with h in Hl2. destruct (bound_as_owned h l) as ((Ho & _) & _).
  set (l2 := bound_as h l) in *. set (s2 := log_all _ s) in Hprobe.
  assert (Hrt2 : retransmit_timer l2 = Some rt) by (destruct Ho; congruence).
  assert (Hlt2 : lease_timer l2 = Some lt) by (destruct Ho; congruence).
  assert (Hm2 : lock l2 = Some m) by (destruct Ho; congruence).
  exists l2, s2, h, ([c_timer_set_period lt (t1_period l); c_timer_start lt; c_mutex_unlock m; c_mutex_lock m;
    c_mutex_unlock m] ++ closing_calls m rt lt).
  split; [exact Hprobe|]. split; [|split; [|repeat constructor; by intros []]].
  - assert (Hrun2 : running s2 = None) by exact Hrun. apply destroy_run.
    split; rewrite ?Hrt2, ?Hlt2, ?Hm2, ?Hrun2; intros x [= <-]; 
      [done|split_and!; [done|done|congruence]|done].
  - rewrite (freed_trace l2 s2 m rt lt) by done. unfold s2, binding_calls, section_calls. fold h.
    rewrite quiet_apply by done. generalize (apply_calls h l). intros made. unfold h. simpl.
    rewrite <- !app_assoc. simpl. by rewrite <- !app_assoc.
Qed.

(** C12: [dmdhcp_stop] does not wait for the probe before it unconfigures the
    interface.  When the probe of an acknowledged address is due while
    [dmdhcp_stop] ends the lease, a schedule lets the callback see the lease
    alive, then [dmdhcp_stop] unlink the lease, undo what it applied and release
    its mutex; the callback takes the mutex, probes, and applies the lease;
    [dmdhcp_stop] then frees it.  Nothing undefined happens, both threads
    finish - and the interface is left with the address and the route of a
    lease that no longer exists, which nothing takes off any more. *)
Theorem stop_races_probe w p l :
  idle w → heap w !! p = Some l → state l = dmdhcp_state_checking_ack →
  clean_network (iface l) → on_bound (callbacks l) = None →
  ∃ w' before rest,
    rtc pool_step (threads_of [ev_retransmit_timer p; ev_stop (Some p)], w) ([mret tt; mret tt], w') ∧
    heap w' !! p = None ∧
    trace (w_io w') = before ++ apply_calls before l ++ rest ∧ Forall (λ c, ¬ unconfigures c) rest.
Proof.
  intros Hw Hp Hs Hnet Hcb. destruct (inv_leases _ _ _ (proj1 Hw) p l Hp) as [Hmag Hty _ Htl Hd].
  pose proof Htl as [(rt & Hrt & Hrin) (lt & Hlt & Hlin)].
  destruct (unapplied_kept l) as (Hs' & Hl' & Hmag' & Hrt' & Hlt' & Hcb').
  change (threads_of _) with [retransmit_timer_callback_t (Some p); dmdhcp_stop_t (Some p)].
  pose proof (alone_retransmit_timer_callback (Some p)) as Halone. unfold retransmit_timer_callback_t in *.
  match goal with |- context [lift (bad_handle (Some p)) ≫= ?f] => set (k := f) in * end.
  set (A := k false). set (B := dmdhcp_stop_t (Some p)). set (F := λ q, lift (dmdhcp_lease_table_destroy (Some q))).
  assert (Hstart : rtc pool_step ([lift (bad_handle (Some p)) ≫= k; B], w) ([A; B], w)).
  { rewrite <- (put_id p l w) by done. refine (handle_goes p l (w_io w) w k [A; B] 0 _ _ _ _);
      [simpl; lia|done|apply rtc_refl]. }
  destruct (stop_goes F [A; B] 1 w p l Hw Hp ltac:(simpl; lia)) as (gm & m & w0 & Hm & Hfree & Hstop).
  destruct (late_probe p (unapplied l) (log_all (stop_calls gm m l) (w_io w)) w0 m rt lt)
    as (l2 & s2 & h & rest & Hprobe & Hfreed & Htr & Hrest); try congruence; try done;
    [by apply (unapplied_typed l Hty)|exact (proj2 Hw)|unfold unapplied; by case_match|].
  assert (Hgo : alone A (put p (unapplied l) (log_all (stop_calls gm m l) (w_io w)) w0) = Some (tt, put p l2 s2 w0)).
  { rewrite <- Hprobe, <- (Halone _). simpl.
    by rewrite (w_bind _ _ _ false _ (bad_handle_put p _ _ _ (eq_trans Hmag' Hmag))). }
  rewrite apply_calls_unapplied in Htr. exists (gone p (freed l2 s2) w0), h, rest.
  split; [|split; [apply lookup_delete_eq|by split]].
  etransitivity; [exact Hstart|]. etransitivity; [exact Hstop|].
  etransitivity; [exact (alone_ends A [A; F p] 0 _ _ ltac:(simpl; lia) Hgo)|].
  refine (alone_ends (F p) [mret tt; F p] 1 _ _ ltac:(simpl; lia) _).
  unfold F. simpl. by rewrite bind_ret_r.
Qed.
End Timers.
