(* ===== verification/Samples.v ===== *)
(** A concrete program: a platform where everything succeeds, a lease taken
    through DISCOVER, OFFER, REQUEST and ACK with real datagrams, and the
    theorems applied to it. *)
From S2P Require Import Prelude Types Wire Options Platform Lease Output Lifecycle World Invariant LeaseTable TableFacts Queries Timers Input Api Handlers Machine System Events Contracts Specification Refinement Simulation Scenarios.

#[local] Existing Instance quiet_env.
#[local] Existing Instance list_dmlist.
#[local] Existing Instance silent_client.

(** ** The worlds *)
Definition boot : io := Io [] ∅ ∅ None 0 0 1.

Definition fresh_world : world := init_world boot.

Definition sample_callbacks : dmdhcp_callbacks_t := Callbacks (Some 1) (Some 2) (Some 3).

(** A BOOTREPLY of type [t] for transaction [x]: 192.168.1.50/24, router and
    server 192.168.1.1, one hour, two DNS servers, one NTP server *)
Definition reply (t x : Z) : list Z :=
  message_bytes (Message 2 1 6 0 x 0 0 addr_none (Addr dmroute_family_v4 [192; 168; 1; 50])
    addr_none addr_none (replicate 16 0))
  ++ [53; 1; t; 1; 4; 255; 255; 255; 0; 3; 4; 192; 168; 1; 1; 54; 4; 192; 168; 1; 1;
      51; 4; 0; 0; 14; 16; 6; 8; 8; 8; 8; 8; 1; 1; 1; 1; 42; 4; 10; 0; 0; 9; 255].

Definition started_world : world :=
  default fresh_world (run_checked [ev_start 5 (Some sample_callbacks) 9 None] fresh_world).

(** The lease [dmdhcp_start] returned, and its transaction *)
Definition the_lease : ptr := 2%positive.
Definition lease_in (w : world) : lease := default lease_zero (heap w !! the_lease).
Definition the_xid : Z := xid (lease_in started_world).

Definition offer_events : list event := [ev_datagram 5 (reply 2 the_xid); ev_retransmit_timer the_lease].
Definition ack_events : list event := [ev_datagram 5 (reply 5 the_xid); ev_retransmit_timer the_lease].

Definition requesting_world : world := default started_world (run_checked offer_events started_world).
Definition bound_world : world := default requesting_world (run_checked ack_events requesting_world).

Lemma fresh_loaded : loaded fresh_world.
Proof. apply (loaded_init boot); [by split|]. reflexivity. Qed.

Lemma started_loaded : loaded started_world.
Proof. apply loaded_run, fresh_loaded. Qed.

Lemma requesting_loaded : loaded requesting_world.
Proof. apply loaded_run, started_loaded. Qed.

Lemma bound_loaded : loaded bound_world.
Proof. apply loaded_run, requesting_loaded. Qed.

Lemma started_lease : heap started_world !! the_lease = Some (lease_in started_world).
Proof. vm_compute. reflexivity. Qed.

Lemma bound_lease : heap bound_world !! the_lease = Some (lease_in bound_world).
Proof. vm_compute. reflexivity. Qed.

Lemma bound_state : state (lease_in bound_world) = dmdhcp_state_bound.
Proof. vm_compute. reflexivity. Qed.

Lemma requesting_lease : heap requesting_world !! the_lease = Some (lease_in requesting_world).
Proof. vm_compute. reflexivity. Qed.

Lemma fresh_idle : idle fresh_world.
Proof. apply loaded_idle, fresh_loaded. Qed.

Lemma bound_live : lease_live (w_io bound_world) (lease_in bound_world).
Proof. apply (inv_leases _ _ _ (proj1 (loaded_idle _ bound_loaded)) the_lease), bound_lease. Qed.

Lemma bound_typed : lease_typed (lease_in bound_world).
Proof. apply bound_live. Qed.

Lemma bound_timers : retransmit_timer (lease_in bound_world) = Some 4%positive ∧
  4%positive ∈ timers (w_io bound_world).
Proof. split; vm_compute; reflexivity. Qed.

Lemma bound_rcs :
  netmask_rc (trace (w_io bound_world)) (lease_in bound_world) = 0 ∧
  address_rc (trace (w_io bound_world)) (lease_in bound_world) = 0.
Proof. split; vm_compute; reflexivity. Qed.

Definition the_table : dmlist ptr := default (dmlist_empty ptr) (g_leases bound_world).

Lemma bound_table : g_leases bound_world = Some the_table ∧ g_leases_mutex bound_world = Some 1%positive.
Proof. split; vm_compute; reflexivity. Qed.

Lemma bound_inv : Inv ∅ ∅ bound_world.
Proof. apply (loaded_idle _ bound_loaded). Qed.

#[local] Opaque started_world requesting_world bound_world.

(** ** Witnesses: one lease *)

Lemma messages_rfc2131_witness :
  ∃ rc c payload,
    send_of S_renew (LCtx (lease_in bound_world) (w_io bound_world))
      = Some (rc, LCtx (lease_in bound_world)
          (log_all [c_get_mac_address (iface (lease_in bound_world)); c_malloc DMDHCP_MAX_MESSAGE_LEN; c]
            (w_io bound_world))) ∧
    c = c_udp_send (server_id (lease_in bound_world)) 68 67 payload 1000 ∧
    carried payload DMDHCP_OPT_MSG_TYPE = Some [3] ∧ carried payload DMDHCP_OPT_SERVER_ID = None.
Proof.
  destruct (messages_rfc2131 S_renew (lease_in bound_world) (w_io bound_world) bound_typed)
    as (rc & cs & Hrun & payload & m & -> & _ & _ & _ & _ & _ & _ & _ & Ht & _ & Hs & _).
  exists rc. eexists. exists payload. split; [exact Hrun|]. split; [reflexivity|]. split; [exact Ht|exact Hs].
Defined.

Lemma backoff_doubles_to_64s_witness :
  rearm_backoff (LCtx (lease_in bound_world) (w_io bound_world)) =
    Some (tt, LCtx (set_retransmit_interval_ms 8000 (lease_in bound_world))
      (log_all [c_timer_set_period 4%positive 8000; c_timer_start 4%positive] (w_io bound_world))).
Proof.
  apply (backoff_doubles_to_64s 0 (lease_in bound_world) (w_io bound_world) 4%positive);
    [apply bound_timers..|vm_compute; reflexivity].
Defined.

Lemma apply_configures_witness :
  dmdhcp_lifecycle_apply (LCtx (lease_in bound_world) (w_io bound_world)) =
    Some (0, LCtx (set_iface_configured true (set_default_route (Some 77) (lease_in bound_world)))
      (log_all [c_set_netmask 5 (Addr dmroute_family_v4 [255; 255; 255; 0]);
                c_set_ip_address 5 (Addr dmroute_family_v4 [192; 168; 1; 50]);
                c_set_broadcast 5 (Addr dmroute_family_v4 [192; 168; 1; 255]);
                c_get_name 5;
                c_route_add any_addr any_addr (Addr dmroute_family_v4 [192; 168; 1; 1]) 0 100]
        (w_io bound_world))).
Proof.
  rewrite (proj1 (apply_configures (lease_in bound_world) (w_io bound_world) bound_typed)).
  vm_compute. reflexivity.
Defined.

Lemma unapply_undoes_apply_witness :
  ∃ l1 s1, dmdhcp_lifecycle_apply (LCtx (lease_in bound_world) (w_io bound_world)) = Some (0, LCtx l1 s1) ∧
    ∃ l2 s2, dmdhcp_lifecycle_unapply (LCtx l1 s1) = Some (tt, LCtx l2 s2) ∧ default_route l2 = None.
Proof.
  destruct (unapply_undoes_apply (lease_in bound_world) (w_io bound_world) bound_typed
    (proj1 bound_rcs) (proj2 bound_rcs)) as (l1 & s1 & cs & H1 & H2 & _).
  exists l1, s1. split; [done|]. do 2 eexists. split; [exact H2|done].
Defined.

(** A lease whose route was added as number 12 *)
Definition routed_lease : lease := set_default_route (Some 12) (lease_in bound_world).

Lemma rerouted_typed l r : lease_typed l → lease_typed (set_default_route r l).
Proof. intros []. by split. Qed.

Lemma routed_typed : lease_typed routed_lease.
Proof. apply rerouted_typed, bound_typed. Qed.

Lemma reapply_forgets_route_witness :
  ∃ l1 s1 l2 s2, dmdhcp_lifecycle_apply (LCtx routed_lease (w_io bound_world)) = Some (0, LCtx l1 s1) ∧
    dmdhcp_lifecycle_unapply (LCtx l1 s1) = Some (tt, LCtx l2 s2) ∧
    default_route l2 = None ∧ iface_configured l2 = false ∧
    ∃ cs, trace s2 = trace (w_io bound_world) ++ cs ∧ c_route_remove 12 ∉ cs.
Proof.
  apply (reapply_forgets_route routed_lease (w_io bound_world) 12 routed_typed); vm_compute; congruence.
Defined.

Lemma lease_timer_timeline_witness :
  t1_period (lease_in bound_world) = 1800000 ∧
  t1_period (lease_in bound_world) + t2_period (lease_in bound_world) = 3150000 ∧
  t1_period (lease_in bound_world) + t2_period (lease_in bound_world) + expiry_period (lease_in bound_world)
    = 3600000.
Proof.
  apply (proj1 (lease_timer_timeline (lease_in bound_world) bound_typed)); vm_compute; split; congruence.
Defined.

(** ** Witnesses: what an ACK teaches *)
Definition sample_area : list Z := drop 240 (reply 5 the_xid).

Lemma sample_area_ok : bytes_ok sample_area.
Proof. apply bytes_okb_ok. vm_compute. reflexivity. Qed.

Definition sample_reply : dmdhcp_message_t := default msg_uninit (reply_of (reply 5 the_xid)).

Lemma populate_learns_witness :
  ∃ l' s', populate_lease_from_options sample_reply sample_area
      (LCtx (lease_in started_world) (w_io started_world)) = Some (tt, LCtx l' s') ∧
    offered_ip l' = Addr dmroute_family_v4 [192; 168; 1; 50] ∧
    netmask l' = Addr dmroute_family_v4 [255; 255; 255; 0] ∧
    lease_time_sec l' = 3600 ∧ t2_sec l' = 3150.
Proof.
  assert (Hty : lease_typed (lease_in started_world)).
  { eapply ll_typed, (inv_leases _ _ _ (proj1 (loaded_idle _ started_loaded)) the_lease), started_lease. }
  destruct (populate_learns sample_reply sample_area _ (w_io started_world) Hty sample_area_ok)
    as (l' & s' & Hrun & H1 & H2 & _ & _ & H3 & _ & H4 & _).
  { vm_compute. repeat split; try congruence. repeat constructor; congruence. }
  exists l', s'. rewrite H4, H3, H2, H1. split; [exact Hrun|]. repeat split; vm_compute; reflexivity.
Defined.

(** An ACK of an infinite lease, without options 58 and 59 *)
Lemma default_t2_wraps_witness :
  let l' := learned sample_reply [51; 4; 255; 255; 255; 255; 255] None None (lease_in bound_world) in
  t1_sec l' = 0x7FFFFFFF ∧ t2_sec l' = 0x1FFFFFFF.
Proof.
  apply (default_t2_wraps sample_reply [51; 4; 255; 255; 255; 255; 255] None None (lease_in bound_world));
    [by apply bytes_okb_ok|vm_compute; reflexivity..].
Defined.

(** ** Witnesses: the table *)
Lemma get_ntp_servers_snapshot_witness :
  ∃ cs, dmdhcp_get_ntp_servers (Some [addr_none; addr_none]) 2 bound_world =
    Some ((1, Some [Addr dmroute_family_v4 [10; 0; 0; 9]; addr_none]), logged cs bound_world).
Proof.
  destruct (proj2 (get_ntp_servers_snapshot bound_world the_table [addr_none; addr_none] 2
    bound_inv (proj1 bound_table) (le_n 2))) as [cs [Hcs _]].
  exists cs. rewrite Hcs. vm_compute. reflexivity.
Defined.

Lemma provide_dns_servers_witness :
  dmdhcp_dmdns_provide_servers (Some 4) 11 bound_world
  = Some (tt, logged [c_mutex_lock 1%positive; c_mutex_lock 3%positive;
      c_visit_dns 4 11 (Addr dmroute_family_v4 [8; 8; 8; 8]);
      c_visit_dns 4 11 (Addr dmroute_family_v4 [1; 1; 1; 1]);
      c_mutex_unlock 3%positive; c_mutex_unlock 1%positive] bound_world).
Proof.
  rewrite (proj1 (provide_dns_servers bound_world the_table 1%positive 4 11
    bound_inv (proj1 bound_table) (proj2 bound_table))).
  vm_compute. reflexivity.
Defined.

Lemma provide_ntp_servers_witness :
  dmdhcp_dmntp_provide_servers (Some 4) 11 bound_world
  = Some (tt, logged [c_mutex_lock 1%positive; c_mutex_lock 3%positive; c_visit_ntp 4 11 [10; 0; 0; 9];
      c_mutex_unlock 3%positive; c_mutex_unlock 1%positive] bound_world).
Proof.
  rewrite (proj1 (provide_ntp_servers bound_world the_table 1%positive 4 11
    bound_inv (proj1 bound_table) (proj2 bound_table))).
  vm_compute. reflexivity.
Defined.

(** ** Witnesses: the whole module *)
Lemma module_never_fails_witness :
  ∃ w', run_event (ev_lease_timer the_lease) bound_world = Some (tt, w') ∧ loaded w' ∧ Inv ∅ ∅ w' ∧
    running (w_io w') = None.
Proof.
  apply (module_never_fails (ev_lease_timer the_lease) bound_world bound_loaded).
  exists (lease_in bound_world). apply bound_lease.
Defined.

Lemma unload_frees_everything_witness : ∃ s, dmod_deinit bound_world = Some (0, unloaded s) ∧ empty_io s.
Proof. apply (unload_frees_everything bound_world bound_loaded). Defined.

Lemma init_outcome_witness :
  ∃ w, dmod_init (unloaded boot) = Some (0, w) ∧ heap w = ∅ ∧ lists (w_io w) = 1.
Proof.
  destruct (init_outcome boot) as (w & H1 & H2 & _ & H3 & _); [by split|]. by exists w.
Defined.

