(* ===== verification/SampleRuns.v ===== *)
(** The handlers and the public operations on the concrete program of
    Samples.v: each theorem of Handlers.v, Contracts.v and Scenarios.v applied
    to a world that the program reaches. *)
From S2P Require Import Prelude Types Wire Options Platform Lease Output Lifecycle World Invariant LeaseTable TableFacts Queries Timers Input Api Handlers Machine System Events Contracts Specification Refinement Simulation Scenarios Samples.

#[local] Existing Instance list_dmlist.
#[local] Existing Instance silent_client.

(** ** Worlds *)
Definition after `{E : Env} (es : list event) (w : world) : world := default w (run_checked es w).

Definition owned_by (w : world) (m rt lt : handle) : bool :=
  match heap w !! the_lease with
  | Some l => bool_decide (lock l = Some m) && bool_decide (retransmit_timer l = Some rt)
      && bool_decide (lease_timer l = Some lt)
  | None => false
  end.

Lemma owner_in `{E : Env} {EO : EnvOk E} w m rt lt :
  loaded w → owned_by w m rt lt = true → owner w the_lease (lease_in w) m rt lt.
Proof.
  intros [HI _]%loaded_idle. unfold owned_by, lease_in. destruct (heap w !! the_lease) as [l|] eqn:Hl; [|done].
  intros [[H1%bool_decide_eq_true H2%bool_decide_eq_true]%andb_true_iff H3%bool_decide_eq_true]%andb_true_iff.
  by split.
Qed.

Lemma after_loaded `{E : Env} {EO : EnvOk E} es w : loaded w → loaded (after es w).
Proof. apply loaded_run. Qed.

(** ** A quiet network *)
Section Quiet.
#[local] Existing Instance quiet_env.

Definition offered_world : world := after [ev_datagram 5 (reply 2 the_xid)] started_world.
Definition acked_world : world := after [ev_datagram 5 (reply 5 the_xid)] requesting_world.
Definition renewing_world : world := after [ev_lease_timer the_lease] bound_world.
Definition rebinding_world : world := after [ev_lease_timer the_lease] renewing_world.

Lemma renewing_loaded : loaded renewing_world.
Proof. apply after_loaded, bound_loaded. Qed.

Lemma rebinding_loaded : loaded rebinding_world.
Proof. apply after_loaded, renewing_loaded. Qed.

Lemma started_owner : owner started_world the_lease (lease_in started_world) 3%positive 4%positive 5%positive.
Proof. apply owner_in; [apply started_loaded|vm_compute; reflexivity]. Qed.

Lemma offered_owner : owner offered_world the_lease (lease_in offered_world) 3%positive 4%positive 5%positive.
Proof. apply owner_in; [apply after_loaded, started_loaded|vm_compute; reflexivity]. Qed.

Lemma requesting_owner : owner requesting_world the_lease (lease_in requesting_world) 3%positive 4%positive 5%positive.
Proof. apply owner_in; [apply requesting_loaded|vm_compute; reflexivity]. Qed.

Lemma acked_owner : owner acked_world the_lease (lease_in acked_world) 3%positive 4%positive 5%positive.
Proof. apply owner_in; [apply after_loaded, requesting_loaded|vm_compute; reflexivity]. Qed.

Lemma bound_owner : owner bound_world the_lease (lease_in bound_world) 3%positive 4%positive 5%positive.
Proof. apply owner_in; [apply bound_loaded|vm_compute; reflexivity]. Qed.

Lemma renewing_owner : owner renewing_world the_lease (lease_in renewing_world) 3%positive 4%positive 5%positive.
Proof. apply owner_in; [apply renewing_loaded|vm_compute; reflexivity]. Qed.

Lemma rebinding_owner : owner rebinding_world the_lease (lease_in rebinding_world) 3%positive 4%positive 5%positive.
Proof. apply owner_in; [apply rebinding_loaded|vm_compute; reflexivity]. Qed.

Lemma sample_states :
  (state (lease_in started_world), state (lease_in offered_world), state (lease_in requesting_world),
   state (lease_in acked_world), state (lease_in renewing_world), state (lease_in rebinding_world))
  = (dmdhcp_state_selecting, dmdhcp_state_checking_offer, dmdhcp_state_requesting,
     dmdhcp_state_checking_ack, dmdhcp_state_renewing, dmdhcp_state_rebinding).
Proof. vm_compute. reflexivity. Qed.

Lemma rebinding_callback : on_expired_or_lost (callbacks (lease_in rebinding_world)) = Some 2.
Proof. vm_compute. reflexivity. Qed.

Lemma renewing_callback : on_bound (callbacks (lease_in renewing_world)) = Some 1 ∧
  user_data (lease_in renewing_world) = 9.
Proof. split; vm_compute; reflexivity. Qed.

Lemma silent_invoke fn f c w : fn = Some f → invoke fn c w = Some (tt, logged [c f] w).
Proof. by intros ->. Qed.

Lemma sample_reply_ok : addr_v4_or_none (yiaddr sample_reply).
Proof. vm_compute. repeat split; try congruence. repeat constructor; congruence. Qed.

#[local] Opaque started_world offered_world requesting_world acked_world bound_world renewing_world
  rebinding_world.

(** ** Witnesses: datagrams *)
Lemma reply_hands_to_probe_witness :
  ∃ w', dispatch_message the_lease sample_reply sample_area 2 started_world = Some (tt, w') ∧
    ∃ l, heap w' !! the_lease = Some l ∧ state l = dmdhcp_state_checking_offer.
Proof.
  destruct (reply_hands_to_probe _ _ _ _ _ _ sample_reply sample_area 2 dmdhcp_state_checking_offer
    started_owner sample_area_ok) as (dns & ntp & cs & _ & _ & _ & Hrun); [vm_compute; reflexivity|].
  eexists. split; [exact Hrun|]. eexists. split; [apply heap_put|reflexivity].
Defined.

Lemma renewal_rebinds_witness :
  ∃ w1 l1, dispatch_message the_lease sample_reply sample_area 5 renewing_world
      = invoke (Some 1) (λ f, c_on_bound f the_lease true 9) w1 ∧
    owner w1 the_lease l1 3%positive 4%positive 5%positive ∧ state l1 = dmdhcp_state_bound.
Proof.
  destruct (renewal_rebinds _ _ _ _ _ _ sample_reply sample_area renewing_owner sample_area_ok sample_reply_ok)
    as (dns & ntp & cs & _ & _ & _ & Hrun & Ho); [left; vm_compute; reflexivity|].
  do 2 eexists. split; [|split; [exact Ho|reflexivity]].
  rewrite <- (proj1 renewing_callback), <- (proj2 renewing_callback). exact Hrun.
Defined.

Lemma lost_lease_restarts_witness :
  ∃ w3, lease_timer_callback (Some the_lease) rebinding_world = Some (tt, w3) ∧
    ∃ l, heap w3 !! the_lease = Some l ∧ state l = dmdhcp_state_selecting.
Proof.
  destruct (lost_lease_restarts _ _ _ _ _ _ sample_reply sample_area rebinding_owner) as [Ho Hrun].
  set (w1 := sectioned _ _ _ _ _ _) in *.
  destruct (Hrun (given_up (lease_in rebinding_world)) _ (silent_invoke _ 2 _ w1 rebinding_callback)) as [_ Ht].
  - exact (owner_logged _ _ _ _ _ _ _ Ho).
  - eexists. split; [apply Ht; vm_compute; reflexivity|]. eexists. split; [apply heap_put|reflexivity].
Defined.

Lemma datagram_routing_witness :
  dmdhcp_handle_datagram 5 [] bound_world = Some (tt, bound_world).
Proof.
  destruct (datagram_routing 5 [] bound_world 1%positive bound_inv (proj2 bound_table)) as [H _]; [constructor|].
  apply H. vm_compute. reflexivity.
Defined.

(** ** Witnesses: timers *)
Lemma discovery_restarts_witness :
  ∃ w', dispatch_message the_lease sample_reply sample_area 6 requesting_world = Some (tt, w') ∧
    ∃ l, heap w' !! the_lease = Some l ∧ state l = dmdhcp_state_selecting ∧ offered_ip l = addr_none.
Proof.
  destruct (discovery_restarts _ _ _ _ _ _ sample_reply sample_area requesting_owner) as [H _].
  eexists. split; [apply H; left; vm_compute; reflexivity|].
  eexists. split; [apply heap_put|split; reflexivity].
Defined.

Lemma retransmission_witness :
  ∃ w', retransmit_timer_callback (Some the_lease) started_world = Some (tt, w') ∧
    ∃ l, heap w' !! the_lease = Some l ∧ state l = dmdhcp_state_selecting ∧ retransmit_interval_ms l = 8000.
Proof.
  eexists. split; [apply (retransmission _ _ _ _ _ _ S_discover started_owner); vm_compute; [reflexivity|congruence]|].
  eexists. split; [apply heap_put|]. split; vm_compute; reflexivity.
Defined.

Lemma clean_offer_requested_witness :
  ∃ w', retransmit_timer_callback (Some the_lease) offered_world = Some (tt, w') ∧
    ∃ l, heap w' !! the_lease = Some l ∧ state l = dmdhcp_state_requesting.
Proof.
  eexists. split; [apply (clean_offer_requested _ _ _ _ _ _ offered_owner); vm_compute; congruence|].
  eexists. split; [apply heap_put|reflexivity].
Defined.

Lemma clean_ack_bound_witness :
  ∃ w1 l1, owner w1 the_lease l1 3%positive 4%positive 5%positive ∧ state l1 = dmdhcp_state_bound.
Proof.
  destruct (clean_ack_bound _ _ _ _ _ _ acked_owner) as [Ho _]; [vm_compute; congruence..|].
  do 2 eexists. split; [exact Ho|reflexivity].
Defined.

Lemma deadlines_witness :
  ∃ w', dmdhcp_renew (Some the_lease) bound_world = Some (0, w') ∧
    ∃ l, heap w' !! the_lease = Some l ∧ state l = dmdhcp_state_renewing.
Proof.
  destruct (deadlines _ _ _ _ _ _ bound_owner) as [H _].
  eexists. split; [apply H; vm_compute; reflexivity|]. eexists. split; [apply heap_put|reflexivity].
Defined.

(** ** Witnesses: the public operations *)
Lemma bad_handles_refused_witness : dmdhcp_renew None bound_world = Some (- EINVAL, bound_world).
Proof. apply (bad_handles_refused None bound_world I). Defined.

Lemma accessors_report_witness :
  dmdhcp_get_state (Some the_lease) bound_world
  = Some (dmdhcp_state_bound, logged [c_mutex_lock 3%positive; c_mutex_unlock 3%positive] bound_world).
Proof.
  destruct (accessors_report _ _ _ _ _ _ bound_owner) as [H _]. rewrite H. rewrite bound_state. reflexivity.
Defined.

Lemma ending_a_lease_witness :
  ∃ w', dmdhcp_stop (Some the_lease) bound_world = Some (tt, w') ∧ heap w' !! the_lease = None.
Proof.
  destruct (ending_a_lease _ _ _ _ _ _ 1%positive bound_owner) as [(w' & Hrun & _ & Hh & _) _];
    [vm_compute; reflexivity|apply bound_table|].
  exists w'. split; [exact Hrun|]. rewrite Hh. apply lookup_delete_eq.
Defined.

Lemma sample_grants h h' : granted h h'.
Proof. intros k c _ _. destruct c; simpl; eauto. Qed.

Lemma bound_ifaces q lq : heap bound_world !! q = Some lq → iface lq ≠ 7.
Proof.
  intros Hq. assert (Hall : map_Forall (λ _ l, iface l ≠ 7) (heap bound_world)).
  { apply (bool_decide_eq_true_1 _). vm_compute. reflexivity. }
  exact (Hall q lq Hq).
Qed.

Lemma start_outcome_witness :
  ∃ p w', dmdhcp_start 7 None 0 None bound_world = Some (Some p, w') ∧ Inv ∅ ∅ w'.
Proof.
  destruct (start_outcome 7 None 0 None bound_world bound_inv) as (r & w' & Hrun & HI & _ & _ & Hok);
    [vm_compute; reflexivity|exact I|exact I|].
  destruct (Hok ltac:(discriminate) (sample_grants _ _) bound_ifaces) as [p Hr].
  exists p, w'. rewrite <- Hr. split; [exact Hrun|exact HI].
Defined.

Lemma quiet_network : clean_network 5.
Proof. split_and!; by vm_compute. Qed.

Lemma started_iface : iface (lease_in started_world) = 5.
Proof. vm_compute. reflexivity. Qed.

(** The application does nothing when it is told. *)
Lemma silent_heap fn c w w' : invoke fn c w = Some (tt, w') → heap w' = heap w.
Proof. destruct fn as [f|]; simpl; [|by intros [= <-]]. unfold mbind, st_bind. by intros [= <-]. Qed.

Lemma answered_client_binds_witness :
  ∃ w' l', run_events [ev_datagram 5 (reply 2 the_xid); ev_retransmit_timer the_lease;
                       ev_datagram 5 (reply 5 the_xid); ev_retransmit_timer the_lease] started_world
    = Some (tt, w') ∧ heap w' !! the_lease = Some l' ∧ state l' = dmdhcp_state_bound ∧
    offered_ip l' = Addr dmroute_family_v4 [192; 168; 1; 50].
Proof.
  destruct (answered_client_binds started_world the_lease (lease_in started_world)
    (reply 2 the_xid) (default msg_uninit (reply_of (reply 2 the_xid)))
    (reply 5 the_xid) sample_reply started_loaded started_lease)
    as (w1 & l1 & m & w2 & w' & _ & Hp & _ & Hs & Ho & _ & _ & _ & _ & _ & _ & _ & Hcb & Hrun & _ & Hh & _);
    [vm_compute; reflexivity|rewrite started_iface; exact quiet_network|apply bytes_okb_ok; vm_compute; reflexivity
    |vm_compute; reflexivity|vm_compute; reflexivity|vm_compute; reflexivity
    |apply bytes_okb_ok; vm_compute; reflexivity|vm_compute; reflexivity|vm_compute; reflexivity|vm_compute; reflexivity|].
  rewrite started_iface in Hrun. exists w', l1. split; [exact Hrun|].
  split; [rewrite Hh, (silent_heap _ _ _ _ Hcb); exact Hp|]. split; [exact Hs|].
  rewrite Ho. vm_compute. reflexivity.
Defined.
End Quiet.

(** ** An application that stops a lease when it expires *)
Definition stopping_client `{E : Env} : Client := λ c,
  match c with
  | c_on_expired _ p _ => dmdhcp_stop (Some p)
  | _ => mret tt
  end.

Lemma stop_from_callback_undefined_witness :
  run_event (E := quiet_env) (C := stopping_client (E := quiet_env)) (ev_lease_timer the_lease) rebinding_world = None.
Proof.
  apply (stop_from_callback_undefined (E := quiet_env) (C := stopping_client (E := quiet_env)) _ _ _ _ _ _ 2 rebinding_owner);
    [vm_compute; reflexivity..|]. intros w. reflexivity.
Defined.

(** ** A network where the offered address is taken *)
Section Conflict.
#[local] Existing Instance conflict_env.

Definition disputed_world : world :=
  after [ev_datagram 5 (reply 2 the_xid)]
    (after [ev_start 5 (Some sample_callbacks) 9 None] (init_world boot)).

Lemma disputed_owner : owner disputed_world the_lease (lease_in disputed_world) 3%positive 4%positive 5%positive.
Proof.
  apply owner_in; [|vm_compute; reflexivity]. apply after_loaded, after_loaded, (loaded_init boot); [by split|].
  reflexivity.
Qed.

Lemma conflict_declines_witness :
  ∃ w', retransmit_timer_callback (Some the_lease) disputed_world = Some (tt, w') ∧
    ∃ l, heap w' !! the_lease = Some l ∧ state l = dmdhcp_state_declining ∧ decline_retry_count l = 1.
Proof.
  destruct (conflict_declines _ _ _ _ _ _ disputed_owner) as [H _];
    [left; vm_compute; reflexivity|vm_compute; reflexivity|vm_compute; congruence|].
  eexists. split; [apply H; vm_compute; reflexivity|].
  eexists. split; [apply heap_put|]. split; vm_compute; reflexivity.
Defined.
End Conflict.

(** ** An application that calls the library back

    The same conversation with [reentrant_client]: the lease is bound, its
    [on_bound] asks for a renewal, and the program is left renewing. *)
Section Reentrant.
#[local] Existing Instance quiet_env.

Example reentrant_run :
  match run_checked (C := reentrant_client)
          (ev_start 5 (Some sample_callbacks) 9 None :: offer_events ++ ack_events) fresh_world with
  | Some w => (state (lease_in w), lease_time_sec (lease_in w)) = (dmdhcp_state_renewing, 3600)
  | None => False
  end.
Proof. vm_compute. reflexivity. Qed.
(** The address is acknowledged, and the probe due. *)
Definition reentrant_world : world :=
  default fresh_world (run_checked (C := reentrant_client)
    (ev_start 5 (Some sample_callbacks) 9 None :: offer_events ++ [ev_datagram 5 (reply 5 the_xid)]) fresh_world).

Lemma reentrant_loaded : loaded (C := reentrant_client) reentrant_world.
Proof.
  unfold reentrant_world. apply loaded_run. apply (loaded_init boot); [by split|]. reflexivity.
Qed.

Lemma reentrant_lease : is_Some (heap reentrant_world !! the_lease).
Proof. apply (bool_decide_eq_true_1 _). vm_compute. reflexivity. Qed.

#[local] Opaque reentrant_world.

(** The probe is clean: the application is told, and renews at once. *)
Lemma module_implements_state_machine_witness :
  ∃ w', run_event (C := reentrant_client) (ev_retransmit_timer the_lease) reentrant_world = Some (tt, w') ∧
    spec_step (trace (w_io reentrant_world)) (trace (w_io w')) (agents reentrant_world)
      (ev_retransmit_timer the_lease) (agents w') [c_on_bound 1 the_lease false 9] ∧
    a_state <$> agents w' !! the_lease = Some dmdhcp_state_renewing.
Proof.
  destruct (run_event (C := reentrant_client) (ev_retransmit_timer the_lease) reentrant_world) as [[[] w']|] eqn:Hrun;
    [|vm_compute in Hrun; discriminate Hrun].
  destruct (module_implements_state_machine (C := reentrant_client) (ev_retransmit_timer the_lease)
    reentrant_world w' reentrant_loaded reentrant_lease Hrun) as (ns & Hs & Hn).
  assert (Hw : (λ r, (notes (trace (w_io r.2)), a_state <$> agents r.2 !! the_lease)) <$>
      run_event (C := reentrant_client) (ev_retransmit_timer the_lease) reentrant_world
    = Some (notes (trace (w_io reentrant_world)) ++ [c_on_bound 1 the_lease false 9],
            Some dmdhcp_state_renewing)) by (vm_compute; reflexivity).
  rewrite Hrun in Hw. apply (inj Some), pair_equal_spec in Hw as [Hn' Hst]. cbv beta in Hn', Hst. cbn [fst snd] in Hn', Hst.
  rewrite Hn in Hn'. apply app_inv_head in Hn' as ->.
  exists w'. split; [reflexivity|]. split; [exact Hs|exact Hst].
Defined.

Lemma every_lease_is_sane_witness :
  retransmit_count (lease_in reentrant_world) ≤ 4 ∧ decline_retry_count (lease_in reentrant_world) ≤ 4.
Proof.
  destruct reentrant_lease as [l Hl].
  destruct (every_lease_is_sane (C := reentrant_client) reentrant_world the_lease l reentrant_loaded Hl)
    as [_ [_ Hr] [_ Hd] _ _]. unfold lease_in. rewrite Hl. split; [exact Hr|exact Hd].
Defined.
End Reentrant.
