(* ===== verification/ThreadRuns.v ===== *)
(** Pools of threads in the sample conversation: the theorems on interleavings
    applied, and schedules run. *)
From S2P Require Import Prelude Types Wire Options Platform Lease Output Lifecycle World Invariant LeaseTable TableFacts Queries Timers Input Api Handlers Machine System Events Contracts Specification Refinement Simulation Scenarios Threads ThreadOps ThreadLogic ThreadSafety ThreadStart ThreadEnd Pool Interleaving Races Samples SampleRuns.

#[local] Existing Instance list_dmlist.
#[local] Existing Instance silent_client.

Section Threads.
#[local] Existing Instance quiet_env.
#[local] Existing Instance reentrant_app.

(** A second lease, on another interface *)
Definition two_leases : world := after [ev_start 7 None 0 None] requesting_world.

Definition other_lease : ptr := 6%positive.

Example two_leases_have :
  (iface <$> heap two_leases !! the_lease, iface <$> heap two_leases !! other_lease) = (Some 5, Some 7).
Proof. vm_compute. reflexivity. Qed.

Lemma both_live : is_Some (heap two_leases !! the_lease) ∧ is_Some (heap two_leases !! other_lease).
Proof.
  pose proof two_leases_have as Hh. destruct (heap two_leases !! the_lease), (heap two_leases !! other_lease);
    try discriminate Hh. eauto.
Qed.

Lemma two_leases_idle : idle two_leases.
Proof. apply loaded_idle, after_loaded, requesting_loaded. Qed.

#[local] Opaque two_leases requesting_world.

(** The ACK, both timers, a renewal, two racing starts on a third interface, an
    NTP query, and the other lease stopped while its interface is started: one
    statement each in turn *)
Definition busy_events : list event :=
  [ev_datagram 5 (reply 5 the_xid); ev_retransmit_timer the_lease; ev_lease_timer the_lease;
   ev_renew (Some the_lease); ev_start 6 None 0 None; ev_start 6 None 0 None;
   ev_ntp_servers (Some (replicate 4 addr_none)) 4; ev_stop (Some other_lease); ev_start 7 None 0 None].

Definition turns (n : nat) (k : nat) : list nat := concat (replicate k (seq 0 n)).

Definition busy_config : config := run_schedule (turns 9 20) (threads_of busy_events, two_leases).

Lemma busy_enabled : Forall (λ e, enabled e two_leases) busy_events.
Proof.
  destruct both_live as [H1 H2]. unfold busy_events.
  repeat lazymatch goal with
  | |- @Forall event _ (_ :: _) => apply Forall_cons_2; cbn [enabled handle_ok from_option]; try exact H1; try exact H2
  end.
  - by apply bytes_okb_ok.
  - by split.
  - by split.
  - simpl. lia.
  - by split.
  - by apply Forall_nil_2.
Qed.

Lemma busy_undisturbed : undisturbed two_leases busy_events.
Proof.
  intros i j e e' p He He' Hne Hp Hc.
  assert (i = 7%nat ∧ p = other_lease) as [-> ->].
  { do 9 (destruct i as [|i]; [simplify_eq/=; set_solver|]). done. }
  destruct j as [|j].
  { simplify_eq/=. destruct Hc as (l & Hl & Hi). pose proof two_leases_have as Hh. rewrite Hl in Hh. simpl in Hh.
    congruence. }
  do 8 (destruct j as [|j]; [by simplify_eq/=|]). done.
Qed.

Lemma threads_never_fail_witness :
  (∀ t, t ∈ busy_config.1 → thread_step t busy_config.2 ≠ fault) ∧
  (∃ busy off, Inv busy off busy_config.2) ∧
  ∀ p, is_Some (heap two_leases !! p) → p ∉ ends_all busy_events → is_Some (heap busy_config.2 !! p).
Proof.
  apply (threads_never_fail busy_events two_leases busy_config.1 busy_config.2
    two_leases_idle busy_enabled busy_undisturbed).
  rewrite <- surjective_pairing. apply run_schedule_steps.
Defined.

Lemma threads_finish_witness :
  inevitable (λ c, Forall has_finished c.1 ∧ idle c.2 ∧
    (∀ p, p ∈ ends_all busy_events → heap c.2 !! p = None) ∧
    ∀ p, is_Some (heap two_leases !! p) → p ∉ ends_all busy_events → is_Some (heap c.2 !! p))
    (threads_of busy_events, two_leases).
Proof. apply (threads_finish busy_events two_leases two_leases_idle busy_enabled busy_undisturbed). Defined.

(** Run to the end, the two racing starts leave one lease on interface 6, the
    other lease is gone, and the start on its interface has failed or not,
    according to which came first. *)
Example busy_end :
  let c := run_schedule (turns 9 60) (threads_of busy_events, two_leases) in
  forallb has_finished c.1 = true ∧ heap c.2 !! other_lease = None ∧
  length (filter (λ l, iface l = 6) (map_to_list (heap c.2)).*2) = 1%nat.
Proof. split; [|split]; vm_compute; reflexivity. Qed.

Lemma requesting_idle : idle requesting_world.
Proof. apply loaded_idle, requesting_loaded. Qed.

Lemma stop_races_datagram_witness :
  ∃ t' w', rtc pool_step (threads_of [ev_datagram 5 (reply 5 the_xid); ev_stop (Some the_lease)], requesting_world)
    ([t'; mret tt], w') ∧ heap w' !! the_lease = None ∧ thread_step t' w' = fault.
Proof.
  destruct (reply_of (reply 5 the_xid)) as [msg|] eqn:Hm; [|discriminate Hm].
  apply (stop_races_datagram 5 (reply 5 the_xid) requesting_world the_lease (lease_in requesting_world) msg 5).
  - apply requesting_idle.
  - by apply bytes_okb_ok.
  - exact Hm.
  - reflexivity.
  - apply requesting_lease.
  - reflexivity.
  - revert Hm. vm_compute. by intros [= <-].
Defined.
Lemma stop_races_lease_timer_witness :
  ∃ t' b' w' l' rt lt,
    rtc pool_step ([thread_of (ev_lease_timer the_lease); dmdhcp_stop_cut (Some the_lease)], bound_world)
      ([t'; b'], w') ∧
    heap w' !! the_lease = Some l' ∧ retransmit_timer l' = Some rt ∧ lease_timer l' = Some lt ∧
    (rt ∉ timers (w_io w')) ∧ lt ∈ timers (w_io w') ∧ thread_step t' w' = fault.
Proof.
  apply (stop_races_lease_timer bound_world the_lease (lease_in bound_world) (loaded_idle _ bound_loaded) bound_lease).
  left. exact bound_state.
Defined.

(** The address is acknowledged, and the application has withdrawn its
    callbacks. *)
Definition untold_world : world :=
  after [ev_datagram 5 (reply 5 the_xid); ev_set_callbacks (Some the_lease) None 0] requesting_world.

Lemma untold_lease : ∃ l, heap untold_world !! the_lease = Some l ∧ state l = dmdhcp_state_checking_ack ∧
  iface l = 5 ∧ on_bound (callbacks l) = None.
Proof.
  assert (Hw : (λ l, (state l, iface l, on_bound (callbacks l))) <$> heap untold_world !! the_lease
    = Some (dmdhcp_state_checking_ack, 5, None)) by (vm_compute; reflexivity).
  destruct (heap untold_world !! the_lease) as [l|]; [|discriminate Hw]. exists l. by simplify_eq/=.
Qed.

Lemma stop_races_probe_witness :
  ∃ l w' before rest, heap untold_world !! the_lease = Some l ∧
    rtc pool_step (threads_of [ev_retransmit_timer the_lease; ev_stop (Some the_lease)], untold_world)
      ([mret tt; mret tt], w') ∧
    heap w' !! the_lease = None ∧
    trace (w_io w') = before ++ apply_calls before l ++ rest ∧ Forall (λ c, ¬ unconfigures c) rest.
Proof.
  destruct untold_lease as (l & Hp & Hs & Hi & Hcb).
  destruct (stop_races_probe untold_world the_lease l (loaded_idle _ (after_loaded _ _ requesting_loaded)) Hp Hs)
    as (w' & before & rest & Hrun & Hgone & Htr & Hrest); [rewrite Hi; exact quiet_network|exact Hcb|].
  exists l, w', before, rest. split_and!; assumption.
Defined.
End Threads.
